(* ===== verification/_CoqProject ===== *)
-Q . S2P
Prelude.v
CLib.v
Platform.v
Sys.v
DevFile.v
Resources.v
SmbusTypes.v
Commands.v
CmosRw.v
LogicOps.v
IoRw.v
Msr.v
Scom.v
PciRw.v
MmioRw.v
MmioBounds.v
Misc.v
I2cDev.v
SmbusRw.v
SmbusParse.v
SmbusSafe.v
SmbusSpec.v
SmbusHolds.v
Iotools.v
ProgramSpec.v
ProgramSafe.v
