(* ===== verification/Prelude.v ===== *)
(** * iotools: a verification development

    iotools is one binary holding many small commands that give shell scripts
    access to hardware registers: I/O ports, physical memory, PCI configuration
    space, CMOS RAM, CPU MSRs, POWER SCOMs and the SMBus, with some commands
    for arithmetic and for CPUs.  Each source file registers a table of
    commands in a constructor; [main] looks up the command named by the first
    argument, or by the name of the link the binary was started through, checks
    the number of arguments and the I/O privilege, and calls its entry point.

    ** How the program is modelled

    A C function is a Rocq function into [Sys.prog]: a tree of the calls the
    code makes on its environment (system calls, port instructions, loads and
    stores in mappings, output) whose branches are the answers.  The kernel,
    the devices and the C library's streams are not modelled but quantified
    over.  [exec p t o] says that [p] can make the calls [t], with the answers
    [t] records, and end with [o]: the returned value, or a [stop], which is
    undefined behaviour of the C code (a null argument, an access out of
    bounds, an indeterminate value, private data of another type, a shift too
    far), the replacement of the process by [execvp], or the end of a loop
    bound.  Where a theorem relies on documented behaviour of the kernel it
    assumes [relied (safely _) [] t], the contract [Sys.kernel_ok]: new handles
    are fresh, counts do not exceed what was asked for, an SMBus block is no
    longer than the maximum.  [wp] is the weakest precondition with respect to
    such a contract and [wp_exec] its soundness.

    Integers are [Z] with the conversions of the code written out ([wrapu],
    [wraps]); memory seen at several types is a list of bytes in host order.
    [Platform] is what a build fixes: architecture, width of [long], byte order.
    The theorems hold for all of them; the witnesses evaluate on concrete ones.

    ** The files

    - [Prelude]: machine integers, strings, tactics and hints.
    - [CLib]: [strtoul] and its siblings, [atoi], the [printf] and [sscanf]
      conversions, [strrchr], [snprintf], with their round trips.
    - [Platform]: [platform.h], host byte order and unions.
    - [Sys]: actions, traces, executions, [wp], the kernel's contract, resources
      ([live]), and the tactics for symbolic execution.
    - [DevFile]: read and write sessions with a device file, the specification
      the CMOS, MSR, SCOM and PCI commands refine.
    - [Resources]: what the calls of a run acquired and what it still holds.
    - [SmbusTypes]: the data types of [smbus_rw.c] that command tables hold.
    - [Commands]: [commands.h] and [commands.c]: tables, registration, lookup,
      prerequisites, dispatch, links, listing.
    - [CmosRw], [LogicOps], [IoRw], [Msr], [Scom], [PciRw], [MmioRw], [Misc]: the
      source files [cmos_rw.c], [logic.c], [io_rw.c], [msr.c], [scom.c],
      [pci_rw.c], [mmio_rw.c] and [misc.c], one definition per function, named
      as in the source, with the properties of their commands.
    - [MmioBounds]: when a dump stays inside what it mapped, and what it
      releases, for every length.
    - [I2cDev]: the inline functions of [linux-i2c-dev.h].
    - [SmbusRw]: the functions of [smbus_rw.c]; [SmbusParse] what its parsers
      accept; [SmbusSafe] the safety of its commands, proved against the
      interface [SafeOp] of the operations that their tables point to;
      [SmbusSpec] the transaction each command performs; [SmbusHolds] what
      [smbus_writeread] leaves open.
    - [Iotools]: [iotools.c] and the linked tables; [ProgramSpec] the behaviour
      of the program, [ProgramSafe] its safety and the release of resources.

    A static variable that the program sets once is an argument of the model:
    [group_head] of [commands.c] is the list [register_all] builds from the
    groups, in the order their constructors run, and the theorems hold for
    every order.  A [#if] on the architecture is a test of [Platform]; functions
    that a macro generates for each width are one function of the width.

    ** What is shown

    - Whole program ([ProgramSafe], [ProgramSpec]): no invocation uses a handle
      it does not hold, leaves a mapping or an array, or reads a missing
      argument ([main_safe]); exactly which runs leave open what they acquired
      ([main_releases]); the tables are well formed, an invocation runs the command it names and exits
      with its status; [--make-links] creates links that run the commands and
      [--clean-links] removes them; the other options.
    - Each command on a device file or a mapping refines a session: it opens it,
      transfers exactly the value its arguments name at exactly the offset they
      name, in the right byte order, prints what was read, and returns an error
      at the first call that fails.
    - Memory dumps end, and make exactly the accesses that cover the range.
    - SMBus: with valid arguments each command attaches to its slave and
      performs one transaction of its kind; what a block read prints a block
      write accepts.
    - Arithmetic: the folding operations are bitwise, the shifts are modulo
      2^64, [not] is an involution on what it prints, and the bit
      operations are right below bit 31.
    - CPU commands: [busy_loop n] ends after [n] reports, on a clock that is not
      set back and is read at most [k] times in a row within a second; [cpuid]
      and [runon] run on the CPU asked for.
    - SCOM addresses: the bits of the file offset, which tells the addresses of
      59 bits and the indirect bit apart.
    - Round trips: numbers printed and read, PCI addresses listed and opened.

    The theorems about the whole program take arguments as [execve] passes them:
    their number and lengths fit an [int] ([args_fit]), which the code relies
    on where it keeps them in one.  Without that, a block argument of more than
    4 GiB would leave its array ([SmbusParse.parse_block_overruns]).

    ** Loops

    Loops over arguments, tables, strings and buffers are structural.
    [dump_loop] has fuel [bytes + 1], shown to be enough.  Two loops end only when
    the environment says so: the directory loops of [pci_list] and [busy_loop].
    They run for at most [LoopBound] iterations, a parameter all theorems
    quantify over; [pci_list_sysfs_spec] and [busy_loop_ends] say how large a
    bound is enough.

    ** Where the code falls short

    The theorems state what the code does.  Some show errors: a dump leaves its
    mapping when its offset in the page and its length come to 2^32 or more
    ([mmio_dump_bounds]; the safety theorem excludes lengths above 3 GiB, by
    [large_dump]); [bts], [btr], [shl] and [shr] shift too far ([bit_ops_31],
    [shift_spec]) and [cputochipid] may read what [read] did not fill (the
    exceptions [stops_of] lists); a sought [/dev/port], a failed PCI transfer, a
    procfs listing and an [smbus_writeread] with a bad count keep their files
    open ([keeps_open]); [smbus_process_call] prints what it sent instead of the
    answer; a block read of no bytes succeeds, against a comment
    ([smbus_read_refines]); a failed port read through [/dev/port] is not
    reported; the CPU sets of klibc builds are mostly uninitialised
    ([klibc_cpu_set]).

    ** Not modelled

    Locales and buffering of the output streams, and the failure of output.
    The mapping of [errno] values to messages is an answer of the environment.
    [set_cpu_affinity] is modelled with glibc's [CPU_SET]; klibc's replacements
    are modelled by themselves, because their result is mostly indeterminate.
    The Makefile contributes the version number only. *)

From Stdlib Require Export ZArith Lia String Ascii.
From coqutil Require Export Byte Word.LittleEndianList.
From stdpp Require Export base list gmap strings.
Export LittleEndianList.
#[export] Set Default Proof Using "Type".
Local Open Scope Z_scope.

(** ** Machine integers

    A [w]-bit unsigned integer is a [Z] in [0, 2^w); converting to the type is
    [wrapu w].  A [w]-bit two's complement integer is a [Z] in
    [-2^(w-1), 2^(w-1)); converting to it (what gcc does for an out-of-range
    value) is [wraps w]. *)

Definition wrapu (w z : Z) : Z := z mod 2 ^ w.
Definition wraps (w z : Z) : Z := (z + 2 ^ (w - 1)) mod 2 ^ w - 2 ^ (w - 1).

Declare Scope cint_scope.
Delimit Scope cint_scope with cint.
Notation "'u8' z" := (wrapu 8 z) (at level 10, z at level 9) : cint_scope.
Notation "'u16' z" := (wrapu 16 z) (at level 10, z at level 9) : cint_scope.
Notation "'u32' z" := (wrapu 32 z) (at level 10, z at level 9) : cint_scope.
Notation "'u64' z" := (wrapu 64 z) (at level 10, z at level 9) : cint_scope.
Notation "'s32' z" := (wraps 32 z) (at level 10, z at level 9) : cint_scope.
Notation "'s64' z" := (wraps 64 z) (at level 10, z at level 9) : cint_scope.

Create HintDb cint.
Create Rewrite HintDb cstr.

Lemma pow2_pos w : 0 <= w -> 0 < 2 ^ w.
Proof. intros. apply Z.pow_pos_nonneg; lia. Qed.

Lemma div_bounds a b : 0 < b -> a / b * b <= a < (a / b + 1) * b.
Proof. intros. pose proof (Z.mul_div_le a b). pose proof (Z.mul_succ_div_gt a b). lia. Qed.

Lemma wrapu_range w z : 0 <= w -> 0 <= wrapu w z < 2 ^ w.
Proof. intros. apply Z.mod_pos_bound, pow2_pos; lia. Qed.

Lemma wrapu_small w z : 0 <= z < 2 ^ w -> wrapu w z = z.
Proof. apply Z.mod_small. Qed.

Lemma wrapu_idem w z : wrapu w (wrapu w z) = wrapu w z.
Proof. apply Zmod_mod. Qed.

Lemma wrapu_testbit w z i :
  0 <= w -> 0 <= i -> Z.testbit (wrapu w z) i = (i <? w) && Z.testbit z i.
Proof.
  intros Hw Hi. unfold wrapu. rewrite <- Z.land_ones by lia.
  rewrite Z.land_spec, Z.testbit_ones_nonneg by lia.
  destruct (i <? w); destruct (Z.testbit z i); reflexivity.
Qed.

Lemma wrapu_wrapu_le v w z : 0 <= v <= w -> wrapu v (wrapu w z) = wrapu v z.
Proof.
  intros. apply Z.bits_inj'. intros i Hi.
  rewrite !wrapu_testbit by lia.
  destruct (Z.ltb_spec i v); destruct (Z.ltb_spec i w); try lia; reflexivity.
Qed.

Lemma wraps_range w z : 0 < w -> - 2 ^ (w - 1) <= wraps w z < 2 ^ (w - 1).
Proof.
  intros. unfold wraps.
  assert (2 ^ w = 2 * 2 ^ (w - 1)) as -> by (rewrite <- Z.pow_succ_r by lia; f_equal; lia).
  pose proof (pow2_pos (w - 1) ltac:(lia)).
  pose proof (Z.mod_pos_bound (z + 2 ^ (w - 1)) (2 * 2 ^ (w - 1)) ltac:(lia)). lia.
Qed.

Lemma wraps_small w z : 0 < w -> - 2 ^ (w - 1) <= z < 2 ^ (w - 1) -> wraps w z = z.
Proof.
  intros. unfold wraps.
  assert (2 ^ w = 2 * 2 ^ (w - 1)) as -> by (rewrite <- Z.pow_succ_r by lia; f_equal; lia).
  rewrite Z.mod_small by lia. lia.
Qed.

Lemma wrapu_wraps w z : 0 < w -> wrapu w (wraps w z) = wrapu w z.
Proof.
  intros. unfold wrapu, wraps.
  rewrite Zminus_mod_idemp_l. f_equal. lia.
Qed.

Lemma wraps_wrapu w z : 0 < w -> wraps w (wrapu w z) = wraps w z.
Proof. intros. unfold wraps, wrapu. by rewrite Zplus_mod_idemp_l. Qed.

#[export] Hint Resolve pow2_pos wrapu_range wraps_range : cint.

(** [lia] after exposing the constants [2 ^ k] with literal [k]. *)
Ltac pow_lits :=
  repeat match goal with
  | H : context [2 ^ ?k] |- _ =>
      let v := eval vm_compute in (2 ^ k) in
      lazymatch v with Zpos _ => change (2 ^ k) with v in H end
  | |- context [2 ^ ?k] =>
      let v := eval vm_compute in (2 ^ k) in
      lazymatch v with Zpos _ => change (2 ^ k) with v end
  end.
Ltac plia := pow_lits; lia.
Ltac dlia := pow_lits; Z.to_euclidean_division_equations; lia.

(** Case analysis on the boolean comparisons of the goal. *)
Ltac bcases :=
  repeat match goal with
  | |- context [?x <? ?y] => destruct (Z.ltb_spec x y)
  | |- context [?x <=? ?y] => destruct (Z.leb_spec x y)
  | |- context [?x =? ?y] => destruct (Z.eqb_spec x y)
  | |- context [bool_decide ?P] => destruct (bool_decide_reflect P)
  end.

(** Bitwise operations stay within the width. *)
Lemma bounded_testbit w z :
  0 <= w -> 0 <= z -> (forall i, w <= i -> Z.testbit z i = false) -> z < 2 ^ w.
Proof.
  intros Hw Hz Hb. enough (wrapu w z = z) by (pose proof (wrapu_range w z Hw); lia).
  apply Z.bits_inj'. intros i Hi. rewrite wrapu_testbit by lia.
  destruct (Z.ltb_spec i w); [done|]. by rewrite Hb.
Qed.

Lemma testbit_high w z i : 0 <= z < 2 ^ w -> w <= i -> Z.testbit z i = false.
Proof.
  intros Hz Hi. destruct (Z.eq_dec z 0) as [->|]; [apply Z.bits_0|].
  apply Z.bits_above_log2; [lia|]. apply Z.lt_le_trans with w; [|done].
  apply Z.log2_lt_pow2; lia.
Qed.

Lemma lor_range w a b : 0 <= a < 2 ^ w -> 0 <= b < 2 ^ w -> 0 <= w -> 0 <= Z.lor a b < 2 ^ w.
Proof.
  intros Ha Hb Hw. split; [apply Z.lor_nonneg; lia|]. apply bounded_testbit; [done|apply Z.lor_nonneg; lia|].
  intros i Hi. by rewrite Z.lor_spec, (testbit_high w a), (testbit_high w b).
Qed.
Lemma land_range w a b : 0 <= a < 2 ^ w -> 0 <= b -> 0 <= w -> 0 <= Z.land a b < 2 ^ w.
Proof.
  intros Ha Hb Hw. split; [apply Z.land_nonneg; lia|].
  apply bounded_testbit; [done|apply Z.land_nonneg; lia|].
  intros i Hi. by rewrite Z.land_spec, (testbit_high w a).
Qed.
Lemma lxor_range w a b : 0 <= a < 2 ^ w -> 0 <= b < 2 ^ w -> 0 <= w -> 0 <= Z.lxor a b < 2 ^ w.
Proof.
  intros Ha Hb Hw. split; [apply Z.lxor_nonneg; lia|].
  apply bounded_testbit; [done|apply Z.lxor_nonneg; lia|].
  intros i Hi. by rewrite Z.lxor_spec, (testbit_high w a), (testbit_high w b).
Qed.
#[export] Hint Resolve lor_range land_range lxor_range : cint.

(** Setting and clearing the bit just above a number. *)
Lemma lor_pow2_add a n : 0 <= n -> 0 <= a < 2 ^ n -> Z.lor a (2 ^ n) = a + 2 ^ n.
Proof.
  intros Hn Ha. rewrite <- Z.lxor_lor, <- Z.add_nocarry_lxor; [done|..].
  all: apply Z.bits_inj'; intros i Hi; rewrite Z.land_spec, Z.bits_0, Z.pow2_bits_eqb by lia;
    destruct (Z.eqb_spec n i) as [<-|]; [|apply andb_false_r];
    by rewrite (testbit_high n) by lia.
Qed.

Lemma lor_shift_add w a b :
  0 <= w -> 0 <= a < 2 ^ w -> Z.lor a (b * 2 ^ w) = a + b * 2 ^ w.
Proof.
  intros Hw Ha. rewrite <- Z.lxor_lor, <- Z.add_nocarry_lxor; [done|..].
  all: apply Z.bits_inj'; intros i Hi; rewrite Z.land_spec, Z.bits_0;
    destruct (Z.ltb_spec i w);
    [by rewrite Z.mul_pow2_bits_low, andb_false_r by lia|by rewrite (testbit_high w) by lia].
Qed.

Lemma testbit_pow2_add a n : 0 <= n -> 0 <= a < 2 ^ n -> Z.testbit (a + 2 ^ n) n = true.
Proof.
  intros Hn Ha. rewrite <- lor_pow2_add by done.
  by rewrite Z.lor_spec, Z.pow2_bits_true, orb_true_r by lia.
Qed.

(** The bits of a signed conversion; the highest is the sign. *)
Lemma wraps_testbit w z i : 0 <= i < w -> Z.testbit (wraps w z) i = Z.testbit z i.
Proof.
  intros Hi. pose proof (f_equal (fun x => Z.testbit x i) (wrapu_wraps w z ltac:(lia))) as H.
  cbv beta in H. rewrite !wrapu_testbit in H by lia.
  by destruct (Z.ltb_spec i w); [|lia].
Qed.

Lemma wraps_sign w z : 0 < w -> (wraps w z <? 0) = Z.testbit z (w - 1).
Proof.
  intros Hw. rewrite <- (wraps_testbit w z (w - 1)) by lia.
  pose proof (wraps_range w z Hw) as Hr. set (v := wraps w z) in *. clearbody v.
  destruct (Z.ltb_spec v 0) as [Hn|Hn]; symmetry.
  - assert (Z.testbit (wrapu w v) (w - 1) = true) as H.
    + unfold wrapu. assert (2 ^ w = 2 * 2 ^ (w - 1)) as Ew
        by (rewrite <- Z.pow_succ_r by lia; f_equal; lia).
      replace (v mod 2 ^ w) with ((v + 2 ^ (w - 1)) + 2 ^ (w - 1))
        by (apply (Z.mod_unique_pos _ _ (-1)); lia).
      apply testbit_pow2_add; lia.
    + rewrite wrapu_testbit in H by lia. by apply andb_prop in H as [_ H].
  - apply (testbit_high (w - 1)); lia.
Qed.

(** Testing a bit with a mask. *)
Lemma land_pow2_testbit x n :
  0 <= n -> negb (Z.land x (2 ^ n) =? 0) = Z.testbit x n.
Proof.
  intros Hn. destruct (Z.testbit x n) eqn:E.
  - apply negb_true_iff, Z.eqb_neq. intros H.
    assert (Z.testbit (Z.land x (2 ^ n)) n = true) as H1
      by (rewrite Z.land_spec, E, Z.pow2_bits_true by lia; done).
    by rewrite H, Z.bits_0 in H1.
  - apply negb_false_iff, Z.eqb_eq, Z.bits_inj'. intros i Hi.
    rewrite Z.land_spec, Z.pow2_bits_eqb, Z.bits_0 by lia.
    destruct (Z.eqb_spec n i) as [->|]; [by rewrite E|]. apply andb_false_r.
Qed.

(** Clearing the low bits with a complemented mask. *)
Lemma land_clear_low w k p :
  0 <= k <= w -> 0 <= p < 2 ^ w ->
  Z.land p (wrapu w (Z.lnot (2 ^ k - 1))) = p / 2 ^ k * 2 ^ k.
Proof.
  intros Hk Hp. rewrite <- Z.shiftr_div_pow2, <- Z.shiftl_mul_pow2 by lia.
  apply Z.bits_inj'. intros i Hi. rewrite Z.land_spec, wrapu_testbit by lia.
  replace (2 ^ k - 1) with (Z.ones k) by (rewrite Z.ones_equiv; lia).
  rewrite Z.lnot_spec, Z.testbit_ones_nonneg, Z.shiftl_spec by lia.
  destruct (Z.ltb_spec i k); cbn [negb].
  - rewrite (Z.testbit_neg_r _ (i - k)) by lia. by rewrite !andb_false_r.
  - rewrite Z.shiftr_spec by lia. replace (i - k + k) with i by lia.
    destruct (Z.ltb_spec i w); [by rewrite andb_true_r|].
    by rewrite (testbit_high w p).
Qed.

(** Complement within the width. *)
Lemma wrapu_lnot w z : 0 <= z < 2 ^ w -> wrapu w (Z.lnot z) = 2 ^ w - 1 - z.
Proof.
  intros. unfold wrapu. replace (Z.lnot z) with (- z - 1) by (unfold Z.lnot; lia).
  rewrite <- (Z_mod_plus_full _ 1). rewrite Z.mod_small; lia.
Qed.

(** A byte string depends only on the bits it holds. *)
Lemma le_split_wrapu n w z :
  w = Z.of_nat n * 8 -> le_split n (wrapu w z) = le_split n z.
Proof. intros ->. unfold wrapu. symmetry. apply le_split_mod. Qed.

(** ** Option helpers *)

(** ** Strings

    A C string is a [string] without its terminating NUL. *)

Lemma str_app_nil_r s : (s +:+ "" = s)%string.
Proof. induction s as [|c s IH]; [reflexivity|]. cbn. unfold String.app in *. cbn. by f_equal. Qed.

Lemma str_app_nil_l s : ("" +:+ s = s)%string.
Proof. reflexivity. Qed.

Lemma str_app_cons c s1 s2 : (String c s1 +:+ s2 = String c (s1 +:+ s2))%string.
Proof. reflexivity. Qed.

Lemma str_app_assoc s1 s2 s3 : ((s1 +:+ s2) +:+ s3 = s1 +:+ (s2 +:+ s3))%string.
Proof. induction s1 as [|c s IH]; [reflexivity|]. rewrite !str_app_cons. by f_equal. Qed.

Lemma str_length_app s1 s2 :
  (String.length (s1 +:+ s2) = String.length s1 + String.length s2)%nat.
Proof. induction s1 as [|c s IH]; [reflexivity|]. rewrite str_app_cons. cbn. by rewrite IH. Qed.

#[export] Hint Rewrite str_app_nil_l str_app_nil_r str_app_assoc str_app_cons : cstr.

(** The character with code [z]. *)
Definition chr (z : Z) : ascii := ascii_of_N (Z.to_N z).
Definition ord (c : ascii) : Z := Z.of_N (N_of_ascii c).

Lemma ord_chr z : 0 <= z < 256 -> ord (chr z) = z.
Proof.
  intros. unfold ord, chr. rewrite N_ascii_embedding by lia. lia.
Qed.

Lemma ord_range c : 0 <= ord c < 256.
Proof. unfold ord. pose proof (N_ascii_bounded c). lia. Qed.
