(* ===== verification/CLib.v ===== *)
(** * The C library functions the program calls on strings

    [strtoul] and its siblings ([scan_int] and the clamping of each return
    type), [atoi], the [printf] conversions the program uses ([%x], [%X],
    [%d], [%u] with zero padding and width), [sscanf]'s [%x] field,
    [strrchr] and the truncation of [snprintf].  The main results are the
    round trips: what [printf] prints, [strtoull] and [sscanf] read back. *)

From S2P Require Import Prelude.
Local Open Scope Z_scope.

(** ** Character classes *)

Definition isspace (c : ascii) : bool :=
  let n := ord c in ((9 <=? n) && (n <=? 13)) || (n =? 32).

(** The value of a digit in bases up to 36. *)
Definition digit_val (c : ascii) : option Z :=
  let n := ord c in
  if (48 <=? n) && (n <=? 57) then Some (n - 48)
  else if (97 <=? n) && (n <=? 122) then Some (n - 87)
  else if (65 <=? n) && (n <=? 90) then Some (n - 55)
  else None.

Definition digit_in (base : Z) (c : ascii) : option Z :=
  match digit_val c with
  | Some d => if d <? base then Some d else None
  | None => None
  end.

Definition is_digit_in (base : Z) (c : ascii) : bool :=
  match digit_in base c with Some _ => true | None => false end.

(** ** strtol / strtoul / strtoull *)

Fixpoint skip_space (s : string) : string :=
  match s with
  | String c s' => if isspace c then skip_space s' else s
  | EmptyString => EmptyString
  end.

Definition scan_sign (s : string) : bool * string :=
  match s with
  | String "-" s' => (true, s')
  | String "+" s' => (false, s')
  | _ => (false, s)
  end.

(** The longest prefix of base-[base] digits: its value and what follows. *)
Fixpoint scan_digits (base : Z) (s : string) (acc : Z) : Z * string :=
  match s with
  | String c s' =>
      match digit_in base c with
      | Some d => scan_digits base s' (acc * base + d)
      | None => (acc, s)
      end
  | EmptyString => (acc, EmptyString)
  end.

(** ["0x"] counts as a prefix only when a hexadecimal digit follows it. *)
Definition hex_prefix (s : string) : option string :=
  match s with
  | String "0" (String x (String c s')) =>
      if (Ascii.eqb x "x" || Ascii.eqb x "X") && is_digit_in 16 c
      then Some (String c s') else None
  | _ => None
  end.

Definition scan_prefix (base : Z) (s : string) : Z * string :=
  if base =? 0 then
    match hex_prefix s with
    | Some s' => (16, s')
    | None => match s with String "0" _ => (8, s) | _ => (10, s) end
    end
  else if base =? 16 then
    match hex_prefix s with Some s' => (16, s') | None => (16, s) end
  else (base, s).

(** Sign, magnitude and end pointer; [None] when no conversion is possible
    (the end pointer is then the start of the string). *)
Definition scan_int (base : Z) (s : string) : option (bool * Z * string) :=
  let '(neg, s2) := scan_sign (skip_space s) in
  let '(b, s3) := scan_prefix base s2 in
  match s3 with
  | String c _ =>
      if is_digit_in b c
      then let '(m, rest) := scan_digits b s3 0 in Some (neg, m, rest)
      else None
  | EmptyString => None
  end.

(** [strtoul(s, &end, base)] for a [w]-bit result: an overflowing magnitude
    gives the maximum, a minus sign negates modulo 2^w. *)
Definition strtou (w base : Z) (s : string) : Z * string :=
  match scan_int base s with
  | None => (0, s)
  | Some (neg, m, rest) =>
      (if 2 ^ w - 1 <? m then 2 ^ w - 1
       else if neg then wrapu w (- m) else m, rest)
  end.

(** [strtol(s, &end, base)] for a [w]-bit result: clamped. *)
Definition strtos (w base : Z) (s : string) : Z * string :=
  match scan_int base s with
  | None => (0, s)
  | Some (neg, m, rest) =>
      let v := if neg then - m else m in
      (Z.max (- 2 ^ (w - 1)) (Z.min v (2 ^ (w - 1) - 1)), rest)
  end.

(** ** printf conversions *)

(** The digits of [z], most significant first; [fuel] bounds their number and
    [S (log2 z)] digits are always enough. *)
Fixpoint digits_aux (b : Z) (fuel : nat) (z : Z) (acc : list Z) : list Z :=
  match fuel with
  | O => acc
  | S f => if z <? b then z :: acc else digits_aux b f (z / b) (z mod b :: acc)
  end.

Definition digits (b z : Z) : list Z := digits_aux b (S (Z.to_nat (Z.log2 z))) z [].

Definition digit_chr (upper : bool) (d : Z) : ascii :=
  if d <? 10 then chr (48 + d) else chr (if upper then 55 + d else 87 + d).

Fixpoint digits_str (upper : bool) (ds : list Z) : string :=
  match ds with
  | [] => ""
  | d :: ds' => String (digit_chr upper d) (digits_str upper ds')
  end.

(** Zero padding to width [w]. *)
Definition pad_digits (w : nat) (ds : list Z) : list Z :=
  replicate (w - length ds) 0 ++ ds.

(** ["%x"], ["%0<w>x"], ["%0<w>X"], ["%u"], ["%d"]. *)
Definition fmt_x (z : Z) : string := digits_str false (digits 16 z).
Definition fmt_0x (w : nat) (z : Z) : string :=
  digits_str false (pad_digits w (digits 16 z)).
Definition fmt_0X (w : nat) (z : Z) : string :=
  digits_str true (pad_digits w (digits 16 z)).
Definition fmt_u (z : Z) : string := digits_str false (digits 10 z).
Definition fmt_d (z : Z) : string := if z <? 0 then "-" +:+ fmt_u (- z) else fmt_u z.

Definition newline : string := String (chr 10) "".

(** ** Other string functions *)

(** [strrchr(s, '/')]: the parts before and after the last slash. *)
Fixpoint strrchr_slash (s : string) : option (string * string) :=
  match s with
  | EmptyString => None
  | String c s' =>
      match strrchr_slash s' with
      | Some (dir, base) => Some (String c dir, base)
      | None => if Ascii.eqb c "/" then Some ("", s') else None
      end
  end.

Fixpoint str_take (n : nat) (s : string) : string :=
  match n, s with
  | S n', String c s' => String c (str_take n' s')
  | _, _ => ""
  end.

(** [snprintf(buf, size, ...)] keeps at most [size - 1] characters. *)
Definition snprintf (size : Z) (s : string) : string := str_take (Z.to_nat (size - 1)) s.

(** ** sscanf *)

(** The characters of the longest prefix of at most [n] characters that is a
    sequence of hexadecimal digits. *)
Fixpoint take_hex (n : nat) (s : string) : string * string :=
  match n, s with
  | S n', String c s' =>
      if is_digit_in 16 c
      then let '(a, b) := take_hex n' s' in (String c a, b) else ("", s)
  | _, _ => ("", s)
  end.

(** One ["%<w>x"] field, for a [lw]-bit [long]: leading space is skipped, then
    at most [w] characters form an optionally signed, optionally
    ["0x"]-prefixed hexadecimal number, which saturates at [lw] bits and is
    stored in 32.  [None] is a matching failure. *)
Definition scan_hex_field (lw : Z) (w : nat) (s : string) : option (Z * string) :=
  let s1 := skip_space s in
  let '(neg, s2) := if Nat.eqb w 0 then (false, s1) else scan_sign s1 in
  let w2 := (w - (String.length s1 - String.length s2))%nat in
  let '(zero, w3, s3) :=
    match w2, s2 with
    | S (S w'), String "0" (String "x" s') => (true, w', s')
    | S (S w'), String "0" (String "X" s') => (true, w', s')
    | _, _ => (false, w2, s2)
    end in
  let '(ds, rest) := take_hex w3 s3 in
  if negb zero && String.eqb ds "" then None
  else
    let m := (scan_digits 16 ds 0).1 in
    let v := if 2 ^ lw - 1 <? m then 2 ^ lw - 1 else if (neg : bool) then - m else m in
    Some (wrapu 32 v, rest).

(** A literal character of the format. *)
Definition scan_lit (c : ascii) (s : string) : option string :=
  match s with
  | String c' s' => if Ascii.eqb c' c then Some s' else None
  | EmptyString => None
  end.

(** ** Digits: printing then scanning is the identity *)

Definition digits_val (b acc : Z) (ds : list Z) : Z :=
  foldl (fun a d => a * b + d) acc ds.

(** The string does not continue a base-[b] number. *)
Definition no_digit (b : Z) (s : string) : Prop :=
  match s with String c _ => is_digit_in b c = false | EmptyString => True end.

Lemma digits_aux_val b fuel z acc :
  2 <= b -> 0 <= z < b ^ Z.of_nat fuel ->
  digits_val b 0 (digits_aux b fuel z acc) = digits_val b z acc.
Proof.
  intros Hb. revert z acc. induction fuel as [|f IH]; intros z acc Hz.
  - cbn in *. by replace z with 0 by lia.
  - cbn [digits_aux]. destruct (Z.ltb_spec z b); [reflexivity|].
    rewrite IH.
    + cbn. f_equal. rewrite (Z.div_mod z b) at 3 by lia. lia.
    + rewrite Nat2Z.inj_succ, Z.pow_succ_r in Hz by lia.
      split; [apply Z.div_pos; lia|]. apply Z.div_lt_upper_bound; lia.
Qed.

Lemma digits_aux_range b fuel z acc :
  2 <= b -> 0 <= z -> Forall (fun d => 0 <= d < b) acc ->
  Forall (fun d => 0 <= d < b) (digits_aux b fuel z acc).
Proof.
  intros Hb. revert z acc. induction fuel as [|f IH]; intros z acc Hz Hacc; [done|].
  cbn. destruct (Z.ltb_spec z b); [constructor; [lia|done]|].
  apply IH; [apply Z.div_pos; lia|].
  constructor; [apply Z.mod_pos_bound; lia|done].
Qed.

Lemma digits_fuel_enough b z : 2 <= b -> 0 <= z -> z < b ^ Z.of_nat (S (Z.to_nat (Z.log2 z))).
Proof.
  intros Hb Hz. rewrite Nat2Z.inj_succ, Z2Nat.id by apply Z.log2_nonneg.
  destruct (Z.eq_dec z 0) as [->|]; [apply Z.pow_pos_nonneg; cbn; lia|].
  apply Z.lt_le_trans with (2 ^ Z.succ (Z.log2 z)); [apply Z.log2_spec; lia|].
  apply Z.pow_le_mono_l. lia.
Qed.

Lemma digits_val_digits b z : 2 <= b -> 0 <= z -> digits_val b 0 (digits b z) = z.
Proof.
  intros. unfold digits.
  rewrite digits_aux_val; [reflexivity|lia|]. split; [lia|by apply digits_fuel_enough].
Qed.

Lemma digits_range b z : 2 <= b -> 0 <= z -> Forall (fun d => 0 <= d < b) (digits b z).
Proof. intros. apply digits_aux_range; auto with lia. Qed.

Lemma digits_aux_nonempty b f z acc : digits_aux b (S f) z acc <> [].
Proof.
  revert z acc. induction f as [|f IH]; intros; cbn [digits_aux].
  - destruct (z <? b); discriminate.
  - destruct (z <? b); [discriminate|]. apply IH.
Qed.

Lemma digits_nonempty b z : exists d ds, digits b z = d :: ds.
Proof.
  pose proof (digits_aux_nonempty b (Z.to_nat (Z.log2 z)) z []) as H.
  unfold digits. destruct (digits_aux _ _ _ _); [done|eauto].
Qed.

Lemma pad_digits_val b w ds : digits_val b 0 (pad_digits w ds) = digits_val b 0 ds.
Proof.
  unfold pad_digits. generalize (w - length ds)%nat as n. induction n; [done|].
  exact IHn.
Qed.

Lemma pad_digits_range b w ds :
  0 < b -> Forall (fun d => 0 <= d < b) ds -> Forall (fun d => 0 <= d < b) (pad_digits w ds).
Proof.
  intros. apply Forall_app; split; [|done]. apply Forall_replicate. lia.
Qed.

Lemma pad_digits_nonempty w b z : exists d ds, pad_digits w (digits b z) = d :: ds.
Proof.
  unfold pad_digits. destruct (digits_nonempty b z) as (d & ds & ->).
  destruct (replicate _ _); cbn; eauto.
Qed.

(** Every digit below 16, in either case, reads back as itself. *)
Lemma digit_in_chr b up d : 0 <= d < b -> b <= 16 -> digit_in b (digit_chr up d) = Some d.
Proof.
  intros Hd Hb.
  assert (digit_val (digit_chr up d) = Some d) as E.
  { assert (d = 0 \/ d = 1 \/ d = 2 \/ d = 3 \/ d = 4 \/ d = 5 \/ d = 6 \/ d = 7 \/
            d = 8 \/ d = 9 \/ d = 10 \/ d = 11 \/ d = 12 \/ d = 13 \/ d = 14 \/ d = 15)
      as Hcases by lia.
    destruct up; repeat (destruct Hcases as [->|Hcases]; [vm_compute; reflexivity|]);
      subst; vm_compute; reflexivity. }
  unfold digit_in. rewrite E. destruct (Z.ltb_spec d b); [done|lia].
Qed.

Lemma digit_chr_is_digit b up d :
  0 <= d < b -> b <= 16 -> is_digit_in b (digit_chr up d) = true.
Proof. intros. unfold is_digit_in. by rewrite digit_in_chr. Qed.

Lemma scan_digits_str b up ds rest acc :
  b <= 16 -> Forall (fun d => 0 <= d < b) ds -> no_digit b rest ->
  scan_digits b (digits_str up ds +:+ rest) acc = (digits_val b acc ds, rest).
Proof.
  intros Hb Hds Hrest. revert acc. induction Hds as [|d ds Hd Hds IH]; intros acc.
  - destruct rest as [|c r]; [done|]. cbn in *. change ("" +:+ String c r) with (String c r).
    cbn. unfold is_digit_in in Hrest. by destruct (digit_in b c).
  - cbn [digits_str]. rewrite str_app_cons. cbn [scan_digits].
    rewrite digit_in_chr by done. rewrite IH. reflexivity.
Qed.

(** A hexadecimal number printed with any padding, in either case, after
    ["0x"], scans back with base 0 or 16. *)
Lemma scan_int_hex base up w z rest :
  base = 0 \/ base = 16 -> 0 <= z -> no_digit 16 rest ->
  scan_int base ("0x" +:+ digits_str up (pad_digits w (digits 16 z)) +:+ rest)
  = Some (false, z, rest).
Proof.
  intros Hbase Hz Hrest.
  pose proof (pad_digits_range 16 w _ ltac:(lia) (digits_range 16 z ltac:(lia) Hz)) as Hr.
  pose proof (pad_digits_val 16 w (digits 16 z)) as Hv.
  rewrite digits_val_digits in Hv by lia.
  destruct (pad_digits_nonempty w 16 z) as (d & ds & E). rewrite E in *.
  inversion_clear Hr as [|?? Hd Hds].
  assert (hex_prefix ("0x" +:+ digits_str up (d :: ds) +:+ rest)
          = Some (digits_str up (d :: ds) +:+ rest)) as Hp.
  { cbn. unfold String.app. cbn. fold String.app. by rewrite digit_chr_is_digit. }
  assert (scan_prefix base ("0x" +:+ digits_str up (d :: ds) +:+ rest)
          = (16, digits_str up (d :: ds) +:+ rest)) as Hs.
  { unfold scan_prefix. rewrite Hp. by destruct Hbase as [-> | ->]. }
  unfold scan_int.
  change (scan_sign (skip_space ("0x" +:+ digits_str up (d :: ds) +:+ rest)))
    with (false, "0x" +:+ digits_str up (d :: ds) +:+ rest).
  cbv iota beta. rewrite Hs. cbn [digits_str]. rewrite str_app_cons.
  rewrite digit_chr_is_digit by (done || lia). rewrite <- str_app_cons.
  change (String (digit_chr up d) (digits_str up ds)) with (digits_str up (d :: ds)).
  rewrite scan_digits_str by (done || (constructor; done) || lia). by rewrite Hv.
Qed.

Lemma scan_int_strtou w base s z rest :
  scan_int base s = Some (false, z, rest) -> 0 <= z < 2 ^ w -> strtou w base s = (z, rest).
Proof.
  intros E Hz. unfold strtou. rewrite E.
  destruct (Z.ltb_spec (2 ^ w - 1) z); [lia|reflexivity].
Qed.

Lemma scan_int_strtos w base s z rest :
  scan_int base s = Some (false, z, rest) -> 0 <= z < 2 ^ (w - 1) -> strtos w base s = (z, rest).
Proof.
  intros E Hz. unfold strtos. rewrite E. f_equal. lia.
Qed.

(** What ["0x%llx"] prints, [strtoull] with base 0 reads back. *)
Lemma strtou_fmt_x w z : 0 <= z < 2 ^ w -> strtou w 0 ("0x" +:+ fmt_x z) = (z, "").
Proof.
  intros. apply scan_int_strtou; [|done].
  rewrite <- (str_app_nil_r (fmt_x z)). unfold fmt_x.
  rewrite <- (scan_int_hex 0 false 0 z "") by (auto || lia || done). done.
Qed.

(** So does what ["0x%0<n>x"] prints. *)
Lemma strtou_fmt_0x w n z : 0 <= z < 2 ^ w -> strtou w 0 ("0x" +:+ fmt_0x n z) = (z, "").
Proof.
  intros. apply scan_int_strtou; [|done].
  rewrite <- (str_app_nil_r (fmt_0x n z)). apply scan_int_hex; [auto|lia|done].
Qed.

(** The leading digit of a positive number is not zero, so a decimal number
    never looks octal to base 0. *)
Lemma digits_aux_head b fuel z acc :
  2 <= b -> 0 < z < b ^ Z.of_nat fuel ->
  exists d ds, digits_aux b fuel z acc = d :: ds /\ 0 < d < b.
Proof.
  intros Hb. revert z acc. induction fuel as [|f IH]; intros z acc Hz; [cbn in Hz; lia|].
  cbn [digits_aux]. destruct (Z.ltb_spec z b); [exists z, acc; split; [done|lia]|].
  apply IH. rewrite Nat2Z.inj_succ, Z.pow_succ_r in Hz by lia.
  split; [apply Z.div_str_pos; lia|]. apply Z.div_lt_upper_bound; lia.
Qed.

Lemma digit_chr_head d : 0 <= d < 10 ->
  isspace (digit_chr false d) = false /\
  digit_chr false d <> "-"%char /\ digit_chr false d <> "+"%char /\
  (0 < d -> digit_chr false d <> "0"%char).
Proof.
  intros Hd.
  assert (d = 0 \/ d = 1 \/ d = 2 \/ d = 3 \/ d = 4 \/ d = 5 \/ d = 6 \/ d = 7 \/
          d = 8 \/ d = 9) as Hcases by lia.
  repeat (destruct Hcases as [->|Hcases]; [vm_compute; repeat split; intros; congruence|]).
  subst; vm_compute; repeat split; intros; congruence.
Qed.

Lemma scan_sign_other c s :
  c <> "-"%char -> c <> "+"%char -> scan_sign (String c s) = (false, String c s).
Proof. intros. unfold scan_sign. by destruct c as [[] [] [] [] [] [] [] []]. Qed.

Lemma scan_prefix_decimal c s : c <> "0"%char -> scan_prefix 0 (String c s) = (10, String c s).
Proof. intros. unfold scan_prefix, hex_prefix. by destruct c as [[] [] [] [] [] [] [] []]. Qed.

Lemma scan_int_dec z rest :
  0 <= z -> no_digit 10 rest -> hex_prefix ("0" +:+ rest) = None -> no_digit 8 rest ->
  scan_int 0 (fmt_u z +:+ rest) = Some (false, z, rest).
Proof.
  intros Hz Hrest Hhex Hoct.
  destruct (Z.eq_dec z 0) as [->|].
  { change (fmt_u 0) with "0". unfold scan_int.
    change (scan_sign (skip_space ("0" +:+ rest))) with (false, "0" +:+ rest).
    cbv iota beta. unfold scan_prefix. rewrite Hhex.
    change (0 =? 0) with true. cbv iota. unfold String.app. cbn [String.append].
    change (is_digit_in 8 "0"%char) with true. cbv iota.
    change (String "0" rest) with (digits_str false [0] +:+ rest).
    rewrite (scan_digits_str 8 false [0]) by (try done; try lia; repeat constructor; lia).
    reflexivity. }
  destruct (digits_aux_head 10 (S (Z.to_nat (Z.log2 z))) z []) as (d & ds & E & Hd);
    [lia|split; [lia|apply digits_fuel_enough; lia]|].
  pose proof (digits_range 10 z ltac:(lia) Hz) as Hr.
  pose proof (digits_val_digits 10 z ltac:(lia) Hz) as Hv.
  unfold fmt_u, digits in *. rewrite E in *. cbn [digits_str]. rewrite str_app_cons.
  destruct (digit_chr_head d ltac:(lia)) as (Hsp & Hm & Hp & H0).
  unfold scan_int. cbn [skip_space]. rewrite Hsp, scan_sign_other by done.
  rewrite scan_prefix_decimal by (apply H0; lia).
  rewrite digit_chr_is_digit by lia.
  rewrite <- str_app_cons.
  change (String (digit_chr false d) (digits_str false ds)) with (digits_str false (d :: ds)).
  rewrite scan_digits_str by (done || lia). by rewrite Hv.
Qed.

Lemma strtou_fmt_u w z : 0 <= z < 2 ^ w -> strtou w 0 (fmt_u z) = (z, "").
Proof.
  intros. apply scan_int_strtou; [|done].
  rewrite <- (str_app_nil_r (fmt_u z)). apply scan_int_dec; done || lia.
Qed.

Lemma strtos_fmt_u w z : 0 <= z < 2 ^ (w - 1) -> strtos w 0 (fmt_u z) = (z, "").
Proof.
  intros. apply scan_int_strtos; [|done].
  rewrite <- (str_app_nil_r (fmt_u z)). apply scan_int_dec; done || lia.
Qed.

(** ** Scanned fields *)

(** A character that may not follow a number scanned by ["%x"]. *)
Definition hex_end (s : string) : Prop :=
  match s with
  | String c _ => is_digit_in 16 c = false /\ c <> "x"%char /\ c <> "X"%char
  | EmptyString => True
  end.

Lemma digit_chr_plain d : 0 <= d < 16 ->
  isspace (digit_chr false d) = false /\
  digit_chr false d <> "-"%char /\ digit_chr false d <> "+"%char /\
  digit_chr false d <> "x"%char /\ digit_chr false d <> "X"%char.
Proof.
  intros Hd.
  assert (d = 0 \/ d = 1 \/ d = 2 \/ d = 3 \/ d = 4 \/ d = 5 \/ d = 6 \/ d = 7 \/
          d = 8 \/ d = 9 \/ d = 10 \/ d = 11 \/ d = 12 \/ d = 13 \/ d = 14 \/ d = 15)
    as Hcases by lia.
  repeat (destruct Hcases as [->|Hcases]; [vm_compute; repeat split; congruence|]).
  subst; vm_compute; repeat split; congruence.
Qed.

Lemma digits_str_length up ds : String.length (digits_str up ds) = length ds.
Proof. induction ds; cbn; congruence. Qed.

Lemma take_hex_digits n ds rest :
  Forall (fun d => 0 <= d < 16) ds -> (length ds <= n)%nat -> hex_end rest ->
  take_hex n (digits_str false ds +:+ rest) = (digits_str false ds, rest).
Proof.
  intros Hds. revert n. induction Hds as [|d ds Hd Hds IH]; intros n Hn Hrest.
  - destruct rest as [|c rest]; [by destruct n|]. destruct Hrest as (Hr & _).
    change (digits_str false [] +:+ String c rest) with (String c rest).
    destruct n; cbn; [done|]. by rewrite Hr.
  - cbn [length] in Hn. destruct n as [|n]; [lia|]. cbn [digits_str]. rewrite str_app_cons.
    cbn [take_hex]. rewrite digit_chr_is_digit by lia. by rewrite IH by (done || lia).
Qed.

Lemma zero_not_prefix {A} w2 d ds rest (x : nat -> string -> A) (y : A) :
  Forall (fun d => 0 <= d < 16) ds -> hex_end rest ->
  match w2, String (digit_chr false d) (digits_str false ds +:+ rest) with
  | S (S w'), String "0" (String "x" s') => x w' s'
  | S (S w'), String "0" (String "X" s') => x w' s'
  | _, _ => y
  end = y.
Proof.
  intros Hds Hrest. destruct w2 as [|[|w']]; [done..|].
  destruct (digits_str false ds +:+ rest) as [|c s] eqn:E;
    [by destruct (digit_chr false d) as [[] [] [] [] [] [] [] []]|].
  assert (c <> "x"%char /\ c <> "X"%char) as [Hx HX].
  { destruct Hds as [|d' ds Hd Hds]; cbn [digits_str] in E.
    - change ("" +:+ rest) with rest in E. subst. by destruct Hrest as (_ & ? & ?).
    - rewrite str_app_cons in E. injection E as <- _. by apply digit_chr_plain. }
  destruct (digit_chr false d) as [[] [] [] [] [] [] [] []]; try done.
  by destruct c as [[] [] [] [] [] [] [] []].
Qed.

Lemma scan_hex_field_digits lw w ds rest :
  0 < lw -> Forall (fun d => 0 <= d < 16) ds -> ds <> [] -> (length ds <= w)%nat ->
  hex_end rest -> digits_val 16 0 ds < 2 ^ lw ->
  scan_hex_field lw w (digits_str false ds +:+ rest)
  = Some (wrapu 32 (digits_val 16 0 ds), rest).
Proof.
  intros Hlw Hds Hne Hw Hrest Hv. destruct ds as [|d ds]; [done|]. clear Hne.
  pose proof Hds as Hall. inversion_clear Hds as [|?? Hd Hds'].
  destruct (digit_chr_plain d Hd) as (Hsp & Hm & Hp & _). cbn [length] in Hw.
  unfold scan_hex_field. cbn [digits_str]. rewrite str_app_cons. cbn [skip_space].
  rewrite Hsp, scan_sign_other by done. destruct (Nat.eqb_spec w 0); [lia|].
  cbv iota beta. rewrite (zero_not_prefix _ d ds rest (fun w' s' => (true, w', s'))) by done.
  rewrite Nat.sub_diag, Nat.sub_0_r, <- str_app_cons.
  change (String (digit_chr false d) (digits_str false ds)) with (digits_str false (d :: ds)).
  rewrite take_hex_digits by (done || lia).
  rewrite <- (str_app_nil_r (digits_str false (d :: ds))), scan_digits_str by (done || lia).
  cbn [digits_str]. rewrite str_app_cons. cbn [negb andb String.eqb fst].
  destruct (Z.ltb_spec (2 ^ lw - 1) (digits_val 16 0 (d :: ds))); [lia|done].
Qed.

Lemma digits_aux_length b n fuel z acc :
  2 <= b -> 0 <= z < b ^ Z.of_nat n -> (0 < n)%nat ->
  (length (digits_aux b fuel z acc) <= n + length acc)%nat.
Proof.
  intros Hb. revert n z acc. induction fuel as [|f IH]; intros n z acc Hz Hn; cbn; [lia|].
  destruct (Z.ltb_spec z b); cbn; [lia|]. destruct n as [|[|n]]; [lia|change (Z.of_nat 1) with 1 in Hz; lia|].
  assert (0 <= z / b < b ^ Z.of_nat (S n)) as Hq.
  { rewrite (Nat2Z.inj_succ (S n)), Z.pow_succ_r in Hz by lia.
    split; [apply Z.div_pos; lia|apply Z.div_lt_upper_bound; lia]. }
  specialize (IH (S n) (z / b) (z mod b :: acc) Hq ltac:(lia)). cbn [length] in IH. lia.
Qed.

Lemma pad_digits_length w z :
  (0 < w)%nat -> 0 <= z < 16 ^ Z.of_nat w -> length (pad_digits w (digits 16 z)) = w.
Proof.
  intros Hw Hz. unfold pad_digits, digits. rewrite length_app, length_replicate.
  pose proof (digits_aux_length 16 w (S (Z.to_nat (Z.log2 z))) z [] ltac:(lia) Hz Hw) as H.
  cbn [length] in H. lia.
Qed.

Lemma fmt_0x_length w z : 0 <= z < 2 ^ 32 -> (String.length (fmt_0x w z) <= w + 8)%nat.
Proof.
  intros Hz. unfold fmt_0x, pad_digits, digits.
  rewrite digits_str_length, length_app, length_replicate.
  pose proof (digits_aux_length 16 8 (S (Z.to_nat (Z.log2 z))) z []) as H.
  cbn [length] in H. specialize (H ltac:(lia) ltac:(plia) ltac:(lia)). lia.
Qed.

Lemma fmt_x_length z : 0 <= z < 2 ^ 32 -> (String.length (fmt_x z) <= 8)%nat.
Proof. intros. by apply (fmt_0x_length 0). Qed.

(** A zero-padded number that fits its field is scanned back. *)
Lemma scan_hex_field_fmt_0x lw w z rest :
  32 <= lw -> (0 < w <= 8)%nat -> 0 <= z < 16 ^ Z.of_nat w -> hex_end rest ->
  scan_hex_field lw w (fmt_0x w z +:+ rest) = Some (z, rest).
Proof.
  intros Hlw Hw Hz Hrest. unfold fmt_0x.
  assert (16 ^ Z.of_nat w <= 2 ^ 32) as Hb.
  { change 16 with (2 ^ 4). rewrite <- Z.pow_mul_r by lia. apply Z.pow_le_mono_r; lia. }
  assert (2 ^ 32 <= 2 ^ lw) by (apply Z.pow_le_mono_r; lia).
  pose proof (pad_digits_val 16 w (digits 16 z)) as Hv. rewrite digits_val_digits in Hv by lia.
  rewrite scan_hex_field_digits; rewrite ?Hv; try done; try lia.
  - by rewrite wrapu_small by lia.
  - apply pad_digits_range, digits_range; lia.
  - destruct (pad_digits_nonempty w 16 z) as (? & ? & ->). done.
  - rewrite pad_digits_length; lia.
Qed.

Lemma scan_hex_field_fmt_x lw w z rest :
  32 <= lw -> (8 <= w)%nat -> 0 <= z < 2 ^ 32 -> hex_end rest ->
  scan_hex_field lw w (fmt_x z +:+ rest) = Some (z, rest).
Proof.
  intros Hlw Hw Hz Hrest. unfold fmt_x.
  assert (2 ^ 32 <= 2 ^ lw) by (apply Z.pow_le_mono_r; lia).
  pose proof (digits_val_digits 16 z ltac:(lia) ltac:(lia)) as Hv.
  rewrite scan_hex_field_digits; rewrite ?Hv; try done; try lia.
  - by rewrite wrapu_small by lia.
  - apply digits_range; lia.
  - destruct (digits_nonempty 16 z) as (? & ? & ->). done.
  - unfold digits. rewrite (digits_aux_length 16 8) by (try plia). cbn. lia.
Qed.

(** ** Path components *)

Lemma strrchr_slash_app dir base :
  strrchr_slash base = None -> strrchr_slash (dir +:+ "/" +:+ base) = Some (dir, base).
Proof.
  intros Hb. induction dir as [|c dir IH].
  - change ("" +:+ "/" +:+ base) with (String "/" base). cbn. by rewrite Hb.
  - rewrite str_app_cons. cbn [strrchr_slash]. by rewrite IH.
Qed.

Lemma strrchr_slash_some s dir base :
  strrchr_slash s = Some (dir, base) -> s = dir +:+ "/" +:+ base.
Proof.
  revert dir base. induction s as [|c s IH]; intros dir base; [done|]. cbn.
  destruct (strrchr_slash s) as [[d b]|].
  - intros [= <- <-]. rewrite str_app_cons. f_equal. by apply IH.
  - destruct (Ascii.eqb_spec c "/"); [|done]. intros [= <- <-]. by subst.
Qed.

(** An absolute path contains a slash. *)
Lemma strrchr_slash_absolute s : exists r, strrchr_slash (String "/" s) = Some r.
Proof. cbn. destruct (strrchr_slash s) as [[]|]; eauto. Qed.

Lemma str_take_all n s : (String.length s <= n)%nat -> str_take n s = s.
Proof.
  revert n. induction s as [|c s IH]; intros [|n] H; cbn in *; try done; [lia|].
  rewrite IH by lia. done.
Qed.

Lemma snprintf_fits sz s : Z.of_nat (String.length s) < sz -> snprintf sz s = s.
Proof. intros. apply str_take_all. lia. Qed.

(** ** Ranges of the conversions *)

Lemma scan_digits_nonneg b s acc : 0 <= b -> 0 <= acc -> 0 <= (scan_digits b s acc).1.
Proof.
  intros Hb. revert acc. induction s as [|c s IH]; intros acc Ha; [done|].
  cbn. unfold digit_in, digit_val.
  repeat case_match; simplify_eq; try done; apply IH;
    repeat match goal with H : _ && _ = true |- _ => apply andb_prop in H as [? ?] end; nia.
Qed.

Lemma scan_int_nonneg base s neg m rest :
  0 <= base -> scan_int base s = Some (neg, m, rest) -> 0 <= m.
Proof.
  intros Hb. unfold scan_int. destruct (scan_sign _) as [n s2].
  destruct (scan_prefix base s2) as [b s3] eqn:Ep.
  assert (0 <= b).
  { unfold scan_prefix in Ep. repeat case_match; simplify_eq; lia. }
  destruct s3 as [|c s3]; [done|]. destruct (is_digit_in b c); [|done].
  destruct (scan_digits b (String c s3) 0) as [m' r] eqn:Ed. intros [= <- <- <-].
  change m' with ((m', r).1). rewrite <- Ed. apply scan_digits_nonneg; lia.
Qed.

Lemma strtou_range w base s : 0 <= w -> 0 <= base -> 0 <= (strtou w base s).1 < 2 ^ w.
Proof.
  intros Hw Hb. pose proof (pow2_pos w Hw). unfold strtou.
  destruct (scan_int base s) as [[[neg m] rest]|] eqn:E; [|cbn; lia].
  apply scan_int_nonneg in E; [|done]. cbn.
  destruct (Z.ltb_spec (2 ^ w - 1) m); [lia|].
  destruct neg; [apply wrapu_range; lia|lia].
Qed.

Lemma strtos_range w base s :
  0 < w -> - 2 ^ (w - 1) <= (strtos w base s).1 < 2 ^ (w - 1).
Proof.
  intros Hw. pose proof (pow2_pos (w - 1) ltac:(lia)). unfold strtos.
  destruct (scan_int base s) as [[[neg m] rest]|]; cbn; lia.
Qed.

#[export] Hint Resolve strtou_range strtos_range : cint.
