(* ===== verification/Platform.v ===== *)
(** * The build platform ([platform.h]) and host memory representation

    A [Platform] fixes what the preprocessor and the compiler fix when the
    program is built: the architecture (which command groups exist and how
    port I/O is done), the width of [long] and of a pointer, and the byte
    order.  Memory that the program views at several types (the
    [data_store] and [SMBUS_DTYPE] unions, buffers passed to [read]) is a
    list of bytes, loaded and stored at a width in host order. *)

From S2P Require Import Prelude CLib.
Local Open Scope Z_scope.

Inductive architecture := I386 | X86_64 | POWERPC | POWERPC64 | OtherArch.
#[export] Instance architecture_eq_dec : EqDecision architecture.
Proof. solve_decision. Defined.

(** [long_bits] is also the width of a pointer and of [size_t]: ILP32 and LP64
    are the two data models of the Linux targets. *)
Class Platform := {
  arch : architecture;
  long_bits : Z;
  is_big_endian : bool;
  sc_nprocessors_onln : bool;  (* defined by the C library *)
  long_bits_cases : long_bits = 32 \/ long_bits = 64
}.

Section WithPlatform.
Context {P : Platform}.

(** [#if defined(__i386__) || defined(__x86_64__)] *)
Definition ARCH_X86 : bool := bool_decide (arch = I386 \/ arch = X86_64).
(** [#if defined(__powerpc64__) || defined(__powerpc__)] *)
Definition ARCH_POWER : bool := bool_decide (arch = POWERPC \/ arch = POWERPC64).

Definition LONG_MAX : Z := 2 ^ (long_bits - 1) - 1.
Definition ULONG_MAX : Z := 2 ^ long_bits - 1.

(** [strtoul], [strtol], [strtoull] and [atoi] at the platform's widths. *)
Definition strtoul_end (base : Z) (s : string) : Z * string := strtou long_bits base s.
Definition strtoul (s : string) : Z := (strtou long_bits 0 s).1.
Definition strtol (s : string) : Z := (strtos long_bits 0 s).1.
Definition strtoull (s : string) : Z := (strtou 64 0 s).1.
Definition atoi (s : string) : Z := wraps 32 (strtos long_bits 10 s).1.

(** Host byte order: [n] bytes of memory as an unsigned integer, and back. *)
Definition host_load (bs : list byte) : Z :=
  if is_big_endian then le_combine (rev bs) else le_combine bs.
Definition host_bytes (n : nat) (v : Z) : list byte :=
  if is_big_endian then rev (le_split n v) else le_split n v.

(** [bswap_16] and [bswap_32] of [byteswap.h]. *)
Definition bswap (n : nat) (v : Z) : Z := le_combine (rev (le_split n v)).

(** [le_to_host_<8n>] and [host_to_le_<8n>]. *)
Definition le_to_host (n : nat) (v : Z) : Z :=
  if is_big_endian then (if Nat.eqb n 1 then v else bswap n v) else v.
Definition host_to_le (n : nat) (v : Z) : Z :=
  if is_big_endian then (if Nat.eqb n 1 then v else bswap n v) else v.

(** A union in memory: assigning and reading its [n]-byte member. *)
Definition union_set (n : nat) (v : Z) (mem : list byte) : list byte :=
  host_bytes n v ++ drop n mem.
Definition union_get (n : nat) (mem : list byte) : Z := host_load (take n mem).

Lemma long_bits_pos : 0 < long_bits.
Proof. destruct long_bits_cases; lia. Qed.

Lemma strtoul_range s : 0 <= strtoul s < 2 ^ long_bits.
Proof. pose proof long_bits_pos. apply strtou_range; lia. Qed.

Lemma strtoull_range s : 0 <= strtoull s < 2 ^ 64.
Proof. apply strtou_range; lia. Qed.

Lemma length_host_bytes n v : length (host_bytes n v) = n.
Proof. unfold host_bytes. destruct is_big_endian; rewrite ?length_rev; apply length_le_split. Qed.

Lemma host_load_bytes n v : host_load (host_bytes n v) = wrapu (8 * Z.of_nat n) v.
Proof.
  unfold host_load, host_bytes, wrapu.
  destruct is_big_endian; rewrite ?rev_involutive, le_combine_split; f_equal; f_equal; lia.
Qed.

Lemma host_load_range bs n : length bs = n -> 0 <= host_load bs < 2 ^ (8 * Z.of_nat n).
Proof.
  intros <-. unfold host_load. destruct is_big_endian; [|apply le_combine_bound].
  rewrite <- (length_rev bs). apply le_combine_bound.
Qed.

Lemma union_get_set n v mem : union_get n (union_set n v mem) = wrapu (8 * Z.of_nat n) v.
Proof.
  unfold union_get, union_set.
  rewrite take_app_length' by (by rewrite length_host_bytes). apply host_load_bytes.
Qed.

Lemma length_union_set n v mem :
  (n <= length mem)%nat -> length (union_set n v mem) = length mem.
Proof. intros. unfold union_set. rewrite length_app, length_drop, length_host_bytes. lia. Qed.

Lemma rev_length_1 {A} (l : list A) : length l = 1%nat -> rev l = l.
Proof. destruct l as [|x [|]]; done. Qed.

(** A single byte has no byte order. *)
Lemma host_load_1 bs : length bs = 1%nat -> host_load bs = le_combine bs.
Proof. intros. unfold host_load. destruct is_big_endian; [by rewrite rev_length_1|done]. Qed.

Lemma host_bytes_1 v : host_bytes 1 v = le_split 1 v.
Proof. unfold host_bytes. by destruct is_big_endian. Qed.

(** The endian conversions make the wire format little-endian on every
    host. *)
Lemma le_to_host_load n bs :
  length bs = n -> le_to_host n (host_load bs) = le_combine bs.
Proof.
  intros Hn. unfold le_to_host, host_load, bswap.
  destruct is_big_endian; [|done]. destruct (Nat.eqb_spec n 1) as [->|].
  - by rewrite rev_length_1.
  - rewrite split_le_combine' by (by rewrite length_rev). by rewrite rev_involutive.
Qed.

Lemma host_to_le_bytes n v : host_bytes n (host_to_le n v) = le_split n v.
Proof.
  unfold host_bytes, host_to_le, bswap.
  destruct is_big_endian; [|done]. destruct (Nat.eqb_spec n 1) as [->|].
  - by rewrite rev_length_1 by apply length_le_split.
  - rewrite split_le_combine' by (by rewrite length_rev, length_le_split).
    by rewrite rev_involutive.
Qed.
End WithPlatform.

#[export] Hint Resolve long_bits_pos strtoul_range strtoull_range : cint.

(** Concrete platforms, for evaluation. *)
Definition linux_x86_64 : Platform :=
  {| arch := X86_64; long_bits := 64; is_big_endian := false; sc_nprocessors_onln := true;
     long_bits_cases := or_intror eq_refl |}.
Definition linux_i386 : Platform :=
  {| arch := I386; long_bits := 32; is_big_endian := false; sc_nprocessors_onln := true;
     long_bits_cases := or_introl eq_refl |}.
Definition linux_ppc64 : Platform :=
  {| arch := POWERPC64; long_bits := 64; is_big_endian := true; sc_nprocessors_onln := true;
     long_bits_cases := or_intror eq_refl |}.
Definition linux_ppc64le : Platform :=
  {| arch := POWERPC64; long_bits := 64; is_big_endian := false; sc_nprocessors_onln := true;
     long_bits_cases := or_intror eq_refl |}.
