(* ===== verification/Sys.v ===== *)
(** * Programs and their interaction with the operating system

    The program's code is a [prog]: a tree whose nodes are the calls it makes
    on its environment (system calls, port and memory-mapped accesses, the
    process's output streams) and whose branches are the environment's
    answers.  The kernel and the devices are therefore not modelled: every
    theorem quantifies over their answers, restricted where needed by a
    documented contract ([kernel_ok]).

    - [exec p t o]: program [p] can produce the trace [t] and end with [o].
    - [run h w p]: the execution of [p] against the environment [h], a
      function from its own state; it computes.
    - [wp S p t Q]: with the environment answering as [S] relies on, [p]
      started after trace [t] only makes calls allowed by [S], stops only as
      [S] allows, and otherwise returns with [Q].  [wp_exec] is its soundness
      with respect to [exec]. *)

From S2P Require Import Prelude CLib Platform.
Local Open Scope Z_scope.

(** ** Constants of the Linux ABI *)

Definition O_RDONLY : Z := 0.
Definition O_WRONLY : Z := 1.
Definition O_RDWR : Z := 2.
Definition O_ACCMODE : Z := 3.
Definition O_SYNC : Z := 1052672. (* 04010000 *)
Definition PROT_READ : Z := 1.
Definition PROT_WRITE : Z := 2.
Definition ENOENT : Z := 2.
Definition FILENAME_MAX : Z := 4096.
Definition INT_MAX : Z := 2147483647.
Definition EXIT_SUCCESS : Z := 0.
Definition EXIT_FAILURE : Z := 1.

(** ** Calls on the environment *)

Inductive stream := Stdout | Stderr.

(** An [i2c_msg] as the kernel sees it: address, flags, length. *)
Record i2c_msg := { msg_addr : Z; msg_flags : Z; msg_len : Z }.

(** One action per call.  A function that can fail returns what the C function
    returns ([-1] on failure); an out-parameter is part of the result. *)
Inductive action :=
  | Open (path : string) (flags : Z)
  | Close (fd : Z)
  | Lseek (fd off : Z)                      (* whence is always SEEK_SET *)
  | Read (fd : Z) (count : Z)
  | Write (fd : Z) (data : list byte)
  | Ioctl (fd req arg : Z)                  (* integer argument *)
  | I2cSmbus (fd rw command size : Z) (data : option (list (option byte)))
  | I2cRdwr (fd : Z) (msgs : list i2c_msg) (buf : list byte)
  | GetErrno
  | Strerror (errnum : Z)
  | Put (s : stream) (text : string)        (* printf, fprintf *)
  | Fwrite (addr size nmemb : Z)            (* to stdout, from mapped memory *)
  | Getpagesize
  | Mmap (len prot fd off : Z)              (* NULL, ..., MAP_SHARED *)
  | Munmap (addr len : Z)
  | Load (bits addr : Z)                    (* a volatile access *)
  | Store (bits addr v : Z)
  | Iopl (level : Z)
  | PortIn (bits port : Z)
  | PortOut (bits port v : Z)
  | Gettimeofday
  | Rdtsc
  | Cpuid (eax ecx : Z)
  | Getpid
  | SchedSetaffinity (pid : Z) (mask : gset Z)
  | SysconfNprocessors
  | Execvp (file : string) (argv : list string)
  | Readlink (path : string) (bufsiz : Z)
  | Symlink (target linkpath : string)
  | Unlink (path : string)
  | Opendir (path : string)                 (* 0 is NULL *)
  | Readdir (dir : Z)                       (* name, and whether a directory *)
  | Closedir (dir : Z)
  | Glob (pattern : string).

(** The type of the answer. *)
Definition result (a : action) : Type :=
  match a with
  | Read _ _ => option (list byte)
  | I2cSmbus _ _ _ _ _ => Z * list byte      (* return value, union afterwards *)
  | I2cRdwr _ _ _ => Z * list byte           (* return value, buffer afterwards *)
  | Strerror _ => string
  | Put _ _ | Store _ _ _ | PortOut _ _ _ => unit
  | Gettimeofday | Rdtsc => Z * Z
  | Cpuid _ _ => Z * Z * Z * Z
  | Readlink _ _ => option string
  | Readdir _ => option (string * bool)
  | Glob _ => Z * list string
  | _ => Z
  end.

Record event := Ev { ev_act : action; ev_res : result ev_act }.
Abbreviation trace := (list event).

(** ** Programs *)

(** What the C standard leaves undefined and the model detects. *)
Inductive undefined :=
  | NullPointer      (* a missing argument, or strrchr's NULL, dereferenced *)
  | OutOfBounds      (* an access past the end of one of the program's arrays *)
  | UninitRead       (* a read of indeterminate memory *)
  | BadShift         (* a shift count not below the width *)
  | BadCast.         (* private data used at another type *)

Inductive stop :=
  | Undefined (u : undefined)
  | OutOfFuel        (* the model's loop bound was reached *)
  | ProcessReplaced. (* execvp succeeded *)

#[export] Instance undefined_eq_dec : EqDecision undefined.
Proof. solve_decision. Defined.
#[export] Instance stop_eq_dec : EqDecision stop.
Proof. solve_decision. Defined.

Inductive prog (A : Type) : Type :=
  | Ret (x : A)
  | Stop (s : stop)
  | Act (a : action) (k : result a -> prog A).
Arguments Ret {A} x.
Arguments Stop {A} s.
Arguments Act {A} a k.

Fixpoint prog_bind {A B} (f : A -> prog B) (p : prog A) : prog B :=
  match p with
  | Ret x => f x
  | Stop s => Stop s
  | Act a k => Act a (fun r => prog_bind f (k r))
  end.

#[export] Instance prog_mbind : MBind prog := @prog_bind.

Definition act (a : action) : prog (result a) := Act a Ret.
Abbreviation undef u := (Stop (Undefined u)).

(** Output, and the error message of the last failed call. *)
Definition printf (s : string) : prog unit := act (Put Stdout s).
Definition eprintf (s : string) : prog unit := act (Put Stderr s).
Definition strerror_errno : prog string :=
  e ← act GetErrno; act (Strerror e).

Definition dquote : string := String (chr 34) "".
Definition quoted (s : string) : string := dquote +:+ s +:+ dquote.

(** [fprintf(stderr, "<what>: %s\n", strerror(errno))] *)
Definition report (what : string) : prog unit :=
  msg ← strerror_errno; eprintf (what +:+ ": " +:+ msg +:+ newline).

(** [read(fd, buf, n) == n], with the bytes read; [None] is any other
    result. *)
Definition read_exact (fd n : Z) : prog (option (list byte)) :=
  r ← act (Read fd n);
  Ret match r with
      | Some bs => if Z.of_nat (length bs) =? n then Some bs else None
      | None => None
      end.

(** [argv[i]]: the entry past the last argument is NULL, which no function the
    program passes it to accepts. *)
Definition argv_at (argv : list string) (i : nat) : prog string :=
  match argv !! i with Some s => Ret s | None => undef NullPointer end.

(** A [for] loop over the elements of a table. *)
Fixpoint for_each {A} (f : A -> prog unit) (l : list A) : prog unit :=
  match l with
  | [] => Ret tt
  | x :: l' => f x;; for_each f l'
  end.

(** How many iterations the model gives a loop whose end only the environment
    decides; every theorem holds for all of them. *)
Class LoopBound := loop_bound : nat.

(** [while ((de = readdir(dir)))] with a body that says whether to go on. *)
Fixpoint while_readdir (fuel : nat) (dir : Z) (body : string -> bool -> prog bool)
  : prog bool :=
  match fuel with
  | O => Stop OutOfFuel
  | S fuel' =>
      de ← act (Readdir dir);
      match de with
      | None => Ret true
      | Some (d_name, is_dir) =>
          go_on ← body d_name is_dir;
          if (go_on : bool) then while_readdir fuel' dir body else Ret false
      end
  end.

(** Reading a variable that may be indeterminate. *)
Definition defined {A} (o : option A) : prog A :=
  match o with Some x => Ret x | None => undef UninitRead end.

(** ** Executions *)

Inductive outcome (A : Type) := Returned (x : A) | Stopped (s : stop).
Arguments Returned {A} x.
Arguments Stopped {A} s.

Inductive exec {A} : prog A -> trace -> outcome A -> Prop :=
  | exec_ret x : exec (Ret x) [] (Returned x)
  | exec_stop s : exec (Stop s) [] (Stopped s)
  | exec_act a k r t o : exec (k r) t o -> exec (Act a k) (Ev a r :: t) o.

(** Execution against a concrete environment. *)
Fixpoint run {W A} (h : W -> forall a, result a * W) (w : W) (p : prog A)
  : outcome A * trace :=
  match p with
  | Ret x => (Returned x, [])
  | Stop s => (Stopped s, [])
  | Act a k =>
      let '(r, w') := h w a in
      let '(o, t) := run h w' (k r) in (o, Ev a r :: t)
  end.

Lemma run_exec {W A} (h : W -> forall a, result a * W) w (p : prog A) :
  exec p (run h w p).2 (run h w p).1.
Proof.
  revert w. induction p as [x|s|a k IH]; intros w; cbn; [constructor..|].
  destruct (h w a) as [r w']. specialize (IH r w'). destruct (run h w' (k r)).
  by constructor.
Qed.

(** The inversion principle of [exec], by cases on the program. *)
Lemma exec_inv {A} (p : prog A) t o :
  exec p t o ->
  match p with
  | Ret x => t = [] /\ o = Returned x
  | Stop s => t = [] /\ o = Stopped s
  | Act a k => exists r t', t = Ev a r :: t' /\ exec (k r) t' o
  end.
Proof. destruct 1; eauto. Qed.

Lemma exec_stop_iff {A} s t (o : outcome A) : exec (Stop s) t o <-> t = [] /\ o = Stopped s.
Proof. split; [apply (exec_inv (Stop s))|]. intros [-> ->]. constructor. Qed.

Lemma exec_ret_iff {A} (x : A) t o : exec (Ret x) t o <-> t = [] /\ o = Returned x.
Proof. split; [apply (exec_inv (Ret x))|]. intros [-> ->]. constructor. Qed.

Lemma exec_bind_inv {A B} (p : prog A) (f : A -> prog B) t o :
  exec (p ≫= f) t o ->
  (exists x t1 t2, exec p t1 (Returned x) /\ exec (f x) t2 o /\ t = t1 ++ t2) \/
  (exists s, exec p t (Stopped s) /\ o = Stopped s).
Proof.
  revert t o. induction p as [x|s|a k IH]; intros t o H.
  - left. exists x, [], t. repeat split; [constructor|exact H].
  - right. apply exec_inv in H as [-> ->]. eexists; split; [constructor|done].
  - apply exec_inv in H as (r & t' & -> & H).
    destruct (IH _ _ _ H) as [(x & t1 & t2 & ? & ? & ->)|(s & ? & ->)].
    + left. exists x, (Ev a r :: t1), t2. repeat split; [by constructor|done].
    + right. exists s. split; [by constructor|done].
Qed.

Lemma exec_bind {A B} (p : prog A) (f : A -> prog B) t1 t2 x o :
  exec p t1 (Returned x) -> exec (f x) t2 o -> exec (p ≫= f) (t1 ++ t2) o.
Proof.
  revert t1. induction p as [y|s|a k IH]; intros t1 H Hf; apply exec_inv in H.
  - destruct H as [-> [= ->]]. exact Hf.
  - by destruct H as [_ ?].
  - destruct H as (r & t' & -> & H). cbn. constructor. by apply IH.
Qed.

(** The monad laws that need no extensionality. *)
Lemma bind_ret_l {A B} (x : A) (f : A -> prog B) : (Ret x ≫= f) = f x.
Proof. reflexivity. Qed.

(** ** Specifications

    [rely] restricts the environment's answer to a call after a trace,
    [guar] restricts the calls, [stops] the ways of stopping. *)

Record spec := {
  rely : trace -> forall a, result a -> Prop;
  guar : trace -> action -> Prop;
  stops : stop -> Prop
}.

Fixpoint wp (S : spec) {A} (p : prog A) (t : trace) (Q : A -> trace -> Prop) : Prop :=
  match p with
  | Ret x => Q x t
  | Stop s => stops S s
  | Act a k => guar S t a /\ forall r, rely S t a r -> wp S (k r) (t ++ [Ev a r]) Q
  end.

(** The events of [t'] after [t] are answered as [S] relies on. *)
Fixpoint relied (S : spec) (t t' : trace) : Prop :=
  match t' with
  | [] => True
  | e :: t'' => rely S t (ev_act e) (ev_res e) /\ relied S (t ++ [e]) t''
  end.

(** They are calls that [S] guarantees. *)
Fixpoint guaranteed (S : spec) (t t' : trace) : Prop :=
  match t' with
  | [] => True
  | e :: t'' => guar S t (ev_act e) /\ guaranteed S (t ++ [e]) t''
  end.

Theorem wp_exec (S : spec) {A} (p : prog A) t t' o Q :
  wp S p t Q -> exec p t' o -> relied S t t' ->
  guaranteed S t t' /\
  match o with Returned x => Q x (t ++ t') | Stopped s => stops S s end.
Proof.
  intros Hwp Hex. revert t Hwp. induction Hex as [x|s|a k r t' o Hex IH]; intros t Hwp Hr.
  - rewrite app_nil_r. done.
  - done.
  - cbn in Hwp, Hr. destruct Hwp as [Hg Hwp]. destruct Hr as [Hr1 Hr2].
    destruct (IH _ (Hwp _ Hr1) Hr2) as [Hg' Ho]. split; [split; done|].
    destruct o; [|done]. by rewrite <- app_assoc in Ho.
Qed.

Lemma relied_in (S : spec) t t' e :
  relied S t t' -> In e t' -> exists u, rely S u (ev_act e) (ev_res e).
Proof.
  revert t. induction t' as [|e' t' IH]; intros t; [done|]. intros [He Ht'] [->|Hin]; eauto.
Qed.

Lemma wp_mono (S : spec) {A} (p : prog A) t (Q Q' : A -> trace -> Prop) :
  (forall x t', Q x t' -> Q' x t') -> wp S p t Q -> wp S p t Q'.
Proof.
  intros HQ. revert t. induction p as [x|s|a k IH]; intros t; cbn; [auto..|].
  intros [? H]; split; [done|]. intros r Hr. by apply IH, H.
Qed.

Lemma wp_bind (S : spec) {A B} (p : prog A) (f : A -> prog B) t Q :
  wp S (p ≫= f) t Q <-> wp S p t (fun x t' => wp S (f x) t' Q).
Proof.
  revert t. induction p as [x|s|a k IH]; intros t; [done..|].
  cbn. split; intros [? H]; (split; [done|]); intros r Hr; by apply IH, H.
Qed.

(** A sequencing rule: prove [p] against an intermediate assertion. *)
Lemma wp_seq (S : spec) {A B} (p : prog A) (f : A -> prog B) t R Q :
  wp S p t R -> (forall x t', R x t' -> wp S (f x) t' Q) -> wp S (p ≫= f) t Q.
Proof. intros Hp Hf. apply wp_bind. revert Hp. by apply wp_mono. Qed.

(** Which calls a program makes, whatever the answers. *)
Definition calls (G : action -> Prop) : spec :=
  {| rely := fun _ _ _ => True; guar := fun _ a => G a; stops := fun _ => True |}.

Lemma relied_calls G t t' : relied (calls G) t t'.
Proof. revert t. induction t' as [|e t' IH]; intros t; cbn; auto. Qed.

Lemma calls_exec G {A} (p : prog A) t o :
  wp (calls G) p [] (fun _ _ => True) -> exec p t o -> Forall (fun e => G (ev_act e)) t.
Proof.
  intros Hwp Hex. destruct (wp_exec _ _ _ _ _ _ Hwp Hex (relied_calls _ _ _)) as [Hg _].
  revert Hg. generalize (@nil event) as u. clear. induction t as [|e t IH]; [constructor|].
  intros u [? ?]. constructor; [done|]. by eapply IH.
Qed.

(** ** Resources

    File descriptors, directory streams and memory mappings live from the call
    that creates them to the call that releases them. *)

Inductive resource := RFd (fd : Z) | RDir (dir : Z) | RMap (addr len : Z).

#[export] Instance resource_eq_dec : EqDecision resource.
Proof. solve_decision. Defined.
#[export] Instance resource_countable : Countable resource.
Proof.
  refine (inj_countable'
    (fun r => match r with
              | RFd fd => inl (inl fd) | RDir d => inl (inr d) | RMap a l => inr (a, l)
              end)
    (fun x => match x with
              | inl (inl fd) => RFd fd | inl (inr d) => RDir d | inr (a, l) => RMap a l
              end) _).
  by intros [].
Defined.

Section Contract.
Context {P : Platform}.

Definition MAP_FAILED : Z := ULONG_MAX.

Definition live_step (s : gset resource) (e : event) : gset resource :=
  match e with
  | Ev a r =>
    match a return result a -> gset resource with
    | Open _ _ => fun r => if r <? 0 then s else {[RFd r]} ∪ s
    | Close fd => fun _ => s ∖ {[RFd fd]}
    | Opendir _ => fun r => if r =? 0 then s else {[RDir r]} ∪ s
    | Closedir d => fun _ => s ∖ {[RDir d]}
    | Mmap len _ _ _ => fun r =>
        if (r =? 0) || (r =? MAP_FAILED) then s else {[RMap r len]} ∪ s
    | Munmap addr len => fun _ => s ∖ {[RMap addr len]}
    | _ => fun _ => s
    end r
  end.

(** What is held after a trace. *)
Definition live (t : trace) : gset resource := foldl live_step ∅ t.

Lemma live_snoc t e : live (t ++ [e]) = live_step (live t) e.
Proof. unfold live. by rewrite foldl_app. Qed.

(** [n] bytes at [addr] lie inside one live mapping. *)
Definition mapped (t : trace) (addr n : Z) : Prop :=
  exists base len, RMap base len ∈ live t /\ base <= addr /\ addr + n <= base + len.

(** The contract of the kernel and the C library: new handles are fresh, a
    short count never exceeds the request, a block transfer never exceeds
    the SMBus maximum, [/proc/self/exe] is an absolute path of at most
    [PATH_MAX - 1] characters, a successful [glob] has a match. *)
Definition kernel_ok (t : trace) (a : action) : result a -> Prop :=
  match a with
  | Open _ _ => fun r => r = -1 \/ (0 <= r <= INT_MAX /\ RFd r ∉ live t)
  | Opendir _ => fun r => r = 0 \/ RDir r ∉ live t
  | Lseek _ _ => fun r => -1 <= r
  | Read _ n => fun r =>
      match r with Some bs => Z.of_nat (length bs) <= n | None => True end
  | Write _ bs => fun r => -1 <= r <= Z.of_nat (length bs)
  | Getpagesize => fun r => exists k, 0 <= k <= 30 /\ r = 2 ^ k
  | Mmap len _ _ _ => fun r =>
      r = MAP_FAILED \/ (0 <= r /\ r + len < MAP_FAILED /\ RMap r len ∉ live t)
  | I2cSmbus _ _ _ size data => fun r =>
      (r.1 = -1 \/ r.1 = 0) /\
      (forall cells, data = Some cells -> length r.2 = length cells) /\
      (r.1 = 0 -> size = 5 \/ size = 7 \/ size = 8 ->
       forall b bs, r.2 = b :: bs -> byte.unsigned b <= 32)
  | I2cRdwr _ _ buf => fun r => length r.2 = length buf
  | Readlink path n => fun r =>
      match r with
      | Some s => Z.of_nat (String.length s) <= n /\
                  (path = "/proc/self/exe" ->
                   Z.of_nat (String.length s) < FILENAME_MAX /\
                   exists s', s = String "/" s')
      | None => True
      end
  | Gettimeofday => fun r => 0 <= r.2 < 1000000
  | Glob _ => fun r => r.1 = 0 -> r.2 <> []
  | _ => fun _ => True
  end.

(** The calls a program may make: on handles it holds, inside its
    mappings. *)
Definition call_ok (t : trace) (a : action) : Prop :=
  match a with
  | Close fd | Lseek fd _ | Read fd _ | Write fd _ | Ioctl fd _ _
  | I2cSmbus fd _ _ _ _ | I2cRdwr fd _ _ | Mmap _ _ fd _ => RFd fd ∈ live t
  | Readdir d | Closedir d => RDir d ∈ live t
  | Munmap addr len => RMap addr len ∈ live t
  | Load bits addr | Store bits addr _ => mapped t addr (bits / 8)
  | Fwrite addr size nmemb => mapped t addr (size * nmemb)
  | _ => True
  end.

(** Safe use of resources; [st] says which stops are accepted. *)
Definition safely (st : stop -> Prop) : spec :=
  {| rely := kernel_ok; guar := call_ok; stops := st |}.

(** No stop at all. *)
Definition no_stop (s : stop) : Prop := False.

(** [p] uses its resources safely from any trace and releases all of them. *)
Definition resource_safe (st : stop -> Prop) {A} (p : prog A) : Prop :=
  forall t, wp (safely st) p t (fun _ t' => live t' = live t).

(** What [execve] guarantees of the arguments, their number and their lengths
    being [int]s.  (Its documented limits are [0x7fffffff] arguments and 32
    pages for each.) *)
Definition args_fit (argv : list string) : Prop :=
  Z.of_nat (length argv) <= INT_MAX /\
  Forall (fun a => Z.of_nat (String.length a) <= INT_MAX) argv.

Lemma args_fit_lookup argv i a :
  args_fit argv -> argv !! i = Some a -> Z.of_nat (String.length a) <= INT_MAX.
Proof. intros [_ H] Hi. exact (Forall_lookup_1 _ _ _ _ H Hi). Qed.

Lemma args_fit_tail a argv : args_fit (a :: argv) -> args_fit argv.
Proof. intros [Hn H]. cbn [length] in Hn. split; [lia|by inversion H]. Qed.

(** A call that neither acquires nor releases. *)
Definition neutral (a : action) : bool :=
  match a with
  | Open _ _ | Close _ | Opendir _ | Closedir _ | Mmap _ _ _ _ | Munmap _ _ => false
  | _ => true
  end.

Lemma live_neutral t a r : neutral a = true -> live (t ++ [Ev a r]) = live t.
Proof. intros H. rewrite live_snoc. by destruct a. Qed.

Lemma live_opendir t path (d : Z) :
  d <> 0 -> live (t ++ [Ev (Opendir path) d]) = {[RDir d]} ∪ live t.
Proof. intros. rewrite live_snoc. cbn. by destruct (Z.eqb_spec d 0). Qed.

Lemma wp_weaken_stops (st st' : stop -> Prop) {A} (p : prog A) t Q :
  (forall s, st s -> st' s) -> wp (safely st) p t Q -> wp (safely st') p t Q.
Proof.
  intros Hst. revert t. induction p as [x|s|a k IH]; intros t; cbn; [done|apply Hst|].
  intros [? H]; split; [done|]. intros r Hr. by apply IH, H.
Qed.

(** [p] only uses what it holds, and stops only as [st] allows. *)
Definition well_behaved (st : stop -> Prop) {A} (p : prog A) : Prop :=
  forall t, wp (safely st) p t (fun _ _ => True).

Lemma well_behaved_ret st {A} (x : A) : well_behaved st (Ret x).
Proof. done. Qed.

Lemma well_behaved_bind st {A B} (p : prog A) (f : A -> prog B) :
  well_behaved st p -> (forall x, well_behaved st (f x)) -> well_behaved st (p ≫= f).
Proof. intros Hp Hf t. eapply wp_seq; [apply Hp|]. intros x t' _. apply Hf. Qed.

Lemma well_behaved_act st a : (forall t, call_ok t a) -> well_behaved st (act a).
Proof. intros H t. split; [apply H|done]. Qed.

Lemma well_behaved_put st s text : well_behaved st (act (Put s text)).
Proof. by apply well_behaved_act. Qed.

Lemma well_behaved_report st what : well_behaved st (report what).
Proof. intros t. cbn. auto. Qed.

Lemma well_behaved_if st {A} (b : bool) (p q : prog A) :
  well_behaved st p -> well_behaved st q -> well_behaved st (if b then p else q).
Proof. by destruct b. Qed.

Lemma resource_safe_well_behaved st {A} (p : prog A) :
  resource_safe st p -> well_behaved st p.
Proof. intros H t. eapply wp_mono; [|apply H]. done. Qed.

Lemma well_behaved_weaken (st st' : stop -> Prop) {A} (p : prog A) :
  (forall s, st s -> st' s) -> well_behaved st p -> well_behaved st' p.
Proof. intros Hst H t. eapply wp_weaken_stops; [done|apply H]. Qed.

Lemma well_behaved_for_each st {A} (body : A -> prog unit) l :
  (forall x, well_behaved st (body x)) -> well_behaved st (for_each body l).
Proof.
  intros Hb. induction l as [|x l IH]; [done|]. apply well_behaved_bind; [apply Hb|done].
Qed.

Lemma resource_safe_bind st {A B} (p : prog A) (f : A -> prog B) :
  resource_safe st p -> (forall x, resource_safe st (f x)) -> resource_safe st (p ≫= f).
Proof.
  intros Hp Hf t. eapply wp_seq; [apply Hp|]. intros x t' Ht'. cbn in Ht'.
  rewrite <- Ht'. apply Hf.
Qed.

Lemma resource_safe_ret st {A} (x : A) : resource_safe st (Ret x).
Proof. done. Qed.

Lemma resource_safe_act st a :
  (forall t, call_ok t a) -> neutral a = true -> resource_safe st (act a).
Proof. intros H Hn t. split; [apply H|]. intros r _. by apply live_neutral. Qed.

Lemma resource_safe_put st s text : resource_safe st (act (Put s text)).
Proof. by apply resource_safe_act. Qed.

Lemma resource_safe_report st what : resource_safe st (report what).
Proof. intros t. cbn. repeat (split; [done|intros ? _]). by rewrite !live_neutral. Qed.

Lemma resource_safe_if st {A} (b : bool) (p q : prog A) :
  resource_safe st p -> resource_safe st q -> resource_safe st (if b then p else q).
Proof. by destruct b. Qed.

Lemma resource_safe_weaken (st st' : stop -> Prop) {A} (p : prog A) :
  (forall s, st s -> st' s) -> resource_safe st p -> resource_safe st' p.
Proof. intros Hst H t. eapply wp_weaken_stops; [done|apply H]. Qed.

Lemma resource_safe_for_each st {A} (body : A -> prog unit) l :
  (forall x, resource_safe st (body x)) -> resource_safe st (for_each body l).
Proof.
  intros Hb. induction l as [|x l IH]; [done|]. apply resource_safe_bind; [apply Hb|done].
Qed.
End Contract.

Create HintDb wb.
#[export] Hint Resolve well_behaved_ret well_behaved_bind well_behaved_put
  well_behaved_report well_behaved_if well_behaved_for_each
  resource_safe_ret resource_safe_bind resource_safe_put
  resource_safe_report resource_safe_if resource_safe_for_each : wb.
#[export] Hint Unfold printf eprintf : wb.
#[export] Hint Extern 1 (well_behaved _ (act _)) =>
  apply well_behaved_act; intros; exact I : wb.
#[export] Hint Extern 1 (resource_safe _ (act _)) =>
  apply resource_safe_act; [intros; exact I|reflexivity] : wb.

(** Structural proofs of good behaviour and of release: the hints cover the calls and the
    functions called. *)
Ltac wb_step :=
  match goal with
  | |- forall _, _ => intro
  | |- well_behaved _ (if _ then _ else _) => apply well_behaved_if
  | |- well_behaved _ (match ?x with _ => _ end) => destruct x
  | |- well_behaved _ (_ ≫= _) => apply well_behaved_bind
  | |- well_behaved _ (Ret _) => apply well_behaved_ret
  | |- well_behaved _ _ => solve [eauto with wb]
  | |- resource_safe _ (if _ then _ else _) => apply resource_safe_if
  | |- resource_safe _ (match ?x with _ => _ end) => destruct x
  | |- resource_safe _ (_ ≫= _) => apply resource_safe_bind
  | |- resource_safe _ (Ret _) => apply resource_safe_ret
  | |- resource_safe _ _ => solve [eauto with wb]
  end.
Ltac wb :=
  cbn [argv_at lookup list_lookup]; repeat (autounfold with wb; cbv beta zeta; wb_step).

(** ** Output of a trace *)

Fixpoint output_of (s : stream) (t : trace) : string :=
  match t with
  | [] => ""
  | Ev a _ :: t' =>
      match a with
      | Put s' text =>
          match s, s' with
          | Stdout, Stdout | Stderr, Stderr => text +:+ output_of s t'
          | _, _ => output_of s t'
          end
      | _ => output_of s t'
      end
  end.

Lemma output_of_app s t1 t2 : output_of s (t1 ++ t2) = output_of s t1 +:+ output_of s t2.
Proof.
  induction t1 as [|[a r] t1 IH]; [done|].
  destruct a; cbn; try apply IH. destruct s, s0; rewrite ?IH, ?str_app_assoc; done.
Qed.

(** What an observer of single events sees of a trace. *)
Definition observe {B} (f : event -> list B) (t : trace) : list B := flat_map f t.

Lemma observe_app {B} (f : event -> list B) t1 t2 :
  observe f (t1 ++ t2) = observe f t1 ++ observe f t2.
Proof. apply flat_map_app. Qed.

(** The pieces printed on the standard output. *)
Definition put_of (e : event) : list string :=
  match e with Ev (Put Stdout s) _ => [s] | _ => [] end.
Definition puts : trace -> list string := observe put_of.

(** A loop whose body never stops, seen through an observer. *)
Lemma exec_for_each {A B} (f : event -> list B) (body : A -> prog unit) (g : A -> list B) l t o :
  (forall x t o, exec (body x) t o -> o = Returned tt /\ observe f t = g x) ->
  exec (for_each body l) t o -> o = Returned tt /\ observe f t = flat_map g l.
Proof.
  intros Hbody. revert t o. induction l as [|x l IH]; intros t o H; cbn in H.
  - apply exec_inv in H as [-> ->]. done.
  - apply exec_bind_inv in H as [(u & t1 & t2 & H1 & H2 & ->)|(s & H1 & _)].
    + apply Hbody in H1 as [_ H1]. apply IH in H2 as [-> H2].
      rewrite observe_app, H1, H2. done.
    + by apply Hbody in H1 as [? _].
Qed.

(** The directory entries a trace has read. *)
Definition entries : trace -> list (string * bool) :=
  observe (fun e => match e with Ev (Readdir _) (Some x) => [x] | _ => [] end).

(** A directory loop whose body always goes on prints the body's text for each
    entry, or runs out of fuel after that many entries. *)
Lemma exec_while_readdir (body : string -> bool -> prog bool) (g : string * bool -> string)
    fuel dir t o :
  (forall d b t o, exec (body d b) t o ->
     o = Returned true /\ output_of Stdout t = g (d, b) /\ entries t = []) ->
  exec (while_readdir fuel dir body) t o ->
  output_of Stdout t = foldr (fun x s => g x +:+ s) "" (entries t) /\
  (o = Returned true \/ (o = Stopped OutOfFuel /\ (fuel <= length (entries t))%nat)).
Proof.
  intros Hb. revert t o. induction fuel as [|fuel IH]; intros t o H.
  - apply exec_inv in H as [-> ->]. cbn. auto with lia.
  - apply exec_inv in H as ([[d b]|] & t' & -> & H); cbn in H.
    + apply (exec_bind_inv (body d b)) in H
        as [(x & t1 & t2 & H1 & H2 & ->)|(s & H1 & _)];
        apply Hb in H1 as (E & Hout & Hent); [|done]. injection E as ->.
      apply IH in H2 as [H2 Ho]. cbn [entries observe flat_map output_of app].
      fold (observe (fun e => match e with Ev (Readdir _) (Some x) => [x] | _ => [] end)
              (t1 ++ t2)). fold entries. unfold entries in *.
      rewrite observe_app, output_of_app, Hent, Hout, H2. cbn [app foldr length].
      split; [done|]. destruct Ho as [->|[-> ?]]; auto with lia.
    + apply exec_inv in H as [-> ->]. cbn. auto.
Qed.

(** A directory loop is as well behaved as its body, on a stream it holds. *)
Lemma wp_while_readdir `{Platform} st (body : string -> bool -> prog bool) fuel dir t
    (s : gset resource) :
  st OutOfFuel -> RDir dir ∈ s ->
  (forall d b t, s ⊆ live t -> wp (safely st) (body d b) t (fun _ t' => s ⊆ live t')) ->
  s ⊆ live t -> wp (safely st) (while_readdir fuel dir body) t (fun _ t' => s ⊆ live t').
Proof.
  intros Hst Hdir Hb. revert t. induction fuel as [|fuel IH]; intros t Ht; [exact Hst|].
  cbn. split; [by apply Ht|]. intros [[d b]|] _.
  - cbn. eapply (wp_seq _ (body d b)).
    + apply Hb. by rewrite live_neutral.
    + intros [] t' Ht'; [by apply IH|done].
  - cbn. by rewrite live_neutral.
Qed.

(** [p] prints [s], makes no other call and returns [rc], always. *)
Definition outputs (p : prog Z) (s : string) (rc : Z) : Prop :=
  forall t o, exec p t o <-> t = [Ev (Put Stdout s) tt] /\ o = Returned rc.

Lemma outputs_printf s rc : outputs (printf s;; Ret rc) s rc.
Proof.
  intros t o. split.
  - intros H. apply exec_inv in H as ([] & t' & -> & H).
    apply exec_inv in H as [-> ->]. done.
  - intros [-> ->]. repeat constructor.
Qed.

(** ** An environment for evaluation

    Every call succeeds; memory, ports and files hold the byte [b] everywhere
    and nothing is remembered.  The witnesses run programs against it. *)
Definition env_success (b : byte) (u : unit) (a : action) : result a * unit :=
  (match a return result a with
   | Read _ n => Some (replicate (Z.to_nat n) b)
   | Write _ bs => Z.of_nat (length bs)
   | I2cSmbus _ _ _ _ data =>
       (0, match data with Some cells => replicate (length cells) b | None => [] end)
   | I2cRdwr _ msgs buf => (Z.of_nat (length msgs), replicate (length buf) b)
   | Strerror _ => "Success"
   | Put _ _ | Store _ _ _ | PortOut _ _ _ => tt
   | Gettimeofday => (0, 0)
   | Rdtsc => (byte.unsigned b, byte.unsigned b)
   | Cpuid _ _ => (byte.unsigned b, byte.unsigned b, byte.unsigned b, byte.unsigned b)
   | Readlink _ _ => Some "/usr/local/sbin/iotools"
   | Readdir _ => None
   | Glob _ => (0, ["/proc/device-tree/cpus/cpu@8/ibm,chip-id"])
   | Open _ _ => 3
   | Opendir _ => 1
   | Getpagesize => 4096
   | Mmap _ _ _ _ => 65536
   | Load bits _ | PortIn bits _ => le_combine (replicate (Z.to_nat (bits / 8)) b)
   | Fwrite _ _ nmemb => nmemb
   | SysconfNprocessors => 2
   | _ => 0
   end, tt).

(** Run [p] in it: provide the trace, and the execution as [Hrun]. *)
Ltac run_env b p :=
  let r := eval vm_compute in (run (env_success b) tt p) in
  lazymatch r with
  | (?o, ?t) =>
      exists t;
      assert (exec p t o) as Hrun by
        (let H := fresh in let E := fresh in
         pose proof (run_exec (env_success b) tt p) as H;
         assert (run (env_success b) tt p = (o, t)) as E by (vm_compute; reflexivity);
         rewrite E in H; exact H)
  end.

(** Its answers keep the contract, on an explicit trace. *)
Ltac relied_step :=
  match goal with
  | |- relied _ _ _ => cbn [relied ev_act ev_res safely rely app kernel_ok fst snd]
  | |- _ /\ _ => split
  | |- True => exact I
  | |- _ ∉ live _ => apply (bool_decide_unpack _); vm_compute; exact I
  | |- forall _, _ => intros; simplify_eq
  | |- _ => solve [done | lia | discriminate | cbn; lia | vm_compute; intuition discriminate
                  | (exists 12; done)]
  | |- _ \/ _ => right
  end.
Ltac relied_env := repeat relied_step.

(** ** Proof automation *)

(** Normalise a program under [wp]. *)
Ltac wp_norm :=
  cbv beta delta [printf eprintf strerror_errno report read_exact act
                  mbind prog_mbind];
  cbn [prog_bind argv_at defined wp guar rely stops safely kernel_ok call_ok
       lookup list_lookup fst snd];
  try change (-1 <? 0) with true; try change (0 <? 0) with false;
  try change (negb (-1 =? 0)) with true; try change (negb (0 =? 0)) with false.

(** The live set of a trace of explicit events. *)
Ltac live_norm :=
  repeat match goal with
  | H : context [live (_ ++ [_])] |- _ => rewrite live_snoc in H; cbn [live_step] in H
  end;
  rewrite ?live_snoc; cbn [live_step];
  repeat match goal with
  | H : ?b = _ |- context [if ?b then _ else _] => rewrite H
  | H : ?b = ?v, H' : context [if ?b then _ else _] |- _ => rewrite H in H'
  end.

(** The handle a call returned is fresh: the failure case is contradicted by
    the program's own test. *)
Ltac fresh_handles :=
  repeat match goal with
  | H : (_ <? _) = _ |- _ => first [apply Z.ltb_lt in H | apply Z.ltb_ge in H]
  | H : (_ =? _) = _ |- _ => first [apply Z.eqb_eq in H | apply Z.eqb_neq in H]
  | H : _ \/ (_ /\ _ ∉ live _) |- _ => destruct H as [?|[? ?]]; [exfalso; lia|]
  | H : _ \/ _ ∉ live _ |- _ => destruct H as [?|?]; [exfalso; lia|]
  end.

Lemma release_fresh (r : resource) (s : gset resource) : r ∉ s -> ({[r]} ∪ s) ∖ {[r]} = s.
Proof. set_solver. Qed.

Ltac live_solve :=
  live_norm;
  first [ done
        | reflexivity
        | apply elem_of_union_l, elem_of_singleton; reflexivity
        | fresh_handles; rewrite ?release_fresh by assumption; done
        | fresh_handles; set_solver ].

(** The subprogram that runs first. *)
Ltac prog_head p :=
  lazymatch p with prog_bind _ ?q => prog_head q | _ => p end.

(** Case analysis on what it branches on. *)
Ltac head_cases h :=
  lazymatch h with
  | if ?b then _ else _ => destruct b eqn:?
  | match ?x with _ => _ end => destruct x eqn:?
  | defined (if ?b then _ else _) => destruct b eqn:?
  | defined ?x => destruct x eqn:?
  | argv_at ?l 0 => destruct l eqn:?
  end.

(** One step of symbolic execution. *)
Ltac wp_step :=
  match goal with
  | |- True => exact I
  | |- wp _ (if true then _ else _) _ _ => cbv iota
  | |- wp _ (if false then _ else _) _ _ => cbv iota
  | |- wp _ ?p _ _ => let h := prog_head p in head_cases h
  | |- _ /\ _ => split
  | |- forall _, _ => intro
  end.
Ltac wp_run := repeat (wp_norm; wp_step); wp_norm.

(** Symbolic execution of a hypothesis [exec p t o]: one goal per path, with
    the trace a list of explicit events. *)
Ltac prog_norm_in H :=
  cbv beta delta [printf eprintf strerror_errno report read_exact act
                  mbind prog_mbind] in H;
  cbn [prog_bind argv_at defined lookup list_lookup fst snd] in H;
  try change (-1 <? 0) with true in H; try change (0 <? 0) with false in H;
  try change (negb (-1 =? 0)) with true in H; try change (negb (0 =? 0)) with false in H.
Ltac exec_step H :=
  prog_norm_in H;
  match type of H with
  | exec (if true then _ else _) _ _ => cbv iota in H
  | exec (if false then _ else _) _ _ => cbv iota in H
  | exec ?p _ _ => let h := prog_head p in head_cases h
  | exec (Act _ _) _ _ =>
      let r := fresh "r" in let t := fresh "t" in
      apply exec_inv in H as (r & t & -> & H)
  | exec (Ret _) _ _ => apply exec_inv in H as [? H]; simplify_eq
  | exec (Stop _) _ _ => apply exec_inv in H as [? H]; simplify_eq
  end.
Ltac unit_answers :=
  repeat match goal with
  | r : result (Put _ _) |- _ => destruct r
  | r : result (Store _ _ _) |- _ => destruct r
  | r : result (PortOut _ _ _) |- _ => destruct r
  end.
Ltac exec_run H := repeat exec_step H; subst; unit_answers.

(** The output of an explicit trace. *)
Ltac out_norm := cbn [output_of]; rewrite ?str_app_nil_r.

