(* ===== verification/DevFile.v ===== *)
(** * Access to a register through a device file

    The abstract specification shared by the CMOS, MSR, SCOM and PCI
    commands: a session opens a device file, seeks to the register's offset,
    transfers exactly the register's bytes and closes the file.  A session
    that fails stops at the failing call; [closes] says whether it still
    closes the file. *)

From S2P Require Import Prelude CLib Platform Sys.
Local Open Scope Z_scope.

(** The events other than diagnostics and output. *)
Definition is_device (e : event) : bool :=
  match ev_act e with GetErrno | Strerror _ | Put _ _ => false | _ => true end.
Definition device_events (t : trace) : trace := List.filter is_device t.

Lemma observe_device {B} (f : event -> list B) t :
  (forall e, is_device e = false -> f e = []) -> observe f (device_events t) = observe f t.
Proof.
  intros Hf. unfold observe, device_events in *. induction t as [|e t IH]; [done|]. cbn.
  destruct (is_device e) eqn:E; cbn; rewrite IH; [done|]. by rewrite (Hf _ E).
Qed.

Lemma device_events_app t1 t2 : device_events (t1 ++ t2) = device_events t1 ++ device_events t2.
Proof. apply List.filter_app. Qed.

Definition close_if (closes : bool) (fd : Z) (t : trace) : Prop :=
  if closes then exists r, t = [Ev (Close fd) r] else t = [].

(** Reading [n] bytes at [off]; the result is the bytes, if all went well. *)
Inductive read_session (closes : bool) (path : string) (flags off n : Z)
  : trace -> option (list byte) -> Prop :=
  | rs_open fd :
      fd < 0 -> read_session closes path flags off n [Ev (Open path flags) fd] None
  | rs_seek fd r t :
      0 <= fd -> r < 0 -> close_if closes fd t ->
      read_session closes path flags off n
        (Ev (Open path flags) fd :: Ev (Lseek fd off) r :: t) None
  | rs_short fd r bs t :
      0 <= fd -> 0 <= r ->
      (forall b, bs = Some b -> Z.of_nat (length b) <> n) -> close_if closes fd t ->
      read_session closes path flags off n
        (Ev (Open path flags) fd :: Ev (Lseek fd off) r :: Ev (Read fd n) bs :: t) None
  | rs_ok fd r bs r' :
      0 <= fd -> 0 <= r -> Z.of_nat (length bs) = n ->
      read_session closes path flags off n
        [Ev (Open path flags) fd; Ev (Lseek fd off) r; Ev (Read fd n) (Some bs);
         Ev (Close fd) r'] (Some bs).

(** Writing [bs] at [off]; the result says whether all of it was written. *)
Inductive write_session (closes : bool) (path : string) (flags off : Z) (bs : list byte)
  : trace -> bool -> Prop :=
  | ws_open fd :
      fd < 0 -> write_session closes path flags off bs [Ev (Open path flags) fd] false
  | ws_seek fd r t :
      0 <= fd -> r < 0 -> close_if closes fd t ->
      write_session closes path flags off bs
        (Ev (Open path flags) fd :: Ev (Lseek fd off) r :: t) false
  | ws_short fd r n t :
      0 <= fd -> 0 <= r -> n <> Z.of_nat (length bs) -> close_if closes fd t ->
      write_session closes path flags off bs
        (Ev (Open path flags) fd :: Ev (Lseek fd off) r :: Ev (Write fd bs) n :: t) false
  | ws_ok fd r n r' :
      0 <= fd -> 0 <= r -> n = Z.of_nat (length bs) ->
      write_session closes path flags off bs
        [Ev (Open path flags) fd; Ev (Lseek fd off) r; Ev (Write fd bs) n;
         Ev (Close fd) r'] true.

Create HintDb dev.
#[export] Hint Constructors read_session write_session : dev.

(** Turn the boolean tests of a symbolic execution into facts. *)
Ltac tests :=
  repeat match goal with
  | H : (_ <? _) = true |- _ => apply Z.ltb_lt in H
  | H : (_ <? _) = false |- _ => apply Z.ltb_ge in H
  | H : (_ =? _) = true |- _ => apply Z.eqb_eq in H
  | H : (_ =? _) = false |- _ => apply Z.eqb_neq in H
  | H : (if ?b then _ else _) = _ |- _ => destruct b eqn:?; simplify_eq
  | H : (match ?x with _ => _ end) = _ |- _ => destruct x eqn:?; simplify_eq
  | H : negb _ = true |- _ => apply negb_true_iff in H
  | H : negb _ = false |- _ => apply negb_false_iff in H
  end.

(** Close a session goal whose trace is explicit. *)
Ltac session :=
  cbn [device_events List.filter is_device ev_act];
  econstructor; rewrite ?length_le_split, ?length_host_bytes; solve [eauto | lia | congruence | (intros; congruence) |
                       (cbn; eauto) | (intros ? [= <-]; lia)].
