(* ===== verification/Resources.v ===== *)
(** * What a run acquires and what it still holds

    [live t] is what the calls of [t] have acquired and not released;
    [acquired t] is all they have acquired.  The lemmas compute both from the
    device events of a run. *)

From S2P Require Import Prelude CLib Platform Sys DevFile.
Local Open Scope Z_scope.

Section Resources.
Context {P : Platform}.

Definition acquired (t : trace) : gset resource := foldr (fun e s => live_step ∅ e ∪ s) ∅ t.

Lemma acquired_cons e t : acquired (e :: t) = live_step ∅ e ∪ acquired t.
Proof. done. Qed.

Lemma acquired_app t1 t2 : acquired (t1 ++ t2) = acquired t1 ∪ acquired t2.
Proof. 
  induction t1 as [|e t1 IH]; [set_solver|].
  cbn [app]. rewrite !acquired_cons, IH. set_solver.
Qed.

Lemma live_app t1 t2 : live (t1 ++ t2) = foldl live_step (live t1) t2.
Proof. apply foldl_app. Qed.

(** ** Calls that release, and calls that do neither *)

Definition releases (a : action) : bool :=
  match a with Close _ | Closedir _ | Munmap _ _ => true | _ => false end.

Definition idle (t : trace) : Prop := Forall (fun e => neutral (ev_act e) = true) t.
Definition growing (t : trace) : Prop := Forall (fun e => releases (ev_act e) = false) t.

Lemma live_step_neutral s a r : neutral a = true -> live_step s (Ev a r) = s.
Proof. by destruct a. Qed.

Lemma live_step_growing s a r :
  releases a = false -> live_step s (Ev a r) = live_step ∅ (Ev a r) ∪ s.
Proof. destruct a; cbn; intros; try done; repeat case_match; set_solver. Qed.

(** A run that releases nothing holds all it acquired. *)
Lemma live_growing t : growing t -> live t = acquired t.
Proof.
  intros H. assert (forall s, foldl live_step s t = acquired t ∪ s) as Hall.
  { induction H as [|[a r] t Ha _ IH]; intros s; cbn [foldl]; [set_solver|].
    rewrite IH, (live_step_growing s), acquired_cons by done. set_solver. }
  unfold live. rewrite Hall. set_solver.
Qed.

Lemma live_idle t1 t2 : idle t2 -> live (t1 ++ t2) = live t1.
Proof.
  intros H. rewrite live_app. generalize (live t1) as s.
  induction H as [|[a r] t Ha _ IH]; intros s; cbn [foldl]; [done|].
  by rewrite live_step_neutral.
Qed.

Lemma acquired_idle t : idle t -> acquired t = ∅.
Proof.
  induction 1 as [|[a r] t Ha _ IH]; [done|].
  rewrite acquired_cons, live_step_neutral by done. set_solver.
Qed.

(** A run that only made calls of a kind. *)
Lemma calls_neutral {A} (p : prog A) t o :
  wp (calls (fun a => neutral a = true)) p [] (fun _ _ => True) -> exec p t o -> idle t.
Proof. apply calls_exec. Qed.

Lemma calls_growing {A} (p : prog A) t o :
  wp (calls (fun a => releases a = false)) p [] (fun _ _ => True) -> exec p t o -> growing t.
Proof. apply calls_exec. Qed.

(** A directory loop makes the calls of its body, besides reading. *)
Lemma while_readdir_calls (G : action -> Prop) body fuel dir t :
  G (Readdir dir) -> (forall d b t, wp (calls G) (body d b) t (fun _ _ => True)) ->
  wp (calls G) (while_readdir fuel dir body) t (fun _ _ => True).
Proof.
  intros Hd Hb. revert t. induction fuel as [|fuel IH]; intros t; [done|].
  cbn [while_readdir]. split; [done|]. intros [[d b]|] _; [|done].
  eapply (wp_seq _ (body d b)); [apply Hb|]. intros [] t' _; [apply IH|done].
Qed.

(** ** Diagnostics and output hold nothing *)

Lemma other_neutral e : is_device e = false -> neutral (ev_act e) = true.
Proof. destruct e as [[] ?]; done. Qed.

Lemma live_device t : live (device_events t) = live t.
Proof.
  unfold live. generalize (∅ : gset resource) as s.
  induction t as [|[a r] t IH]; intros s; [done|]. cbn [device_events List.filter].
  destruct (is_device (Ev a r)) eqn:E; cbn [foldl]; [apply IH|].
  apply other_neutral in E. rewrite live_step_neutral by done. apply IH.
Qed.

Lemma acquired_device t : acquired (device_events t) = acquired t.
Proof.
  induction t as [|[a r] t IH]; [done|]. cbn [device_events List.filter].
  fold (device_events t). destruct (is_device (Ev a r)) eqn:E; rewrite !acquired_cons, ?IH; [done|].
  apply other_neutral in E. rewrite live_step_neutral by done. set_solver.
Qed.

(** ** The contract after calls that hold nothing *)

Lemma kernel_ok_live t1 t2 a r : live t1 = live t2 -> kernel_ok t1 a r -> kernel_ok t2 a r.
Proof. intros E. destruct a; cbn; rewrite ?E; done. Qed.

Lemma relied_live st t1 t2 t :
  live t1 = live t2 -> relied (safely st) t1 t -> relied (safely st) t2 t.
Proof.
  revert t1 t2. induction t as [|e t IH]; intros t1 t2 E; [done|]. intros [H1 H2].
  split; [by eapply kernel_ok_live|]. eapply IH; [|exact H2].
  by rewrite !live_snoc, E.
Qed.

Lemma relied_app (S : spec) t t1 t2 :
  relied S t (t1 ++ t2) -> relied S t t1 /\ relied S (t ++ t1) t2.
Proof.
  revert t. induction t1 as [|e t1 IH]; intros t H; cbn in *; [by rewrite app_nil_r|].
  destruct H as [H1 H2]. apply IH in H2 as [H2 H3]. rewrite <- app_assoc in H3. done.
Qed.

Lemma relied_idle st t1 t2 :
  idle t1 -> relied (safely st) [] (t1 ++ t2) -> relied (safely st) [] t2.
Proof.
  intros Hi H. apply relied_app in H as [_ H]. eapply relied_live; [|exact H].
  apply (live_idle [] t1 Hi).
Qed.

Lemma live_after_idle t1 t2 : idle t1 -> live (t1 ++ t2) = live t2.
Proof.
  intros Hi. rewrite live_app. pose proof (live_idle [] t1 Hi) as E. cbn [app] in E.
  rewrite E. done.
Qed.

Lemma relied_stops st st' t t' : relied (safely st) t t' -> relied (safely st') t t'.
Proof. revert t. induction t' as [|e t' IH]; intros t; [done|]. intros [? ?]. split; auto. Qed.

(** What a program that releases its resources holds when it has returned. *)
Lemma resource_safe_exec st {A} (p : prog A) t x :
  resource_safe st p -> relied (safely no_stop) [] t -> exec p t (Returned x) -> live t = ∅.
Proof.
  intros Hp Hr Hex. apply (relied_stops _ st) in Hr.
  exact (proj2 (wp_exec _ _ _ _ _ _ (Hp []) Hex Hr)).
Qed.
End Resources.

(** What an explicit trace holds. *)
Ltac held :=
  unfold live, acquired; cbn [foldl foldr live_step app];
  repeat match goal with
  | H : ?b = _ |- context [if ?b then _ else _] => rewrite H
  end;
  set_solver.
