(* ===== verification/SmbusTypes.v ===== *)
(** * The data types of [smbus_rw.c]

    Operand sizes, the operation parameters and the operation descriptor
    [struct smbus_op], which command tables point to as private data. *)

From S2P Require Import Prelude CLib Platform Sys.
Local Open Scope Z_scope.

(** [enum IO_SIZE] of [commands.h]. *)
Definition SIZE8 : Z := 8.
Definition SIZE16 : Z := 16.
Definition SIZE32 : Z := 32.
Definition SIZE64 : Z := 64.

(** [enum SMBUS_SIZE]: the enumerators without a value count up from the
    previous one. *)
Definition SMBUS_SIZE_8 : Z := SIZE8.
Definition SMBUS_SIZE_16 : Z := SIZE16.
Definition SMBUS_SIZE_32 : Z := SIZE32.
Definition SMBUS_SIZE_64 : Z := SIZE64.
Definition SMBUS_SIZE_BLOCK : Z := 65.
Definition SMBUS_SIZE_BYTE : Z := 66.
Definition SMBUS_QUICK : Z := 67.
Definition SMBUS_PROC_CALL : Z := 68.
Definition SMBUS_BLOCK_PROC_CALL : Z := 69.
Definition SMBUS_WRITE_READ : Z := 70.

(** [I2C_SMBUS_BLOCK_MAX] of [linux-i2c-dev.h] and the size of the
    [SMBUS_DTYPE] union. *)
Definition I2C_SMBUS_BLOCK_MAX : Z := 32.
Definition SMBUS_DTYPE_SIZE : nat := 34.

(** [struct smbus_op_params].  A field is [None] while it is indeterminate. *)
Record smbus_op_params := {
  fd : option Z;
  reg : option Z;
  i2c_bus : option Z;
  address : option Z;
  read_count : option Z;
  len : option Z;
  data : option (list byte)
}.

(** The automatic variable [struct smbus_op_params params;]. *)
Definition params_uninit : smbus_op_params :=
  {| fd := None; reg := None; i2c_bus := None; address := None;
     read_count := None; len := None; data := None |}.

(** After [memset(&params, 0, sizeof(params))]. *)
Definition params_zero : smbus_op_params :=
  {| fd := Some 0; reg := Some 0; i2c_bus := Some 0; address := Some 0;
     read_count := Some 0; len := Some 0;
     data := Some (replicate SMBUS_DTYPE_SIZE Byte.x00) |}.

Definition set_fd v p := {| fd := Some v; reg := reg p; i2c_bus := i2c_bus p;
  address := address p; read_count := read_count p; len := len p; data := data p |}.
Definition set_reg v p := {| fd := fd p; reg := Some v; i2c_bus := i2c_bus p;
  address := address p; read_count := read_count p; len := len p; data := data p |}.
Definition set_i2c_bus v p := {| fd := fd p; reg := reg p; i2c_bus := Some v;
  address := address p; read_count := read_count p; len := len p; data := data p |}.
Definition set_address v p := {| fd := fd p; reg := reg p; i2c_bus := i2c_bus p;
  address := Some v; read_count := read_count p; len := len p; data := data p |}.
Definition set_read_count v p := {| fd := fd p; reg := reg p; i2c_bus := i2c_bus p;
  address := address p; read_count := Some v; len := len p; data := data p |}.
Definition set_len v p := {| fd := fd p; reg := reg p; i2c_bus := i2c_bus p;
  address := address p; read_count := read_count p; len := Some v; data := data p |}.
Definition set_data v p := {| fd := fd p; reg := reg p; i2c_bus := i2c_bus p;
  address := address p; read_count := read_count p; len := len p; data := Some v |}.

(** [struct smbus_op].  [perform_op] is also passed the descriptor itself, of
    which the functions only read the size: that is its second argument.  It
    returns its result and the parameters it modified through the pointer. *)
Record smbus_op := {
  op_size : Z;
  perform_op : smbus_op_params -> Z -> prog (Z * smbus_op_params)
}.
