(* ===== verification/Commands.v ===== *)
(** * Command tables and dispatch ([commands.h], [commands.c])

    Commands are grouped in static tables that each source file registers at
    start-up; [run_command] finds the command named by the first argument or
    by the name the program was invoked under, checks its prerequisites and
    calls its entry point. *)

From S2P Require Import Prelude CLib Platform Sys SmbusTypes.
Local Open Scope Z_scope.

(** ** Data ([commands.h]) *)

Record size_param := { size : Z }.
Definition size8 : size_param := {| size := SIZE8 |}.
Definition size16 : size_param := {| size := SIZE16 |}.
Definition size32 : size_param := {| size := SIZE32 |}.
Definition size64 : size_param := {| size := SIZE64 |}.

Record prereq_params := {
  min_args : Z; max_args : Z; usage : string; iopl_needed : Z
}.

(** [MAKE_PREREQ_PARAMS_VAR_ARGS] and [MAKE_PREREQ_PARAMS_FIXED_ARGS]. *)
Definition make_prereq_params_var_args (lo hi : Z) (u : string) (iopl_ : Z) : prereq_params :=
  {| min_args := lo; max_args := hi; usage := u; iopl_needed := iopl_ |}.
Definition make_prereq_params_fixed_args (n : Z) (u : string) (iopl_ : Z) : prereq_params :=
  make_prereq_params_var_args n n u iopl_.

(** The objects [privdata] points to, with their dynamic type: [NULL], a
    [struct logic_info], a [struct mmap_file_flags] or a [struct smbus_op]. *)
Inductive privdata_t :=
  | PrivNull
  | PrivLogic (op : Z)
  | PrivMmap (flags : Z)
  | PrivSmbus (op : smbus_op).

(** [struct cmd_info].  An entry point receives the [cmd_info] itself, of which
    it reads the private and size data only: these are the nested record. *)
Record cmd_data := { privdata : privdata_t; sizedata : option size_param }.
Record cmd_info := {
  name : string;
  entry : list string -> cmd_data -> prog Z;
  info : cmd_data;
  params : option prereq_params
}.

(** [struct cmd_group]; the [next] pointers are the list of groups. *)
Record cmd_group := {
  grp_name : string;
  description : option string;
  commands : list cmd_info
}.

Definition make_cmd (n : string) e priv : cmd_info :=
  {| name := n; entry := e; params := None;
     info := {| privdata := priv; sizedata := None |} |}.
Definition make_cmd_with_params (n : string) e priv p : cmd_info :=
  {| name := n; entry := e; params := Some p;
     info := {| privdata := priv; sizedata := None |} |}.
Definition make_cmd_with_params_size (n : string) e priv p s : cmd_info :=
  {| name := n; entry := e; params := Some p;
     info := {| privdata := priv; sizedata := Some s |} |}.

Definition get_command_size (d : cmd_data) : Z :=
  match sizedata d with None => -1 | Some s => size s end.

(** The data of a command with a size and no private data. *)
Definition sized (bits : Z) : cmd_data :=
  {| privdata := PrivNull; sizedata := Some {| size := bits |} |}.

(** ** Operations ([commands.c]) *)

(** [group_head] is the list of registered groups. *)
Definition register_command_group (group : cmd_group) (group_head : list cmd_group)
  : Z * list cmd_group := (0, group :: group_head).

(** Start-up: the constructors run in link order. *)
Definition register_all (groups : list cmd_group) : list cmd_group :=
  foldl (fun head g => (register_command_group g head).2) [] groups.

Fixpoint locate_in (cmd : string) (cmds : list cmd_info) : option cmd_info :=
  match cmds with
  | [] => None
  | c :: cmds' => if String.eqb cmd (name c) then Some c else locate_in cmd cmds'
  end.

Fixpoint locate_command (group_head : list cmd_group) (cmd : string) : option cmd_info :=
  match group_head with
  | [] => None
  | group :: next =>
      match locate_in cmd (commands group) with
      | Some c => Some c
      | None => locate_command next cmd
      end
  end.

Section Dispatch.
Context {P : Platform}.

Definition check_prereqs (argv : list string) (params : option prereq_params) : prog Z :=
  match params with
  | None => Ret 0
  | Some p =>
      let argc := Z.of_nat (length argv) in
      if (argc <? min_args p) || (max_args p <? argc) then
        a0 ← argv_at argv 0;
        eprintf ("usage: " +:+ a0 +:+ " " +:+ usage p +:+ newline);;
        Ret (-1)
      else if ARCH_X86 && negb (iopl_needed p =? 0) then
        r ← act (Iopl (iopl_needed p));
        if r <? 0 then
          eprintf ("can't set io privilege level" +:+ newline);;
          Ret (-1)
        else Ret 0
      else Ret 0
  end.

Definition _run_command (argv : list string) (c : cmd_info) : prog Z :=
  r ← check_prereqs argv (params c);
  if r <? 0 then Ret (-1) else entry c argv (info c).

(** [strrchr(argv[0], '/')], or the whole of it. *)
Definition basename (arg0 : string) : string :=
  match strrchr_slash arg0 with None => arg0 | Some (_, base) => base end.

Section Run.
Context (group_head : list cmd_group).
(** [iotools_fallback] is in [iotools.c]. *)
Context (iotools_fallback : list string -> prog Z).

Definition run_by_invocation (argv : list string) : prog Z :=
  a0 ← argv_at argv 0;
  match locate_command group_head (basename a0) with
  | Some c => _run_command argv c
  | None => iotools_fallback argv
  end.

Definition run_command (argv : list string) : prog Z :=
  if 1 <? Z.of_nat (length argv) then
    a1 ← argv_at argv 1;
    match locate_command group_head a1 with
    | Some c => _run_command (drop 1 argv) c
    | None => run_by_invocation argv
    end
  else run_by_invocation argv.
End Run.

(** The directory and the name of the running binary.  The static buffer is
    zero-initialised, so the link target is terminated unless it fills the
    buffer. *)
Definition locate_path_of_binary : prog (option (string * string)) :=
  r ← act (Readlink "/proc/self/exe" FILENAME_MAX);
  match r with
  | None =>
      eprintf ("Unable to locate currently running binary." +:+ newline);;
      Ret None
  | Some bin_fullpath =>
      if FILENAME_MAX <=? Z.of_nat (String.length bin_fullpath) then undef OutOfBounds
      else match strrchr_slash bin_fullpath with
           | None => undef NullPointer
           | Some (path_to_bin, bin_name) => Ret (Some (path_to_bin, bin_name))
           end
  end.

Definition build_symlink_name (path_to_bin : string) (cmd : cmd_info) : string :=
  snprintf FILENAME_MAX (path_to_bin +:+ "/" +:+ name cmd).

Definition make_link (path_to_bin bin_name : string) (cmd : cmd_info) : prog unit :=
  let link_name := build_symlink_name path_to_bin cmd in
  printf ("Creating link: " +:+ link_name +:+ " -> " +:+ bin_name +:+ newline);;
  r ← act (Symlink bin_name link_name);
  if negb (r =? 0)
  then eprintf ("Unable to create link: " +:+ link_name +:+ " -> " +:+ bin_name +:+ newline)
  else Ret tt.

Definition make_command_links (group_head : list cmd_group) : prog Z :=
  loc ← locate_path_of_binary;
  match loc with
  | None => Ret (-1)
  | Some (path_to_bin, bin_name) =>
      for_each (fun group => for_each (make_link path_to_bin bin_name) (commands group))
        group_head;;
      Ret 0
  end.

Definition clean_link (path_to_bin : string) (cmd : cmd_info) : prog unit :=
  let link_name := build_symlink_name path_to_bin cmd in
  r ← act (Unlink link_name);
  if r <? 0 then
    errno ← act GetErrno;
    if negb (errno =? ENOENT) then report ("Unable to remove link: " +:+ link_name)
    else Ret tt
  else Ret tt.

Definition clean_command_links (group_head : list cmd_group) : prog Z :=
  loc ← locate_path_of_binary;
  match loc with
  | None => Ret (-1)
  | Some (path_to_bin, bin_name) =>
      for_each (fun group => for_each (clean_link path_to_bin) (commands group))
        group_head;;
      Ret 0
  end.

Definition list_group (group : cmd_group) : prog unit :=
  printf (grp_name group +:+
          match description group with Some d => ": " +:+ d | None => "" end +:+ newline);;
  for_each (fun c => printf ("  " +:+ name c +:+ newline)) (commands group).

Definition list_commands (group_head : list cmd_group) : prog Z :=
  for_each list_group group_head;; Ret 0.
End Dispatch.

(** ** Lookup

    The nested loops of [locate_command] find the first command of that name
    in the concatenated tables. *)

Definition all_commands (groups : list cmd_group) : list cmd_info := flat_map commands groups.
Definition command_names (groups : list cmd_group) : list string :=
  map name (all_commands groups).

Lemma locate_in_find cmd cmds :
  locate_in cmd cmds = List.find (fun c => String.eqb cmd (name c)) cmds.
Proof. induction cmds as [|c cmds IH]; cbn; [done|]. by rewrite IH. Qed.

Lemma find_app {A} (f : A -> bool) l1 l2 :
  List.find f (l1 ++ l2) = match List.find f l1 with Some x => Some x | None => List.find f l2 end.
Proof. induction l1 as [|x l1 IH]; cbn; [done|]. by destruct (f x). Qed.

Lemma locate_command_find groups cmd :
  locate_command groups cmd = List.find (fun c => String.eqb cmd (name c)) (all_commands groups).
Proof.
  induction groups as [|g groups IH]; cbn; [done|].
  rewrite locate_in_find, find_app, IH. done.
Qed.

Lemma locate_command_some groups cmd c :
  locate_command groups cmd = Some c -> In c (all_commands groups) /\ name c = cmd.
Proof.
  rewrite locate_command_find. intros H. apply find_some in H as [H1 H2].
  split; [done|]. by apply String.eqb_eq in H2.
Qed.

Lemma locate_command_none groups cmd :
  locate_command groups cmd = None <-> ~ In cmd (command_names groups).
Proof.
  rewrite locate_command_find. split.
  - intros H Hin. apply in_map_iff in Hin as (c & <- & Hc).
    apply (find_none _ _ H) in Hc. by rewrite String.eqb_refl in Hc.
  - intros H. destruct (List.find _ _) as [c|] eqn:E; [|done]. exfalso. apply H.
    apply find_some in E as [Hin E]. apply String.eqb_eq in E as ->. by apply in_map.
Qed.

(** With unique names, lookup is membership. *)
Lemma locate_command_unique groups cmd c :
  List.NoDup (command_names groups) ->
  locate_command groups cmd = Some c <-> In c (all_commands groups) /\ name c = cmd.
Proof.
  intros Hnd. split; [apply locate_command_some|]. intros [Hin <-].
  destruct (locate_command groups (name c)) as [c'|] eqn:E.
  - apply locate_command_some in E as [Hin' Hname]. f_equal.
    unfold command_names in Hnd. revert Hnd Hin Hin' Hname.
    generalize (all_commands groups) as l. induction l as [|x l IH]; [done|]. cbn.
    intros Hnd [->|Hin] [->|Hin'] Hname; inversion_clear Hnd as [|?? Hx Hnd']; auto.
    + exfalso. apply Hx. rewrite <- Hname. by apply in_map.
    + exfalso. apply Hx. rewrite Hname. by apply in_map.
  - apply locate_command_none in E. exfalso. apply E. by apply in_map.
Qed.

(** Registration prepends. *)
Lemma register_all_rev groups : register_all groups = rev groups.
Proof.
  unfold register_all, register_command_group. cbn.
  rewrite <- (app_nil_r (rev groups)). generalize (@nil cmd_group) as acc.
  induction groups as [|g l IH]; intros acc; cbn; [done|]. rewrite IH. by rewrite <- app_assoc.
Qed.

Lemma all_commands_perm groups groups' :
  Permutation groups groups' -> Permutation (all_commands groups) (all_commands groups').
Proof. intros. by apply Permutation_flat_map. Qed.

(** The order in which the constructors run does not matter. *)
Theorem locate_command_order groups groups' cmd :
  List.NoDup (command_names groups) -> Permutation groups groups' ->
  locate_command (register_all groups) cmd = locate_command (register_all groups') cmd.
Proof.
  intros Hnd Hp. rewrite !register_all_rev.
  assert (Permutation (all_commands (rev groups)) (all_commands (rev groups'))) as Hc.
  { apply all_commands_perm. by rewrite <- !Permutation_rev. }
  assert (List.NoDup (command_names (rev groups))) as Hnd1.
  { eapply Permutation_NoDup; [|exact Hnd]. apply Permutation_map, all_commands_perm.
    apply Permutation_rev. }
  assert (List.NoDup (command_names (rev groups'))) as Hnd2.
  { eapply Permutation_NoDup; [|exact Hnd1]. by apply Permutation_map. }
  apply option_eq. intros c. rewrite !locate_command_unique by done.
  split; intros [H ?]; (split; [|done]); revert H; by apply Permutation_in.
Qed.

(** ** Dispatch *)

Section DispatchSpec.
Context {P : Platform}.
Context (groups : list cmd_group) (fallback : list string -> prog Z).

(** What an invocation means: the first argument names a command, which gets
    the arguments from its own name on; otherwise the last component of the
    program's own name does, which gets all of them. *)
Inductive dispatches : list string -> list string -> cmd_info -> Prop :=
  | dispatch_argument a0 a1 args c :
      In c (all_commands groups) -> name c = a1 ->
      dispatches (a0 :: a1 :: args) (a1 :: args) c
  | dispatch_link a0 args c :
      (forall a1, hd_error args = Some a1 -> ~ In a1 (command_names groups)) ->
      In c (all_commands groups) -> name c = basename a0 ->
      dispatches (a0 :: args) (a0 :: args) c.

(** Neither the first argument nor the program's name is a command. *)
Definition no_command (argv : list string) : Prop :=
  match argv with
  | [] => False
  | a0 :: args =>
      (forall a1, hd_error args = Some a1 -> ~ In a1 (command_names groups)) /\
      ~ In (basename a0) (command_names groups)
  end.

(** With unique names, [run_command] does exactly that. *)
Theorem run_command_dispatches argv argv' c :
  List.NoDup (command_names groups) -> dispatches argv argv' c ->
  run_command groups fallback argv = _run_command argv' c.
Proof.
  intros Hnd H. unfold run_command, run_by_invocation.
  destruct H as [a0 a1 args c Hin Hn|a0 args c Hno Hin Hn].
  - cbn -[Z.of_nat]. destruct (Z.ltb_spec 1 (Z.of_nat (S (S (length args))))); [|lia].
    rewrite (proj2 (locate_command_unique _ a1 c Hnd)) by done. done.
  - destruct args as [|a1 args]; cbn -[Z.of_nat].
    + by rewrite (proj2 (locate_command_unique _ (basename a0) c Hnd)) by done.
    + destruct (Z.ltb_spec 1 (Z.of_nat (S (S (length args))))); [|lia].
      rewrite (proj2 (locate_command_none _ a1)) by by apply Hno.
      by rewrite (proj2 (locate_command_unique _ (basename a0) c Hnd)) by done.
Qed.

Theorem run_command_falls_back argv :
  no_command argv -> run_command groups fallback argv = fallback argv.
Proof.
  unfold run_command, run_by_invocation. destruct argv as [|a0 [|a1 args]]; [done|..];
    cbn -[Z.of_nat]; intros [H1 H2].
  - by rewrite (proj2 (locate_command_none _ _)) by done.
  - destruct (Z.ltb_spec 1 (Z.of_nat (S (S (length args))))); [|lia].
    rewrite (proj2 (locate_command_none _ a1)) by by apply H1.
    by rewrite (proj2 (locate_command_none _ _)) by done.
Qed.

(** Every invocation is one or the other. *)
Lemma dispatch_total argv :
  argv <> [] -> no_command argv \/ exists argv' c, dispatches argv argv' c.
Proof.
  destruct argv as [|a0 args]; [done|]. intros _.
  assert ((forall a1, hd_error args = Some a1 -> ~ In a1 (command_names groups)) \/
          exists a1 args', args = a1 :: args' /\ In a1 (command_names groups))
    as [Hno|(a1 & args' & -> & Hin)].
  { destruct args as [|a1 args']; [by left|].
    destruct (in_dec String.eq_dec a1 (command_names groups)); [right; eauto|].
    left. by intros ? [= <-]. }
  - destruct (in_dec String.eq_dec (basename a0) (command_names groups)) as [Hin|].
    + right. apply in_map_iff in Hin as (c & Hn & Hc). exists (a0 :: args), c. by constructor.
    + by left.
  - right. apply in_map_iff in Hin as (c & <- & Hc). exists (name c :: args'), c.
    by constructor.
Qed.
End DispatchSpec.

(** ** Prerequisites *)

Section Prereqs.
Context {P : Platform}.

Definition args_ok (argv : list string) (c : cmd_info) : bool :=
  match params c with
  | None => true
  | Some p => (min_args p <=? Z.of_nat (length argv)) &&
              (Z.of_nat (length argv) <=? max_args p)
  end.

Definition usage_message (a0 : string) (c : cmd_info) : string :=
  match params c with
  | Some p => "usage: " +:+ a0 +:+ " " +:+ usage p +:+ newline
  | None => ""
  end.

(** The I/O privilege level a command asks for, where there is one. *)
Definition iopl_request (c : cmd_info) : option Z :=
  match params c with
  | Some p => if ARCH_X86 && negb (iopl_needed p =? 0) then Some (iopl_needed p) else None
  | None => None
  end.

(** C14: an entry point only runs with an acceptable number of arguments and,
    on x86, after [iopl] granted the level its table entry asks for.  Otherwise
    the command fails with exactly one message: its usage line, or that the
    privilege level cannot be set. *)
Theorem run_command_prereqs a0 args c t o :
  exec (_run_command (a0 :: args) c) t o ->
  if args_ok (a0 :: args) c then
    match iopl_request c with
    | None => exec (entry c (a0 :: args) (info c)) t o
    | Some level => exists (r : Z) (t' : trace), t = Ev (Iopl level) r :: t' /\
        if r <? 0
        then t' = [Ev (Put Stderr ("can't set io privilege level" +:+ newline)) tt] /\
             o = Returned (-1)
        else exec (entry c (a0 :: args) (info c)) t' o
    end
  else t = [Ev (Put Stderr (usage_message a0 c)) tt] /\ o = Returned (-1).
Proof.
  unfold _run_command, check_prereqs, args_ok, usage_message, iopl_request.
  destruct (params c) as [p|]; [|done]. rewrite (Z.ltb_antisym _ (max_args p)), (Z.ltb_antisym (min_args p)).
  destruct (min_args p <=? _), (_ <=? max_args p); intros H; cbn [negb orb andb] in *;
    try (exec_run H; done).
  destruct (ARCH_X86 && negb (iopl_needed p =? 0)); [|exact H].
  exec_step H. exists r, t0. split; [done|]. prog_norm_in H.
  destruct (r <? 0); [|exact H]. exec_run H. done.
Qed.
End Prereqs.

(** ** Links *)

Section Links.
Context {P : Platform}.

Definition symlinked : trace -> list (string * string) :=
  observe (fun e => match e with Ev (Symlink a b) _ => [(a, b)] | _ => [] end).
Definition unlinked : trace -> list string :=
  observe (fun e => match e with Ev (Unlink a) _ => [a] | _ => [] end).

(** The links of a binary [dir/bin]: one per command, in table order. *)
Definition links (groups : list cmd_group) (dir bin : string) : list (string * string) :=
  map (fun c => (bin, build_symlink_name dir c)) (all_commands groups).

Lemma flat_map_groups {B} (f : cmd_info -> B) groups :
  flat_map (fun g => flat_map (fun c => [f c]) (commands g)) groups
  = map f (all_commands groups).
Proof.
  induction groups as [|g groups IH]; cbn; [done|]. by rewrite IH, map_app.
Qed.

Lemma exec_make_links dir bin groups t o :
  exec (for_each (fun g => for_each (make_link dir bin) (commands g)) groups) t o ->
  o = Returned tt /\ symlinked t = links groups dir bin.
Proof.
  intros H. unfold links. rewrite <- flat_map_groups.
  eapply exec_for_each; [|exact H]. clear. intros g t o.
  apply exec_for_each. clear. intros c t o H. unfold make_link in H. exec_run H; done.
Qed.

Lemma exec_clean_links dir groups t o :
  exec (for_each (fun g => for_each (clean_link dir) (commands g)) groups) t o ->
  o = Returned tt /\ unlinked t = map (build_symlink_name dir) (all_commands groups).
Proof.
  intros H. rewrite <- flat_map_groups.
  eapply exec_for_each; [|exact H]. clear. intros g t o.
  apply exec_for_each. clear. intros c t o H. unfold clean_link in H. exec_run H; done.
Qed.

(** [--make-links] attempts exactly the links of the running binary. *)
Theorem make_command_links_spec groups t o :
  exec (make_command_links groups) t o ->
  exists r t', t = Ev (Readlink "/proc/self/exe" FILENAME_MAX) r :: t' /\
  match r with
  | None => o = Returned (-1) /\ symlinked t' = []
  | Some path =>
      forall dir bin, path = dir +:+ "/" +:+ bin -> strrchr_slash bin = None ->
      Z.of_nat (String.length path) < FILENAME_MAX ->
      o = Returned 0 /\ symlinked t' = links groups dir bin
  end.
Proof.
  intros H. unfold make_command_links, locate_path_of_binary in H.
  prog_norm_in H. exec_step H. exists r, t0. split; [done|].
  destruct r as [path|]; [|exec_run H; done].
  intros dir bin -> Hbin Hlen.
  destruct (Z.leb_spec FILENAME_MAX (Z.of_nat (String.length (dir +:+ "/" +:+ bin))));
    [lia|].
  rewrite strrchr_slash_app in H by done. cbn [mbind prog_mbind prog_bind] in H.
  apply (exec_bind_inv (for_each _ _)) in H
    as [(x & t1 & t2 & H1 & H2 & ->)|(s & H1 & _)];
    apply exec_make_links in H1 as [? H1]; [|done].
  apply exec_inv in H2 as [-> ->]. by rewrite app_nil_r.
Qed.

(** C33: [--clean-links] tries to remove exactly the links [--make-links] makes,
    and nothing if the binary cannot be located. *)
Theorem clean_command_links_spec groups t o :
  exec (clean_command_links groups) t o ->
  exists r t', t = Ev (Readlink "/proc/self/exe" FILENAME_MAX) r :: t' /\
  match r with
  | None => o = Returned (-1) /\ unlinked t' = []
  | Some path =>
      forall dir bin, path = dir +:+ "/" +:+ bin -> strrchr_slash bin = None ->
      Z.of_nat (String.length path) < FILENAME_MAX ->
      o = Returned 0 /\ unlinked t' = map snd (links groups dir bin)
  end.
Proof.
  intros H. unfold clean_command_links, locate_path_of_binary in H.
  prog_norm_in H. exec_step H. exists r, t0. split; [done|].
  destruct r as [path|]; [|exec_run H; done].
  intros dir bin -> Hbin Hlen.
  destruct (Z.leb_spec FILENAME_MAX (Z.of_nat (String.length (dir +:+ "/" +:+ bin))));
    [lia|].
  rewrite strrchr_slash_app in H by done. cbn [mbind prog_mbind prog_bind] in H.
  apply (exec_bind_inv (for_each _ _)) in H
    as [(x & t1 & t2 & H1 & H2 & ->)|(s & H1 & _)];
    apply exec_clean_links in H1 as [? H1]; [|done].
  apply exec_inv in H2 as [-> ->]. rewrite app_nil_r. split; [done|].
  unfold links. by rewrite map_map.
Qed.

(** Invoking the program through a link it made runs the link's command. *)
Theorem link_dispatches groups dir c args :
  In c (all_commands groups) -> strrchr_slash (name c) = None ->
  Z.of_nat (String.length (dir +:+ "/" +:+ name c)) < FILENAME_MAX ->
  (forall a1, hd_error args = Some a1 -> ~ In a1 (command_names groups)) ->
  dispatches groups (build_symlink_name dir c :: args) (build_symlink_name dir c :: args) c.
Proof.
  intros Hin Hns Hlen Hargs. constructor; [done..|].
  unfold build_symlink_name, basename. by rewrite snprintf_fits, strrchr_slash_app.
Qed.
End Links.

(** ** Witnesses *)

#[local] Existing Instance linux_x86_64.

(** A command that only prints. *)
Definition sample_command : cmd_info :=
  make_cmd_with_params "hello" (fun _ _ => printf "hello";; Ret 0) PrivNull
    (make_prereq_params_fixed_args 1 "" 3).
Definition sample_group : cmd_group :=
  {| grp_name := "SAMPLE"; description := None; commands := [sample_command] |}.

(** The level granted, and the level refused. *)
Example run_command_prereqs_witness :
  (exists t, exec (_run_command ["hello"] sample_command) t (Returned 0) /\
   exists (r : Z) t', t = Ev (Iopl 3) r :: t') /\
  (exists t, exec (_run_command ["hello"] sample_command) t (Returned (-1)) /\
   output_of Stderr t = "can't set io privilege level" +:+ newline).
Proof.
  split.
  - run_env Byte.x00 (_run_command ["hello"] sample_command). split; [exact Hrun|].
    destruct (run_command_prereqs _ _ _ _ _ Hrun) as (r & t' & E & _). exists r, t'. exact E.
  - set (msg := "can't set io privilege level" +:+ newline).
    assert (exec (_run_command ["hello"] sample_command)
              [Ev (Iopl 3) (-1); Ev (Put Stderr msg) tt] (Returned (-1))) as H
      by (apply (exec_act (Iopl 3) _ (-1)), (exec_act (Put Stderr msg) _ tt), (exec_ret (-1))).
    eexists. split; [exact H|].
    pose proof (run_command_prereqs "hello" [] sample_command _ _ H) as (r & t' & E & Hr).
    assert (r = -1) as Er
      by exact (eq_sym (f_equal (fun u => match u with Ev (Iopl _) x :: _ => x | _ => 0 end) E)).
    rewrite Er in Hr. rewrite E, (proj1 Hr). reflexivity.
Defined.

Example clean_command_links_spec_witness :
  exists t, exec (clean_command_links [sample_group]) t (Returned 0) /\
  exists r t', t = Ev (Readlink "/proc/self/exe" FILENAME_MAX) r :: t'.
Proof.
  run_env Byte.x00 (clean_command_links [sample_group]). split; [exact Hrun|].
  destruct (clean_command_links_spec _ _ _ Hrun) as (r & t' & E & _). exists r, t'. exact E.
Defined.
