(* ===== verification/CmosRw.v ===== *)
(** * CMOS access ([cmos_rw.c])

    [cmos_read] and [cmos_write]: one byte of the CMOS RAM through the nvram
    driver's device file, which starts after the real-time clock's
    [NVRAM_OFFSET] bytes. *)

From S2P Require Import Prelude CLib Platform Sys SmbusTypes Commands DevFile.
Local Open Scope Z_scope.

Section Cmos.
Context {P : Platform}.

Definition DEVICE : string := "/dev/nvram".
Definition NVRAM_OFFSET : Z := 14.

(** [off_t] is [long] here: the file does not ask for 64-bit offsets. *)
Definition cmos_rd (argv : list string) (info : cmd_data) : prog Z :=
  a1 ← argv_at argv 1;
  let index := strtoul a1 in
  if index <? NVRAM_OFFSET then
    eprintf ("can't read bytes below " +:+ fmt_d NVRAM_OFFSET +:+ newline);;
    Ret (-1)
  else
    let index := index - NVRAM_OFFSET in
    fd ← act (Open DEVICE O_RDONLY);
    if fd <? 0 then
      report ("open(" +:+ quoted DEVICE +:+ ")");;
      Ret (-1)
    else
      pos ← act (Lseek fd (wraps long_bits index));
      if pos <? 0 then
        report ("lseek(" +:+ fmt_u index +:+ ")");;
        act (Close fd);;
        Ret (-1)
      else
        got ← read_exact fd 1;
        match got with
        | None =>
            report "read()";;
            act (Close fd);;
            Ret (-1)
        | Some bs =>
            act (Close fd);;
            printf ("0x" +:+ fmt_0x 2 (host_load bs) +:+ newline);;
            Ret 0
        end.

Definition cmos_wr (argv : list string) (info : cmd_data) : prog Z :=
  a1 ← argv_at argv 1;
  let index := strtoul a1 in
  if index <? NVRAM_OFFSET then
    eprintf ("can't read bytes below " +:+ fmt_d NVRAM_OFFSET +:+ newline);;
    Ret (-1)
  else
    let index := index - NVRAM_OFFSET in
    a2 ← argv_at argv 2;
    let data := wrapu 8 (strtoul a2) in
    fd ← act (Open DEVICE O_WRONLY);
    if fd <? 0 then
      report ("open(" +:+ quoted DEVICE +:+ ")");;
      Ret (-1)
    else
      pos ← act (Lseek fd (wraps long_bits index));
      if pos <? 0 then
        report ("lseek(" +:+ fmt_u index +:+ ")");;
        act (Close fd);;
        Ret (-1)
      else
        n ← act (Write fd (host_bytes 1 data));
        if negb (n =? 1) then
          report "write()";;
          act (Close fd);;
          Ret (-1)
        else
          act (Close fd);;
          Ret 0.

Definition cmos_rd_params := make_prereq_params_fixed_args 2 "<index>" 0.
Definition cmos_wr_params := make_prereq_params_fixed_args 3 "<index> <data>" 0.

Definition cmos_cmds : list cmd_info := [
  make_cmd_with_params "cmos_read" cmos_rd PrivNull cmos_rd_params;
  make_cmd_with_params "cmos_write" cmos_wr PrivNull cmos_wr_params
].
Definition CMOS_group : cmd_group :=
  {| grp_name := "CMOS"; description := Some "commands to access the CMOS registers";
     commands := cmos_cmds |}.

(** C20: [cmos_rd] is a read session of one byte and [cmos_wr] a write session
    of the low byte of its argument; both refuse an index below the clock's
    registers without touching the device. *)
Theorem cmos_refines c i d info t o :
  (exec (cmos_rd [c; i] info) t o ->
   if strtoul i <? NVRAM_OFFSET
   then device_events t = [] /\ o = Returned (-1)
   else exists r,
     read_session true DEVICE O_RDONLY (wraps long_bits (strtoul i - 14)) 1
       (device_events t) r /\
     match r with
     | Some bs => o = Returned 0 /\
                  output_of Stdout t = "0x" +:+ fmt_0x 2 (le_combine bs) +:+ newline
     | None => o = Returned (-1) /\ output_of Stdout t = ""
     end) /\
  (exec (cmos_wr [c; i; d] info) t o ->
   if strtoul i <? NVRAM_OFFSET
   then device_events t = [] /\ o = Returned (-1)
   else exists ok,
     write_session true DEVICE O_WRONLY (wraps long_bits (strtoul i - 14))
       (le_split 1 (strtoul d)) (device_events t) ok /\
     o = Returned (if ok then 0 else -1) /\ output_of Stdout t = "").
Proof.
  split; intros H.
  - unfold cmos_rd in H. exec_run H; try rewrite Heqb; tests.
    1: split; reflexivity.
    3: exists (Some l); split; [session|out_norm; rewrite host_load_1 by lia; done].
    all: exists None; split; [session|done].
  - unfold cmos_wr in H. prog_norm_in H.
    rewrite host_bytes_1, le_split_wrapu in H by done.
    exec_run H; try rewrite Heqb; tests.
    1: split; reflexivity.
    4: exists true; split; [session|done].
    all: exists false; split; [session|done].
Qed.

(** Both commands use the file they open and no other, and close it on every
    path. *)
Lemma cmos_rd_safe c i info : resource_safe no_stop (cmos_rd [c; i] info).
Proof. intros t. unfold cmos_rd. wp_run; live_solve. Qed.

Lemma cmos_wr_safe c i d info : resource_safe no_stop (cmos_wr [c; i; d] info).
Proof. intros t. unfold cmos_wr. wp_run; live_solve. Qed.
End Cmos.

(** ** Witness *)

#[local] Existing Instance linux_x86_64.

Example cmos_refines_witness :
  (exists t, exec (cmos_rd ["cmos_read"; "0x20"] (sized 8)) t (Returned 0) /\
   exists r, read_session true DEVICE O_RDONLY 18 1 (device_events t) r) /\
  (exists t, exec (cmos_wr ["cmos_write"; "0x20"; "0x1ff"] (sized 8)) t (Returned 0) /\
   exists ok, write_session true DEVICE O_WRONLY 18 [Byte.xff] (device_events t) ok).
Proof.
  split.
  - run_env Byte.x2a (cmos_rd ["cmos_read"; "0x20"] (sized 8)). split; [exact Hrun|].
    destruct (proj1 (cmos_refines _ _ "" _ _ _) Hrun) as (r & Hr & _). exists r. exact Hr.
  - run_env Byte.x2a (cmos_wr ["cmos_write"; "0x20"; "0x1ff"] (sized 8)). split; [exact Hrun|].
    destruct (proj2 (cmos_refines _ _ _ _ _ _) Hrun) as (r & Hr & _). exists r. exact Hr.
Defined.
