(* ===== verification/LogicOps.v ===== *)
(** * Boolean algebra commands ([logic.c])

    [or], [and], [xor], [shl], [shr], [not], [btr] and [bts] on 64-bit values
    given as C literals.  The three folding commands are related to the bitwise
    operation on all arguments; [bts] and [btr] are right for bits below 31 and
    wrong from 31 on, because the mask is the [int] expression [1 << val]. *)

From S2P Require Import Prelude CLib Platform Sys SmbusTypes Commands.
Local Open Scope Z_scope.

(** [enum LOGIC_OP] *)
Definition OR_OP : Z := 0.
Definition AND_OP : Z := 1.
Definition XOR_OP : Z := 2.
Definition SHL_OP : Z := 3.
Definition SHR_OP : Z := 4.
Definition BTS_OP : Z := 5.
Definition BTR_OP : Z := 6.

Section Logic.
Context {P : Platform}.

(** [(struct logic_info * )info->privdata] and its [op] field. *)
Definition logic_info (info : cmd_data) : prog Z :=
  match privdata info with
  | PrivLogic op => Ret op
  | PrivNull => undef NullPointer
  | _ => undef BadCast
  end.

(** [val = (1 << val)]: an [int] shift, whose result is then converted to
    [unsigned long long].  gcc defines [1 << 31] as [INT_MIN]. *)
Definition one_shl (val : Z) : prog Z :=
  if val <? 32 then Ret (wrapu 64 (wraps 32 (Z.shiftl 1 val))) else undef BadShift.

(** The body of the [while] loop: the new [result] and [rc], or [None] for an
    invalid operation. *)
Definition logic_step (info : cmd_data) (result val : Z) : prog (option (Z * Z)) :=
  op ← logic_info info;
  if op =? OR_OP then
    let result := Z.lor result val in Ret (Some (result, Z.b2z (result =? 0)))
  else if op =? AND_OP then
    let result := Z.land result val in Ret (Some (result, Z.b2z (result =? 0)))
  else if op =? XOR_OP then
    let result := Z.lxor result val in Ret (Some (result, Z.b2z (result =? 0)))
  else if op =? BTS_OP then
    val ← one_shl val;
    Ret (Some (Z.lor result val, Z.b2z (negb (Z.land result val =? 0))))
  else if op =? BTR_OP then
    val ← one_shl val;
    Ret (Some (Z.land result (wrapu 64 (Z.lnot val)),
               Z.b2z (negb (Z.land result val =? 0))))
  else
    eprintf ("Invalid logic op" +:+ newline);; Ret None.

Fixpoint logic_loop (info : cmd_data) (args : list string) (result rc : Z)
  : prog (option (Z * Z)) :=
  match args with
  | [] => Ret (Some (result, rc))
  | a :: args' =>
      r ← logic_step info result (strtoull a);
      match r with
      | None => Ret None
      | Some (result, rc) => logic_loop info args' result rc
      end
  end.

Definition logic_op (argv : list string) (info : cmd_data) : prog Z :=
  a1 ← argv_at argv 1;
  r ← logic_loop info (drop 2 argv) (strtoull a1) 0;
  match r with
  | None => Ret (-1)
  | Some (result, rc) => printf ("0x" +:+ fmt_x result +:+ newline);; Ret rc
  end.

Definition not (argv : list string) (info : cmd_data) : prog Z :=
  a1 ← argv_at argv 1;
  let result := wrapu 64 (Z.lnot (strtoull a1)) in
  printf ("0x" +:+ fmt_x result +:+ newline);;
  Ret (Z.b2z (result =? 0)).

Definition shift (argv : list string) (info : cmd_data) : prog Z :=
  a1 ← argv_at argv 1;
  a2 ← argv_at argv 2;
  let val := strtoull a1 in
  let shift := strtoul a2 in
  op ← logic_info info;
  if op =? SHL_OP then
    if shift <? 64 then
      printf ("0x" +:+ fmt_x (wrapu 64 (Z.shiftl val shift)) +:+ newline);; Ret 0
    else undef BadShift
  else if op =? SHR_OP then
    if shift <? 64 then
      printf ("0x" +:+ fmt_x (Z.shiftr val shift) +:+ newline);; Ret 0
    else undef BadShift
  else
    eprintf ("Invalid shift operation" +:+ newline);; Ret (-1).

Definition logic_op_params := make_prereq_params_var_args 2 INT_MAX "<value> <value> ..." 0.
Definition not_params := make_prereq_params_fixed_args 2 "<value>" 0.
Definition shift_params := make_prereq_params_fixed_args 3 "<value> <shift>" 0.
Definition bit_params := make_prereq_params_fixed_args 3 "<value> <bit>" 0.

Definition logic_cmds : list cmd_info := [
  make_cmd_with_params "or" logic_op (PrivLogic OR_OP) logic_op_params;
  make_cmd_with_params "and" logic_op (PrivLogic AND_OP) logic_op_params;
  make_cmd_with_params "xor" logic_op (PrivLogic XOR_OP) logic_op_params;
  make_cmd_with_params "shl" shift (PrivLogic SHL_OP) shift_params;
  make_cmd_with_params "shr" shift (PrivLogic SHR_OP) shift_params;
  make_cmd_with_params "not" not PrivNull not_params;
  make_cmd_with_params "btr" logic_op (PrivLogic BTR_OP) bit_params;
  make_cmd_with_params "bts" logic_op (PrivLogic BTS_OP) bit_params
].
Definition LOGIC_group : cmd_group :=
  {| grp_name := "LOGIC";
     description := Some "commands to perform boolean algebra operations";
     commands := logic_cmds |}.
End Logic.

(** ** The folding commands compute the bitwise operation *)

Section LogicFacts.
Context {P : Platform}.

Definition bitwise (op : Z) : Z -> Z -> Z :=
  if op =? OR_OP then Z.lor else if op =? AND_OP then Z.land else Z.lxor.
Definition bitwise_bool (op : Z) : bool -> bool -> bool :=
  if op =? OR_OP then orb else if op =? AND_OP then andb else xorb.
Definition is_fold (op : Z) : Prop := op = OR_OP \/ op = AND_OP \/ op = XOR_OP.

(** The value of the command: the operation folded over the arguments. *)
Definition logic_value (op : Z) (a : string) (args : list string) : Z :=
  foldl (fun r x => bitwise op r (strtoull x)) (strtoull a) args.

Lemma logic_loop_fold op s args result rc :
  is_fold op ->
  let R := foldl (fun r x => bitwise op r (strtoull x)) result args in
  logic_loop {| privdata := PrivLogic op; sizedata := s |} args result rc
  = Ret (Some (R, match args with [] => rc | _ => Z.b2z (R =? 0) end)).
Proof.
  intros Hop. revert result rc. induction args as [|a args IH]; intros result rc; [done|].
  cbn [logic_loop foldl]. destruct Hop as [-> | [-> | ->]];
    cbn -[strtoull]; rewrite IH; by destruct args.
Qed.

Lemma bitwise_range op a b :
  0 <= a < 2 ^ 64 -> 0 <= b < 2 ^ 64 -> 0 <= bitwise op a b < 2 ^ 64.
Proof.
  intros. unfold bitwise. repeat case_match;
    [apply lor_range|apply land_range|apply lxor_range]; lia.
Qed.

Lemma bitwise_testbit op a b i :
  Z.testbit (bitwise op a b) i = bitwise_bool op (Z.testbit a i) (Z.testbit b i).
Proof.
  unfold bitwise, bitwise_bool. repeat case_match;
    [apply Z.lor_spec|apply Z.land_spec|apply Z.lxor_spec].
Qed.

Lemma logic_value_range op a args : 0 <= logic_value op a args < 2 ^ 64.
Proof.
  unfold logic_value. generalize (strtoull_range a). generalize (strtoull a) as r.
  induction args as [|x args IH]; intros r Hr; [done|].
  cbn [foldl]. apply IH, bitwise_range; [done|apply strtoull_range].
Qed.

Lemma logic_value_testbit op a args i :
  Z.testbit (logic_value op a args) i
  = foldl (bitwise_bool op) (Z.testbit (strtoull a) i)
      (map (fun x => Z.testbit (strtoull x) i) args).
Proof.
  unfold logic_value. generalize (strtoull a) as r.
  induction args as [|x args IH]; intros r; [done|].
  cbn [foldl map]. by rewrite IH, bitwise_testbit.
Qed.

(** C15: [or], [and] and [xor]. *)
Theorem logic_op_folds op c a args s :
  is_fold op ->
  exists R, outputs (logic_op (c :: a :: args) {| privdata := PrivLogic op; sizedata := s |})
              ("0x" +:+ fmt_x R +:+ newline)
              (match args with [] => 0 | _ => Z.b2z (R =? 0) end) /\
    0 <= R < 2 ^ 64 /\
    forall i, Z.testbit R i
      = foldl (bitwise_bool op) (Z.testbit (strtoull a) i)
          (map (fun x => Z.testbit (strtoull x) i) args).
Proof.
  intros Hop. exists (logic_value op a args).
  split; [|split; [apply logic_value_range|intros; apply logic_value_testbit]].
  unfold logic_op. cbn [argv_at lookup list_lookup skipn mbind prog_mbind prog_bind].
  pose proof (logic_loop_fold op s args (strtoull a) 0 Hop) as E. cbn zeta in E.
  change (drop 0 args) with args.
  rewrite E. destruct args; apply outputs_printf.
Qed.

(** ** Bit set and reset *)

Definition bit_info (op : Z) : cmd_data := {| privdata := PrivLogic op; sizedata := None |}.

Lemma one_shl_low n : 0 <= n < 31 -> one_shl n = Ret (2 ^ n).
Proof.
  intros Hn. unfold one_shl. destruct (Z.ltb_spec n 32); [|lia].
  rewrite Z.shiftl_1_l. pose proof (Z.pow_lt_mono_r 2 n 31 ltac:(lia) ltac:(lia) ltac:(lia)).
  pose proof (pow2_pos n ltac:(lia)).
  rewrite wraps_small by plia. rewrite wrapu_small by plia. done.
Qed.

Lemma land_lnot_pow2 x n :
  0 <= x < 2 ^ 64 -> 0 <= n < 64 -> Z.land x (wrapu 64 (Z.lnot (2 ^ n))) = Z.clearbit x n.
Proof.
  intros Hx Hn. apply Z.bits_inj'. intros i Hi.
  rewrite Z.land_spec, wrapu_testbit, Z.clearbit_eqb, Z.lnot_spec, Z.pow2_bits_eqb by lia.
  destruct (Z.ltb_spec i 64); [done|]. by rewrite (testbit_high 64 x).
Qed.

(** C30: for bits 0 to 30, [bts] and [btr] set and clear the bit and return its
    old value. *)
Theorem bit_ops_low c v b :
  strtoull b < 31 ->
  outputs (logic_op [c; v; b] (bit_info BTS_OP))
    ("0x" +:+ fmt_x (Z.setbit (strtoull v) (strtoull b)) +:+ newline)
    (Z.b2z (Z.testbit (strtoull v) (strtoull b))) /\
  outputs (logic_op [c; v; b] (bit_info BTR_OP))
    ("0x" +:+ fmt_x (Z.clearbit (strtoull v) (strtoull b)) +:+ newline)
    (Z.b2z (Z.testbit (strtoull v) (strtoull b))).
Proof.
  intros Hb. pose proof (strtoull_range b). pose proof (strtoull_range v).
  assert (one_shl (strtoull b) = Ret (2 ^ strtoull b)) as E by (apply one_shl_low; lia).
  unfold logic_op. cbn -[strtoull one_shl wrapu Z.land Z.lor]. rewrite E.
  cbn -[strtoull one_shl wrapu Z.land Z.lor].
  rewrite land_pow2_testbit, land_lnot_pow2 by lia.
  rewrite Z.setbit_spec'. split; apply outputs_printf.
Qed.

Lemma land_high33 x :
  0 <= x < 2 ^ 64 -> Z.land x 0xffffffff80000000 = Z.shiftl (Z.shiftr x 31) 31.
Proof.
  intros Hx. change 0xffffffff80000000 with (Z.shiftl (Z.ones 33) 31).
  apply Z.bits_inj'. intros i Hi. rewrite Z.land_spec, !Z.shiftl_spec by lia.
  destruct (Z.ltb_spec i 31).
  - rewrite !(Z.testbit_neg_r _ (i - 31)) by lia. apply andb_false_r.
  - rewrite Z.testbit_ones_nonneg, Z.shiftr_spec by lia.
    replace (i - 31 + 31) with i by lia.
    destruct (Z.ltb_spec (i - 31) 33); [apply andb_true_r|].
    rewrite (testbit_high 64 x) by lia. done.
Qed.

Lemma land_high33_nonzero x :
  0 <= x < 2 ^ 64 -> negb (Z.land x 0xffffffff80000000 =? 0) = (2 ^ 31 <=? x).
Proof.
  intros Hx. rewrite land_high33, Z.shiftl_mul_pow2, Z.shiftr_div_pow2 by lia.
  pose proof (Z.div_mod x (2 ^ 31) ltac:(lia)).
  pose proof (Z.mod_pos_bound x (2 ^ 31) ltac:(lia)).
  destruct (Z.leb_spec (2 ^ 31) x).
  - apply negb_true_iff, Z.eqb_neq. nia.
  - rewrite (Z.div_small x) by lia. done.
Qed.

(** C31: with bit 31 the mask is [INT_MIN] sign-extended: [bts] sets all the
    bits from 31 up and [btr] clears them, although only bit 31 was named. *)
Theorem bit_ops_31 c v b :
  strtoull b = 31 ->
  outputs (logic_op [c; v; b] (bit_info BTS_OP))
    ("0x" +:+ fmt_x (Z.lor (strtoull v) 0xffffffff80000000) +:+ newline)
    (Z.b2z (2 ^ 31 <=? strtoull v)) /\
  outputs (logic_op [c; v; b] (bit_info BTR_OP))
    ("0x" +:+ fmt_x (strtoull v mod 2 ^ 31) +:+ newline)
    (Z.b2z (2 ^ 31 <=? strtoull v)).
Proof.
  intros Hb. pose proof (strtoull_range v) as Hv.
  assert (one_shl (strtoull b) = Ret 0xffffffff80000000) as E by (rewrite Hb; reflexivity).
  unfold logic_op. cbn -[strtoull one_shl wrapu Z.land Z.lor Z.lnot]. rewrite E.
  cbn -[strtoull one_shl wrapu Z.land Z.lor Z.pow Z.leb Z.lnot].
  rewrite land_high33_nonzero by done.
  change (wrapu 64 (Z.lnot 0xffffffff80000000)) with (Z.ones 31).
  rewrite Z.land_ones by lia. split; apply outputs_printf.
Qed.

(** From bit 32 on, the [int] shift is undefined behaviour. *)
Theorem bit_ops_high c v b op :
  op = BTS_OP \/ op = BTR_OP -> 32 <= strtoull b ->
  forall t o, exec (logic_op [c; v; b] (bit_info op)) t o <->
              t = [] /\ o = Stopped (Undefined BadShift).
Proof.
  intros Hop Hb t o.
  assert (logic_op [c; v; b] (bit_info op) = undef BadShift) as ->.
  { unfold logic_op. destruct Hop as [-> | ->]; cbn -[strtoull];
      unfold one_shl; (destruct (Z.ltb_spec (strtoull b) 32); [lia|done]). }
  apply exec_stop_iff.
Qed.

(** ** Shifts and complement *)

(** C29: shifts by less than 64 are the arithmetic ones modulo 2^64; larger
    counts are undefined. *)
Theorem shift_spec c v n s op :
  op = SHL_OP \/ op = SHR_OP ->
  let p := shift [c; v; n] {| privdata := PrivLogic op; sizedata := s |} in
  if strtoul n <? 64 then
    outputs p ("0x" +:+ fmt_x (if op =? SHL_OP
                               then strtoull v * 2 ^ strtoul n mod 2 ^ 64
                               else strtoull v / 2 ^ strtoul n) +:+ newline) 0
  else forall t o, exec p t o <-> t = [] /\ o = Stopped (Undefined BadShift).
Proof.
  intros Hop p. pose proof (strtoul_range n) as Hn. subst p. unfold shift.
  destruct (Z.ltb_spec (strtoul n) 64) as [Hlt|Hge].
  - rewrite <- Z.shiftl_mul_pow2, <- Z.shiftr_div_pow2 by lia.
    destruct Hop as [-> | ->]; cbn -[strtoull strtoul wrapu Z.shiftl Z.shiftr Z.pow Z.modulo];
      apply Z.ltb_lt in Hlt; rewrite Hlt; apply outputs_printf.
  - intros t o. apply Z.ltb_ge in Hge.
    destruct Hop as [-> | ->]; cbn -[strtoull strtoul wrapu Z.shiftl Z.shiftr]; rewrite Hge;
      apply exec_stop_iff.
Qed.

(** [not] prints the complement, and applied to its own output prints the
    original value back. *)
Theorem not_involutive c c' v info info' :
  exists out rc rc',
    outputs (not [c; v] info) (out +:+ newline) rc /\
    strtoull out = 2 ^ 64 - 1 - strtoull v /\
    outputs (not [c'; out] info') ("0x" +:+ fmt_x (strtoull v) +:+ newline) rc'.
Proof.
  pose proof (strtoull_range v) as Hv. set (x := strtoull v) in *.
  pose (out := "0x" +:+ fmt_x (2 ^ 64 - 1 - x)).
  assert (strtoull out = 2 ^ 64 - 1 - x) as E.
  { unfold strtoull, out. by rewrite strtou_fmt_x by lia. }
  exists out. do 2 eexists. split; [|split; [exact E|]].
  - unfold not. cbn -[strtoull wrapu Z.lnot Z.pow out]. fold x.
    rewrite wrapu_lnot by lia. apply outputs_printf.
  - unfold not. cbn -[strtoull wrapu Z.lnot Z.pow out]. rewrite E, wrapu_lnot by lia.
    replace (2 ^ 64 - 1 - (2 ^ 64 - 1 - x)) with x by lia. apply outputs_printf.
Qed.
(** ** Safety *)

Lemma logic_loop_safe (st : stop -> Prop) op s args result rc :
  is_fold op \/ st (Undefined BadShift) ->
  resource_safe st
    (logic_loop {| privdata := PrivLogic op; sizedata := s |} args result rc).
Proof.
  intros Hst. revert result rc. induction args as [|a args IH]; intros result rc; [done|].
  cbn [logic_loop]. apply resource_safe_bind; [|intros [[]|]; [apply IH|done]].
  unfold logic_step, logic_info, one_shl. cbn [privdata mbind prog_mbind prog_bind].
  destruct Hst as [[->|[->| ->]]|Hst]; [done..|].
  intros t. wp_run; live_solve.
Qed.

Lemma logic_op_safe (st : stop -> Prop) op s c a args :
  is_fold op \/ st (Undefined BadShift) ->
  resource_safe st (logic_op (c :: a :: args) {| privdata := PrivLogic op; sizedata := s |}).
Proof.
  intros Hst. unfold logic_op. cbn [argv_at lookup list_lookup mbind prog_mbind prog_bind drop].
  apply resource_safe_bind; [by apply logic_loop_safe|]. intros [[]|]; wb.
Qed.

Lemma not_safe st c a info : resource_safe st (not [c; a] info).
Proof. unfold not. wb. Qed.

Lemma shift_safe (st : stop -> Prop) op s c a n :
  st (Undefined BadShift) ->
  resource_safe st (shift [c; a; n] {| privdata := PrivLogic op; sizedata := s |}).
Proof. intros Hst t. unfold shift, logic_info. wp_run; live_solve. Qed.
End LogicFacts.

(** ** Witnesses *)

Example logic_op_folds_witness :
  let _ := linux_x86_64 in
  is_fold AND_OP /\
  exists R, outputs (logic_op ["and"; "0xff"; "0x0f"; "6"] (bit_info AND_OP))
              ("0x" +:+ fmt_x R +:+ newline) (Z.b2z (R =? 0)) /\ 0 <= R < 2 ^ 64 /\
  forall i, Z.testbit R i
        = foldl (bitwise_bool AND_OP) (Z.testbit (strtoull "0xff") i)
            (map (fun x => Z.testbit (strtoull x) i) ["0x0f"; "6"]).
Proof.
  intros P. split; [right; left; reflexivity|].
  exact (logic_op_folds AND_OP "and" "0xff" ["0x0f"; "6"] None (or_intror (or_introl eq_refl))).
Defined.

#[local] Existing Instance linux_x86_64.

Example bit_ops_low_witness :
  strtoull "3" < 31 /\
  outputs (logic_op ["bts"; "0x10"; "3"] (bit_info BTS_OP)) ("0x18" +:+ newline) 0.
Proof.
  assert (strtoull "3" < 31) as H by (vm_compute; reflexivity). split; [exact H|].
  exact (proj1 (bit_ops_low "bts" "0x10" "3" H)).
Defined.

Example bit_ops_31_witness :
  strtoull "31" = 31 /\
  outputs (logic_op ["bts"; "1"; "31"] (bit_info BTS_OP)) ("0xffffffff80000001" +:+ newline) 0.
Proof.
  assert (strtoull "31" = 31) as H by (vm_compute; reflexivity). split; [exact H|].
  exact (proj1 (bit_ops_31 "bts" "1" "31" H)).
Defined.

Example shift_spec_witness :
  outputs (shift ["shl"; "0x8000000000000001"; "4"] (bit_info SHL_OP)) ("0x10" +:+ newline) 0.
Proof.
  exact (shift_spec "shl" "0x8000000000000001" "4" None SHL_OP (or_introl eq_refl)).
Defined.
