(* ===== verification/IoRw.v ===== *)
(** * I/O port access ([io_rw.c])

    On x86 the commands execute the port instructions; elsewhere they go
    through [/dev/port].  [port_in] and [port_out] are the two definitions the
    preprocessor chooses between. *)

From S2P Require Import Prelude CLib Platform Sys SmbusTypes Commands DevFile Resources.
Local Open Scope Z_scope.

Section Io.
Context {P : Platform}.

Definition dev_port : string := "/dev/port".

(** [io_in(iobase, size, data)]: the result and the memory [data] points to
    afterwards; a short read leaves the rest of it as it was. *)
Definition io_in (iobase size : Z) (data : list byte) : prog (Z * list byte) :=
  fd ← act (Open dev_port O_RDONLY);
  if fd <? 0 then
    report ("open(" +:+ quoted dev_port +:+ ")");;
    Ret (-1, data)
  else
    pos ← act (Lseek fd iobase);
    if pos =? -1 then
      report ("lseek(" +:+ fmt_d iobase +:+ ")");;
      act (Close fd);;
      Ret (-1, data)
    else
      got ← act (Read fd size);
      match got with
      | None => Ret (-1, data)
      | Some bs => Ret (Z.of_nat (length bs), bs ++ drop (length bs) data)
      end.

Definition inb (iobase : Z) : prog Z :=
  r ← io_in iobase 1 (host_bytes 1 0xff); Ret (host_load r.2).
Definition inw (iobase : Z) : prog Z :=
  r ← io_in iobase 2 (host_bytes 2 0xffff); Ret (host_load r.2).
Definition inl_port (iobase : Z) : prog Z :=
  r ← io_in iobase 4 (host_bytes 4 0xffff); Ret (host_load r.2).

Definition io_out (iobase : Z) (data : list byte) : prog Z :=
  fd ← act (Open dev_port O_WRONLY);
  if fd <? 0 then
    report ("open(" +:+ quoted dev_port +:+ ")");;
    Ret (-1)
  else
    pos ← act (Lseek fd iobase);
    if pos =? -1 then
      report ("lseek(" +:+ fmt_d iobase +:+ ")");;
      act (Close fd);;
      Ret (-1)
    else act (Write fd data).

Definition outb (val iobase : Z) : prog unit := io_out iobase (host_bytes 1 val);; Ret tt.
Definition outw (val iobase : Z) : prog unit := io_out iobase (host_bytes 2 val);; Ret tt.
Definition outl (val iobase : Z) : prog unit := io_out iobase (host_bytes 4 val);; Ret tt.

(** [in8], [in16] and [in32] on an [unsigned long] address: the x86 functions
    of [sys/io.h] take an [unsigned short] port, those above an [int]. *)
Definition port_in (bits iobase : Z) : prog Z :=
  if ARCH_X86 then
    v ← act (PortIn bits (wrapu 16 iobase)); Ret (wrapu bits v)
  else if bits =? 8 then inb (wraps 32 iobase)
  else if bits =? 16 then inw (wraps 32 iobase)
  else inl_port (wraps 32 iobase).

Definition port_out (bits val iobase : Z) : prog unit :=
  if ARCH_X86 then act (PortOut bits (wrapu 16 iobase) val)
  else if bits =? 8 then outb val (wraps 32 iobase)
  else if bits =? 16 then outw val (wraps 32 iobase)
  else outl val (wraps 32 iobase).

(** [DO_READ(iobase, size)] *)
Definition do_read (bits iobase : Z) : prog Z :=
  v ← port_in bits iobase;
  printf ("0x" +:+ fmt_0x (Z.to_nat (bits / 8) * 2) v +:+ newline);;
  Ret 0.

Definition io_read_x (argv : list string) (info : cmd_data) : prog Z :=
  a1 ← argv_at argv 1;
  let iobase := strtoul a1 in
  let size := get_command_size info in
  if size =? SIZE8 then do_read 8 iobase
  else if size =? SIZE16 then do_read 16 iobase
  else if size =? SIZE32 then do_read 32 iobase
  else eprintf ("invalid io_read entry" +:+ newline);; Ret (-1).

(** [DO_WRITE(iobase, size)] *)
Definition do_write (bits iobase ldata : Z) : prog Z :=
  port_out bits (wrapu bits ldata) iobase;;
  Ret 0.

Definition io_write_x (argv : list string) (info : cmd_data) : prog Z :=
  a1 ← argv_at argv 1;
  a2 ← argv_at argv 2;
  let iobase := strtoul a1 in
  let ldata := strtoul a2 in
  let size := get_command_size info in
  if size =? SIZE8 then do_write 8 iobase ldata
  else if size =? SIZE16 then do_write 16 iobase ldata
  else if size =? SIZE32 then do_write 32 iobase ldata
  else eprintf ("invalid io_write entry" +:+ newline);; Ret (-1).

Definition rd_params := make_prereq_params_fixed_args 2 "<io_addr>" 3.
Definition wr_params := make_prereq_params_fixed_args 3 "<io_addr> <data>" 3.

Definition make_io_read_cmd (n : string) (sz : size_param) : cmd_info :=
  make_cmd_with_params_size n io_read_x PrivNull rd_params sz.
Definition make_io_write_cmd (n : string) (sz : size_param) : cmd_info :=
  make_cmd_with_params_size n io_write_x PrivNull wr_params sz.

Definition io_cmds : list cmd_info := [
  make_io_read_cmd "io_read8" size8; make_io_write_cmd "io_write8" size8;
  make_io_read_cmd "io_read16" size16; make_io_write_cmd "io_write16" size16;
  make_io_read_cmd "io_read32" size32; make_io_write_cmd "io_write32" size32
].
Definition IO_group : cmd_group :=
  {| grp_name := "IO";
     description := Some "commands to access registers in the IO address space";
     commands := io_cmds |}.

(** ** Behaviour *)

(** The widths of the registered commands. *)
Definition io_width (bits : Z) : Prop := bits = 8 \/ bits = 16 \/ bits = 32.

Lemma io_read_x_width c a bits :
  io_width bits -> io_read_x [c; a] (sized bits) = do_read bits (strtoul a).
Proof. by intros [-> | [-> | ->]]. Qed.

Lemma io_write_x_width c a d bits :
  io_width bits -> io_write_x [c; a; d] (sized bits) = do_write bits (strtoul a) (strtoul d).
Proof. by intros [-> | [-> | ->]]. Qed.

(** C25: on x86 a read is one port instruction of the command's width at the
    port's 16 bits, and its value is printed at full width. *)
Theorem io_read_x86 c a bits t o :
  ARCH_X86 = true -> io_width bits ->
  exec (io_read_x [c; a] (sized bits)) t o <->
  exists v, t = [Ev (PortIn bits (strtoul a mod 2 ^ 16)) v;
                 Ev (Put Stdout ("0x" +:+ fmt_0x (Z.to_nat (bits / 8) * 2) (v mod 2 ^ bits)
                                 +:+ newline)) tt] /\ o = Returned 0.
Proof.
  intros HA Hw. rewrite io_read_x_width by done. unfold do_read, port_in. rewrite HA. split.
  - intros H. exec_run H. exists r. done.
  - intros (v & -> & ->). repeat constructor.
Qed.

(** On x86 a write is one port instruction with the low bits of the data. *)
Theorem io_write_x86 c a d bits t o :
  ARCH_X86 = true -> io_width bits ->
  exec (io_write_x [c; a; d] (sized bits)) t o <->
  t = [Ev (PortOut bits (strtoul a mod 2 ^ 16) (strtoul d mod 2 ^ bits)) tt] /\
  o = Returned 0.
Proof.
  intros HA Hw. rewrite io_write_x_width by done. unfold do_write, port_out. rewrite HA. split.
  - intros H. exec_run H. done.
  - intros (-> & ->). repeat constructor.
Qed.

(** What a failed read through [/dev/port] leaves in the variable. *)
Definition fallback (bits : Z) : Z := if bits =? 8 then 0xff else 0xffff.

Definition reads_data (t : trace) : Prop :=
  exists fd n bs, In (Ev (Read fd n) (Some bs)) t.

Lemma host_load_host_bytes n v : 0 <= v < 2 ^ (8 * Z.of_nat n) -> host_load (host_bytes n v) = v.
Proof. intros. rewrite host_load_bytes. by apply wrapu_small. Qed.

Lemma exec_io_in iobase size data t r :
  exec (io_in iobase size data) t (Returned r) ->
  output_of Stdout t = "" /\
  (r.2 = data \/
   exists fd bs, In (Ev (Read fd size) (Some bs)) t /\ r.2 = bs ++ drop (length bs) data).
Proof.
  intros H. unfold io_in in H. exec_run H; (split; [done|]); auto.
  right. do 2 eexists. split; [|done]. cbn. auto.
Qed.

Lemma io_in_no_stop iobase size data t s : ~ exec (io_in iobase size data) t (Stopped s).
Proof. intros H. unfold io_in in H. exec_run H; done. Qed.

(** One of the three input functions, when no data could be read. *)
Lemma exec_in_fallback n iobase v t o :
  0 <= v < 2 ^ (8 * Z.of_nat n) -> ~ reads_data t ->
  exec (r ← io_in iobase (Z.of_nat n) (host_bytes n v); Ret (host_load r.2)) t o ->
  o = Returned v /\ output_of Stdout t = "".
Proof.
  intros Hv Hno H. apply exec_bind_inv in H as [(r & t1 & t2 & H1 & H2 & ->)|(s & H1 & _)];
    [|by apply io_in_no_stop in H1].
  apply exec_ret_iff in H2 as [-> ->]. rewrite app_nil_r in *.
  apply exec_io_in in H1 as [Hout [E|(fd & bs & Hin & _)]].
  - rewrite E, host_load_host_bytes by done. done.
  - exfalso. apply Hno. red. eauto.
Qed.

Lemma exec_port_in_fallback bits iobase t o :
  ARCH_X86 = false -> io_width bits -> ~ reads_data t ->
  exec (port_in bits iobase) t o -> o = Returned (fallback bits) /\ output_of Stdout t = "".
Proof.
  intros HA Hw Hno H. unfold port_in in H. rewrite HA in H.
  destruct Hw as [-> | [-> | ->]].
  - by apply (exec_in_fallback 1) in H.
  - by apply (exec_in_fallback 2) in H.
  - by apply (exec_in_fallback 4) in H.
Qed.

(** C37: without port instructions, a read that obtains no data still succeeds
    and prints all ones for 8 and 16 bits, but [0x0000ffff] for 32 bits. *)
Theorem io_read_devport_failure c a bits t o :
  ARCH_X86 = false -> io_width bits -> ~ reads_data t ->
  exec (io_read_x [c; a] (sized bits)) t o ->
  o = Returned 0 /\
  output_of Stdout t = "0x" +:+ fmt_0x (Z.to_nat (bits / 8) * 2) (fallback bits) +:+ newline.
Proof.
  intros HA Hw Hno H. rewrite io_read_x_width in H by done.
  apply exec_bind_inv in H as [(v & t1 & t2 & H1 & H2 & ->)|(s & H1 & ->)];
    apply exec_port_in_fallback in H1 as [E Hout]; try done.
  - injection E as ->. exec_run H2. rewrite output_of_app, Hout. out_norm. done.
  - intros (fd & n & bs & Hin). apply Hno. exists fd, n, bs. apply in_app_iff. by left.
Qed.

(** ** The file of a completed transfer through [/dev/port] stays open *)

(** Some seek succeeded. *)
Definition sought (t : trace) : bool :=
  existsb (fun e => match e with Ev (Lseek _ _) r => negb (r =? -1) | _ => false end) t.

(** Symbolic execution of a command through [/dev/port]. *)
Ltac devport HA H :=
  unfold io_read_x, io_write_x, do_read, do_write, port_in, port_out, inb, inw, inl_port,
    outb, outw, outl, io_in, io_out in H;
  rewrite HA in H; exec_run H; unfold sought; cbn [existsb];
  repeat match goal with E : (_ =? -1) = _ |- _ => rewrite ?E; clear E end;
  cbn [negb orb]; held.

Lemma io_read_holds c a info t rc :
  ARCH_X86 = false -> exec (io_read_x [c; a] info) t (Returned rc) ->
  live t = if sought t then acquired t else ∅.
Proof. intros HA H. devport HA H. Qed.

Lemma io_write_holds c a d info t rc :
  ARCH_X86 = false -> exec (io_write_x [c; a; d] info) t (Returned rc) ->
  live t = if sought t then acquired t else ∅.
Proof. intros HA H. devport HA H. Qed.

(** ** Both commands only use files they hold *)

Lemma io_in_behaved iobase size data : well_behaved no_stop (io_in iobase size data).
Proof. intros t. unfold io_in. wp_run; live_solve. Qed.

Lemma io_out_behaved iobase data : well_behaved no_stop (io_out iobase data).
Proof. intros t. unfold io_out. wp_run; live_solve. Qed.

#[local] Hint Resolve io_in_behaved io_out_behaved : wb.
#[local] Hint Unfold inb inw inl_port outb outw outl port_in port_out do_read do_write : wb.

Lemma io_read_behaved c a info : well_behaved no_stop (io_read_x [c; a] info).
Proof. unfold io_read_x. wb. Qed.

Lemma io_write_behaved c a d info : well_behaved no_stop (io_write_x [c; a; d] info).
Proof. unfold io_write_x. wb. Qed.

(** The port instructions need no file. *)
Lemma io_x86_safe c a d info :
  ARCH_X86 = true ->
  resource_safe no_stop (io_read_x [c; a] info) /\
  resource_safe no_stop (io_write_x [c; a; d] info).
Proof.
  intros HA. unfold io_read_x, io_write_x, do_read, do_write, port_in, port_out. rewrite HA.
  split; wb.
Qed.
End Io.

(** ** Witnesses *)

#[local] Existing Instance linux_x86_64.

Example io_read_x86_witness :
  ARCH_X86 = true /\ io_width 8 /\
  exec (io_read_x ["io_read8"; "0x80"] (sized 8))
    [Ev (PortIn 8 0x80) 0x2a; Ev (Put Stdout ("0x2a" +:+ newline)) tt] (Returned 0).
Proof.
  assert (ARCH_X86 = true) as Hx by (vm_compute; reflexivity).
  assert (io_width 8) as Hw by (left; reflexivity). split; [exact Hx|]. split; [exact Hw|].
  apply (io_read_x86 "io_read8" "0x80" 8 _ _ Hx Hw). exists 0x2a. split; reflexivity.
Defined.

Example io_read_devport_failure_witness :
  exists t, exec (@io_read_x linux_ppc64 ["io_read32"; "0x80"] (sized 32)) t (Returned 0) /\
  output_of Stdout t = "0x0000ffff" +:+ newline.
Proof.
  set (t := [Ev (Open "/dev/port" O_RDONLY) (-1); Ev GetErrno 13; Ev (Strerror 13) "denied";
             Ev (Put Stderr ("open(" +:+ quoted "/dev/port" +:+ "): denied" +:+ newline)) tt;
             Ev (Put Stdout ("0x0000ffff" +:+ newline)) tt]).
  assert (exec (@io_read_x linux_ppc64 ["io_read32"; "0x80"] (sized 32)) t (Returned 0)) as H
    by (repeat constructor).
  exists t. split; [exact H|].
  assert (@ARCH_X86 linux_ppc64 = false) as Hx by (vm_compute; reflexivity).
  assert (~ reads_data t) as Hn 
    by (intros (f & n & bs & Hin); cbn in Hin;
        repeat destruct Hin as [E|Hin]; try apply (f_equal ev_act) in E; done).
  exact (proj2 (@io_read_devport_failure linux_ppc64 "io_read32" "0x80" 32 t _ Hx
    (or_intror (or_intror eq_refl)) Hn H)).
Defined.
