(* ===== verification/Msr.v ===== *)
(** * CPU model specific registers ([msr.c], x86 only)

    [rdmsr] and [wrmsr]: one 64-bit register of one CPU through the msr
    driver's device file, whose offsets are register numbers. *)

From S2P Require Import Prelude CLib Platform Sys SmbusTypes Commands DevFile.
Local Open Scope Z_scope.

Section Msr.
Context {P : Platform}.

(** The device file of a CPU. *)
Definition msr_dev (cpu : Z) : string := snprintf 512 ("/dev/cpu/" +:+ fmt_d cpu +:+ "/msr").

(** [open_and_seek]: the descriptor left in [*fd], or [None] for -1. *)
Definition open_and_seek (cpu msr mode : Z) : prog (option Z) :=
  let dev := msr_dev cpu in
  fd ← act (Open dev mode);
  if fd <? 0 then
    report ("open(" +:+ quoted dev +:+ ")");;
    Ret None
  else
    pos ← act (Lseek fd (wraps 64 msr));
    if pos =? -1 then
      report ("lseek(" +:+ fmt_u msr +:+ ")");;
      act (Close fd);;
      Ret None
    else Ret (Some fd).

Definition rd_msr (argv : list string) (info : cmd_data) : prog Z :=
  a1 ← argv_at argv 1;
  a2 ← argv_at argv 2;
  let cpu := wraps 32 (strtol a1) in
  let msr := strtoul a2 in
  opened ← open_and_seek cpu msr O_RDONLY;
  match opened with
  | None => Ret (-1)
  | Some fd =>
      got ← read_exact fd 8;
      match got with
      | None =>
          report "read()";;
          act (Close fd);;
          Ret (-1)
      | Some data =>
          act (Close fd);;
          printf ("0x" +:+ fmt_0x 16 (host_load data) +:+ newline);;
          Ret 0
      end
  end.

Definition wr_msr (argv : list string) (info : cmd_data) : prog Z :=
  a1 ← argv_at argv 1;
  a2 ← argv_at argv 2;
  a3 ← argv_at argv 3;
  let cpu := wraps 32 (strtol a1) in
  let msr := strtoul a2 in
  let data := strtoull a3 in
  opened ← open_and_seek cpu msr O_WRONLY;
  match opened with
  | None => Ret (-1)
  | Some fd =>
      n ← act (Write fd (host_bytes 8 data));
      ret ← (if negb (n =? 8) then report "write()";; Ret (-1) else Ret 0);
      act (Close fd);;
      Ret ret
  end.

Definition rd_params := make_prereq_params_fixed_args 3 "<cpu> <msr>" 0.
Definition wr_params := make_prereq_params_fixed_args 4 "<cpu> <msr> <data>" 0.

Definition msr_cmds : list cmd_info := [
  make_cmd_with_params "rdmsr" rd_msr PrivNull rd_params;
  make_cmd_with_params "wrmsr" wr_msr PrivNull wr_params
].
Definition MSR_group : cmd_group :=
  {| grp_name := "MSR";
     description := Some "commands to access CPU model specific registers";
     commands := msr_cmds |}.

(** ** Behaviour *)

(** C21: [rdmsr] is a read session of 8 bytes at the register's number, in host
    order, and [wrmsr] a write session of the 8 bytes of its argument; on every
    path the file is closed. *)
Theorem msr_refines c a m d info t o :
  relied (safely no_stop) [] t ->
  (exec (rd_msr [c; a; m] info) t o ->
   exists r,
     read_session true (msr_dev (wraps 32 (strtol a))) O_RDONLY (wraps 64 (strtoul m)) 8
       (device_events t) r /\
     match r with
     | Some bs => o = Returned 0 /\
                  output_of Stdout t = "0x" +:+ fmt_0x 16 (host_load bs) +:+ newline
     | None => o = Returned (-1) /\ output_of Stdout t = ""
     end) /\
  (exec (wr_msr [c; a; m; d] info) t o ->
   exists ok,
     write_session true (msr_dev (wraps 32 (strtol a))) O_WRONLY (wraps 64 (strtoul m))
       (host_bytes 8 (strtoull d)) (device_events t) ok /\
     o = Returned (if ok then 0 else -1) /\ output_of Stdout t = "").
Proof.
  intros Hr. split; intros H.
  - unfold rd_msr, open_and_seek in H. exec_run H; tests; cbn in Hr; destruct_and?.
    3: exists (Some l); split; [session|by out_norm].
    all: exists None; split; [session|done].
  - unfold wr_msr, open_and_seek in H. exec_run H; tests; cbn in Hr; destruct_and?.
    4: exists true; split; [session|done].
    all: exists false; split; [session|done].
Qed.

Lemma rd_msr_safe c a m info : resource_safe no_stop (rd_msr [c; a; m] info).
Proof. intros t. unfold rd_msr, open_and_seek. wp_run; live_solve. Qed.

Lemma wr_msr_safe c a m d info : resource_safe no_stop (wr_msr [c; a; m; d] info).
Proof. intros t. unfold wr_msr, open_and_seek. wp_run; live_solve. Qed.
End Msr.

(** ** Witnesses *)

#[local] Existing Instance linux_x86_64.

Example msr_refines_witness :
  (exists t, exec (rd_msr ["rdmsr"; "1"; "0x10"] (sized 64)) t (Returned 0) /\
   relied (safely no_stop) [] t /\
   exists r, read_session true "/dev/cpu/1/msr" O_RDONLY 16 8 (device_events t) r) /\
  (exists t, exec (wr_msr ["wrmsr"; "1"; "0x10"; "0x1234"] (sized 64)) t (Returned 0) /\
   relied (safely no_stop) [] t /\
   exists ok, write_session true "/dev/cpu/1/msr" O_WRONLY 16 (le_split 8 0x1234)
                (device_events t) ok).
Proof.
  split.
  - run_env Byte.x2a (rd_msr ["rdmsr"; "1"; "0x10"] (sized 64)).
    split; [exact Hrun|]. match goal with |- ?A /\ _ => assert A as Hr by relied_env end.
    split; [exact Hr|].
    destruct (proj1 (msr_refines _ _ _ "" _ _ _ Hr) Hrun) as (r & H & _). exists r. exact H.
  - run_env Byte.x2a (wr_msr ["wrmsr"; "1"; "0x10"; "0x1234"] (sized 64)).
    split; [exact Hrun|]. match goal with |- ?A /\ _ => assert A as Hr by relied_env end.
    split; [exact Hr|].
    destruct (proj2 (msr_refines _ _ _ _ _ _ _ Hr) Hrun) as (ok & H & _). exists ok. exact H.
Defined.
