(* ===== verification/Scom.v ===== *)
(** * POWER SCOM registers ([scom.c], POWER only)

    [getscom] and [putscom] access a 64-bit register of a chip through
    debugfs; [cputochipid] and [cputoex] map a Linux CPU number to the chip
    and to the core it belongs to. *)

From S2P Require Import Prelude CLib Platform Sys SmbusTypes Commands DevFile.
Local Open Scope Z_scope.

Section Scom.
Context {P : Platform}.

(** The file offset of a SCOM address, an [off64_t]. *)
Definition scom_offset (scom : Z) : Z :=
  let offset := wraps 64 (wrapu 64 (Z.shiftl (Z.land scom (2 ^ 63 - 1)) 3)) in
  if negb (Z.land scom (2 ^ 63) =? 0)
  then wraps 64 (Z.lor (wrapu 64 offset) (2 ^ 62))
  else offset.

Definition scom_dev (chip : Z) : string :=
  snprintf 512 ("/sys/kernel/debug/powerpc/scom/" +:+ fmt_0x 8 (wrapu 32 chip) +:+ "/access").

Definition open_and_seek (chip scom mode : Z) : prog (option Z) :=
  let offset := scom_offset scom in
  let dev := scom_dev chip in
  fd ← act (Open dev mode);
  if fd <? 0 then
    report ("open(" +:+ quoted dev +:+ ")");;
    Ret None
  else
    pos ← act (Lseek fd offset);
    if pos =? -1 then
      report ("lseek(" +:+ fmt_d offset +:+ ")");;
      act (Close fd);;
      Ret None
    else Ret (Some fd).

Definition rd_scom (argv : list string) (info : cmd_data) : prog Z :=
  a1 ← argv_at argv 1;
  a2 ← argv_at argv 2;
  let chip := wraps 32 (strtol a1) in
  let scom := strtoull a2 in
  opened ← open_and_seek chip scom O_RDONLY;
  match opened with
  | None => Ret (-1)
  | Some fd =>
      got ← read_exact fd 8;
      match got with
      | None =>
          report "read()";;
          act (Close fd);;
          Ret (-1)
      | Some data =>
          act (Close fd);;
          printf ("0x" +:+ fmt_0x 16 (host_load data) +:+ newline);;
          Ret 0
      end
  end.

Definition wr_scom (argv : list string) (info : cmd_data) : prog Z :=
  a1 ← argv_at argv 1;
  a2 ← argv_at argv 2;
  a3 ← argv_at argv 3;
  let chip := wraps 32 (strtol a1) in
  let scom := strtoull a2 in
  let data := strtoull a3 in
  opened ← open_and_seek chip scom O_WRONLY;
  match opened with
  | None => Ret (-1)
  | Some fd =>
      n ← act (Write fd (host_bytes 8 data));
      ret ← (if negb (n =? 8) then report "write()";; Ret (-1) else Ret 0);
      act (Close fd);;
      Ret ret
  end.

(** ** CPU numbers *)

Fixpoint string_of_bytes (bs : list byte) : string :=
  match bs with
  | [] => ""
  | b :: bs' => String (chr (byte.unsigned b)) (string_of_bytes bs')
  end.

(** Whether [strtoul(s, NULL, 16)] looks at the character after the end of
    [s]: the number, or what may still become one, extends to the end. *)
Definition runs_off (s : string) : bool :=
  let s2 := (scan_sign (skip_space s)).2 in
  match s2 with
  | "" | "0x" | "0X" => true
  | _ => match (scan_digits 16 (scan_prefix 16 s2).2 0).2 with "" => true | _ => false end
  end.

(** [pir_str] is not terminated and indeterminate past what was read. *)
Definition cpu_to_pir (cpu : Z) : prog (option Z) :=
  let pir_file := snprintf 512 ("/sys/devices/system/cpu/cpu" +:+ fmt_d cpu +:+ "/pir") in
  fd ← act (Open pir_file O_RDONLY);
  if fd <? 0 then
    report ("open(" +:+ quoted pir_file +:+ ")");;
    Ret None
  else
    got ← act (Read fd 64);
    match got with
    | None =>
        report "read()";;
        act (Close fd);;
        Ret None
    | Some bs =>
        act (Close fd);;
        let pir_str := string_of_bytes bs in
        if runs_off pir_str then undef UninitRead
        else Ret (Some (wrapu 32 (strtoul_end 16 pir_str).1))
    end.

(** [*chipid], if [pir_to_chipid] returned 0; a short read leaves some of it
    indeterminate. *)
Definition pir_to_chipid (pir : Z) : prog (option (option Z)) :=
  let pir := Z.land pir (wrapu 32 (Z.lnot 7)) in
  let cpu_glob_str := snprintf 512 ("/proc/device-tree/cpus/*@" +:+ fmt_x pir +:+ "/ibm,chip-id") in
  g ← act (Glob cpu_glob_str);
  if negb (g.1 =? 0) then
    eprintf ("glob(" +:+ quoted cpu_glob_str +:+ "): " +:+ fmt_d g.1 +:+ newline);;
    Ret None
  else
    path ← argv_at g.2 0;
    fd ← act (Open path O_RDONLY);
    if fd <? 0 then
      report ("open(" +:+ quoted path +:+ ")");;
      Ret None
    else
      got ← act (Read fd 4);
      match got with
      | None =>
          report "read()";;
          act (Close fd);;
          Ret None
      | Some bs =>
          act (Close fd);;
          Ret (Some (if Nat.eqb (length bs) 4 then Some (host_load bs) else None))
      end.

Definition cpu_to_chipid (argv : list string) (info : cmd_data) : prog Z :=
  a1 ← argv_at argv 1;
  let cpu := wraps 32 (strtoul a1) in
  pir ← cpu_to_pir cpu;
  match pir with
  | None => Ret (-1)
  | Some pir =>
      r ← pir_to_chipid pir;
      match r with
      | None => Ret (-1)
      | Some chipid =>
          chipid ← defined chipid;
          printf ("0x" +:+ fmt_0x 8 chipid +:+ newline);;
          Ret 0
      end
  end.

Definition cpu_to_ex (argv : list string) (info : cmd_data) : prog Z :=
  a1 ← argv_at argv 1;
  let cpu := wraps 32 (strtoul a1) in
  pir ← cpu_to_pir cpu;
  match pir with
  | None => Ret (-1)
  | Some pir =>
      let ex := Z.land (Z.shiftr pir 3) 0xf in
      printf (fmt_d ex +:+ newline);;
      Ret 0
  end.

Definition rd_params := make_prereq_params_fixed_args 3 "<chipid> <scom>" 0.
Definition wr_params := make_prereq_params_fixed_args 4 "<chipid> <scom> <data>" 0.
Definition cpu_params := make_prereq_params_fixed_args 2 "<cpu>" 0.

Definition scom_cmds : list cmd_info := [
  make_cmd_with_params "getscom" rd_scom PrivNull rd_params;
  make_cmd_with_params "putscom" wr_scom PrivNull wr_params;
  make_cmd_with_params "cputochipid" cpu_to_chipid PrivNull cpu_params;
  make_cmd_with_params "cputoex" cpu_to_ex PrivNull cpu_params
].
Definition SCOM_group : cmd_group :=
  {| grp_name := "SCOM"; description := Some "commands to access SCOM registers";
     commands := scom_cmds |}.

(** ** The offset encoding *)

(** A SCOM address: 59 bits and the indirect bit. *)
Definition scom_address (scom : Z) : Prop :=
  0 <= scom < 2 ^ 64 /\ forall i, 59 <= i < 63 -> Z.testbit scom i = false.

Lemma scom_offset_testbit scom i :
  0 <= i < 64 ->
  Z.testbit (scom_offset scom) i =
  (3 <=? i) && Z.testbit scom (i - 3) || ((i =? 62) && Z.testbit scom 63).
Proof.
  intros Hi. unfold scom_offset.
  set (x := wraps 64 (wrapu 64 (Z.shiftl (Z.land scom (2 ^ 63 - 1)) 3))).
  assert (Z.testbit x i = (3 <=? i) && Z.testbit scom (i - 3)) as Hx.
  { unfold x. rewrite wraps_testbit, wrapu_testbit by lia.
    destruct (Z.ltb_spec i 64); [|lia]. cbn [andb]. destruct (Z.leb_spec 3 i); cbn [andb].
    - rewrite Z.shiftl_spec by lia. change (2 ^ 63 - 1) with (Z.ones 63).
      rewrite Z.land_spec, Z.ones_spec_low by lia. apply andb_true_r.
    - apply Z.shiftl_spec_low. lia. }
  rewrite land_pow2_testbit by lia. rewrite <- Hx. destruct (Z.testbit scom 63).
  - rewrite wraps_testbit, Z.lor_spec, wrapu_testbit, Z.pow2_bits_eqb, (Z.eqb_sym 62) by lia.
    destruct (Z.ltb_spec i 64); [|lia]. by rewrite andb_true_r.
  - by rewrite andb_false_r, orb_false_r.
Qed.

Lemma scom_offset_sign scom : (scom_offset scom <? 0) = Z.testbit scom 60.
Proof.
  assert (exists y, scom_offset scom = wraps 64 y) as [y Hy]
    by (unfold scom_offset; destruct negb; by eexists).
  rewrite Hy, wraps_sign by lia. change (64 - 1) with 63.
  rewrite <- (wraps_testbit 64 y 63), <- Hy, scom_offset_testbit by lia. cbn. apply orb_false_r.
Qed.

(** C18: the file offset of a SCOM address, bit by bit: the address three bits
    up, where its high bit (indirect SCOM) is moved to bit 62, bit 59 after the
    shift back.  The offset is a multiple of 8, and is not negative unless bit
    60 of the address is set; and no two addresses of 59 bits and the indirect
    bit share an offset. *)
Theorem scom_offset_bits scom :
  0 <= scom < 2 ^ 64 ->
  (forall i, 0 <= i < 64 -> Z.testbit (scom_offset scom) i =
     if i <? 3 then false
     else if i =? 62 then Z.testbit scom 59 || Z.testbit scom 63
     else Z.testbit scom (i - 3)) /\
  - 2 ^ 63 <= scom_offset scom < 2 ^ 63 /\ scom_offset scom mod 8 = 0 /\
  (scom_offset scom < 0 <-> Z.testbit scom 60 = true) /\
  (scom_address scom ->
   forall scom', scom_address scom' -> scom_offset scom' = scom_offset scom -> scom' = scom).
Proof.
  intros Hs. split; [|split; [|split; [|split]]].
  - intros i Hi. rewrite scom_offset_testbit by done.
    destruct (Z.ltb_spec i 3), (Z.leb_spec 3 i), (Z.eqb_spec i 62) as [->|]; try lia; try done.
    cbn [andb]. by rewrite orb_false_r.
  - unfold scom_offset. destruct negb; by apply (wraps_range 64).
  - change 8 with (2 ^ 3). rewrite <- Z.land_ones by lia. apply Z.bits_inj'. intros i Hi.
    rewrite Z.land_spec, Z.bits_0. destruct (Z.ltb_spec i 3).
    + rewrite scom_offset_testbit by lia.
      destruct (Z.leb_spec 3 i), (Z.eqb_spec i 62); (lia || done).
    + rewrite Z.ones_spec_high by lia. apply andb_false_r.
  - rewrite <- scom_offset_sign, Z.ltb_lt. done.
  - intros [_ Ha] scom' [Hs' Ha'] E.
    assert (forall i, 0 <= i < 64 -> Z.testbit (scom_offset scom') i = Z.testbit (scom_offset scom) i)
      as Hb by (by rewrite E).
    apply Z.bits_inj'. intros i Hi.
    destruct (Z.ltb_spec i 59); [|destruct (Z.ltb_spec i 63); [|destruct (Z.eq_dec i 63) as [->|]]].
    + specialize (Hb (i + 3) ltac:(lia)). rewrite !scom_offset_testbit in Hb by lia.
      destruct (Z.leb_spec 3 (i + 3)), (Z.eqb_spec (i + 3) 62); try lia.
      cbn [andb] in Hb. rewrite !orb_false_r in Hb. by replace (i + 3 - 3) with i in Hb by lia.
    + by rewrite Ha, Ha' by lia.
    + specialize (Hb 62 ltac:(lia)). rewrite !scom_offset_testbit in Hb by lia. cbn in Hb.
      by rewrite Ha, Ha' in Hb by lia.
    + by rewrite !(testbit_high 64) by lia.
Qed.

(** ** Sessions *)

(** C19: [getscom] is a read session of 8 bytes at the encoded offset and
    [putscom] a write session of the 8 bytes of its argument. *)
Theorem scom_refines c a m d info t o :
  relied (safely no_stop) [] t ->
  let dev := scom_dev (wraps 32 (strtol a)) in
  let off := scom_offset (strtoull m) in
  (exec (rd_scom [c; a; m] info) t o ->
   exists r, read_session true dev O_RDONLY off 8 (device_events t) r /\
     match r with
     | Some bs => o = Returned 0 /\
                  output_of Stdout t = "0x" +:+ fmt_0x 16 (host_load bs) +:+ newline
     | None => o = Returned (-1) /\ output_of Stdout t = ""
     end) /\
  (exec (wr_scom [c; a; m; d] info) t o ->
   exists ok, write_session true dev O_WRONLY off (host_bytes 8 (strtoull d))
                (device_events t) ok /\
     o = Returned (if ok then 0 else -1) /\ output_of Stdout t = "").
Proof.
  intros Hr dev off. split; intros H.
  - unfold rd_scom, open_and_seek in H. exec_run H; tests; cbn in Hr; destruct_and?.
    3: exists (Some l); split; [session|by out_norm].
    all: exists None; split; [session|done].
  - unfold wr_scom, open_and_seek in H. exec_run H; tests; cbn in Hr; destruct_and?.
    4: exists true; split; [session|done].
    all: exists false; split; [session|done].
Qed.

Lemma pir_core_bits p : Z.land (Z.shiftr (wrapu 32 p) 3) 0xf = p / 8 mod 16.
Proof.
  change 0xf with (Z.ones 4). rewrite Z.land_ones, Z.shiftr_div_pow2 by lia.
  unfold wrapu. dlia.
Qed.

Lemma pir_thread_mask p :
  0 <= p < 2 ^ 32 -> Z.land p (wrapu 32 (Z.lnot 7)) = p / 8 * 8.
Proof.
  intros. change 7 with (2 ^ 3 - 1). rewrite land_clear_low by lia. done.
Qed.

Definition pir_file (cpu : Z) : string :=
  snprintf 512 ("/sys/devices/system/cpu/cpu" +:+ fmt_d cpu +:+ "/pir").
Definition chipid_glob (core : Z) : string :=
  snprintf 512 ("/proc/device-tree/cpus/*@" +:+ fmt_x core +:+ "/ibm,chip-id").

(** [cputoex] prints bits 3 to 6 of the processor identification register
    it read, as hexadecimal text, for the CPU. *)
Theorem cpu_to_ex_spec c n info t :
  exec (cpu_to_ex [c; n] info) t (Returned 0) ->
  exists fd bs r,
    t = [Ev (Open (pir_file (wraps 32 (strtoul n))) O_RDONLY) fd;
         Ev (Read fd 64) (Some bs); Ev (Close fd) r;
         Ev (Put Stdout (fmt_d ((strtoul_end 16 (string_of_bytes bs)).1 / 8 mod 16)
                         +:+ newline)) tt].
Proof.
  intros H. unfold cpu_to_ex, cpu_to_pir in H. exec_run H.
  exists r, l, r1. by rewrite pir_core_bits.
Qed.

(** C36: [cputochipid] looks the chip up under the register value with the
    thread bits cleared, and prints the four bytes it finds in host order. *)
Theorem cpu_to_chipid_spec c n info t :
  exec (cpu_to_chipid [c; n] info) t (Returned 0) ->
  exists fd bs r g fd' bs' r',
    let pir := wrapu 32 (strtoul_end 16 (string_of_bytes bs)).1 in
    t = [Ev (Open (pir_file (wraps 32 (strtoul n))) O_RDONLY) fd;
         Ev (Read fd 64) (Some bs); Ev (Close fd) r;
         Ev (Glob (chipid_glob (pir / 8 * 8))) g;
         Ev (Open (hd "" g.2) O_RDONLY) fd'; Ev (Read fd' 4) (Some bs'); Ev (Close fd') r';
         Ev (Put Stdout ("0x" +:+ fmt_0x 8 (host_load bs') +:+ newline)) tt] /\
    length bs' = 4%nat.
Proof.
  intros H. unfold cpu_to_chipid, cpu_to_pir in H. exec_run H.
  prog_norm_in H. unfold pir_to_chipid in H. rewrite pir_thread_mask in H by (by apply wrapu_range).
  exec_run H.
  match goal with g : result (Glob _) |- _ => destruct g as [err paths] end.
  cbn [snd] in *. subst paths.
  exists r, l, r1, (err, s :: l0), r2, l1, r4. split; [reflexivity|by apply Nat.eqb_eq].
Qed.

(** ** Resources: the register commands always close their file; the others
    stop only on indeterminate data. *)

Lemma rd_scom_safe c a m info : resource_safe no_stop (rd_scom [c; a; m] info).
Proof. intros t. unfold rd_scom, open_and_seek. wp_run; live_solve. Qed.

Lemma wr_scom_safe c a m d info : resource_safe no_stop (wr_scom [c; a; m; d] info).
Proof. intros t. unfold wr_scom, open_and_seek. wp_run; live_solve. Qed.

Definition uninit_stop (s : stop) : Prop := s = Undefined UninitRead.

Lemma cpu_to_pir_safe cpu : resource_safe uninit_stop (cpu_to_pir cpu).
Proof. intros t. unfold cpu_to_pir. wp_run; live_solve. Qed.

Lemma pir_to_chipid_safe pir : resource_safe uninit_stop (pir_to_chipid pir).
Proof.
  intros t. unfold pir_to_chipid. wp_run;
    first [live_solve | exfalso; tests; by match goal with H : _ -> _ <> [] |- _ => apply H end].
Qed.

Lemma cpu_to_chipid_safe c n info : resource_safe uninit_stop (cpu_to_chipid [c; n] info).
Proof.
  apply resource_safe_bind; [by intros t|intros a]. apply resource_safe_bind; [apply cpu_to_pir_safe|].
  intros [pir|]; [|by intros t]. apply resource_safe_bind; [apply pir_to_chipid_safe|].
  intros [chipid|]; [|by intros t]. intros t. wp_run; live_solve.
Qed.

Lemma cpu_to_ex_safe c n info : resource_safe uninit_stop (cpu_to_ex [c; n] info).
Proof.
  apply resource_safe_bind; [by intros t|intros a]. apply resource_safe_bind; [apply cpu_to_pir_safe|].
  intros [pir|]; intros t; wp_run; live_solve.
Qed.
End Scom.

(** ** Witnesses *)

#[local] Existing Instance linux_ppc64.

(** An indirect address, and the direct one with the same low bits. *)
Example scom_offset_bits_witness :
  0 <= 2 ^ 63 + 0x1234 < 2 ^ 64 /\ scom_address (2 ^ 63 + 0x1234) /\
  scom_offset (2 ^ 63 + 0x1234) = 2 ^ 62 + 0x91a0 /\
  (forall scom', scom_address scom' -> scom_offset scom' = 2 ^ 62 + 0x91a0 ->
     scom' = 2 ^ 63 + 0x1234) /\
  scom_offset 0x1234 = 0x91a0.
Proof.
  assert (0 <= 2 ^ 63 + 0x1234 < 2 ^ 64) as Hr by lia.
  assert (scom_address (2 ^ 63 + 0x1234)) as H.
  { split; [lia|]. intros i Hi.
    assert (i = 59 \/ i = 60 \/ i = 61 \/ i = 62) as [->|[->|[->| ->]]] by lia; reflexivity. }
  split; [exact Hr|]. split; [exact H|]. split; [reflexivity|]. split; [|reflexivity].
  destruct (scom_offset_bits _ Hr) as (_ & _ & _ & _ & Hinj). exact (Hinj H).
Defined.

Example scom_refines_witness :
  exists t, exec (rd_scom ["getscom"; "0"; "0x100"] (sized 64)) t (Returned 0) /\
  relied (safely no_stop) [] t /\
  exists r, read_session true (scom_dev 0) O_RDONLY 0x800 8 (device_events t) r.
Proof.
  run_env Byte.x2a (rd_scom ["getscom"; "0"; "0x100"] (sized 64)).
  split; [exact Hrun|]. match goal with |- ?A /\ _ => assert A as Hr by relied_env end.
  split; [exact Hr|].
  destruct (proj1 (scom_refines "getscom" "0" "0x100" "0" (sized 64) _ _ Hr) Hrun) as (r & H & _).
  exists r. exact H.
Defined.

Example cpu_to_chipid_spec_witness :
  exists t, exec (cpu_to_chipid ["cputochipid"; "3"] (sized 8)) t (Returned 0) /\
  output_of Stdout t = "0x39000000" +:+ newline.
Proof.
  set (t := [Ev (Open "/sys/devices/system/cpu/cpu3/pir" O_RDONLY) 3;
             Ev (Read 3 64) (Some [Byte.x31; Byte.x39; Byte.x0a; Byte.x00]); Ev (Close 3) 0;
             Ev (Glob "/proc/device-tree/cpus/*@18/ibm,chip-id") (0, ["/proc/x"]);
             Ev (Open "/proc/x" O_RDONLY) 3;
             Ev (Read 3 4) (Some [Byte.x39; Byte.x00; Byte.x00; Byte.x00]); Ev (Close 3) 0;
             Ev (Put Stdout ("0x39000000" +:+ newline)) tt]).
  assert (exec (cpu_to_chipid ["cputochipid"; "3"] (sized 8)) t (Returned 0)) as H
    by (repeat constructor).
  exists t. split; [exact H|].
  destruct (cpu_to_chipid_spec _ _ _ _ H) as (fd & bs & r & g & fd' & bs' & r' & E & _).
  reflexivity.
Defined.
