(* ===== verification/PciRw.v ===== *)
(** * PCI configuration space ([pci_rw.c])

    [pci_read<n>] and [pci_write<n>] access a configuration register through
    the device's file in sysfs or procfs; [pci_list] lists the devices. *)

From S2P Require Import Prelude CLib Platform Sys SmbusTypes Commands DevFile Resources.
Local Open Scope Z_scope.

Section Pci.
Context {P : Platform} {LB : LoopBound}.

Definition PROCFS_BASE_DIR : string := "/proc/bus/pci".
Definition SYSFS_BASE_DIR : string := "/sys/bus/pci/devices".

(** ["%04x:%02x:%02x.%x"]: the conversions take [unsigned int]s. *)
Definition bdf_name (segment bus device function : Z) : string :=
  fmt_0x 4 (wrapu 32 segment) +:+ ":" +:+ fmt_0x 2 (wrapu 32 bus) +:+ ":" +:+
  fmt_0x 2 (wrapu 32 device) +:+ "." +:+ fmt_x (wrapu 32 function).

Definition sysfs_path (segment bus device function : Z) : string :=
  snprintf FILENAME_MAX
    (SYSFS_BASE_DIR +:+ "/" +:+ bdf_name segment bus device function +:+ "/config").

Definition procfs_path (segment bus device function : Z) : string :=
  if segment =? 0 then
    snprintf FILENAME_MAX
      (PROCFS_BASE_DIR +:+ "/" +:+ fmt_0x 2 (wrapu 32 bus) +:+ "/" +:+
       fmt_0x 2 (wrapu 32 device) +:+ "." +:+ fmt_x (wrapu 32 function))
  else
    snprintf FILENAME_MAX
      (PROCFS_BASE_DIR +:+ "/" +:+ fmt_0x 4 (wrapu 32 segment) +:+ ":" +:+
       fmt_0x 2 (wrapu 32 bus) +:+ "/" +:+
       fmt_0x 2 (wrapu 32 device) +:+ "." +:+ fmt_x (wrapu 32 function)).

Definition open_device (segment bus device function mode : Z) : prog Z :=
  fd ← act (Open (sysfs_path segment bus device function) mode);
  fd ← (if fd <? 0 then act (Open (procfs_path segment bus device function) mode)
        else Ret fd);
  (if fd <? 0 then
     report ("Unable to open file to access PCI device '" +:+
             bdf_name segment bus device function +:+ "'")
   else Ret tt);;
  Ret fd.

(** [DO_READ(size)] followed by what follows the [switch]. *)
Definition do_read (fd : Z) (n : nat) : prog Z :=
  got ← read_exact fd (Z.of_nat n);
  match got with
  | None => report "read()";; Ret (-1)
  | Some bs =>
      let data := le_to_host n (host_load bs) in
      printf ("0x" +:+ fmt_0x (n * 2) data +:+ newline);;
      act (Close fd);;
      Ret 0
  end.

(** The location arguments from position [arg] on: bus, device, function and
    register as [unsigned int]s, passed on as [int]s. *)
Definition parse_location (argv : list string) (arg : nat) : prog (Z * Z * Z * Z) :=
  bus ← argv_at argv arg;
  dev ← argv_at argv (arg + 1);
  func ← argv_at argv (arg + 2);
  reg ← argv_at argv (arg + 3);
  Ret (wrapu 32 (strtol bus), wrapu 32 (strtoul dev), wrapu 32 (strtoul func),
       wrapu 32 (strtoul reg)).

(** The optional first argument, there if [argc > max]. *)
Definition parse_segment (argv : list string) (max : Z) : prog (Z * nat) :=
  if max <? Z.of_nat (length argv) then
    seg ← argv_at argv 1;
    Ret (wrapu 32 (strtol seg), 2%nat)
  else Ret (0, 1%nat).

Definition pci_read_x (argv : list string) (info : cmd_data) : prog Z :=
  sa ← parse_segment argv 5;
  let '(seg, arg) := sa in
  loc ← parse_location argv arg;
  let '(bus, dev, func, reg) := loc in
  fd ← open_device (wraps 32 seg) (wraps 32 bus) (wraps 32 dev) (wraps 32 func) O_RDONLY;
  if fd <? 0 then Ret (-1)
  else
    pos ← act (Lseek fd reg);
    if pos <? 0 then
      report ("lseek(" +:+ fmt_u reg +:+ ")");;
      Ret (-1)
    else
      let size := get_command_size info in
      if size =? SIZE8 then do_read fd 1
      else if size =? SIZE16 then do_read fd 2
      else if size =? SIZE32 then do_read fd 4
      else eprintf ("invalid pci_read entry" +:+ newline);; Ret (-1).

(** [DO_WRITE(size)] followed by what follows the [switch]. *)
Definition do_write (fd : Z) (n : nat) (ldata : Z) : prog Z :=
  let data := host_to_le n (wrapu (8 * Z.of_nat n) ldata) in
  w ← act (Write fd (host_bytes n data));
  if negb (w =? Z.of_nat n) then report "write()";; Ret (-1)
  else act (Close fd);; Ret 0.

Definition pci_write_x (argv : list string) (info : cmd_data) : prog Z :=
  sa ← parse_segment argv 6;
  let '(seg, arg) := sa in
  loc ← parse_location argv arg;
  let '(bus, dev, func, reg) := loc in
  d ← argv_at argv (arg + 4);
  let ldata := strtoul d in
  fd ← open_device (wraps 32 seg) (wraps 32 bus) (wraps 32 dev) (wraps 32 func) O_WRONLY;
  if fd <? 0 then Ret (-1)
  else
    pos ← act (Lseek fd reg);
    if pos <? 0 then
      report ("lseek(" +:+ fmt_u reg +:+ ")");;
      Ret (-1)
    else
      let size := get_command_size info in
      if size =? SIZE8 then do_write fd 1 ldata
      else if size =? SIZE16 then do_write fd 2 ldata
      else if size =? SIZE32 then do_write fd 4 ldata
      else eprintf ("invalid pci_read entry" +:+ newline);; Ret (-1).

(** ** Listing *)

(** [sscanf(name, "%04x:%02x:%02x.%x", &seg, &bus, &dev, &fun) == 4]; the last
    field has no width. *)
Definition scan_bdf (s : string) : option (Z * Z * Z * Z) :=
  f1 ← scan_hex_field long_bits 4 s; let '(seg, s1) := f1 in
  s2 ← scan_lit ":" s1;
  f2 ← scan_hex_field long_bits 2 s2; let '(bus, s3) := f2 in
  s4 ← scan_lit ":" s3;
  f3 ← scan_hex_field long_bits 2 s4; let '(dev, s5) := f3 in
  s6 ← scan_lit "." s5;
  f4 ← scan_hex_field long_bits (8 + String.length s6) s6; let '(fun_, _) := f4 in
  Some (wraps 32 seg, wraps 32 bus, wraps 32 dev, wraps 32 fun_).

(** [sscanf(name, "%02x.%x", &dev, &fun) == 2] *)
Definition scan_df (s : string) : option (Z * Z) :=
  f1 ← scan_hex_field long_bits 2 s; let '(dev, s1) := f1 in
  s2 ← scan_lit "." s1;
  f2 ← scan_hex_field long_bits (8 + String.length s2) s2; let '(fun_, _) := f2 in
  Some (wraps 32 dev, wraps 32 fun_).

Definition list_line (bus dev fun_ : Z) : string :=
  fmt_d bus +:+ " " +:+ fmt_d dev +:+ " " +:+ fmt_d fun_ +:+ newline.

Definition pci_list_sysfs : prog Z :=
  dir ← act (Opendir SYSFS_BASE_DIR);
  if dir =? 0 then
    report ("opendir(" +:+ SYSFS_BASE_DIR +:+ ")");;
    Ret (-1)
  else
    while_readdir loop_bound dir (fun d_name _ =>
      match scan_bdf d_name with
      | Some (_, bus, dev, fun_) => printf (list_line bus dev fun_);; Ret true
      | None => Ret true
      end);;
    act (Closedir dir);;
    Ret 0.

(** The body of the inner loop. *)
Definition list_function (bus : Z) (d_name : string) (_ : bool) : prog bool :=
  match scan_df d_name with
  | Some (dev, fun_) => printf (list_line bus dev fun_);; Ret true
  | None => Ret true
  end.

(** The body of the outer loop; it ends the function when a directory cannot
    be opened. *)
Definition list_bus (d_name : string) (is_dir : bool) : prog bool :=
  match scan_hex_field long_bits 2 d_name with
  | Some (bus, _) =>
      if is_dir then
        let buf := snprintf 1024 (PROCFS_BASE_DIR +:+ "/" +:+ d_name) in
        subdir ← act (Opendir buf);
        if subdir =? 0 then
          report ("opendir(" +:+ buf +:+ ")");;
          Ret false
        else while_readdir loop_bound subdir (list_function (wraps 32 bus))
      else Ret true
  | None => Ret true
  end.

Definition pci_list_procfs : prog Z :=
  dir ← act (Opendir PROCFS_BASE_DIR);
  if dir =? 0 then
    report ("opendir(" +:+ PROCFS_BASE_DIR +:+ ")");;
    Ret (-1)
  else
    completed ← while_readdir loop_bound dir list_bus;
    Ret (if (completed : bool) then 0 else -1).

Definition pci_list (argv : list string) (info : cmd_data) : prog Z :=
  ret ← pci_list_sysfs;
  if ret <? 0 then pci_list_procfs else Ret ret.

Definition rd_params :=
  make_prereq_params_var_args 5 6 "[segment] <bus> <dev> <func> <reg>" 0.
Definition wr_params :=
  make_prereq_params_var_args 6 7 "[segment] <bus> <dev> <func> <reg> <data>" 0.

Definition make_pci_read_cmd (n : string) (sz : size_param) : cmd_info :=
  make_cmd_with_params_size n pci_read_x PrivNull rd_params sz.
Definition make_pci_write_cmd (n : string) (sz : size_param) : cmd_info :=
  make_cmd_with_params_size n pci_write_x PrivNull wr_params sz.

Definition pci_cmds : list cmd_info := [
  make_pci_read_cmd "pci_read8" size8; make_pci_write_cmd "pci_write8" size8;
  make_pci_read_cmd "pci_read16" size16; make_pci_write_cmd "pci_write16" size16;
  make_pci_read_cmd "pci_read32" size32; make_pci_write_cmd "pci_write32" size32;
  make_cmd "pci_list" pci_list PrivNull
].
Definition PCI_group : cmd_group :=
  {| grp_name := "PCI"; description := Some "commands to access PCI registers";
     commands := pci_cmds |}.

(** ** Register access *)

(** The arguments name a location. *)
Inductive located : list string -> Z -> Z -> Z -> Z -> Z -> Prop :=
  | located_default c b d f r :
      located [c; b; d; f; r] 0 (wraps 32 (strtol b)) (wraps 32 (strtoul d))
        (wraps 32 (strtoul f)) (wrapu 32 (strtoul r))
  | located_segment c s b d f r :
      located [c; s; b; d; f; r] (wraps 32 (strtol s)) (wraps 32 (strtol b))
        (wraps 32 (strtoul d)) (wraps 32 (strtoul f)) (wrapu 32 (strtoul r)).

(** A session on the first path, or on the second when the first cannot be
    opened. *)
Inductive with_fallback (path1 path2 : string) (flags : Z)
    (session : string -> trace -> Prop) : trace -> Prop :=
  | first_path fd t :
      0 <= fd -> session path1 (Ev (Open path1 flags) fd :: t) ->
      with_fallback path1 path2 flags session (Ev (Open path1 flags) fd :: t)
  | second_path fd t :
      fd < 0 -> session path2 t ->
      with_fallback path1 path2 flags session (Ev (Open path1 flags) fd :: t).

(** The byte counts of the registered commands. *)
Definition pci_bytes (n : nat) : Prop := n = 1%nat \/ n = 2%nat \/ n = 4%nat.
Definition bits_of (n : nat) : Z := 8 * Z.of_nat n.

(** [pci_read_x] once its arguments are parsed. *)
Definition read_at (s b d f r : Z) (n : nat) : prog Z :=
  fd ← open_device s b d f O_RDONLY;
  if fd <? 0 then Ret (-1)
  else
    pos ← act (Lseek fd r);
    if pos <? 0 then report ("lseek(" +:+ fmt_u r +:+ ")");; Ret (-1)
    else do_read fd n.

Definition write_at (s b d f r : Z) (n : nat) (ldata : Z) : prog Z :=
  fd ← open_device s b d f O_WRONLY;
  if fd <? 0 then Ret (-1)
  else
    pos ← act (Lseek fd r);
    if pos <? 0 then report ("lseek(" +:+ fmt_u r +:+ ")");; Ret (-1)
    else do_write fd n ldata.

Lemma pci_read_located argv s b d f r n :
  located argv s b d f r -> pci_bytes n ->
  pci_read_x argv (sized (bits_of n)) = read_at s b d f r n.
Proof.
  intros [c b0 d0 f0 r0|c s0 b0 d0 f0 r0] Hn;
    [|rewrite <- (wraps_wrapu 32 (strtol s0)) by lia];
    rewrite <- (wraps_wrapu 32 (strtol b0)),
      <- (wraps_wrapu 32 (strtoul d0)), <- (wraps_wrapu 32 (strtoul f0)) by lia;
    destruct Hn as [-> | [-> | ->]]; reflexivity.
Qed.

Lemma pci_write_located argv s b d f r x n :
  located argv s b d f r -> pci_bytes n ->
  pci_write_x (argv ++ [x]) (sized (bits_of n)) = write_at s b d f r n (strtoul x).
Proof.
  intros [c b0 d0 f0 r0|c s0 b0 d0 f0 r0] Hn;
    [|rewrite <- (wraps_wrapu 32 (strtol s0)) by lia];
    rewrite <- (wraps_wrapu 32 (strtol b0)),
      <- (wraps_wrapu 32 (strtoul d0)), <- (wraps_wrapu 32 (strtoul f0)) by lia;
    destruct Hn as [-> | [-> | ->]]; reflexivity.
Qed.

(** C9: [pci_read<n>] is one read session on the device's sysfs file, or on its
    procfs file if that cannot be opened; it prints the bytes read as a
    little-endian number, whatever the host's byte order. *)
Theorem pci_read_refines argv s b d f r n t o :
  located argv s b d f r -> pci_bytes n ->
  exec (pci_read_x argv (sized (bits_of n))) t o ->
  exists res,
    with_fallback (sysfs_path s b d f) (procfs_path s b d f) O_RDONLY
      (fun path t' => read_session false path O_RDONLY r (Z.of_nat n) t' res)
      (device_events t) /\
    match res with
    | Some bs => o = Returned 0 /\
                 output_of Stdout t = "0x" +:+ fmt_0x (n * 2) (le_combine bs) +:+ newline
    | None => o = Returned (-1) /\ output_of Stdout t = ""
    end.
Proof.
  intros Hl Hn H. rewrite (pci_read_located _ _ _ _ _ _ _ Hl Hn) in H. clear Hl Hn.
  unfold read_at, open_device, do_read in H. exec_run H; tests.
  all: try (exists None; split; [|done]; first
    [apply first_path; [lia|session] | apply second_path; [lia|session]]).
  all: exists (Some l); split;
    [first [apply first_path; [lia|session] | apply second_path; [lia|session]]|].
  all: rewrite le_to_host_load by lia; by out_norm.
Qed.

(** C10: [pci_write<n>] is one write session of the low bytes of its argument in
    little-endian order, with the same choice of file. *)
Theorem pci_write_refines argv s b d f r x n t o :
  located argv s b d f r -> pci_bytes n ->
  exec (pci_write_x (argv ++ [x]) (sized (bits_of n))) t o ->
  exists ok,
    with_fallback (sysfs_path s b d f) (procfs_path s b d f) O_WRONLY
      (fun path t' => write_session false path O_WRONLY r (le_split n (strtoul x)) t' ok)
      (device_events t) /\
    o = Returned (if ok then 0 else -1) /\ output_of Stdout t = "".
Proof.
  intros Hl Hn H. rewrite (pci_write_located _ _ _ _ _ _ _ _ Hl Hn) in H. clear Hl Hn.
  unfold write_at, open_device, do_write in H.
  rewrite host_to_le_bytes, le_split_wrapu in H by lia. exec_run H; tests.
  all: try (exists false; split; [|done]; first
    [apply first_path; [lia|session] | apply second_path; [lia|session]]).
  all: exists true; split;
    [first [apply first_path; [lia|session] | apply second_path; [lia|session]]|done].
Qed.

(** A transfer that succeeds closes its file; one that fails leaves open what
    it opened. *)
Lemma pci_read_holds argv s b d f r n t rc :
  located argv s b d f r -> pci_bytes n ->
  exec (pci_read_x argv (sized (bits_of n))) t (Returned rc) ->
  live t = if rc <? 0 then acquired t else ∅.
Proof.
  intros Hl Hn H. rewrite (pci_read_located _ _ _ _ _ _ _ Hl Hn) in H. clear Hl Hn.
  unfold read_at, open_device, do_read in H. exec_run H; cbn [Z.ltb Z.compare]; held.
Qed.

Lemma pci_write_holds argv s b d f r x n t rc :
  located argv s b d f r -> pci_bytes n ->
  exec (pci_write_x (argv ++ [x]) (sized (bits_of n))) t (Returned rc) ->
  live t = if rc <? 0 then acquired t else ∅.
Proof.
  intros Hl Hn H. rewrite (pci_write_located _ _ _ _ _ _ _ _ Hl Hn) in H. clear Hl Hn.
  unfold write_at, open_device, do_write in H. exec_run H; cbn [Z.ltb Z.compare]; held.
Qed.

(** ** Names of devices *)

Lemma hex_end_lit c s :
  c = ":"%char \/ c = "."%char -> hex_end (String c s).
Proof. intros [-> | ->]; repeat split; vm_compute; congruence. Qed.

Lemma long_bits_32 : 32 <= long_bits.
Proof. destruct long_bits_cases; lia. Qed.

Lemma scan_lit_eq c s : scan_lit c (String c s) = Some s.
Proof. cbn. by rewrite Ascii.eqb_refl. Qed.

(** The name the kernel gives a device, and the program gives its file,
    scans back to the device's numbers. *)
Theorem scan_bdf_name s b d f :
  0 <= s < 2 ^ 16 -> 0 <= b < 2 ^ 8 -> 0 <= d < 2 ^ 8 -> 0 <= f < 2 ^ 31 ->
  scan_bdf (bdf_name s b d f) = Some (s, b, d, f).
Proof.
  intros Hs Hb Hd Hf. unfold scan_bdf, bdf_name. pose proof long_bits_32.
  change (":" +:+ ?x) with (String ":" x). rewrite !(wrapu_small 32) by plia.
  rewrite !str_app_cons, !str_app_nil_l.
  rewrite scan_hex_field_fmt_0x by (try apply hex_end_lit; auto; plia).
  cbn [mbind option_bind]. rewrite scan_lit_eq. cbn [mbind option_bind].
  rewrite scan_hex_field_fmt_0x by (try apply hex_end_lit; auto; plia).
  cbn [mbind option_bind]. rewrite scan_lit_eq. cbn [mbind option_bind].
  rewrite scan_hex_field_fmt_0x by (try apply hex_end_lit; auto; plia).
  cbn [mbind option_bind]. rewrite scan_lit_eq. cbn [mbind option_bind].
  pose proof (scan_hex_field_fmt_x long_bits (8 + String.length (fmt_x f)) f "") as E.
  rewrite str_app_nil_r in E. rewrite E by (try done; plia || lia). cbn [mbind option_bind].
  rewrite !wraps_small by plia. done.
Qed.

(** ** The listing *)

(** What is printed for a directory entry. *)
Definition listed (e : string * bool) : string :=
  match scan_bdf e.1 with Some (_, b, d, f) => list_line b d f | None => "" end.

Lemma exec_listed_body d b t o :
  exec (match scan_bdf d with
        | Some (_, bus, dev, fun_) => printf (list_line bus dev fun_);; Ret true
        | None => Ret true
        end) t o ->
  o = Returned true /\ output_of Stdout t = listed (d, b) /\ entries t = [].
Proof.
  intros H. unfold listed. cbn [fst].
  destruct (scan_bdf d) as [[[[s b'] d'] f]|]; exec_run H; [|done].
  split; [done|]. by out_norm.
Qed.

(** C34: [pci_list] prints, in directory order, one line for each entry of the
    sysfs directory that is a device name, and closes the directory; more
    entries than the loop bound are the only way not to finish. *)
Theorem pci_list_sysfs_spec t o :
  exec pci_list_sysfs t o ->
  exists dir t', t = Ev (Opendir SYSFS_BASE_DIR) dir :: t' /\
  if dir =? 0 then o = Returned (-1) /\ output_of Stdout t = ""
  else output_of Stdout t = foldr (fun e s => listed e +:+ s) "" (entries t) /\
       ((o = Returned 0 /\ exists t'' r, t' = t'' ++ [Ev (Closedir dir) r]) \/
        (o = Stopped OutOfFuel /\ (loop_bound <= length (entries t))%nat)).
Proof.
  intros H. unfold pci_list_sysfs in H. exec_step H.
  exists r, t0. split; [done|]. prog_norm_in H. destruct (r =? 0) eqn:Hr; [exec_run H; done|].
  apply (exec_bind_inv (while_readdir _ _ _)) in H as [(x & t1 & t2 & H1 & H2 & ->)|(s & H1 & ->)];
    apply (exec_while_readdir _ listed) in H1 as [Hout Ho]; try apply exec_listed_body.
  - exec_run H2. change (Ev ?a ?x :: ?u) with ([Ev a x] ++ u).
    unfold entries in *. rewrite !output_of_app, !observe_app. cbn.
    rewrite app_nil_r, str_app_nil_r, Hout. split; [done|]. left. eauto.
  - destruct Ho as [?|[[= ->] ?]]; [done|]. split; [exact Hout|]. by right.
Qed.

(** The paths of all devices fit their buffer. *)
Lemma sysfs_path_fits s b d f :
  sysfs_path s b d f = SYSFS_BASE_DIR +:+ "/" +:+ bdf_name s b d f +:+ "/config".
Proof.
  apply snprintf_fits. unfold bdf_name. rewrite !str_length_app.
  pose proof (wrapu_range 32) as Hr.
  pose proof (fmt_0x_length 4 (wrapu 32 s) (Hr s ltac:(lia))).
  pose proof (fmt_0x_length 2 (wrapu 32 b) (Hr b ltac:(lia))).
  pose proof (fmt_0x_length 2 (wrapu 32 d) (Hr d ltac:(lia))).
  pose proof (fmt_x_length (wrapu 32 f) (Hr f ltac:(lia))).
  cbn [SYSFS_BASE_DIR String.length]. unfold FILENAME_MAX. lia.
Qed.

Lemma strtol_fmt_u z : 0 <= z < 2 ^ 31 -> strtol (fmt_u z) = z.
Proof.
  intros. unfold strtol. rewrite strtos_fmt_u; [done|].
  pose proof (Z.pow_le_mono_r 2 31 (long_bits - 1)). pose proof long_bits_32. lia.
Qed.

Lemma strtoul_fmt_u z : 0 <= z < 2 ^ 31 -> strtoul (fmt_u z) = z.
Proof.
  intros. unfold strtoul. rewrite strtou_fmt_u; [done|].
  pose proof (Z.pow_le_mono_r 2 31 long_bits). pose proof long_bits_32. lia.
Qed.

Lemma located_printed c b d f r :
  0 <= b < 2 ^ 31 -> 0 <= d < 2 ^ 31 -> 0 <= f < 2 ^ 31 ->
  located [c; fmt_u b; fmt_u d; fmt_u f; r] 0 b d f (wrapu 32 (strtoul r)).
Proof.
  intros Hb Hd Hf. pose proof (located_default c (fmt_u b) (fmt_u d) (fmt_u f) r) as H.
  by rewrite strtol_fmt_u, !strtoul_fmt_u, !wraps_small in H by (done || lia).
Qed.

(** C35: the numbers printed for a device of the default segment, given back to
    [pci_read<n>], make it open the file of that very device first. *)
Theorem pci_list_read b d f c r n t o :
  0 <= b < 2 ^ 8 -> 0 <= d < 2 ^ 8 -> 0 <= f < 2 ^ 31 -> pci_bytes n ->
  listed (bdf_name 0 b d f, false)
  = fmt_u b +:+ " " +:+ fmt_u d +:+ " " +:+ fmt_u f +:+ newline /\
  (exec (pci_read_x [c; fmt_u b; fmt_u d; fmt_u f; r] (sized (bits_of n))) t o ->
   exists fd t',
     t = Ev (Open (SYSFS_BASE_DIR +:+ "/" +:+ bdf_name 0 b d f +:+ "/config") O_RDONLY) fd
         :: t').
Proof.
  intros Hb Hd Hf Hn. split.
  - unfold listed. cbn [fst]. rewrite scan_bdf_name by (done || lia).
    unfold list_line, fmt_d. destruct (Z.ltb_spec b 0), (Z.ltb_spec d 0), (Z.ltb_spec f 0);
      done || lia.
  - intros H. rewrite (pci_read_located _ 0 b d f (wrapu 32 (strtoul r)) n) in H; [|..|done].
    + apply exec_inv in H as (fd & t' & -> & _). exists fd, t'. by rewrite <- sysfs_path_fits.
    + apply located_printed; plia.
Qed.

(** ** Safety: the commands only use files and directories they hold *)

Lemma pci_read_behaved argv s b d f r n :
  located argv s b d f r -> pci_bytes n ->
  well_behaved no_stop (pci_read_x argv (sized (bits_of n))).
Proof.
  intros Hl Hn t. rewrite (pci_read_located _ _ _ _ _ _ _ Hl Hn).
  unfold read_at, open_device, do_read. wp_run; live_solve.
Qed.

Lemma pci_write_behaved argv s b d f r x n :
  located argv s b d f r -> pci_bytes n ->
  well_behaved no_stop (pci_write_x (argv ++ [x]) (sized (bits_of n))).
Proof.
  intros Hl Hn t. rewrite (pci_write_located _ _ _ _ _ _ _ _ Hl Hn).
  unfold write_at, open_device, do_write. wp_run; live_solve.
Qed.

Lemma list_function_wp st bus d b t (s : gset resource) :
  s ⊆ live t -> wp (safely st) (list_function bus d b) t (fun _ t' => s ⊆ live t').
Proof.
  intros Ht. unfold list_function. destruct (scan_df d) as [[]|]; [|done].
  split; [done|]. intros ? _. cbn. by rewrite live_neutral.
Qed.

Lemma list_bus_wp (st : stop -> Prop) d b t (s : gset resource) :
  st OutOfFuel -> s ⊆ live t ->
  wp (safely st) (list_bus d b) t (fun _ t' => s ⊆ live t').
Proof.
  intros Hst Ht. unfold list_bus. destruct (scan_hex_field _ _ _) as [[bus ?]|]; [|done].
  destruct b; [|done]. split; [done|]. intros sub Hsub. wp_norm.
  destruct (Z.eqb_spec sub 0) as [->|].
  - wp_run; live_norm; done.
  - eapply wp_mono; [|apply (wp_while_readdir _ _ _ _ _ ({[RDir sub]} ∪ s))].
    + cbn. set_solver.
    + exact Hst.
    + set_solver.
    + intros. by apply list_function_wp.
    + rewrite live_opendir by done. set_solver.
Qed.

Lemma pci_list_behaved (st : stop -> Prop) argv info :
  st OutOfFuel -> well_behaved st (pci_list argv info).
Proof.
  intros Hst.
  apply well_behaved_bind.
  - intros t. unfold pci_list_sysfs. split; [done|]. intros dir Hdir. wp_norm.
    destruct (Z.eqb_spec dir 0); [wp_run; done|].
    eapply (wp_seq _ (while_readdir _ _ _)).
    + apply (wp_while_readdir _ _ _ _ _ {[RDir dir]}).
      * exact Hst.
      * set_solver.
      * intros d b t' Ht'. destruct (scan_bdf d) as [[[[? ?] ?] ?]|]; [|done].
        wp_run; live_norm; done.
      * rewrite live_opendir by done. set_solver.
    + intros ? t' Ht'. cbn in Ht'. wp_run; set_solver.
  - intros ret. destruct (ret <? 0); [|done]. intros t. unfold pci_list_procfs.
    split; [done|]. intros dir Hdir. wp_norm.
    destruct (Z.eqb_spec dir 0); [wp_run; done|].
    eapply (wp_seq _ (while_readdir _ _ _)).
    + apply (wp_while_readdir _ _ _ _ _ {[RDir dir]}).
      * exact Hst.
      * set_solver.
      * intros. by apply list_bus_wp.
      * rewrite live_opendir by done. set_solver.
    + done.
Qed.

(** ** What the listing keeps open

    The sysfs directory is closed; when it cannot be opened, procfs is listed
    and none of its directories are closed. *)

(** The sysfs directory could not be opened. *)
Definition unlisted (t : trace) : bool :=
  existsb (fun e => match e with
                    | Ev (Opendir path) dir => String.eqb path SYSFS_BASE_DIR && (dir =? 0)
                    | _ => false
                    end) t.

Lemma idle_unlisted t : idle t -> unlisted t = false.
Proof.
  intros H. induction H as [|[a r] t Ha _ IH]; [done|]. unfold unlisted in *. cbn [existsb].
  rewrite IH. by destruct a.
Qed.

Lemma scan_body_neutral (d : string) (b : bool) t :
  wp (calls (fun a => neutral a = true))
    (match scan_bdf d with
     | Some (_, bus, dev, fun_) => printf (list_line bus dev fun_);; Ret true
     | None => Ret true
     end) t (fun _ _ => True).
Proof. destruct (scan_bdf d) as [[[[? ?] ?] ?]|]; wp_run; done. Qed.

Lemma list_bus_growing d b t :
  wp (calls (fun a => releases a = false)) (list_bus d b) t (fun _ _ => True).
Proof.
  unfold list_bus. destruct (scan_hex_field _ _ _) as [[bus ?]|]; [|done].
  destruct b; [|done]. split; [done|]. intros sub _. wp_norm.
  destruct (sub =? 0); [wp_run; done|]. apply while_readdir_calls; [done|].
  intros d' b' t'. unfold list_function. destruct (scan_df d') as [[]|]; wp_run; done.
Qed.

Lemma pci_list_procfs_growing t o : exec pci_list_procfs t o -> growing t.
Proof.
  apply calls_growing. unfold pci_list_procfs. split; [done|]. intros dir _. wp_norm.
  destruct (dir =? 0); [wp_run; done|].
  eapply (wp_seq _ (while_readdir _ _ _)); [|done].
  apply while_readdir_calls; [done|apply list_bus_growing].
Qed.

Lemma pci_list_holds argv info t rc :
  exec (pci_list argv info) t (Returned rc) ->
  live t = if unlisted t then acquired t else ∅.
Proof.
  intros H. unfold pci_list in H.
  apply (exec_bind_inv pci_list_sysfs) in H as [(ret & t1 & t2 & H1 & H2 & ->)|(s & _ & ?)]; [|done].
  unfold pci_list_sysfs in H1. exec_step H1. prog_norm_in H1. destruct (r =? 0) eqn:Hr.
  - exec_run H1. cbn [Z.ltb Z.compare] in H2. apply pci_list_procfs_growing in H2.
    cbn [app unlisted existsb]. rewrite Hr, String.eqb_refl. cbn [andb orb].
    apply live_growing. repeat (constructor; [done|]). exact H2.
  - apply (exec_bind_inv (while_readdir _ _ _)) in H1 as [(x & u & u' & Hu & Hc & ->)|(s & _ & ?)];
      [|done].
    apply calls_neutral in Hu; [|by apply while_readdir_calls, scan_body_neutral].
    exec_run Hc. cbn [Z.ltb Z.compare] in H2. apply exec_ret_iff in H2 as [-> _].
    rewrite app_nil_r. cbn [unlisted existsb].
    fold (unlisted (u ++ [Ev (Closedir r) r0])).
    assert (unlisted (u ++ [Ev (Closedir r) r0]) = false) as ->.
    { apply idle_unlisted in Hu. unfold unlisted in *. by rewrite existsb_app, Hu. }
    rewrite Hr, andb_false_r. cbn [orb].
    change (Ev (Opendir SYSFS_BASE_DIR) r :: u ++ [Ev (Closedir r) r0])
      with (([Ev (Opendir SYSFS_BASE_DIR) r] ++ u) ++ [Ev (Closedir r) r0]).
    rewrite live_app, live_idle by done. unfold live. cbn. rewrite Hr. set_solver.
Qed.
End Pci.

(** ** Witnesses *)

#[local] Existing Instance linux_x86_64.
#[local] Instance witness_bound : LoopBound := 4%nat.

Example pci_read_refines_witness :
  exists t, exec (pci_read_x ["pci_read16"; "0"; "0x1f"; "3"; "0x40"] (sized 16)) t (Returned 0) /\
  exists bs, with_fallback (sysfs_path 0 0 31 3) (procfs_path 0 0 31 3) O_RDONLY
    (fun path t' => read_session false path O_RDONLY 0x40 2 t' (Some bs)) (device_events t).
Proof.
  run_env Byte.x2a (pci_read_x ["pci_read16"; "0"; "0x1f"; "3"; "0x40"] (sized 16)).
  split; [exact Hrun|].
  destruct (pci_read_refines _ _ _ _ _ _ 2 _ _
    (located_default "pci_read16" "0" "0x1f" "3" "0x40") (or_intror (or_introl eq_refl)) Hrun)
    as ([bs|] & H & Ho); [exists bs; exact H|]. destruct Ho; discriminate.
Defined.

Example pci_write_refines_witness :
  exists t, exec (pci_write_x ["pci_write8"; "0"; "0x1f"; "3"; "0x40"; "0x1ff"] (sized 8)) t
              (Returned 0) /\
  exists ok, with_fallback (sysfs_path 0 0 31 3) (procfs_path 0 0 31 3) O_WRONLY
    (fun path t' => write_session false path O_WRONLY 0x40 [Byte.xff] t' ok) (device_events t).
Proof.
  run_env Byte.x2a (pci_write_x ["pci_write8"; "0"; "0x1f"; "3"; "0x40"; "0x1ff"] (sized 8)).
  split; [exact Hrun|].
  destruct (pci_write_refines _ _ _ _ _ _ "0x1ff" 1 _ _
    (located_default "pci_write8" "0" "0x1f" "3" "0x40") (or_introl eq_refl) Hrun)
    as (ok & H & _). exists ok. exact H.
Defined.

Definition bus_listing : trace :=
  [Ev (Opendir "/sys/bus/pci/devices") 7; Ev (Readdir 7) (Some (".", true));
   Ev (Readdir 7) (Some ("0000:00:1f.3", false));
   Ev (Put Stdout ("0 31 3" +:+ newline)) tt; Ev (Readdir 7) None; Ev (Closedir 7) 0].

Example pci_list_sysfs_spec_witness :
  exec pci_list_sysfs bus_listing (Returned 0) /\
  output_of Stdout bus_listing
  = foldr (fun e s => listed e +:+ s) "" [(".", true); ("0000:00:1f.3", false)].
Proof.
  assert (exec pci_list_sysfs bus_listing (Returned 0)) as H by (repeat constructor).
  split; [exact H|]. destruct (pci_list_sysfs_spec _ _ H) as (dir & t' & E & Hd).
  apply (f_equal (fun l => match l with Ev (Opendir _) d :: _ => d | _ => 0 end)) in E.
  cbn in E. subst dir. exact (proj1 Hd).
Defined.

Example pci_list_read_witness :
  exists t, exec (pci_read_x ["pci_read8"; fmt_u 0; fmt_u 31; fmt_u 3; "0"] (sized 8)) t
              (Returned 0) /\
  exists fd t', t = Ev (Open "/sys/bus/pci/devices/0000:00:1f.3/config" O_RDONLY) fd :: t'.
Proof.
  run_env Byte.x2a (pci_read_x ["pci_read8"; fmt_u 0; fmt_u 31; fmt_u 3; "0"] (sized 8)).
  split; [exact Hrun|].
  apply (proj2 (pci_list_read 0 31 3 "pci_read8" "0" 1 _ _ ltac:(lia) ltac:(lia) ltac:(lia)
    (or_introl eq_refl)) Hrun).
Defined.
