(* ===== verification/MmioRw.v ===== *)
(** * Physical memory access ([mmio_rw.c])

    [mmio_read<n>] and [mmio_write<n>] (uncached), [mem_read<n>] and
    [mem_write<n>] (cached) access one location of [/dev/mem] through a
    mapping of the pages around it; [mmio_dump] and [mem_dump] print a range. *)

From S2P Require Import Prelude CLib Platform Sys SmbusTypes Commands DevFile.
Local Open Scope Z_scope.

Section Mmio.
Context {P : Platform}.

(** [struct mmap_info], as [open_mapping] leaves it on success. *)
Record mmap_info := {
  mm_fd : Z; mm_mem : Z; mm_off : Z; mm_pgsize : Z; mm_length : Z; mm_addr : Z
}.

(** [mmap_addr->addr] on entry is [addr]; [bytes] is an [unsigned]. *)
Definition open_mapping (addr flags bytes : Z) : prog (option mmap_info) :=
  page ← act Getpagesize;
  let pgsize := wrapu long_bits page in
  let off := wraps 32 (Z.land addr (wrapu long_bits (pgsize - 1))) in
  let addr := Z.land addr (wrapu 64 (Z.lnot (wrapu 64 (pgsize - 1)))) in
  fd ← act (Open "/dev/mem" flags);
  if fd <? 0 then
    report "open(/dev/mem)";;
    Ret None
  else
    let prot :=
      if Z.land flags O_ACCMODE =? O_RDWR then Z.lor PROT_READ PROT_WRITE
      else if Z.land flags O_ACCMODE =? O_RDONLY then PROT_READ
      else if Z.land flags O_ACCMODE =? O_WRONLY then PROT_WRITE
      else 0 in
    let length := wrapu 32 (bytes + off) in
    mem ← act (Mmap length prot fd (wraps 64 addr));
    if (mem =? 0) || (mem =? MAP_FAILED) then
      report "mmap(/dev/mem)";;
      act (Close fd);;
      Ret None
    else
      Ret (Some {| mm_fd := fd; mm_mem := mem; mm_off := off; mm_pgsize := pgsize;
                   mm_length := length; mm_addr := addr |}).

Definition close_mapping (m : mmap_info) : prog unit :=
  act (Munmap (mm_mem m) (mm_length m));;
  act (Close (mm_fd m));;
  Ret tt.

(** [mmf->flags], where [mmf = info->privdata]. *)
Definition mmap_flags (info : cmd_data) : prog Z :=
  match privdata info with
  | PrivMmap flags => Ret flags
  | PrivNull => undef NullPointer
  | _ => undef BadCast
  end.

(** [sizeof(data_store)] *)
Definition data_store_size : Z := 8.

(** [DO_READ(mem, off, size)] *)
Definition do_read (m : mmap_info) (bits : Z) : prog Z :=
  v ← act (Load bits (mm_mem m + mm_off m));
  printf ("0x" +:+ fmt_0x (Z.to_nat (bits / 8) * 2) (wrapu bits v) +:+ newline);;
  Ret 0.

Definition warn_not_atomic : prog unit :=
  if negb (long_bits =? 64)
  then eprintf ("warning: 64 bit operations might not be atomic on 32 bit builds" +:+ newline)
  else Ret tt.

Definition mmio_read_x (argv : list string) (info : cmd_data) : prog Z :=
  a1 ← argv_at argv 1;
  let addr := strtoull a1 in
  flags ← mmap_flags info;
  opened ← open_mapping addr (Z.lor O_RDONLY flags) data_store_size;
  match opened with
  | None => Ret (-1)
  | Some m =>
      let size := get_command_size info in
      ret ← (if size =? SIZE8 then do_read m 8
             else if size =? SIZE16 then do_read m 16
             else if size =? SIZE32 then do_read m 32
             else if size =? SIZE64 then warn_not_atomic;; do_read m 64
             else eprintf ("invalid mmio_read parameter" +:+ newline);; Ret (-1));
      close_mapping m;;
      Ret ret
  end.

(** [DO_WRITE(mem, off, size)] *)
Definition do_write (m : mmap_info) (bits ldata : Z) : prog Z :=
  act (Store bits (mm_mem m + mm_off m) (wrapu bits ldata));;
  Ret 0.

Definition mmio_write_x (argv : list string) (info : cmd_data) : prog Z :=
  a1 ← argv_at argv 1;
  a2 ← argv_at argv 2;
  let addr := strtoull a1 in
  let ldata := strtoul a2 in
  opened ← open_mapping addr O_RDWR data_store_size;
  match opened with
  | None => Ret (-1)
  | Some m =>
      let size := get_command_size info in
      ret ← (if size =? SIZE8 then do_write m 8 ldata
             else if size =? SIZE16 then do_write m 16 ldata
             else if size =? SIZE32 then do_write m 32 ldata
             else if size =? SIZE64 then warn_not_atomic;; do_write m 64 ldata
             else eprintf ("invalid mmio_write parameter" +:+ newline);; Ret (-1));
      close_mapping m;;
      Ret ret
  end.

(** ** Dumping a range *)

Definition dump_header (desired_addr : Z) : string :=
  "0x" +:+ fmt_0x 16 desired_addr +:+ ":".
Definition dump_field (bits v : Z) : string :=
  " 0x" +:+ fmt_0x (Z.to_nat (bits / 8) * 2) (wrapu bits v).

(** One access of the loop: the new working pointer and [bytes_printed]. *)
Definition dump_access (addr bytes_left : Z) : prog (Z * Z) :=
  if bytes_left <? 4 then
    v ← act (Load 8 addr);
    printf (dump_field 8 v);;
    Ret (addr + 1, 1)
  else
    v ← act (Load 32 addr);
    printf (dump_field 32 v);;
    Ret (addr + 4, 4).

(** The loop; it returns [fields_on_line].  Every iteration consumes at least
    one byte, so [bytes_left] bounds their number. *)
Fixpoint dump_loop (fuel : nat) (addr bytes_left desired_addr fields_on_line : Z) : prog Z :=
  match fuel with
  | O => Stop OutOfFuel
  | S fuel' =>
      if bytes_left =? 0 then Ret fields_on_line
      else
        (if fields_on_line =? 0 then printf (dump_header desired_addr) else Ret tt);;
        step ← dump_access addr bytes_left;
        let '(addr, bytes_printed) := step in
        let bytes_left := wrapu long_bits (bytes_left - bytes_printed) in
        let desired_addr := wrapu 64 (desired_addr + bytes_printed) in
        let fields_on_line := Z.rem (fields_on_line + 1) 4 in
        (if fields_on_line =? 0 then printf newline else Ret tt);;
        dump_loop fuel' addr bytes_left desired_addr fields_on_line
  end.

(** [argc == 4]: whether to write binary, or to give up. *)
Definition parse_binary (argv : list string) : prog (option bool) :=
  if Z.of_nat (length argv) =? 4 then
    a3 ← argv_at argv 3;
    Ret (if String.eqb a3 "-b" then Some true else None)
  else Ret (Some false).

Definition dump_binary (m : mmap_info) (bytes_to_dump : Z) : prog Z :=
  n ← act (Fwrite (mm_mem m + mm_off m) bytes_to_dump 1);
  close_mapping m;;
  Ret (if wraps 32 n =? 1 then 0 else -1).

Definition dump_text (m : mmap_info) (bytes_to_dump desired_addr : Z) : prog Z :=
  fields_on_line ← dump_loop (S (Z.to_nat bytes_to_dump)) (mm_mem m + mm_off m)
                     bytes_to_dump desired_addr 0;
  (if negb (fields_on_line =? 0) then printf newline else Ret tt);;
  close_mapping m;;
  Ret 0.

Definition mmio_dump (argv : list string) (info : cmd_data) : prog Z :=
  a1 ← argv_at argv 1;
  a2 ← argv_at argv 2;
  let desired_addr := strtoull a1 in
  let bytes_to_dump := strtoul a2 in
  binary ← parse_binary argv;
  match binary with
  | None => Ret (-1)
  | Some write_binary =>
      flags ← mmap_flags info;
      opened ← open_mapping desired_addr (Z.lor O_RDONLY flags) (wrapu 32 bytes_to_dump);
      match opened with
      | None => Ret (-1)
      | Some m =>
          if (write_binary : bool) then dump_binary m bytes_to_dump
          else dump_text m bytes_to_dump desired_addr
      end
  end.

(** ** Tables *)

Definition cacheable_access : privdata_t := PrivMmap 0.
Definition uncacheable_access : privdata_t := PrivMmap O_SYNC.

Definition rd_params := make_prereq_params_fixed_args 2 "<addr>" 0.
Definition wr_params := make_prereq_params_fixed_args 3 "<addr> <value>" 0.
Definition dump_params := make_prereq_params_var_args 3 4 "<addr> <num_bytes> [-b]" 0.

Definition make_mmio_read_cmd (n : string) (access : privdata_t) (sz : size_param) : cmd_info :=
  make_cmd_with_params_size n mmio_read_x access rd_params sz.
Definition make_mmio_write_cmd (n : string) (access : privdata_t) (sz : size_param) : cmd_info :=
  make_cmd_with_params_size n mmio_write_x access wr_params sz.

Definition mmio_cmds : list cmd_info := [
  make_mmio_read_cmd "mmio_read8" uncacheable_access size8;
  make_mmio_write_cmd "mmio_write8" uncacheable_access size8;
  make_mmio_read_cmd "mmio_read16" uncacheable_access size16;
  make_mmio_write_cmd "mmio_write16" uncacheable_access size16;
  make_mmio_read_cmd "mmio_read32" uncacheable_access size32;
  make_mmio_write_cmd "mmio_write32" uncacheable_access size32;
  make_mmio_read_cmd "mmio_read64" uncacheable_access size64;
  make_mmio_write_cmd "mmio_write64" uncacheable_access size64;
  make_cmd_with_params "mmio_dump" mmio_dump uncacheable_access dump_params
].
Definition MMIO_group : cmd_group :=
  {| grp_name := "MMIO";
     description := Some "commands to access uncacheable memory mapped address spaces";
     commands := mmio_cmds |}.

Definition cacheable_mmio_cmds : list cmd_info := [
  make_mmio_read_cmd "mem_read8" cacheable_access size8;
  make_mmio_write_cmd "mem_write8" cacheable_access size8;
  make_mmio_read_cmd "mem_read16" cacheable_access size16;
  make_mmio_write_cmd "mem_write16" cacheable_access size16;
  make_mmio_read_cmd "mem_read32" cacheable_access size32;
  make_mmio_write_cmd "mem_write32" cacheable_access size32;
  make_mmio_read_cmd "mem_read64" cacheable_access size64;
  make_mmio_write_cmd "mem_write64" cacheable_access size64;
  make_cmd_with_params "mem_dump" mmio_dump cacheable_access dump_params
].
Definition MEM_group : cmd_group :=
  {| grp_name := "MEM";
     description := Some "commands to access cacheable memory mapped address spaces";
     commands := cacheable_mmio_cmds |}.

(** ** Mapping the pages around an address *)

Definition page_size (page : Z) : Prop := exists k, 0 <= k <= 30 /\ page = 2 ^ k.

Lemma page_size_bound page : page_size page -> 1 <= page <= 2 ^ 30.
Proof.
  intros (k & Hk & ->). split; [pose proof (pow2_pos k); lia|]. apply Z.pow_le_mono_r; lia.
Qed.

Lemma page_masks page addr :
  page_size page -> 0 <= addr < 2 ^ 64 ->
  wraps 32 (Z.land addr (wrapu long_bits (wrapu long_bits page - 1))) = addr mod page /\
  Z.land addr (wrapu 64 (Z.lnot (wrapu 64 (wrapu long_bits page - 1)))) = addr - addr mod page.
Proof.
  intros Hp Ha. pose proof (page_size_bound _ Hp) as Hb. destruct Hp as (k & Hk & ->).
  assert (2 ^ 32 <= 2 ^ long_bits) by (apply Z.pow_le_mono_r; [lia|destruct long_bits_cases; lia]).
  pose proof (pow2_pos k ltac:(lia)).
  rewrite (wrapu_small long_bits (2 ^ k)), (wrapu_small long_bits (2 ^ k - 1)),
    (wrapu_small 64 (2 ^ k - 1)) by plia.
  split.
  - replace (2 ^ k - 1) with (Z.ones k) by (rewrite Z.ones_equiv; lia).
    rewrite Z.land_ones by lia. pose proof (Z.mod_pos_bound addr (2 ^ k)).
    apply wraps_small; plia.
  - rewrite land_clear_low by lia. pose proof (Z.div_mod addr (2 ^ k)). lia.
Qed.

(** A mapping made for [bytes] bytes at the physical address [addr]: the
    device is mapped from the start of [addr]'s page. *)
Inductive mapping_session (flags prot addr bytes : Z) {R} (body : Z -> trace -> R -> Prop)
  : trace -> option R -> Prop :=
  | map_open page fd :
      page_size page -> fd < 0 ->
      mapping_session flags prot addr bytes body
        [Ev Getpagesize page; Ev (Open "/dev/mem" flags) fd] None
  | map_fail page fd base r :
      page_size page -> 0 <= fd -> base = 0 \/ base = MAP_FAILED ->
      mapping_session flags prot addr bytes body
        [Ev Getpagesize page; Ev (Open "/dev/mem" flags) fd;
         Ev (Mmap (wrapu 32 (bytes + addr mod page)) prot fd
               (wraps 64 (addr - addr mod page))) base;
         Ev (Close fd) r] None
  | map_ok page fd base t r r' x :
      page_size page -> 0 <= fd -> base <> 0 -> base <> MAP_FAILED ->
      body (base + addr mod page) t x ->
      mapping_session flags prot addr bytes body
        ([Ev Getpagesize page; Ev (Open "/dev/mem" flags) fd;
          Ev (Mmap (wrapu 32 (bytes + addr mod page)) prot fd
                (wraps 64 (addr - addr mod page))) base] ++ t ++
         [Ev (Munmap base (wrapu 32 (bytes + addr mod page))) r; Ev (Close fd) r'])
        (Some x).

Lemma map_ok1 flags prot addr bytes {R} (body : Z -> trace -> R -> Prop) page fd base e r r' x :
  page_size page -> 0 <= fd -> base <> 0 /\ base <> MAP_FAILED ->
  body (base + addr mod page) [e] x ->
  mapping_session flags prot addr bytes body
    [Ev Getpagesize page; Ev (Open "/dev/mem" flags) fd;
     Ev (Mmap (wrapu 32 (bytes + addr mod page)) prot fd
           (wraps 64 (addr - addr mod page))) base; e;
     Ev (Munmap base (wrapu 32 (bytes + addr mod page))) r; Ev (Close fd) r'] (Some x).
Proof. intros ?? [??] ?. by apply (map_ok _ _ _ _ _ page fd base [e]). Qed.

(** The widths of the registered commands. *)
Definition mmio_width (bits : Z) : Prop := bits = 8 \/ bits = 16 \/ bits = 32 \/ bits = 64.
Definition mmap_cmd (flags bits : Z) : cmd_data :=
  {| privdata := PrivMmap flags; sizedata := Some {| size := bits |} |}.

(** The access flags of the tables. *)
Definition access_flags (flags : Z) : Prop := flags = 0 \/ flags = O_SYNC.

Definition read_mapped (addr flags bits : Z) : prog Z :=
  opened ← open_mapping addr flags data_store_size;
  match opened with
  | None => Ret (-1)
  | Some m =>
      ret ← (if bits =? 64 then warn_not_atomic;; do_read m bits else do_read m bits);
      close_mapping m;;
      Ret ret
  end.

Lemma mmio_read_x_width c a flags bits :
  mmio_width bits ->
  mmio_read_x [c; a] (mmap_cmd flags bits) = read_mapped (strtoull a) flags bits.
Proof. by intros [-> | [-> | [-> | ->]]]. Qed.

Definition write_mapped (addr bits ldata : Z) : prog Z :=
  opened ← open_mapping addr O_RDWR data_store_size;
  match opened with
  | None => Ret (-1)
  | Some m =>
      ret ← (if bits =? 64 then warn_not_atomic;; do_write m bits ldata
             else do_write m bits ldata);
      close_mapping m;;
      Ret ret
  end.

Lemma mmio_write_x_width c a d flags bits :
  mmio_width bits ->
  mmio_write_x [c; a; d] (mmap_cmd flags bits)
  = write_mapped (strtoull a) bits (strtoul d).
Proof. by intros [-> | [-> | [-> | ->]]]. Qed.

Lemma read_flags flags :
  access_flags flags ->
  Z.lor O_RDONLY flags = flags /\ (Z.land flags O_ACCMODE =? O_RDWR) = false /\
  (Z.land flags O_ACCMODE =? O_RDONLY) = true.
Proof. by intros [-> | ->]. Qed.

(** Unfold [open_mapping] in an execution whose page size is known. *)
Ltac open_mapping_in H Hr :=
  unfold open_mapping in H; exec_step H;
  match type of H with exec _ ?t _ =>
    let Hp := fresh "Hpage" in
    pose proof (proj1 Hr) as Hp; cbn in Hp; apply proj2 in Hr;
    prog_norm_in H; rewrite ?(proj1 (page_masks _ _ Hp ltac:(auto with cint))),
      ?(proj2 (page_masks _ _ Hp ltac:(auto with cint))) in H
  end.

(** C7: [mmio_read<n>] and [mem_read<n>] map the page of the address with the
    cache attribute of their table, make one load of their width at the
    address's place in it, print its value in full width and unmap. *)
Theorem mmio_read_refines c a flags bits t o :
  access_flags flags -> mmio_width bits -> relied (safely no_stop) [] t ->
  exec (mmio_read_x [c; a] (mmap_cmd flags bits)) t o ->
  exists r,
    mapping_session flags PROT_READ (strtoull a) 8
      (fun p t' v => t' = [Ev (Load bits p) v]) (device_events t) r /\
    match r with
    | Some v => o = Returned 0 /\
        output_of Stdout t
        = "0x" +:+ fmt_0x (Z.to_nat (bits / 8) * 2) (v mod 2 ^ bits) +:+ newline
    | None => o = Returned (-1) /\ output_of Stdout t = ""
    end.
Proof.
  intros Hf Hw Hr H. rewrite mmio_read_x_width in H by done.
  destruct (read_flags _ Hf) as (_ & Hf2 & Hf3).
  unfold read_mapped in H. open_mapping_in H Hr. rewrite Hf2, Hf3 in H.
  unfold do_read, warn_not_atomic, close_mapping in H. exec_run H; tests.
  all: cbn [device_events List.filter is_device ev_act mm_mem mm_off mm_length mm_fd].
  all: try (exists None; split; [constructor; auto; lia|done]).
  all: try (exists None; split; [apply map_fail; auto; lia|done]).
  all: match goal with |- context [Ev (Load _ _) ?v :: _] => exists (Some v) end.
  all: split; [apply map_ok1; first [done | lia | naive_solver lia]|by out_norm].
Qed.

(** C8: [mmio_write<n>] and [mem_write<n>] make one store of the low bits of
    their argument in the same way.  Both map the page cached: the access
    flags of the table are not used. *)
Theorem mmio_write_refines c a d flags bits t o :
  mmio_width bits -> relied (safely no_stop) [] t ->
  exec (mmio_write_x [c; a; d] (mmap_cmd flags bits)) t o ->
  exists r : option unit,
    mapping_session O_RDWR (Z.lor PROT_READ PROT_WRITE) (strtoull a) 8
      (fun p t' _ => t' = [Ev (Store bits p (strtoul d mod 2 ^ bits)) tt])
      (device_events t) r /\
    o = Returned (match r with Some _ => 0 | None => -1 end) /\ output_of Stdout t = "".
Proof.
  intros Hw Hr H. rewrite mmio_write_x_width in H by done.
  unfold write_mapped in H. open_mapping_in H Hr.
  change (Z.land O_RDWR O_ACCMODE =? O_RDWR) with true in H.
  unfold do_write, warn_not_atomic, close_mapping in H. exec_run H; tests.
  all: cbn [device_events List.filter is_device ev_act mm_mem mm_off mm_length mm_fd].
  all: try (exists None; split; [constructor; auto; lia|done]).
  all: try (exists None; split; [apply map_fail; auto; lia|done]).
  all: exists (Some tt); split; [apply map_ok1; first [done | lia | naive_solver lia]|done].
Qed.

(** ** Safety of single accesses *)

Lemma open_mapping_wp st addr flags bytes t (Q : option mmap_info -> trace -> Prop) :
  0 <= addr < 2 ^ 64 -> 0 <= bytes <= 2 ^ 32 - 2 ^ 30 ->
  (forall t', live t' = live t -> Q None t') ->
  (forall m t', RFd (mm_fd m) ∉ live t -> RMap (mm_mem m) (mm_length m) ∉ live t ->
     mm_length m = bytes + mm_off m -> 0 <= mm_off m ->
     live t' = {[RMap (mm_mem m) (mm_length m)]} ∪ ({[RFd (mm_fd m)]} ∪ live t) ->
     Q (Some m) t') ->
  wp (safely st) (open_mapping addr flags bytes) t Q.
Proof.
  intros Ha Hb Hnone Hsome. unfold open_mapping. split; [done|]. intros page Hp.
  cbn in Hp. wp_norm. destruct (page_masks _ _ Hp Ha) as [-> ->].
  pose proof (page_size_bound _ Hp). pose proof (Z.mod_pos_bound addr page ltac:(lia)).
  rewrite (wrapu_small 32 (bytes + addr mod page)) by plia.
  generalize (if Z.land flags O_ACCMODE =? O_RDWR then Z.lor PROT_READ PROT_WRITE
              else if Z.land flags O_ACCMODE =? O_RDONLY then PROT_READ
              else if Z.land flags O_ACCMODE =? O_WRONLY then PROT_WRITE else 0).
  intros prot. wp_run; try (live_solve || (apply Hnone; live_solve)).
  live_norm. destruct H2 as [Hf|(Hlo & Hhi & Hfresh)]; [by rewrite Hf, Z.eqb_refl, orb_true_r in Heqb0|].
  apply Hsome; cbn; try done; try lia; live_norm; fresh_handles; set_solver.
Qed.

(** What is held between [open_mapping] and [close_mapping]. *)
Definition holds (m : mmap_info) (t0 t : trace) : Prop :=
  RFd (mm_fd m) ∉ live t0 /\ RMap (mm_mem m) (mm_length m) ∉ live t0 /\
  live t = {[RMap (mm_mem m) (mm_length m)]} ∪ ({[RFd (mm_fd m)]} ∪ live t0).

Lemma holds_neutral m t0 t a r :
  neutral a = true -> holds m t0 t -> holds m t0 (t ++ [Ev a r]).
Proof. intros Hn (H1 & H2 & H3). repeat split; [done..|]. by rewrite live_neutral. Qed.

Lemma holds_mapped m t0 t p n :
  holds m t0 t -> mm_mem m <= p -> p + n <= mm_mem m + mm_length m -> mapped t p n.
Proof.
  intros (_ & _ & Hl) Hp Hn. exists (mm_mem m), (mm_length m). rewrite Hl. set_solver by lia.
Qed.

Lemma close_mapping_wp st m t0 t (Q : unit -> trace -> Prop) :
  holds m t0 t -> (forall t', live t' = live t0 -> Q tt t') ->
  wp (safely st) (close_mapping m) t Q.
Proof.
  intros (Hf & Hm & Hl) HQ. unfold close_mapping. wp_run.
  - rewrite Hl. set_solver.
  - live_norm. rewrite Hl. set_solver.
  - apply HQ. live_norm. rewrite Hl. set_solver.
Qed.

(** Opening, working inside the mapping and closing releases everything. *)
Lemma with_mapping_safe st addr flags bytes (body : mmap_info -> prog Z) :
  0 <= addr < 2 ^ 64 -> 0 <= bytes <= 2 ^ 32 - 2 ^ 30 ->
  (forall m t0 t, mm_length m = bytes + mm_off m -> 0 <= mm_off m -> holds m t0 t ->
     wp (safely st) (body m) t (fun _ t' => live t' = live t0)) ->
  resource_safe st (opened ← open_mapping addr flags bytes;
                    match opened with None => Ret (-1) | Some m => body m end).
Proof.
  intros Ha Hb Hbody t.
  eapply (wp_seq _ _ _ _ (fun r t' => match r with
    | None => live t' = live t
    | Some m => mm_length m = bytes + mm_off m /\ 0 <= mm_off m /\ holds m t t' end)).
  - apply open_mapping_wp; done.
  - intros [m|] t' Ht'; [|exact Ht']. apply Hbody; tauto.
Qed.

Lemma mmio_width_bytes bits : mmio_width bits -> 0 <= bits / 8 <= 8.
Proof. by intros [-> | [-> | [-> | ->]]]. Qed.

Lemma mmio_read_safe c a flags bits :
  mmio_width bits -> resource_safe no_stop (mmio_read_x [c; a] (mmap_cmd flags bits)).
Proof.
  intros Hw. rewrite mmio_read_x_width by done. pose proof (mmio_width_bytes _ Hw).
  apply with_mapping_safe; [auto with cint|done|]. intros m t0 t Hlen Hoff Hh.
  change data_store_size with 8 in *. unfold do_read, warn_not_atomic.
  wp_run; try (apply (holds_mapped m t0); [|lia|lia]; repeat (apply holds_neutral; [done|]); done).
  all: apply wp_bind, (close_mapping_wp _ _ t0); [|done].
  all: repeat (apply holds_neutral; [done|]); done.
Qed.

Lemma mmio_write_safe c a d flags bits :
  mmio_width bits -> resource_safe no_stop (mmio_write_x [c; a; d] (mmap_cmd flags bits)).
Proof.
  intros Hw. rewrite mmio_write_x_width by done. pose proof (mmio_width_bytes _ Hw).
  apply with_mapping_safe; [auto with cint|done|]. intros m t0 t Hlen Hoff Hh.
  change data_store_size with 8 in *. unfold do_write, warn_not_atomic.
  wp_run; try (apply (holds_mapped m t0); [|lia|lia]; repeat (apply holds_neutral; [done|]); done).
  all: apply wp_bind, (close_mapping_wp _ _ t0); [|done].
  all: repeat (apply holds_neutral; [done|]); done.
Qed.

(** ** The text dump

    Its specification: the range is read as 32-bit words from its start, then
    the last one to three bytes one by one; the fields are printed four to a
    line, each line headed by the address of its first field. *)

Definition dump_accesses (addr n : Z) : list (Z * Z) :=
  map (fun k => (32, addr + 4 * Z.of_nat k)) (seq 0 (Z.to_nat (n / 4))) ++
  map (fun k => (8, addr + 4 * (n / 4) + Z.of_nat k)) (seq 0 (Z.to_nat (n mod 4))).

(** A field is the width and the value of an access. *)
Definition row (fields : list (Z * Z)) : string :=
  foldr (fun f s => dump_field f.1 f.2 +:+ s) "" fields.
Definition row_bytes (fields : list (Z * Z)) : Z :=
  foldr (fun f n => f.1 / 8 + n) 0 fields.

Fixpoint dump_lines (addr : Z) (fields : list (Z * Z)) : string :=
  match fields with
  | [] => ""
  | a :: b :: c :: d :: rest =>
      dump_header (wrapu 64 addr) +:+ row [a; b; c; d] +:+ newline +:+
      dump_lines (addr + row_bytes [a; b; c; d]) rest
  | _ => dump_header (wrapu 64 addr) +:+ row fields +:+ newline
  end.

(** What remains to be printed with [f] fields already on the line. *)
Definition dump_rest (f : nat) (addr : Z) (fields : list (Z * Z)) : string :=
  match f with
  | O => dump_lines addr fields
  | _ => row (take (4 - f) fields) +:+ newline +:+
         dump_lines (addr + row_bytes (take (4 - f) fields)) (drop (4 - f) fields)
  end.

Lemma row_bytes_cons x l : row_bytes (x :: l) = x.1 / 8 + row_bytes l.
Proof. reflexivity. Qed.
Lemma row_cons x l : row (x :: l) = dump_field x.1 x.2 +:+ row l.
Proof. reflexivity. Qed.

(** One more field. *)
Lemma dump_rest_cons f addr x fields :
  (f < 4)%nat ->
  dump_rest f addr (x :: fields) =
  (if Nat.eqb f 0 then dump_header (wrapu 64 addr) else "") +:+ dump_field x.1 x.2 +:+
  (if Nat.eqb (S f) 4 then newline else "") +:+
  dump_rest (S f mod 4) (addr + x.1 / 8) fields.
Proof.
  intros Hf. destruct f as [|[|[|[|]]]]; [| | | |lia];
    change (1 mod 4)%nat with 1%nat; change (2 mod 4)%nat with 2%nat;
    change (3 mod 4)%nat with 3%nat; change (4 mod 4)%nat with 0%nat;
    cbn [dump_rest Nat.sub Nat.eqb take drop];
    rewrite ?take_0, ?drop_0.
  1: destruct fields as [|b [|c [|d rest]]]; cbn [dump_lines take drop].
  all: rewrite ?row_cons, ?row_bytes_cons; cbn [row row_bytes foldr].
  all: autorewrite with cstr; rewrite <- ?Z.add_assoc, ?Z.add_0_r; done.
Qed.

(** The loads of a trace, and the fields they give. *)
Definition loads : trace -> list (Z * Z) :=
  observe (fun e => match e with Ev (Load bits a) _ => [(bits, a)] | _ => [] end).
Definition loaded : trace -> list (Z * Z) :=
  observe (B := Z * Z) (fun e => match e with Ev (Load bits _) v => [(bits, v)] | _ => [] end).

Lemma map_seq_shift {A} (f g : nat -> A) n :
  (forall k, g (S k) = f k) -> map g (seq 0 (S n)) = g 0%nat :: map f (seq 0 n).
Proof.
  intros H. cbn. f_equal. rewrite <- seq_shift, map_map. apply map_ext. intros. apply H.
Qed.

Lemma dump_accesses_word addr n :
  4 <= n -> dump_accesses addr n = (32, addr) :: dump_accesses (addr + 4) (n - 4).
Proof.
  intros Hn. unfold dump_accesses.
  assert (n / 4 = (n - 4) / 4 + 1) as E by dlia.
  assert (n mod 4 = (n - 4) mod 4) as E' by dlia.
  assert (0 <= (n - 4) / 4) by (apply Z.div_pos; lia).
  rewrite E, E', Z2Nat.inj_add, Nat.add_1_r by lia.
  rewrite (map_seq_shift (fun k => (32, addr + 4 + 4 * Z.of_nat k)));
    [|intros k; f_equal; lia].
  cbn [app]. f_equal; [f_equal; lia|]. f_equal. apply map_ext. intros k. f_equal. lia.
Qed.

Lemma dump_accesses_byte addr n :
  0 < n < 4 -> dump_accesses addr n = (8, addr) :: dump_accesses (addr + 1) (n - 1).
Proof.
  intros Hn. unfold dump_accesses.
  assert (n / 4 = 0) as -> by dlia. assert ((n - 1) / 4 = 0) as -> by dlia.
  assert (n mod 4 = n - 1 + 1) as -> by dlia. assert ((n - 1) mod 4 = n - 1) as -> by dlia.
  rewrite Z2Nat.inj_add, Nat.add_1_r by lia.
  change (seq 0 (Z.to_nat 0)) with (@nil nat). cbn [map app].
  rewrite (map_seq_shift (fun k => (8, addr + 1 + 4 * 0 + Z.of_nat k)));
    [|intros k; f_equal; lia].
  f_equal. f_equal. lia.
Qed.

Definition access_bits (n : Z) : Z := if n <? 4 then 8 else 32.

Lemma access_bits_spec addr n :
  0 < n ->
  dump_accesses addr n
  = (access_bits n, addr) :: dump_accesses (addr + access_bits n / 8) (n - access_bits n / 8) /\
  1 <= access_bits n / 8 <= n.
Proof.
  intros Hn. unfold access_bits. destruct (Z.ltb_spec n 4).
  - change (8 / 8) with 1. rewrite dump_accesses_byte by lia. split; [done|lia].
  - change (32 / 8) with 4. rewrite dump_accesses_word by lia. split; [done|lia].
Qed.

Lemma exec_dump_access addr n t o :
  exec (dump_access addr n) t o ->
  let bits := access_bits n in
  exists v : Z, o = Returned (addr + bits / 8, bits / 8) /\ loads t = [(bits, addr)] /\
  loaded t = [(bits, v)] /\ output_of Stdout t = dump_field bits v.
Proof.
  intros H. unfold dump_access in H. unfold access_bits.
  exec_run H; exists r; repeat split; by out_norm.
Qed.

Lemma exec_print_if b s t o :
  exec (if b : bool then printf s else Ret tt) t o ->
  o = Returned tt /\ loads t = [] /\ loaded t = [] /\
  output_of Stdout t = if b then s else "".
Proof. intros H. destruct b; exec_run H; repeat split. by out_norm. Qed.

Lemma next_field f : (f < 4)%nat -> Z.rem (Z.of_nat f + 1) 4 = Z.of_nat (S f mod 4).
Proof. intros. destruct f as [|[|[|[|]]]]; (reflexivity || lia). Qed.

Lemma dump_rest_nil f d : dump_rest f d [] = if Nat.eqb f 0 then "" else newline.
Proof. by destruct f as [|[|[|[|]]]]. Qed.

(** The invariant of the loop: with enough fuel it ends, having made the
    accesses that were left and printed what remained. *)
Lemma exec_dump_loop fuel addr n d f t o :
  (Z.to_nat n < fuel)%nat -> 0 <= n < 2 ^ long_bits -> (f < 4)%nat ->
  exec (dump_loop fuel addr n (wrapu 64 d) (Z.of_nat f)) t o ->
  exists f', (f' < 4)%nat /\ o = Returned (Z.of_nat f') /\
  loads t = dump_accesses addr n /\
  output_of Stdout t +:+ (if Nat.eqb f' 0 then "" else newline) = dump_rest f d (loaded t).
Proof.
  revert addr n d f t o.
  induction fuel as [|fuel IH]; intros addr n d f t o Hfuel Hn Hf H; [lia|].
  cbn [dump_loop] in H. destruct (Z.eqb_spec n 0) as [->|Hn0].
  { apply exec_ret_iff in H as [-> ->]. exists f. repeat split; [done..|].
    rewrite dump_rest_nil. by destruct (Nat.eqb f 0). }
  destruct (access_bits_spec addr n ltac:(lia)) as [Hacc Hbits].
  assert ((Z.of_nat f =? 0) = Nat.eqb f 0) as E0 by (destruct f; reflexivity).
  assert ((Z.of_nat (S f mod 4) =? 0) = Nat.eqb (S f) 4) as E1
    by (destruct f as [|[|[|[|]]]]; (reflexivity || lia)).
  apply (exec_bind_inv (if _ =? 0 then printf _ else _)) in H
    as [(u1 & t1 & t' & H1 & H & ->)|(? & H1 & _)]; apply exec_print_if in H1 as (? & Hl1 & Hv1 & Ho1);
    [|done].
  apply (exec_bind_inv (dump_access _ _)) in H as [(st & t2 & t'' & H2 & H & ->)|(? & H2 & _)];
    apply exec_dump_access in H2 as (v & ? & Hl2 & Hv2 & Ho2); simplify_eq.
  rewrite next_field in H by done.
  apply (exec_bind_inv (if _ =? 0 then printf _ else _)) in H
    as [(u3 & t3 & t4 & H3 & H & ->)|(? & H3 & _)]; apply exec_print_if in H3 as (? & Hl3 & Hv3 & Ho3);
    [|done].
  rewrite wrapu_small in H by lia.
  assert (wrapu 64 (wrapu 64 d + access_bits n / 8) = wrapu 64 (d + access_bits n / 8)) as Ed
    by (unfold wrapu; apply Zplus_mod_idemp_l).
  rewrite Ed in H.
  apply IH in H as (f' & Hf' & -> & Hl & Ho); [|lia|lia|apply Nat.mod_upper_bound; lia].
  exists f'. split; [done|]. split; [done|].
  unfold loads, loaded in *. rewrite !observe_app, Hl1, Hl2, Hl3, Hl, Hv1, Hv2, Hv3, Hacc.
  split; [done|]. rewrite !output_of_app, Ho1, Ho2, Ho3.
  cbn [app]. rewrite dump_rest_cons by done. cbn [fst snd].
  rewrite E0, E1, !str_app_assoc, Ho. done.
Qed.

(** The loop makes no other access. *)
Definition is_load (a : action) : Prop :=
  match a with Load _ _ => True | _ => False end.
Definition load_or_put (a : action) : Prop :=
  match a with Load _ _ | Put _ _ => True | _ => False end.

Lemma dump_loop_calls fuel addr n d f t :
  wp (calls load_or_put) (dump_loop fuel addr n d f) t (fun _ _ => True).
Proof.
  revert addr n d f t. induction fuel as [|fuel IH]; intros; cbn [dump_loop]; [done|].
  unfold dump_access. wp_run; try done; apply IH.
Qed.

Lemma device_loads fuel addr n d f t o :
  exec (dump_loop fuel addr n d f) t o -> Forall (fun e => is_load (ev_act e)) (device_events t).
Proof.
  intros H. apply (calls_exec load_or_put) in H; [|apply dump_loop_calls].
  induction H as [|[a r] t Ha _ IH]; [constructor|]. destruct a; try done. by constructor.
Qed.

Lemma loads_device t : loads (device_events t) = loads t.
Proof. apply observe_device. by intros [[] ?]. Qed.

Lemma loaded_device t : loaded (device_events t) = loaded t.
Proof. apply observe_device. by intros [[] ?]. Qed.

Definition dump_cmd (flags : Z) : cmd_data :=
  {| privdata := PrivMmap flags; sizedata := None |}.

Lemma exec_dump_text m bytes addr t o :
  0 <= bytes < 2 ^ long_bits -> 0 <= addr < 2 ^ 64 ->
  exec (dump_text m bytes addr) t o ->
  exists t1 (r r' : Z), o = Returned 0 /\
  device_events t = t1 ++ [Ev (Munmap (mm_mem m) (mm_length m)) r; Ev (Close (mm_fd m)) r'] /\
  loads t1 = dump_accesses (mm_mem m + mm_off m) bytes /\
  Forall (fun e => is_load (ev_act e)) t1 /\
  output_of Stdout t = dump_lines addr (loaded t1).
Proof.
  intros Hb Ha H. unfold dump_text in H. rewrite <- (wrapu_small 64 addr) in H by done.
  apply (exec_bind_inv (dump_loop _ _ _ _ _)) in H as [(f & t1 & t2 & H1 & H2 & ->)|(s & H1 & _)];
    pose proof (device_loads _ _ _ _ _ _ _ H1) as Hdev;
    apply (exec_dump_loop _ _ _ addr 0) in H1 as (f' & Hf' & E & Hl & Ho); try done; try lia.
  injection E as ->. exists (device_events t1).
  rewrite device_events_app, output_of_app, loads_device, loaded_device.
  change (dump_rest 0 addr (loaded t1)) with (dump_lines addr (loaded t1)) in Ho.
  assert ((Z.of_nat f' =? 0) = Nat.eqb f' 0) as E0 by (destruct f'; reflexivity).
  rewrite E0 in H2. unfold close_mapping in H2. rewrite <- Ho.
  destruct (Nat.eqb f' 0); exec_run H2; cbn [device_events List.filter is_device ev_act output_of];
    do 2 eexists; rewrite ?str_app_nil_r; repeat split; done.
Qed.

(** [mmio_dump] once its arguments are parsed. *)
Definition dump_range (binary : bool) (addr flags bytes : Z) : prog Z :=
  opened ← open_mapping addr (Z.lor O_RDONLY flags) (wrapu 32 bytes);
  match opened with
  | None => Ret (-1)
  | Some m => if binary then dump_binary m bytes else dump_text m bytes addr
  end.

Lemma mmio_dump_text c a n flags :
  mmio_dump [c; a; n] (dump_cmd flags) = dump_range false (strtoull a) flags (strtoul n).
Proof. reflexivity. Qed.
Lemma mmio_dump_binary c a n flags :
  mmio_dump [c; a; n; "-b"] (dump_cmd flags) = dump_range true (strtoull a) flags (strtoul n).
Proof. reflexivity. Qed.

(** C6: [mmio_dump] and [mem_dump] end, make exactly the accesses that cover the
    range, in order, and print the dump of what they read, headed with the
    physical addresses. *)
Theorem mmio_dump_refines c a n flags t o :
  access_flags flags -> relied (safely no_stop) [] t ->
  exec (mmio_dump [c; a; n] (dump_cmd flags)) t o ->
  exists r,
    mapping_session flags PROT_READ (strtoull a) (strtoul n mod 2 ^ 32)
      (fun p t' fields => loads t' = dump_accesses p (strtoul n) /\ loaded t' = fields /\
                          Forall (fun e => is_load (ev_act e)) t')
      (device_events t) r /\
    match r with
    | Some fields => o = Returned 0 /\ output_of Stdout t = dump_lines (strtoull a) fields
    | None => o = Returned (-1) /\ output_of Stdout t = ""
    end.
Proof.
  intros Hf Hr H. destruct (read_flags _ Hf) as (Hf1 & Hf2 & Hf3).
  rewrite mmio_dump_text in H. unfold dump_range in H. rewrite Hf1 in H.
  open_mapping_in H Hr. rewrite Hf2, Hf3 in H.
  do 2 exec_step H; [exec_run H; exists None; split; [constructor; auto; tests; lia|done]|].
  do 2 exec_step H; [exec_run H; exists None; split; [apply map_fail; auto; tests; lia|done]|].
  prog_norm_in H. apply exec_dump_text in H as (t1 & u & u' & -> & Hd & Hl & Hall & Ho);
    [|auto with cint..].
  exists (Some (loaded t1)). split; [|by split; [done|exact Ho]].
  cbn [device_events List.filter is_device ev_act]. fold (device_events t0). rewrite Hd.
  tests. apply orb_false_elim in Heqb0 as [? ?]; tests.
  by apply (map_ok _ _ _ _ _ r r0 r1 t1 u u' (loaded t1)).
Qed.

(** ** Safety of dumps

    The mapping's length is computed in 32 bits; up to 3 GiB it cannot wrap,
    and every access is inside the mapping. *)

Lemma dump_loop_wp st m t0 fuel addr n d f t (Q : Z -> trace -> Prop) :
  (Z.to_nat n < fuel)%nat -> 0 <= n < 2 ^ long_bits ->
  mm_mem m <= addr -> addr + n <= mm_mem m + mm_length m -> holds m t0 t ->
  (forall f' t', holds m t0 t' -> Q f' t') ->
  wp (safely st) (dump_loop fuel addr n d f) t Q.
Proof.
  intros Hfuel Hn Hlo Hhi Hh HQ. revert addr n d f t Hfuel Hn Hlo Hhi Hh.
  induction fuel as [|fuel IH]; intros addr n d f t Hfuel Hn Hlo Hhi Hh; [lia|].
  cbn [dump_loop]. destruct (Z.eqb_spec n 0) as [->|Hn0]; [by apply HQ|].
  unfold dump_access.
  wp_run; tests; change (8 / 8) with 1; change (32 / 8) with 4;
    try (apply (holds_mapped m t0); [|lia|lia]).
  all: try (apply IH; rewrite ?wrapu_small by lia; try lia).
  all: repeat (apply holds_neutral; [done|]); done.
Qed.

(** A dump of at most 3 GiB stays inside its mapping, ends and releases
    everything. *)
Theorem mmio_dump_safe c a n flags :
  strtoul n <= 2 ^ 32 - 2 ^ 30 ->
  resource_safe no_stop (mmio_dump [c; a; n] (dump_cmd flags)) /\
  resource_safe no_stop (mmio_dump [c; a; n; "-b"] (dump_cmd flags)).
Proof.
  intros Hn. pose proof (strtoul_range n) as Hr.
  rewrite mmio_dump_text, mmio_dump_binary. unfold dump_range.
  rewrite (wrapu_small 32) by plia.
  split; (apply with_mapping_safe; [auto with cint|lia|]); intros m t0 t Hlen Hoff Hh.
  - unfold dump_text. eapply wp_seq.
    + apply (dump_loop_wp _ m t0 _ _ _ _ _ _ (fun _ t' => holds m t0 t')); try done; lia.
    + intros f t' Ht'. cbn in Ht'. wp_run; apply wp_bind, (close_mapping_wp _ _ t0); try done.
      by apply holds_neutral.
  - unfold dump_binary. wp_norm. split; [apply (holds_mapped m t0); [done|lia|lia]|].
    intros r _. wp_norm. apply wp_bind, (close_mapping_wp _ _ t0); [|done].
    by apply holds_neutral.
Qed.
End Mmio.

(** ** Witnesses *)

#[local] Existing Instance linux_x86_64.

Example mmio_read_refines_witness :
  exists t, exec (mmio_read_x ["mmio_read32"; "0xfed00008"] (mmap_cmd O_SYNC 32)) t (Returned 0) /\
  relied (safely no_stop) [] t /\
  exists r, mapping_session O_SYNC PROT_READ 0xfed00008 8
    (fun p t' v => t' = [Ev (Load 32 p) v]) (device_events t) r.
Proof.
  run_env Byte.x2a (mmio_read_x ["mmio_read32"; "0xfed00008"] (mmap_cmd O_SYNC 32)).
  split; [exact Hrun|]. match goal with |- ?A /\ _ => assert A as Hr by relied_env end.
  split; [exact Hr|].
  destruct (mmio_read_refines _ _ _ _ _ _ (or_intror eq_refl)
    (or_intror (or_intror (or_introl eq_refl))) Hr Hrun) as (r & H & _). exists r. exact H.
Defined.

Example mmio_write_refines_witness :
  exists t, exec (mmio_write_x ["mmio_write16"; "0xfed00008"; "0x12345"] (mmap_cmd O_SYNC 16)) t
              (Returned 0) /\
  relied (safely no_stop) [] t /\
  exists r : option unit, mapping_session O_RDWR 3 0xfed00008 8
    (fun p t' _ => t' = [Ev (Store 16 p 0x2345) tt]) (device_events t) r.
Proof.
  run_env Byte.x2a (mmio_write_x ["mmio_write16"; "0xfed00008"; "0x12345"] (mmap_cmd O_SYNC 16)).
  split; [exact Hrun|]. match goal with |- ?A /\ _ => assert A as Hr by relied_env end.
  split; [exact Hr|].
  destruct (mmio_write_refines _ _ _ O_SYNC _ _ _
    (or_intror (or_introl eq_refl)) Hr Hrun) as (r & H & _). exists r. exact H.
Defined.

Example mmio_dump_refines_witness :
  exists t, exec (mmio_dump ["mem_dump"; "0x1001"; "9"] (dump_cmd 0)) t (Returned 0) /\
  relied (safely no_stop) [] t /\
  exists r, mapping_session 0 PROT_READ 0x1001 9
    (fun p t' fields => loads t' = dump_accesses p 9 /\ loaded t' = fields /\
                        Forall (fun e => is_load (ev_act e)) t') (device_events t) r.
Proof.
  run_env Byte.x2a (mmio_dump ["mem_dump"; "0x1001"; "9"] (dump_cmd 0)).
  split; [exact Hrun|]. match goal with |- ?A /\ _ => assert A as Hr by relied_env end.
  split; [exact Hr|].
  destruct (mmio_dump_refines _ _ _ _ _ _ (or_introl eq_refl) Hr Hrun) as (r & H & _).
  exists r. exact H.
Defined.
