(* ===== verification/MmioBounds.v ===== *)
(** * Which dumps stay inside their mapping

    [mmio_dump] maps a length computed in 32 bits and then reads the whole
    length it was given.  The run of a dump is exposed call by call; from it
    follow what the run holds in the end, and for which lengths all that it
    reads is mapped. *)

From S2P Require Import Prelude CLib Platform Sys SmbusTypes Commands DevFile Resources MmioRw.
Local Open Scope Z_scope.

Section Bounds.
Context {P : Platform}.

(** What a dump does between mapping and unmapping. *)
Definition range_calls (binary : bool) (start n : Z) (u : trace) : Prop :=
  if binary then exists r, u = [Ev (Fwrite start n 1) r]
  else Forall (fun e => load_or_put (ev_act e)) u /\ loads u = dump_accesses start n.

(** The calls that leave the mapping open. *)
Definition mapping_calls (page fl fd len prot off mem : Z) : trace :=
  [Ev Getpagesize page; Ev (Open "/dev/mem" fl) fd; Ev (Mmap len prot fd off) mem].

Lemma exec_dump_calls m n addr t o :
  0 <= n < 2 ^ long_bits -> 0 <= addr < 2 ^ 64 -> exec (dump_text m n addr) t o ->
  exists u (r r' : Z), t = u ++ [Ev (Munmap (mm_mem m) (mm_length m)) r; Ev (Close (mm_fd m)) r'] /\
  range_calls false (mm_mem m + mm_off m) n u.
Proof.
  intros Hb Ha H. unfold dump_text in H. rewrite <- (wrapu_small 64 addr) in H by done.
  apply (exec_bind_inv (dump_loop _ _ _ _ _)) in H as [(f & t1 & t2 & H1 & H2 & ->)|(s & H1 & _)];
    pose proof (calls_exec load_or_put _ _ _ (dump_loop_calls _ _ _ _ _ _) H1) as Hc;
    apply (exec_dump_loop _ _ _ addr 0) in H1 as (f' & Hf' & E & Hl & _); try done; try lia.
  unfold close_mapping in H2. exec_run H2.
  - eexists (t1 ++ [Ev (Put Stdout newline) tt]). do 2 eexists.
    rewrite <- app_assoc. split; [reflexivity|]. split.
    + apply Forall_app_2; [done|]. by constructor.
    + unfold loads in *. by rewrite observe_app, app_nil_r.
  - exists t1. do 2 eexists. split; [reflexivity|]. by split.
Qed.

(** The run of a dump: it fails before it has a mapping, and holds nothing, or
    it maps the wrapped length and reads the whole one. *)
Lemma exec_dump_range binary addr flags n t rc :
  0 <= n < 2 ^ long_bits -> 0 <= addr < 2 ^ 64 -> relied (safely no_stop) [] t ->
  exec (dump_range binary addr flags n) t (Returned rc) ->
  (rc = -1 /\ live t = ∅) \/
  exists page fl (fd : Z) prot off (mem : Z) u (r r' : Z),
    let len := (n mod 2 ^ 32 + addr mod page) mod 2 ^ 32 in
    t = mapping_calls page fl fd len prot off mem ++ u ++
        [Ev (Munmap mem len) r; Ev (Close fd) r'] /\
    page_size page /\ 0 <= fd /\ mem <> 0 /\ mem <> MAP_FAILED /\
    range_calls binary (mem + addr mod page) n u.
Proof.
  intros Hn Ha Hr H. unfold dump_range in H.
  unfold open_mapping in H. exec_step H. destruct Hr as [Hp _]. cbn in Hp.
  prog_norm_in H. destruct (page_masks _ _ Hp Ha) as [E1 E2]. rewrite E1, E2 in H. clear E1 E2.
  do 2 exec_step H; [exec_run H; left; split; [done|held]|].
  do 2 exec_step H; [exec_run H; left; split; [done|held]|].
  apply orb_false_elim in Heqb0 as [Hm0 Hmf].
  right. exists r, (Z.lor O_RDONLY flags), r0. eexists _, _, r1.
  assert (wrapu 32 (wrapu 32 n + addr mod r) = (n mod 2 ^ 32 + addr mod r) mod 2 ^ 32) as El by done.
  destruct binary.
  - unfold dump_binary, close_mapping in H. exec_run H. cbn [mm_mem mm_fd mm_length mm_off].
    eexists [_], _, _. cbn zeta. split; [reflexivity|]. repeat split; [done|lia..|]. by eexists.
  - apply exec_dump_calls in H as (u & r' & r'' & -> & Hu); [|done..].
    exists u, r', r''. cbn zeta. split; [reflexivity|]. repeat split; [done|lia..|apply Hu|apply Hu].
Qed.

(** ** What a dump holds *)

Lemma live_mapping page fl fd len prot off mem :
  0 <= fd -> mem <> 0 -> mem <> MAP_FAILED ->
  live (mapping_calls page fl fd len prot off mem) = {[RMap mem len; RFd fd]}.
Proof.
  intros. unfold live, mapping_calls. cbn [foldl live_step].
  destruct (Z.ltb_spec fd 0), (Z.eqb_spec mem 0), (Z.eqb_spec mem MAP_FAILED); try lia.
  cbn [orb]. set_solver.
Qed.

Lemma range_calls_idle binary start n u : range_calls binary start n u -> idle u.
Proof.
  destruct binary; [intros [r ->]; by repeat constructor|]. intros [H _].
  induction H as [|[a r] u Ha _ IH]; constructor; [by destruct a|done].
Qed.

(** Whatever its length, a dump that has ended holds nothing. *)
Lemma dump_range_holds binary addr flags n t rc :
  0 <= n < 2 ^ long_bits -> 0 <= addr < 2 ^ 64 -> relied (safely no_stop) [] t ->
  exec (dump_range binary addr flags n) t (Returned rc) -> live t = ∅.
Proof.
  intros Hn Ha Hr H. apply exec_dump_range in H
    as [[_ ?]|(page & fl & fd & prot & off & mem & u & r & r' & -> & Hp & Hf & Hm & Hmf & Hu)];
    [done| |done..].
  apply range_calls_idle in Hu.
  rewrite app_assoc, live_app, live_idle, live_mapping by done. cbn. set_solver.
Qed.

(** ** What a dump reads *)

Lemma guaranteed_app (S : spec) t t1 t2 :
  guaranteed S t (t1 ++ t2) <-> guaranteed S t t1 /\ guaranteed S (t ++ t1) t2.
Proof.
  revert t. induction t1 as [|e t1 IH]; intros t; cbn.
  - rewrite app_nil_r. naive_solver.
  - rewrite IH, <- app_assoc. cbn. naive_solver.
Qed.

Lemma mapped_live t1 t2 p n : live t1 = live t2 -> mapped t1 p n <-> mapped t2 p n.
Proof. unfold mapped. intros ->. done. Qed.

Lemma guaranteed_loads st t u :
  Forall (fun e => load_or_put (ev_act e)) u ->
  guaranteed (safely st) t u <-> forall x, In x (loads u) -> mapped t x.2 (x.1 / 8).
Proof.
  intros H. revert t. induction H as [|[a r] u Ha _ IH]; intros t; [by cbn|].
  cbn [guaranteed ev_act]. rewrite IH.
  assert (live (t ++ [Ev a r]) = live t) as El by (apply live_neutral; by destruct a).
  setoid_rewrite (mapped_live _ _ _ _ El).
  destruct a; try done; cbn [ev_act guar safely call_ok].
  - change (loads (Ev (Put s text) r :: u)) with (loads u). naive_solver.
  - change (loads (Ev (Load bits addr) r :: u)) with ((bits, addr) :: loads u).
    cbn [In]. split.
    + intros [H1 H2] x [<-|Hx]; auto.
    + intros Hx. split; [apply (Hx (bits, addr)); by left|auto].
Qed.

(** The accesses of a range end where the range ends. *)
Lemma dump_accesses_bounds start n :
  0 <= n ->
  (forall x, In x (dump_accesses start n) -> start <= x.2 /\ x.2 + x.1 / 8 <= start + n) /\
  (0 < n -> exists x, In x (dump_accesses start n) /\ x.2 + x.1 / 8 = start + n).
Proof.
  intros Hn. unfold dump_accesses. split.
  - intros x Hx. apply in_app_iff in Hx as [Hx|Hx]; apply in_map_iff in Hx as (k & <- & Hk);
      apply in_seq in Hk; cbn [fst snd]; change (32 / 8) with 4; change (8 / 8) with 1; dlia.
  - intros Hpos. destruct (Z.eq_dec (n mod 4) 0) as [E|E].
    + exists (32, start + 4 * Z.of_nat (Z.to_nat (n / 4 - 1))). split.
      * apply in_app_iff. left. apply in_map_iff. exists (Z.to_nat (n / 4 - 1)).
        split; [done|]. apply in_seq. dlia.
      * cbn [fst snd]. change (32 / 8) with 4. dlia.
    + exists (8, start + 4 * (n / 4) + Z.of_nat (Z.to_nat (n mod 4 - 1))). split.
      * apply in_app_iff. right. apply in_map_iff. exists (Z.to_nat (n mod 4 - 1)).
        split; [done|]. apply in_seq. dlia.
      * cbn [fst snd]. change (8 / 8) with 1. dlia.
Qed.

(** With one mapping, a range is read inside it if it ends there. *)
Lemma guaranteed_range st t mem len fd binary start n u :
  live t = {[RMap mem len; RFd fd]} -> 0 <= n -> mem <= start -> (n = 0 -> start <= mem + len) ->
  range_calls binary start n u ->
  guaranteed (safely st) t u <-> start + n <= mem + len.
Proof.
  intros Hl Hn Hs Hz Hu.
  assert (forall p k, mapped t p k <-> mem <= p /\ p + k <= mem + len) as Hm.
  { intros p k. unfold mapped. rewrite Hl. split.
    - intros (base & l & Hin & H). assert (RMap base l = RMap mem len) as E by set_solver.
      injection E as -> ->. exact H.
    - intros H. exists mem, len. split; [set_solver|exact H]. }
  destruct binary.
  - destruct Hu as [r ->]. cbn [guaranteed ev_act guar safely call_ok]. rewrite Hm. lia.
  - destruct Hu as [Hc Hloads]. rewrite guaranteed_loads, Hloads by done.
    setoid_rewrite Hm. destruct (dump_accesses_bounds start n Hn) as [Hall Hlast]. split.
    + intros Hx. destruct (Z.eq_dec n 0) as [->|]; [specialize (Hz eq_refl); lia|].
      destruct Hlast as (x & Hin & E); [lia|]. apply Hx in Hin. lia.
    + intros H x Hx. apply Hall in Hx. lia.
Qed.

(** The arguments of a dump as text and in binary. *)
Definition dump_args (binary : bool) (c a n : string) : list string :=
  [c; a; n] ++ if binary then ["-b"] else [].

(** C40: a dump that succeeds has stayed inside its mapping exactly if the offset of
    the address in its page and the length together are below 2^32; for every
    longer one the code reads past the end of what it mapped. *)
Theorem mmio_dump_bounds binary c a n flags t :
  relied (safely no_stop) [] t ->
  exec (mmio_dump (dump_args binary c a n) (dump_cmd flags)) t (Returned 0) ->
  exists page, In (Ev Getpagesize page) t /\
  (guaranteed (safely no_stop) [] t <-> strtoull a mod page + strtoul n < 2 ^ 32).
Proof.
  intros Hr H.
  assert (mmio_dump (dump_args binary c a n) (dump_cmd flags)
          = dump_range binary (strtoull a) flags (strtoul n)) as E by by destruct binary.
  rewrite E in H. clear E. pose proof (strtoul_range n).
  apply exec_dump_range in H
    as [[? _]|(page & fl & fd & prot & off & mem & u & r & r' & -> & Hp & Hf & Hm & Hmf & Hu)];
    [done| |auto with cint..].
  exists page. split; [by left|].
  pose proof (page_size_bound _ Hp).
  pose proof (Z.mod_pos_bound (strtoull a) page ltac:(lia)).
  set (len := (strtoul n mod 2 ^ 32 + strtoull a mod page) mod 2 ^ 32) in *.
  pose proof (live_mapping page fl fd len prot off mem Hf Hm Hmf) as Hl.
  set (pre := mapping_calls page fl fd len prot off mem) in *.
  assert (live (pre ++ u) = {[RMap mem len; RFd fd]}) as Hl'
    by (rewrite live_idle; [done|by eapply range_calls_idle]).
  assert (guaranteed (safely no_stop) [] pre) as Hpre.
  { cbn [pre mapping_calls guaranteed ev_act guar safely call_ok app].
    split; [done|]. split; [done|]. split; [|done].
    unfold live. cbn. destruct (Z.ltb_spec fd 0); [lia|]. set_solver. }
  assert (guaranteed (safely no_stop) (pre ++ u) [Ev (Munmap mem len) r; Ev (Close fd) r']) as Hpost.
  { cbn [guaranteed ev_act guar safely call_ok]. rewrite live_snoc, Hl'. cbn [live_step].
    split; [set_solver|]. split; [set_solver|done]. }
  rewrite !guaranteed_app. cbn [app].
  assert (len = (strtoul n + strtoull a mod page) mod 2 ^ 32) as El
    by (unfold len; by rewrite Zplus_mod_idemp_l).
  assert (strtoul n = 0 -> mem + strtoull a mod page <= mem + len) as Hz.
  { intros E. rewrite El, E, Z.add_0_l, (Z.mod_small (_ mod page) (2 ^ 32)) by plia. lia. }
  rewrite (guaranteed_range no_stop pre mem len fd binary (mem + strtoull a mod page)
             (strtoul n) u Hl) by (done || lia).
  pose proof (Z.mod_small (strtoul n + strtoull a mod page) (2 ^ 32)).
  pose proof (Z.mod_pos_bound (strtoul n + strtoull a mod page) (2 ^ 32) ltac:(lia)).
  split; [intros (_ & Hin & _); lia|intros; split; [done|split; [lia|done]]].
Qed.
End Bounds.

(** ** Witness

    The binary dump of 4 GiB and 16 bytes at address 0 maps 16 bytes. *)

#[local] Existing Instance linux_x86_64.

Example mmio_dump_bounds_witness :
  exists t, exec (mmio_dump ["mem_dump"; "0"; "0x100000010"; "-b"] (dump_cmd 0)) t (Returned 0) /\
    relied (safely no_stop) [] t /\ ~ guaranteed (safely no_stop) [] t.
Proof.
  run_env Byte.x00 (mmio_dump ["mem_dump"; "0"; "0x100000010"; "-b"] (dump_cmd 0)).
  split; [exact Hrun|]. match goal with |- ?A /\ _ => assert A as Hr by relied_env end.
  split; [exact Hr|]. intros Hg.
  destruct (mmio_dump_bounds true "mem_dump" "0" "0x100000010" 0 _ Hr Hrun) as (page & _ & Hiff).
  apply Hiff in Hg. assert (strtoul "0x100000010" = 2 ^ 32 + 16) as E by (vm_compute; reflexivity).
  assert (strtoull "0" = 0) as E0 by (vm_compute; reflexivity).
  rewrite E, E0, Zmod_0_l in Hg. lia.
Defined.
