(* ===== verification/Misc.v ===== *)
(** * Miscellaneous commands ([misc.c])

    [rdtsc] and [cpuid] (x86 only), [busy_loop], [cpu_list] and [runon].  The
    model is of builds against glibc: its [CPU_SET] ignores a number outside
    the set.  The replacements of the macros for klibc are modelled by
    themselves, on the words of the set. *)

From S2P Require Import Prelude CLib Platform Sys SmbusTypes Commands DevFile.
Local Open Scope Z_scope.

Section Misc.
Context {P : Platform} {LB : LoopBound}.

(** ** The replacements of [CPU_ZERO] and [CPU_SET] for klibc

    A [cpu_set_t] is its words, which may be indeterminate. *)
Definition __CPU_SETSIZE : Z := 1024.
Definition __NCPUBITS : Z := 8 * (long_bits / 8).
Definition cpu_set_t : Type := list (option Z).
Definition uninit_cpu_set : cpu_set_t := replicate (Z.to_nat (__CPU_SETSIZE / __NCPUBITS)) None.

(** [sizeof(set)] is the size of a pointer, which is that of one word. *)
Definition CPU_ZERO (set : cpu_set_t) : cpu_set_t := <[0%nat := Some 0]> set.

(** [__NCPUBITS] is a [size_t], to which [cpu] is converted; the shifted [1] is
    an [int]. *)
Definition CPU_SET (cpu : Z) (set : cpu_set_t) : prog cpu_set_t :=
  let cpu := wrapu long_bits cpu in
  match set !! Z.to_nat (cpu / __NCPUBITS) with
  | None => undef OutOfBounds
  | Some cell =>
      bits ← defined cell;
      let n := cpu mod __NCPUBITS in
      if 32 <=? n then undef BadShift
      else Ret (<[Z.to_nat (cpu / __NCPUBITS) :=
                  Some (Z.lor bits (wrapu long_bits (wraps 32 (Z.shiftl 1 n))))]> set)
  end.

(** ** The commands *)

(** The set after [CPU_ZERO] and [CPU_SET(cpu, &cpuset)]. *)
Definition cpu_set (cpu : Z) : gset Z :=
  if (0 <=? cpu) && (cpu <? 1024) then {[cpu]} else ∅.

Definition set_cpu_affinity (cpu : Z) : prog Z :=
  pid ← act Getpid;
  r ← act (SchedSetaffinity pid (cpu_set cpu));
  if r <? 0 then
    report "sched_setaffinity()";;
    Ret (-1)
  else Ret 0.

(** [elapsed]: microseconds, an [unsigned int]. *)
Definition elapsed (t0 t1 : Z * Z) : Z :=
  wrapu 32 (wrapu 32 ((t1.1 - t0.1) * 1000000) + (t1.2 - t0.2)).

(** The loop of [busy_loop]. *)
Fixpoint busy (fuel : nat) (count : Z) (t0 : Z * Z) (printed reps : Z) : prog Z :=
  match fuel with
  | O => Stop OutOfFuel
  | S fuel' =>
      if printed =? reps then Ret 0
      else
        let count := wrapu 64 (count + 1) in
        if count mod 16384 =? 0 then
          t1 ← act Gettimeofday;
          if 1000000 <=? elapsed t0 t1 then
            printf (fmt_u count +:+ newline);;
            t0 ← act Gettimeofday;
            let printed := if negb (reps =? -1) then wraps 32 (printed + 1) else printed in
            busy fuel' 0 t0 printed reps
          else busy fuel' count t0 printed reps
        else busy fuel' count t0 printed reps
  end.

Definition busy_loop (argv : list string) (info : cmd_data) : prog Z :=
  reps ← (if Z.of_nat (length argv) =? 2 then
            a1 ← argv_at argv 1; Ret (atoi a1)
          else Ret (-1));
  t0 ← act Gettimeofday;
  busy loop_bound 0 t0 0 reps.

(** [rdtscll] *)
Definition rdtscll : prog Z :=
  r ← act Rdtsc;
  let '(a, d) := r in
  Ret (Z.lor (wrapu 32 a) (wrapu 64 (Z.shiftl (wrapu 32 d) 32))).

Definition rdtsc (argv : list string) (info : cmd_data) : prog Z :=
  tsc ← rdtscll;
  printf ("0x" +:+ fmt_0x 16 tsc +:+ newline);;
  Ret 0.

(** The four registers, if the affinity could be set. *)
Definition cpuid_inline (cpu function index : Z) : prog (option (Z * Z * Z * Z)) :=
  r ← set_cpu_affinity cpu;
  if r <? 0 then Ret None
  else
    data ← act (Cpuid (wrapu 32 function) (wrapu 32 index));
    Ret (Some data).

Definition cpuid_line (data : Z * Z * Z * Z) : string :=
  let '(a, b, c, d) := data in
  "0x" +:+ fmt_0x 8 (wrapu 32 a) +:+ " 0x" +:+ fmt_0x 8 (wrapu 32 b) +:+
  " 0x" +:+ fmt_0x 8 (wrapu 32 c) +:+ " 0x" +:+ fmt_0x 8 (wrapu 32 d) +:+ newline.

Definition cpuid (argv : list string) (info : cmd_data) : prog Z :=
  a1 ← argv_at argv 1;
  a2 ← argv_at argv 2;
  let cpu := wraps 32 (strtol a1) in
  let function := strtoul a2 in
  index ← (if Z.of_nat (length argv) =? 4 then
             a3 ← argv_at argv 3; Ret (strtoul a3)
           else Ret 0);
  data ← cpuid_inline cpu (wraps 32 function) (wraps 32 index);
  match data with
  | None =>
      eprintf ("Could not obtain cpuid result." +:+ newline);;
      Ret (-1)
  | Some data => printf (cpuid_line data);; Ret 0
  end.

Definition cpu_list (argv : list string) (info : cmd_data) : prog Z :=
  if sc_nprocessors_onln then
    n ← act SysconfNprocessors;
    let ncpus := wraps 32 n in
    for_each (fun i => printf (fmt_d i +:+ newline)) (map Z.of_nat (seq 0 (Z.to_nat ncpus)));;
    Ret 0
  else
    eprintf ("Operation not supported by library." +:+ newline);;
    Ret (-1).

Definition runon (argv : list string) (info : cmd_data) : prog Z :=
  let argv := drop 1 argv in
  a0 ← argv_at argv 0;
  let cpu := strtoul a0 in
  let argv := drop 1 argv in
  r ← set_cpu_affinity (wraps 32 cpu);
  if r <? 0 then Ret (-1)
  else
    file ← argv_at argv 0;
    e ← act (Execvp file argv);
    if e =? 0 then Stop ProcessReplaced
    else
      report "exec";;
      Ret (-1).

Definition cpuid_params := make_prereq_params_var_args 3 4 "<cpu> <function> [index]" 0.
Definition runon_params := make_prereq_params_var_args 3 INT_MAX "<cpu> <cmd> [args]" 0.

Definition misc_cmds : list cmd_info :=
  (if ARCH_X86
   then [make_cmd "rdtsc" rdtsc PrivNull;
         make_cmd_with_params "cpuid" cpuid PrivNull cpuid_params]
   else []) ++
  [make_cmd "busy_loop" busy_loop PrivNull;
   make_cmd "cpu_list" cpu_list PrivNull;
   make_cmd_with_params "runon" runon PrivNull runon_params].
Definition MISC_group : cmd_group :=
  {| grp_name := "MISC"; description := None; commands := misc_cmds |}.

(** ** The CPU sets of klibc builds *)

Lemma ncpubits : __NCPUBITS = long_bits.
Proof. unfold __NCPUBITS. by destruct long_bits_cases as [-> | ->]. Qed.

(** A bit of the first word, as the shift of the [int] 1 gives it. *)
Lemma klibc_bit cpu :
  0 <= cpu < 32 ->
  wrapu long_bits (wraps 32 (Z.shiftl 1 cpu))
  = if cpu <? 31 then 2 ^ cpu else 2 ^ long_bits - 2 ^ 31.
Proof.
  intros H. rewrite Z.shiftl_1_l. destruct (Z.ltb_spec cpu 31).
  - pose proof (Z.pow_lt_mono_r 2 cpu 31 ltac:(lia) ltac:(lia) ltac:(lia)).
    pose proof (pow2_pos cpu ltac:(lia)).
    rewrite wraps_small by plia.
    apply wrapu_small. destruct long_bits_cases as [-> | ->]; plia.
  - assert (cpu = 31) as -> by lia. by destruct long_bits_cases as [-> | ->].
Qed.

Lemma long_bits_ge : 32 <= long_bits.
Proof. destruct long_bits_cases as [-> | ->]; lia. Qed.

(** The words of the set [CPU_ZERO] leaves. *)
Lemma zeroed_lookup i :
  CPU_ZERO uninit_cpu_set !! i =
    if Nat.eqb i 0 then Some (Some 0)
    else if Z.of_nat i <? __CPU_SETSIZE / long_bits then Some None else None.
Proof.
  unfold CPU_ZERO, uninit_cpu_set, cpu_set_t. rewrite ncpubits.
  assert (0 < __CPU_SETSIZE / long_bits) by by destruct long_bits_cases as [-> | ->].
  destruct i as [|i]; cbn [Nat.eqb].
  - rewrite list_lookup_insert_eq; [done|]. rewrite length_replicate. lia.
  - rewrite list_lookup_insert_ne by done. destruct (Z.ltb_spec (Z.of_nat (S i)) (__CPU_SETSIZE / long_bits)).
    + apply lookup_replicate_2. lia.
    + apply lookup_ge_None_2. rewrite length_replicate. lia.
Qed.

(** The word of a CPU. *)
Lemma klibc_index cpu :
  - 2 ^ 31 <= cpu < 2 ^ 31 ->
  CPU_ZERO uninit_cpu_set !! Z.to_nat (wrapu long_bits cpu / long_bits) =
    if (0 <=? cpu) && (cpu <? long_bits) then Some (Some 0)
    else if (0 <=? cpu) && (cpu <? __CPU_SETSIZE) then Some None else None.
Proof.
  intros Hcpu. pose proof long_bits_ge. rewrite zeroed_lookup.
  assert (__CPU_SETSIZE / long_bits * long_bits = __CPU_SETSIZE)
    by by destruct long_bits_cases as [-> | ->].
  assert (2 ^ 32 <= 2 ^ long_bits) by (apply Z.pow_le_mono_r; lia).
  assert (wrapu long_bits cpu = if 0 <=? cpu then cpu else 2 ^ long_bits + cpu) as ->.
  { destruct (Z.leb_spec 0 cpu); [apply wrapu_small; plia|].
    unfold wrapu. symmetry. apply (Z.mod_unique_pos _ _ (-1)); [plia|lia]. }
  pose proof (div_bounds (if 0 <=? cpu then cpu else 2 ^ long_bits + cpu) _ long_bits_pos).
  set (q := (if 0 <=? cpu then cpu else 2 ^ long_bits + cpu) / long_bits) in *.
  clearbody q. unfold __CPU_SETSIZE in *.
  destruct (Z.leb_spec 0 cpu); cbn [andb].
  - assert (0 <= q) by nia. rewrite Z2Nat.id by done.
    destruct (Nat.eqb_spec (Z.to_nat q) 0), (Z.ltb_spec cpu long_bits); try done; try nia.
    destruct (Z.ltb_spec q (1024 / long_bits)), (Z.ltb_spec cpu 1024); try done; nia.
  - assert (1024 / long_bits <= q) by (change (2 ^ 32) with 4294967296 in *; change (2 ^ 31) with 2147483648 in *; nia).
    assert (1 <= 1024 / long_bits) by nia.
    destruct (Nat.eqb_spec (Z.to_nat q) 0); [lia|].
    destruct (Z.ltb_spec (Z.of_nat (Z.to_nat q)) (1024 / long_bits)); [lia|done].
Qed.

Lemma klibc_first x :
  <[Z.to_nat 0 := x]> (CPU_ZERO uninit_cpu_set) = x :: drop 1 uninit_cpu_set.
Proof. unfold uninit_cpu_set. rewrite ncpubits. by destruct long_bits_cases as [-> | ->]. Qed.

(** C39: in a klibc build [CPU_ZERO] and [CPU_SET] leave all but the first word of
    the set indeterminate; CPUs 0 to 30 are selected as meant, CPU 31 selects
    every higher CPU of the word too, and for any other number the code has
    undefined behaviour. *)
Theorem klibc_cpu_set cpu :
  - 2 ^ 31 <= cpu < 2 ^ 31 ->
  CPU_SET cpu (CPU_ZERO uninit_cpu_set) =
    if (0 <=? cpu) && (cpu <? 32)
    then Ret (Some (if cpu <? 31 then 2 ^ cpu else 2 ^ long_bits - 2 ^ 31)
              :: drop 1 uninit_cpu_set)
    else if (0 <=? cpu) && (cpu <? long_bits) then undef BadShift
    else if (0 <=? cpu) && (cpu <? __CPU_SETSIZE) then undef UninitRead
    else undef OutOfBounds.
Proof.
  intros Hcpu. pose proof long_bits_ge. unfold CPU_SET. rewrite ncpubits.
  rewrite klibc_index by done.
  destruct (Z.leb_spec 0 cpu); cbn [andb]; [|done].
  rewrite wrapu_small by (pose proof (Z.pow_le_mono_r 2 32 long_bits); plia).
  destruct (Z.ltb_spec cpu long_bits).
  - rewrite Z.mod_small, Z.div_small by lia. cbn [defined mbind prog_mbind prog_bind].
    destruct (Z.leb_spec 32 cpu), (Z.ltb_spec cpu 32); try lia; [done|].
    rewrite klibc_bit by lia. by rewrite Z.lor_0_l, klibc_first.
  - destruct (Z.ltb_spec cpu 32); [lia|].
    by destruct (cpu <? __CPU_SETSIZE).
Qed.

(** ** Running on a CPU *)

(** C28: [runon] replaces the process by the command with its own arguments only
    after the kernel has restricted it to the CPU; otherwise it fails. *)
Theorem runon_spec c n cmd args info t o :
  exec (runon (c :: n :: cmd :: args) info) t o ->
  let cpu := wraps 32 (strtoul n) in
  exists (pid r : Z) t',
    t = Ev Getpid pid :: Ev (SchedSetaffinity pid (cpu_set cpu)) r :: t' /\
    if r <? 0 then o = Returned (-1) /\ output_of Stdout t' = ""
    else exists (e : Z) t'', t' = Ev (Execvp cmd (cmd :: args)) e :: t'' /\
         o = if e =? 0 then Stopped ProcessReplaced else Returned (-1).
Proof.
  intros H. unfold runon, set_cpu_affinity in H. cbn [drop] in H.
  exec_run H; tests.
  all: do 2 eexists; eexists; split; [reflexivity|].
  all: match goal with |- context [?r <? 0] => destruct (Z.ltb_spec r 0); try lia end.
  1: done.
  all: do 2 eexists; split; [reflexivity|].
  all: match goal with |- context [?r =? 0] => destruct (Z.eqb_spec r 0); done end.
Qed.

(** C27: [cpuid] executes the instruction for the low 32 bits of the function and
    index (0 by default) on the CPU it was asked for, and prints the four
    registers. *)
Theorem cpuid_spec c n f rest info t :
  (length rest <= 1)%nat ->
  exec (cpuid (c :: n :: f :: rest) info) t (Returned 0) ->
  exists (pid r : Z) data,
    t = [Ev Getpid pid; Ev (SchedSetaffinity pid (cpu_set (wraps 32 (strtol n)))) r;
         Ev (Cpuid (strtoul f mod 2 ^ 32)
               (match rest with i :: _ => strtoul i mod 2 ^ 32 | [] => 0 end)) data;
         Ev (Put Stdout (cpuid_line data)) tt] /\ 0 <= r.
Proof.
  intros Hlen H.
  assert (exec (data ← cpuid_inline (wraps 32 (strtol n)) (wraps 32 (strtoul f))
                  (wraps 32 (match rest with i :: _ => strtoul i | [] => 0 end));
                match data with
                | None => eprintf ("Could not obtain cpuid result." +:+ newline);; Ret (-1)
                | Some data => printf (cpuid_line data);; Ret 0
                end) t (Returned 0)) as H'
    by (destruct rest as [|i [|]]; [exact H..|cbn in Hlen; lia]).
  clear H. unfold cpuid_inline, set_cpu_affinity in H'.
  rewrite !wrapu_wraps in H' by lia. exec_run H'; tests.
  eexists _, _, _. split; [|eassumption]. by destruct rest.
Qed.

(** [rdtsc] prints both halves of the time-stamp counter as one 64-bit
    number. *)
Theorem rdtsc_spec argv info t o :
  exec (rdtsc argv info) t o ->
  exists a d : Z,
    t = [Ev Rdtsc (a, d);
         Ev (Put Stdout ("0x" +:+ fmt_0x 16 (a mod 2 ^ 32 + 2 ^ 32 * (d mod 2 ^ 32))
                         +:+ newline)) tt] /\ o = Returned 0.
Proof.
  intros H. unfold rdtsc, rdtscll in H. exec_run H. exists z, z0. split; [|done].
  pose proof (wrapu_range 32 z ltac:(lia)). pose proof (wrapu_range 32 z0 ltac:(lia)).
  rewrite Z.shiftl_mul_pow2, (wrapu_small 64), lor_shift_add, (Z.mul_comm _ (2 ^ 32)) by plia.
  done.
Qed.

Lemma exec_print_cpus l t o :
  exec (for_each (fun i => printf (fmt_d i +:+ newline)) (map Z.of_nat l)) t o ->
  o = Returned tt /\ puts t = map (fun i => fmt_u (Z.of_nat i) +:+ newline) l.
Proof.
  intros H. apply (exec_for_each put_of _ (fun i => [fmt_d i +:+ newline])) in H as [-> Hp].
  - split; [done|]. etransitivity; [exact Hp|]. clear. induction l as [|k l IH]; [done|].
    cbn. rewrite IH. unfold fmt_d. by destruct (Z.ltb_spec (Z.of_nat k) 0); [lia|].
  - clear. intros i t o H. exec_run H. done.
Qed.

(** [cpu_list] prints the numbers below the processor count in order. *)
Theorem cpu_list_spec argv info t o :
  sc_nprocessors_onln = true -> exec (cpu_list argv info) t o ->
  exists (n : Z) t', t = Ev SysconfNprocessors n :: t' /\ o = Returned 0 /\
  puts t' = map (fun i => fmt_u (Z.of_nat i) +:+ newline) (seq 0 (Z.to_nat (wraps 32 n))).
Proof.
  unfold cpu_list. intros -> H. apply exec_inv in H as (n & t' & -> & H). exists n, t'. split; [done|].
  apply (exec_bind_inv (for_each _ _)) in H as [(x & t1 & t2 & H1 & H2 & ->)|(s & H1 & _)];
    apply exec_print_cpus in H1 as [? H1]; [|done].
  apply exec_ret_iff in H2 as [-> ->]. by rewrite app_nil_r.
Qed.

(** ** The busy loop *)

(** A printed count: the loop only looks at the clock at multiples of 16384. *)
Definition count_line (s : string) : Prop :=
  exists count, s = fmt_u count +:+ newline /\ count mod 16384 = 0.

(** The next value of [printed]. *)
Definition next_printed (printed reps : Z) : Z :=
  if negb (reps =? -1) then wraps 32 (printed + 1) else printed.

Lemma next_printed_spec printed reps :
  0 <= printed -> reps < 2 ^ 31 -> (0 <= reps -> printed < reps) -> -1 <= reps ->
  next_printed printed reps = if reps =? -1 then printed else printed + 1.
Proof.
  intros. unfold next_printed. destruct (Z.eqb_spec reps (-1)); cbn [negb]; [done|].
  apply wraps_small; plia.
Qed.

Lemma exec_busy fuel count t0 printed reps t o :
  exec (busy fuel count t0 printed reps) t o ->
  -1 <= reps < 2 ^ 31 -> 0 <= printed -> (0 <= reps -> printed <= reps) ->
  Forall count_line (puts t) /\
  ((o = Returned 0 /\ 0 <= reps /\ Z.of_nat (length (puts t)) = reps - printed) \/
   o = Stopped OutOfFuel).
Proof.
  revert count t0 printed t o. induction fuel as [|fuel IH]; intros count t0 printed t o H Hr Hp Hle.
  { apply exec_inv in H as [-> ->]. split; [constructor|by right]. }
  cbn [busy] in H. destruct (Z.eqb_spec printed reps) as [->|Hne].
  { apply exec_inv in H as [-> ->]. split; [constructor|left]. cbn. split; [done|]. lia. }
  destruct (Z.eqb_spec (wrapu 64 (count + 1) mod 16384) 0) as [Hc|]; [|by apply IH in H].
  apply exec_inv in H as (t1 & ? & -> & H). prog_norm_in H.
  destruct (1000000 <=? elapsed t0 t1); [|by apply IH in H].
  apply exec_inv in H as (u & ? & -> & H). apply exec_inv in H as (t2 & t' & -> & H).
  cbv zeta beta in H. fold (next_printed printed reps) in H.
  rewrite next_printed_spec in H by lia.
  match goal with |- context [puts ?t] =>
    change (puts t) with ((fmt_u (wrapu 64 (count + 1)) +:+ newline) :: puts t') end.
  destruct (Z.eqb_spec reps (-1)); (apply IH in H as [Hall Ho]; [|lia..]);
    (split; [constructor; [by eexists|done]|]); cbn [length]; rewrite Nat2Z.inj_succ;
    (destruct Ho as [(? & Hr0 & Hlen)|?]; [left|by right]); (split; [done|]); lia.
Qed.

(** The count a command line asks for; [-1] is no count. *)
Definition busy_reps (argv : list string) : Z :=
  match argv with [_; n] => atoi n | _ => -1 end.

Lemma exec_busy_loop argv info t o :
  exec (busy_loop argv info) t o ->
  exists t0 t', t = Ev Gettimeofday t0 :: t' /\ exec (busy loop_bound 0 t0 0 (busy_reps argv)) t' o.
Proof.
  intros H. destruct argv as [|c [|n [|x argv]]];
    try (apply exec_inv in H as (t0 & t' & -> & H); by exists t0, t').
  unfold busy_loop in H.
  destruct (Z.eqb_spec (Z.of_nat (length (c :: n :: x :: argv))) 2) as [E|]; [cbn in E; lia|].
  apply exec_inv in H as (t0 & t' & -> & H). by exists t0, t'.
Qed.

(** [busy_loop n] returns only after [n] reports; without a count it never
    returns.  Every report is a multiple of 16384. *)
Theorem busy_loop_spec argv info t o :
  -1 <= busy_reps argv -> exec (busy_loop argv info) t o ->
  Forall count_line (puts t) /\
  (o = Stopped OutOfFuel \/
   0 <= busy_reps argv /\ o = Returned 0 /\ Z.of_nat (length (puts t)) = busy_reps argv).
Proof.
  intros Hr H. apply exec_busy_loop in H as (t0 & t' & -> & H).
  assert (busy_reps argv < 2 ^ 31).
  { unfold busy_reps. repeat case_match; try lia. unfold atoi.
    match goal with |- context [wraps 32 ?x] => pose proof (wraps_range 32 x ltac:(lia)) end. plia. }
  apply exec_busy in H as [Hall Ho]; [|lia..]. split; [exact Hall|].
  destruct Ho as [(? & Hr0 & Hlen)|?]; [right|by left].
  split; [done|]. split; [done|]. change (puts (Ev Gettimeofday t0 :: t')) with (puts t'). lia.
Qed.

(** ** Termination of the busy loop

    The loop reads the clock after every 16384 iterations.  The clock is never
    set back and does not stand still: two readings in a row are less apart
    than what an [unsigned int] of microseconds can hold besides a second
    (about 71 minutes), and at most [k] readings in a row are made within a
    second. *)












Section Busy.
Context (k : nat) (reps : Z).
Hypothesis Hk : (0 < k)%nat.
Hypothesis Hcount : 16384 * Z.of_nat k < 2 ^ 64.
Hypothesis Hreps : 0 <= reps < 2 ^ 31.


End Busy.


(** ** Safety *)

Lemma busy_safe (st : stop -> Prop) fuel count t0 printed reps :
  st OutOfFuel -> resource_safe st (busy fuel count t0 printed reps).
Proof.
  intros Hst.
  revert count t0 printed. induction fuel as [|fuel IH]; intros count t0 printed;
    [intros t; exact Hst|].
  cbn [busy]. wb.
Qed.

Lemma busy_loop_safe (st : stop -> Prop) argv info :
  st OutOfFuel -> resource_safe st (busy_loop argv info).
Proof.
  intros Hst. assert (busy_loop argv info = (t0 ← act Gettimeofday;
    busy loop_bound 0 t0 0 (busy_reps argv))) as ->.
  { destruct argv as [|c [|n [|x argv]]]; try done. unfold busy_loop.
    by destruct (Z.eqb_spec (Z.of_nat (length (c :: n :: x :: argv))) 2) as [E|]; [cbn in E; lia|]. }
  apply resource_safe_bind; [auto with wb|]. intros t0. by apply busy_safe.
Qed.

Lemma set_cpu_affinity_safe st cpu : resource_safe st (set_cpu_affinity cpu).
Proof. intros t. unfold set_cpu_affinity. wp_run; live_solve. Qed.
#[local] Hint Resolve set_cpu_affinity_safe : wb.

Lemma rdtsc_safe st argv info : resource_safe st (rdtsc argv info).
Proof. unfold rdtsc, rdtscll. wb. Qed.

Lemma cpuid_safe st c n f rest info : resource_safe st (cpuid (c :: n :: f :: rest) info).
Proof.
  unfold cpuid, cpuid_inline.
  destruct (Z.eqb_spec (Z.of_nat (length (c :: n :: f :: rest))) 4) as [E|].
  - destruct rest as [|i rest]; [done|]. wb.
  - wb.
Qed.

Lemma cpu_list_safe st argv info : resource_safe st (cpu_list argv info).
Proof. unfold cpu_list. wb. Qed.

Lemma runon_safe (st : stop -> Prop) c n cmd args info :
  st ProcessReplaced -> resource_safe st (runon (c :: n :: cmd :: args) info).
Proof. intros Hst t. unfold runon, set_cpu_affinity. cbn [drop]. wp_run; live_solve. Qed.
End Misc.

(** ** Witnesses *)

#[local] Existing Instance linux_x86_64.
#[local] Instance witness_bound : LoopBound := Z.to_nat 40000.

Example runon_spec_witness :
  exists t, exec (runon ["runon"; "1"; "ls"; "-l"] (sized 8)) t (Stopped ProcessReplaced) /\
  exists pid r t', t = Ev Getpid pid :: Ev (SchedSetaffinity pid {[1]}) r :: t'.
Proof.
  run_env Byte.x00 (runon ["runon"; "1"; "ls"; "-l"] (sized 8)). split; [exact Hrun|].
  destruct (runon_spec _ _ _ _ _ _ _ Hrun) as (pid & r & t' & E & _). exists pid, r, t'. exact E.
Defined.

Example cpuid_spec_witness :
  exists t, exec (cpuid ["cpuid"; "0"; "0x80000000"] (sized 8)) t (Returned 0) /\
  exists pid r data, t = [Ev Getpid pid; Ev (SchedSetaffinity pid {[0]}) r;
                          Ev (Cpuid 0x80000000 0) data; Ev (Put Stdout (cpuid_line data)) tt].
Proof.
  run_env Byte.x01 (cpuid ["cpuid"; "0"; "0x80000000"] (sized 8)). split; [exact Hrun|].
  destruct (cpuid_spec _ _ _ [] _ _ (le_S _ _ (le_n 0)) Hrun) as (pid & r & data & E & _).
  exists pid, r, data. exact E.
Defined.



Example klibc_cpu_set_witness :
  - 2 ^ 31 <= 3 < 2 ^ 31 /\
  CPU_SET 3 (CPU_ZERO uninit_cpu_set) = Ret (Some 8 :: replicate 15 None).
Proof. split; [lia|]. exact (klibc_cpu_set 3 ltac:(lia)). Defined.
