(* ===== verification/I2cDev.v ===== *)
(** * SMBus transactions ([linux-i2c-dev.h])

    The inline functions of the header, on top of the [I2C_SMBUS] ioctl, whose
    data is a 35-byte union: the program passes cells that may be
    indeterminate and gets bytes back. *)

From S2P Require Import Prelude CLib Platform Sys SmbusTypes.
Local Open Scope Z_scope.

Definition I2C_M_RD : Z := 1.
Definition I2C_SLAVE : Z := 0x0703.
Definition I2C_SLAVE_FORCE : Z := 0x0706.

Definition I2C_SMBUS_READ : Z := 1.
Definition I2C_SMBUS_WRITE : Z := 0.

Definition I2C_SMBUS_QUICK : Z := 0.
Definition I2C_SMBUS_BYTE : Z := 1.
Definition I2C_SMBUS_BYTE_DATA : Z := 2.
Definition I2C_SMBUS_WORD_DATA : Z := 3.
Definition I2C_SMBUS_PROC_CALL : Z := 4.
Definition I2C_SMBUS_BLOCK_DATA : Z := 5.
Definition I2C_SMBUS_BLOCK_PROC_CALL : Z := 7.
Definition I2C_SMBUS_I2C_BLOCK_DATA : Z := 8.

(** [union i2c_smbus_data data;]: [I2C_SMBUS_BLOCK_MAX + 3] indeterminate
    bytes. *)
Definition i2c_smbus_data_size : nat := 35.
Definition i2c_data_uninit : list (option byte) := replicate i2c_smbus_data_size None.

Section I2c.
Context {P : Platform}.

(** Assigning a member of [n] bytes of the union. *)
Definition set_member (n : nat) (v : Z) (cells : list (option byte)) : list (option byte) :=
  map Some (host_bytes n v) ++ drop n cells.

(** [i2c_smbus_access]: the result and the union afterwards. *)
Definition i2c_smbus_access (file read_write command size : Z)
    (data : option (list (option byte))) : prog (Z * list byte) :=
  act (I2cSmbus file read_write (wrapu 8 command) size data).

Definition i2c_smbus_write_quick (file value : Z) : prog Z :=
  r ← i2c_smbus_access file (wrapu 8 value) 0 I2C_SMBUS_QUICK None; Ret r.1.

Definition i2c_smbus_read_byte (file : Z) : prog Z :=
  r ← i2c_smbus_access file I2C_SMBUS_READ 0 I2C_SMBUS_BYTE (Some i2c_data_uninit);
  if negb (r.1 =? 0) then Ret (-1) else Ret (Z.land 0xFF (union_get 1 r.2)).

Definition i2c_smbus_write_byte (file value : Z) : prog Z :=
  r ← i2c_smbus_access file I2C_SMBUS_WRITE value I2C_SMBUS_BYTE None; Ret r.1.

Definition i2c_smbus_read_byte_data (file command : Z) : prog Z :=
  r ← i2c_smbus_access file I2C_SMBUS_READ command I2C_SMBUS_BYTE_DATA (Some i2c_data_uninit);
  if negb (r.1 =? 0) then Ret (-1) else Ret (Z.land 0xFF (union_get 1 r.2)).

Definition i2c_smbus_write_byte_data (file command value : Z) : prog Z :=
  r ← i2c_smbus_access file I2C_SMBUS_WRITE command I2C_SMBUS_BYTE_DATA
        (Some (set_member 1 value i2c_data_uninit));
  Ret r.1.

Definition i2c_smbus_read_word_data (file command : Z) : prog Z :=
  r ← i2c_smbus_access file I2C_SMBUS_READ command I2C_SMBUS_WORD_DATA (Some i2c_data_uninit);
  if negb (r.1 =? 0) then Ret (-1) else Ret (Z.land 0xFFFF (union_get 2 r.2)).

Definition i2c_smbus_write_word_data (file command value : Z) : prog Z :=
  r ← i2c_smbus_access file I2C_SMBUS_WRITE command I2C_SMBUS_WORD_DATA
        (Some (set_member 2 value i2c_data_uninit));
  Ret r.1.

Definition i2c_smbus_process_call (file command value : Z) : prog Z :=
  r ← i2c_smbus_access file I2C_SMBUS_WRITE command I2C_SMBUS_PROC_CALL
        (Some (set_member 2 value i2c_data_uninit));
  if negb (r.1 =? 0) then Ret (-1) else Ret (Z.land 0xFFFF (union_get 2 r.2)).

(** [for (i = ...; i <= ...; i++) values[i-1] = data.block[i];], [k]
    iterations from [i]. *)
Fixpoint copy_from_block (k i : nat) (block values : list byte) : prog (list byte) :=
  match k with
  | O => Ret values
  | S k' =>
      match block !! i with
      | None => undef OutOfBounds
      | Some b =>
          if Nat.ltb (i - 1) (length values)
          then copy_from_block k' (S i) block (<[(i - 1)%nat := b]> values)
          else undef OutOfBounds
      end
  end.

(** [for (i = ...; i <= length; i++) data.block[i] = values[i-1];] *)
Fixpoint copy_to_block (k i : nat) (values : list byte) (block : list (option byte))
  : prog (list (option byte)) :=
  match k with
  | O => Ret block
  | S k' =>
      match values !! (i - 1)%nat with
      | None => undef OutOfBounds
      | Some b =>
          if Nat.ltb i (length block)
          then copy_to_block k' (S i) values (<[i := Some b]> block)
          else undef OutOfBounds
      end
  end.

(** The result of a block transfer: [data.block[0]], and the values copied. *)
Definition block_result (r : Z * list byte) (values : list byte) : prog (Z * list byte) :=
  if negb (r.1 =? 0) then Ret (-1, values)
  else
    match r.2 with
    | [] => undef OutOfBounds
    | b :: _ =>
        values ← copy_from_block (Z.to_nat (byte.unsigned b)) 1 r.2 values;
        Ret (byte.unsigned b, values)
    end.

(** The union filled for a transfer of [length], at most 32, bytes. *)
Definition block_cells (length : Z) (values : list byte) : prog (list (option byte)) :=
  cells ← copy_to_block (Z.to_nat length) 1 values i2c_data_uninit;
  Ret (<[0%nat := Some (byte.of_Z length)]> cells).

Definition clamp_length (length : Z) : Z := if 32 <? length then 32 else length.

Definition i2c_smbus_read_block_data (file command : Z) (values : list byte)
  : prog (Z * list byte) :=
  r ← i2c_smbus_access file I2C_SMBUS_READ command I2C_SMBUS_BLOCK_DATA (Some i2c_data_uninit);
  block_result r values.

Definition i2c_smbus_write_block_data (file command length : Z) (values : list byte) : prog Z :=
  let length := clamp_length (wrapu 8 length) in
  cells ← block_cells length values;
  r ← i2c_smbus_access file I2C_SMBUS_WRITE command I2C_SMBUS_BLOCK_DATA (Some cells);
  Ret r.1.

Definition i2c_smbus_read_i2c_block_data (file command length : Z) (values : list byte)
  : prog (Z * list byte) :=
  let length := clamp_length (wrapu 8 length) in
  let cells := <[0%nat := Some (byte.of_Z length)]> i2c_data_uninit in
  r ← i2c_smbus_access file I2C_SMBUS_READ command I2C_SMBUS_I2C_BLOCK_DATA (Some cells);
  block_result r values.

Definition i2c_smbus_write_i2c_block_data (file command length : Z) (values : list byte)
  : prog Z :=
  let length := clamp_length (wrapu 8 length) in
  cells ← block_cells length values;
  r ← i2c_smbus_access file I2C_SMBUS_WRITE command I2C_SMBUS_I2C_BLOCK_DATA (Some cells);
  Ret r.1.

Definition i2c_smbus_block_process_call (file command length : Z) (values : list byte)
  : prog (Z * list byte) :=
  let length := clamp_length (wrapu 8 length) in
  cells ← block_cells length values;
  r ← i2c_smbus_access file I2C_SMBUS_WRITE command I2C_SMBUS_BLOCK_PROC_CALL (Some cells);
  block_result r values.

(** ** The copying loops *)

(** Within both arrays they copy a prefix. *)
Lemma copy_from_block_spec k pre block rest values :
  (1 <= length pre)%nat ->
  (k <= length block)%nat -> (length pre - 1 + k <= length values)%nat ->
  copy_from_block k (length pre) (pre ++ block ++ rest) values =
  Ret (take (length pre - 1) values ++ take k block ++ drop (length pre - 1 + k) values).
Proof.
  revert pre block values. induction k as [|k IH]; intros pre block values Hpre Hb Hv.
  - cbn [copy_from_block]. rewrite take_0. cbn [app]. by rewrite Nat.add_0_r, take_drop.
  - destruct block as [|b block]; [cbn in Hb; lia|]. cbn [length] in Hb. cbn [copy_from_block].
    change ((b :: block) ++ rest) with (b :: (block ++ rest)).
    rewrite list_lookup_middle by done.
    destruct (Nat.ltb_spec (length pre - 1) (length values)); [|lia].
    replace (S (length pre)) with (length (pre ++ [b])) by (rewrite length_app; cbn; lia).
    replace (pre ++ b :: (block ++ rest)) with ((pre ++ [b]) ++ block ++ rest)
      by (by rewrite <- app_assoc).
    rewrite IH; rewrite ?length_app, ?length_insert, ?length_take; cbn [length]; try lia.
    f_equal.
    replace (length pre + 1 - 1)%nat with (S (length pre - 1)) by lia.
    rewrite (take_S_r _ _ b) by (apply list_lookup_insert_eq; lia).
    rewrite take_insert_ge, <- app_assoc by lia. cbn [app take]. do 3 f_equal.
    rewrite drop_insert_lt by lia. f_equal. lia.
Qed.

Lemma copy_to_block_spec k pre cells values :
  (1 <= length pre)%nat -> (k <= length cells)%nat -> (length pre - 1 + k <= length values)%nat ->
  copy_to_block k (length pre) values (pre ++ cells) =
  Ret (pre ++ map Some (take k (drop (length pre - 1) values)) ++ drop k cells).
Proof.
  revert pre cells. induction k as [|k IH]; intros pre cells Hpre Hc Hv.
  - cbn [copy_to_block]. by rewrite take_0, drop_0.
  - destruct cells as [|c cells]; [cbn in Hc; lia|]. cbn [length] in Hc. cbn [copy_to_block].
    destruct (lookup_lt_is_Some_2 values (length pre - 1) ltac:(lia)) as [b Hb]. rewrite Hb.
    rewrite length_app. cbn [length].
    destruct (Nat.ltb_spec (length pre) (length pre + S (length cells))); [|lia].
    rewrite insert_app_r_alt, Nat.sub_diag by lia. cbn [insert list_insert].
    change (pre ++ Some b :: cells) with (pre ++ [Some b] ++ cells). rewrite app_assoc.
    replace (S (length pre)) with (length (pre ++ [Some b])) by (rewrite length_app; cbn; lia).
    rewrite IH by (rewrite ?length_app; cbn [length]; lia). f_equal.
    rewrite length_app. cbn [length].
    replace (length pre + 1 - 1)%nat with (S (length pre - 1)) by lia.
    rewrite (drop_S values b (length pre - 1)) by done.
    rewrite <- app_assoc. reflexivity.
Qed.

(** A block transfer of at most 32 bytes. *)
Lemma block_result_ok b bs values :
  byte.unsigned b <= 32 -> (32 <= length bs)%nat -> (32 <= length values)%nat ->
  block_result (0, b :: bs) values =
  Ret (byte.unsigned b,
       take (Z.to_nat (byte.unsigned b)) bs ++ drop (Z.to_nat (byte.unsigned b)) values).
Proof.
  intros Hb Hbs Hv. unfold block_result. cbn [fst snd negb Z.eqb].
  pose proof (byte.unsigned_range b).
  change (b :: bs) with ([b] ++ bs). rewrite <- (app_nil_r bs) at 1.
  change 1%nat with (length [b]) at 1.
  rewrite copy_from_block_spec by (cbn [length]; lia). done.
Qed.

Lemma block_cells_ok length values :
  0 <= length <= 32 -> (Z.to_nat length <= List.length values)%nat ->
  block_cells length values =
  Ret (Some (byte.of_Z length) :: map Some (take (Z.to_nat length) values) ++
       replicate (34 - Z.to_nat length) None).
Proof.
  intros Hl Hv. unfold block_cells.
  change i2c_data_uninit with ([None] ++ replicate 34 (@None byte)).
  pose proof (copy_to_block_spec (Z.to_nat length) [None] (replicate 34 None) values) as H.
  cbn [List.length] in H. rewrite H by (rewrite ?length_replicate; lia).
  cbn [mbind prog_mbind prog_bind app insert list_insert]. rewrite drop_replicate. done.
Qed.
End I2c.
