(* ===== verification/SmbusRw.v ===== *)
(** * The system management bus ([smbus_rw.c])

    Reads, writes, process calls and combined transfers through the i2c-dev
    driver; the parsing of their arguments and the printing of their results. *)

From S2P Require Import Prelude CLib Platform Sys SmbusTypes Commands DevFile I2cDev.
Local Open Scope Z_scope.

Section Smbus.
Context {P : Platform}.

(** [open_i2c_slave]; its arguments are [unsigned char]s. *)
Definition open_i2c_slave (i2c_bus slave_address : Z) : prog Z :=
  let devfile := "/dev/i2c-" +:+ fmt_d i2c_bus in
  if Nat.leb 15 (String.length devfile) then undef OutOfBounds
  else
    fd ← act (Open devfile O_RDWR);
    if fd <? 0 then
      report "Couldn't open i2c device file";;
      Ret (-1)
    else
      r ← act (Ioctl fd I2C_SLAVE slave_address);
      if r <? 0 then
        report ("Could not attach to i2c bus " +:+ fmt_d i2c_bus +:+ " slave address " +:+
                fmt_d slave_address);;
        act (Close fd);;
        Ret (-1)
      else Ret fd.

(** ** Parsing *)

Definition istrailingjunk (arg end_ : string) : prog Z :=
  match end_ with
  | "" => Ret 0
  | _ => eprintf (arg +:+ ": is followed by junk" +:+ newline);; Ret (-1)
  end.

Definition ismaxortrailingjunk (arg end_ : string) (ldata : Z) : prog Z :=
  if ldata =? LONG_MAX then
    eprintf (arg +:+ ": is LONG_MAX" +:+ newline);;
    Ret (-1)
  else istrailingjunk arg end_.

(** [*ret], if [parse_uint8_base] returned 0. *)
Definition parse_uint8_base (arg : string) (base : Z) : prog (option Z) :=
  let '(ldata, end_) := strtoul_end base arg in
  bad ← ismaxortrailingjunk arg end_ ldata;
  if negb (bad =? 0) then Ret None
  else if 0xff <? ldata then
    eprintf (arg +:+ ": won't fit in a byte" +:+ newline);;
    Ret None
  else Ret (Some (wrapu 8 ldata)).

Definition parse_uint8 (arg : string) : prog (option Z) := parse_uint8_base arg 0.
Definition parse_uint8_hex (arg : string) : prog (option Z) := parse_uint8_base arg 16.

(** The loop over pairs of nibbles; [dest] indexes [array]. *)
Fixpoint parse_nibbles (src : string) (dest : nat) (array : list byte)
  : prog (option (list byte)) :=
  match src with
  | "" => Ret (Some array)
  | String c0 "" =>                        (* [src += 2] skips the terminator *)
      r ← parse_uint8_hex (String c0 "");
      match r with None => Ret None | Some _ => undef OutOfBounds end
  | String c0 (String c1 src') =>
      let str_nibble := String c0 (String c1 "") in
      r ← parse_uint8_hex str_nibble;
      match r with
      | None => Ret None
      | Some v =>
          if Nat.ltb dest (length array)
          then parse_nibbles src' (S dest) (<[dest := byte.of_Z v]> array)
          else undef OutOfBounds
      end
  end.

(** The digits and what is left of the length without the prefix. *)
Definition hex_source (arg : string) (len : Z) : string * Z :=
  match arg with
  | String "0" (String "x" src) | String "0" (String "X" src) => (src, len - 2)
  | _ => (arg, len)
  end.

(** The length is an [int], to which [strlen]'s [size_t] is converted. *)
Definition parse_block (arg : string) (array : list byte) : prog (option (list byte * Z)) :=
  let len := wraps 32 (Z.of_nat (String.length arg)) in
  if (len <=? 0) || negb (Z.rem len 2 =? 0) then
    eprintf ("data length (" +:+ fmt_d len +:+ ") is 0 or odd" +:+ newline);;
    Ret None
  else
    let '(src, len) := hex_source arg len in
    if I2C_SMBUS_BLOCK_MAX <? Z.quot len 2 then
      eprintf ("data has more than " +:+ fmt_d I2C_SMBUS_BLOCK_MAX +:+ " bytes" +:+ newline);;
      Ret None
    else
      r ← parse_nibbles src 0 array;
      match r with
      | None => Ret None
      | Some array => Ret (Some (array, Z.quot len 2))
      end.

(** The cases of an [n]-byte operand, read with [strtoul]. *)
Definition parse_fixed (n : nat) (arg : string) (p : smbus_op_params) (array : list byte)
  : prog (Z * smbus_op_params) :=
  let '(ldata, end_) := strtoul_end 0 arg in
  bad ← ismaxortrailingjunk arg end_ ldata;
  if negb (bad =? 0) then Ret (-1, p)
  else Ret (0, set_data (union_set n ldata array) p).

(** [parse_io_width(arg, params, op)]: the result and [*params].  On failure
    the bytes of a block stored before the first bad pair are dropped: every
    caller closes the file and returns without reading them. *)
Definition parse_io_width (arg : string) (p : smbus_op_params) (size : Z)
  : prog (Z * smbus_op_params) :=
  let array := replicate SMBUS_DTYPE_SIZE Byte.x00 in
  let p := set_data array p in
  if size =? SMBUS_QUICK then
    let '(ldata, end_) := strtoul_end 0 arg in
    bad ← ismaxortrailingjunk arg end_ ldata;
    if negb (bad =? 0) then Ret (-1, p)
    else if negb (ldata =? 0) && negb (ldata =? 1) then
      eprintf (arg +:+ ": isn't 0 or 1" +:+ newline);;
      Ret (-1, p)
    else Ret (0, set_data (union_set 1 ldata array) p)
  else if (size =? SMBUS_SIZE_BYTE) || (size =? SMBUS_SIZE_8) then parse_fixed 1 arg p array
  else if (size =? SMBUS_SIZE_16) || (size =? SMBUS_PROC_CALL) then parse_fixed 2 arg p array
  else if size =? SMBUS_SIZE_32 then
    let '(ldata, end_) := strtoul_end 0 arg in
    bad ← istrailingjunk arg end_;
    if negb (bad =? 0) then Ret (-1, p)
    else Ret (0, set_data (union_set 4 ldata array) p)
  else if size =? SMBUS_SIZE_64 then
    let '(ldata, end_) := strtou 64 0 arg in
    bad ← istrailingjunk arg end_;
    if negb (bad =? 0) then Ret (-1, p)
    else Ret (0, set_data (union_set 8 ldata array) p)
  else if (size =? SMBUS_SIZE_BLOCK) || (size =? SMBUS_BLOCK_PROC_CALL) ||
          (size =? SMBUS_WRITE_READ) then
    r ← parse_block arg array;
    match r with
    | None => Ret (-1, p)
    | Some (array, n) => Ret (0, set_len n (set_data array p))
    end
  else
    eprintf (arg +:+ ": unknown operand size" +:+ newline);;
    Ret (-1, p).

(** ** Printing *)

Definition print_array_byte (data : list byte) (i : nat) : prog unit :=
  match data !! i with
  | Some b => printf (fmt_0X 2 (byte.unsigned b))
  | None => undef OutOfBounds
  end.

Definition print_read_data (size read_block_size : Z) (data : list byte) : prog unit :=
  if (size =? SMBUS_SIZE_BYTE) || (size =? SMBUS_SIZE_8)
  then printf ("0x" +:+ fmt_0X 2 (union_get 1 data) +:+ newline)
  else if size =? SMBUS_SIZE_16
  then printf ("0x" +:+ fmt_0X 4 (union_get 2 data) +:+ newline)
  else if size =? SMBUS_SIZE_32
  then printf ("0x" +:+ fmt_0X 8 (union_get 4 data) +:+ newline)
  else if size =? SMBUS_SIZE_64
  then printf ("0x" +:+ fmt_0X 16 (union_get 8 data) +:+ newline)
  else if size =? SMBUS_SIZE_BLOCK then
    let read_block_size :=
      if I2C_SMBUS_BLOCK_MAX <? read_block_size then I2C_SMBUS_BLOCK_MAX
      else read_block_size in
    for_each (print_array_byte data) (seq 0 (Z.to_nat read_block_size));;
    printf newline
  else Ret tt.

(** ** The common prologue *)

(** [info->privdata], used as a [struct smbus_op]. *)
Definition get_op (info : cmd_data) : prog smbus_op :=
  match privdata info with
  | PrivSmbus op => Ret op
  | PrivNull => undef NullPointer
  | _ => undef BadCast
  end.

Definition has_register (size : Z) : bool :=
  negb (size =? SMBUS_SIZE_BYTE) && negb (size =? SMBUS_QUICK) &&
  negb (size =? SMBUS_WRITE_READ).

Definition prologue_fails (message : string) (p : smbus_op_params) : prog (Z * smbus_op_params) :=
  eprintf (message +:+ newline);; Ret (-1, p).

Definition smbus_prologue (argv : list string) (p : smbus_op_params) (size : Z)
  : prog (Z * smbus_op_params) :=
  a1 ← argv_at argv 1;
  bus ← parse_uint8 a1;
  match bus with
  | None => prologue_fails "invalid adapter value" p
  | Some bus =>
      let p := set_i2c_bus bus p in
      a2 ← argv_at argv 2;
      addr ← parse_uint8 a2;
      match addr with
      | None => prologue_fails "invalid address value" p
      | Some addr =>
          let p := set_address addr p in
          with_reg ← (if has_register size then
                        a3 ← argv_at argv 3;
                        r ← parse_uint8 a3;
                        Ret match r with Some v => Some (set_reg v p) | None => None end
                      else Ret (Some p));
          match with_reg with
          | None => prologue_fails "invalid register value" p
          | Some p =>
              f ← open_i2c_slave bus addr;
              let p := set_fd f p in
              if f <? 0 then prologue_fails "can't open slave" p
              else Ret (0, p)
          end
      end
  end.

(** ** Reading *)

Definition smbus_read (argv : list string) (info : cmd_data) : prog Z :=
  op ← get_op info;
  pro ← smbus_prologue argv params_uninit (op_size op);
  let '(rc, params) := pro in
  if rc <? 0 then Ret (-1)
  else
    done_ ← perform_op op params (op_size op);
    let '(ret, params) := done_ in
    f ← defined (fd params);
    act (Close f);;
    Ret ret.

(** The transfer of [smbus_read_op]: [result] and [params->data], or [None]
    for an illegal size. *)
Definition read_transfer (p : smbus_op_params) (size : Z) (data : list byte)
  : prog (option (Z * list byte)) :=
  f ← defined (fd p);
  if size =? SMBUS_SIZE_8 then
    r ← defined (reg p);
    result ← i2c_smbus_read_byte_data f r;
    Ret (Some (result, union_set 1 result data))
  else if size =? SMBUS_SIZE_16 then
    r ← defined (reg p);
    result ← i2c_smbus_read_word_data f r;
    Ret (Some (result, union_set 2 result data))
  else if size =? SMBUS_SIZE_32 then
    r ← defined (reg p);
    res ← i2c_smbus_read_i2c_block_data f r 4 data;
    Ret (Some (if negb (res.1 =? 4) then -1 else res.1, res.2))
  else if size =? SMBUS_SIZE_64 then
    r ← defined (reg p);
    res ← i2c_smbus_read_i2c_block_data f r 8 data;
    Ret (Some (if negb (res.1 =? 8) then -1 else res.1, res.2))
  else if size =? SMBUS_SIZE_BLOCK then
    r ← defined (reg p);
    res ← i2c_smbus_read_block_data f r data;
    Ret (Some res)
  else if size =? SMBUS_SIZE_BYTE then
    result ← i2c_smbus_read_byte f;
    Ret (Some (result, union_set 1 result data))
  else Ret None.

(** [fprintf(stderr, "<what> 0x%02X, %s\n", <v>, strerror(errno))] *)
Definition report_at (what : string) (v : option Z) : prog unit :=
  v ← defined v;
  msg ← strerror_errno;
  eprintf (what +:+ " 0x" +:+ fmt_0X 2 v +:+ ", " +:+ msg +:+ newline).

Definition smbus_read_op (p : smbus_op_params) (size : Z) : prog (Z * smbus_op_params) :=
  let data := replicate SMBUS_DTYPE_SIZE Byte.x00 in
  let p := set_data data p in
  res ← read_transfer p size data;
  match res with
  | None =>
      eprintf ("Illegal SMBus size for read operation." +:+ newline);;
      Ret (-1, p)
  | Some (result, data) =>
      let p := set_data data p in
      if result <? 0 then
        (if negb (size =? SMBUS_SIZE_BYTE)
         then report_at "can't read register" (reg p)
         else report_at "can't read from device" (address p));;
        Ret (-1, p)
      else
        print_read_data size (wraps 32 result) data;;
        Ret (0, p)
  end.

(** ** Writing *)

Definition invalid_value (argv : list string) (arg : string) : prog unit :=
  a0 ← argv_at argv 0;
  eprintf (a0 +:+ ": " +:+ arg +:+ ": invalid value to write" +:+ newline).

(** What [smbus_write] and [smbus_process_call] do after the prologue. *)
Definition write_and_perform (argv : list string) (arg_num : nat) (op : smbus_op)
    (params : smbus_op_params) : prog Z :=
  arg ← argv_at argv arg_num;
  parsed ← parse_io_width arg params (op_size op);
  let '(rc, params) := parsed in
  if rc <? 0 then
    invalid_value argv arg;;
    f ← defined (fd params);
    act (Close f);;
    Ret (-1)
  else
    done_ ← perform_op op params (op_size op);
    let '(ret, params) := done_ in
    f ← defined (fd params);
    act (Close f);;
    Ret ret.

Definition smbus_write (argv : list string) (info : cmd_data) : prog Z :=
  op ← get_op info;
  pro ← smbus_prologue argv params_uninit (op_size op);
  let '(rc, params) := pro in
  if rc <? 0 then Ret (-1)
  else
    let arg_num :=
      if (op_size op =? SMBUS_SIZE_BYTE) || (op_size op =? SMBUS_QUICK) then 3%nat else 4%nat in
    write_and_perform argv arg_num op params.

(** The first step of the operations that write: whether it succeeded. *)
Definition force_slave (p : smbus_op_params) : prog bool :=
  f ← defined (fd p);
  addr ← defined (address p);
  r ← act (Ioctl f I2C_SLAVE_FORCE addr);
  if r <? 0 then report_at "can't set address" (address p);; Ret false
  else Ret true.

(** The transfer of [smbus_write_op]. *)
Definition write_transfer (p : smbus_op_params) (size : Z) : prog (option Z) :=
  f ← defined (fd p);
  data ← defined (data p);
  if size =? SMBUS_SIZE_8 then
    r ← defined (reg p);
    result ← i2c_smbus_write_byte_data f r (union_get 1 data); Ret (Some result)
  else if size =? SMBUS_SIZE_16 then
    r ← defined (reg p);
    result ← i2c_smbus_write_word_data f r (union_get 2 data); Ret (Some result)
  else if size =? SMBUS_SIZE_32 then
    r ← defined (reg p);
    result ← i2c_smbus_write_i2c_block_data f r 4 data; Ret (Some result)
  else if size =? SMBUS_SIZE_64 then
    r ← defined (reg p);
    result ← i2c_smbus_write_i2c_block_data f r 8 data; Ret (Some result)
  else if size =? SMBUS_SIZE_BLOCK then
    r ← defined (reg p);
    n ← defined (len p);
    result ← i2c_smbus_write_block_data f r n data; Ret (Some result)
  else if size =? SMBUS_SIZE_BYTE then
    result ← i2c_smbus_write_byte f (union_get 1 data); Ret (Some result)
  else if size =? SMBUS_QUICK then
    result ← i2c_smbus_write_quick f (union_get 1 data); Ret (Some result)
  else Ret None.

Definition smbus_write_op (p : smbus_op_params) (size : Z) : prog (Z * smbus_op_params) :=
  forced ← force_slave p;
  if negb forced then Ret (-1, p)
  else
    res ← write_transfer p size;
    match res with
    | None =>
        eprintf ("Illegal SMBus size for write operation." +:+ newline);;
        Ret (-1, p)
    | Some result =>
        if result <? 0 then
          (if negb (size =? SMBUS_SIZE_BYTE) && negb (size =? SMBUS_QUICK)
           then report_at "can't write register" (reg p)
           else report_at "can't write to device" (address p));;
          Ret (-1, p)
        else Ret (0, p)
    end.

(** ** Process calls *)

Definition smbus_process_call (argv : list string) (info : cmd_data) : prog Z :=
  op ← get_op info;
  pro ← smbus_prologue argv params_uninit (op_size op);
  let '(rc, params) := pro in
  if rc <? 0 then Ret (-1)
  else write_and_perform argv 4 op params.

(** [fprintf(stderr, "<what>: %s.\n", strerror(errno))] *)
Definition report_dot (what : string) : prog unit :=
  msg ← strerror_errno;
  eprintf (what +:+ ": " +:+ msg +:+ "." +:+ newline).

Definition smbus_process_call_op (p : smbus_op_params) (size : Z)
  : prog (Z * smbus_op_params) :=
  forced ← force_slave p;
  if negb forced then Ret (-1, p)
  else
    f ← defined (fd p);
    r ← defined (reg p);
    data ← defined (data p);
    result ← i2c_smbus_process_call f r (union_get 2 data);
    if result <? 0 then
      report_dot "SMBUS Process call failed";;
      Ret (-1, p)
    else
      print_read_data SMBUS_SIZE_16 0 data;;
      Ret (0, p).

Definition smbus_block_process_call_op (p : smbus_op_params) (size : Z)
  : prog (Z * smbus_op_params) :=
  forced ← force_slave p;
  if negb forced then Ret (-1, p)
  else
    f ← defined (fd p);
    r ← defined (reg p);
    n ← defined (len p);
    data ← defined (data p);
    res ← i2c_smbus_block_process_call f r n data;
    let p := set_data res.2 p in
    if res.1 <? 0 then
      report_dot "SMBUS Process call failed";;
      Ret (-1, p)
    else
      print_read_data SMBUS_SIZE_BLOCK res.1 res.2;;
      Ret (0, p).

(** ** Combined transfers *)

Definition smbus_writeread (argv : list string) (info : cmd_data) : prog Z :=
  op ← get_op info;
  pro ← smbus_prologue argv params_zero (op_size op);
  let '(rc, params) := pro in
  if rc <? 0 then Ret (-1)
  else
    a3 ← argv_at argv 3;
    parsed ← parse_io_width a3 params (op_size op);
    let '(rc, params) := parsed in
    if rc <? 0 then
      invalid_value argv a3;;
      f ← defined (fd params);
      act (Close f);;
      Ret (-1)
    else
      a4 ← argv_at argv 4;
      count ← parse_uint8 a4;
      match count with
      | None =>
          eprintf ("invalid read count " +:+ a4 +:+ "." +:+ newline);;
          Ret (-1)
      | Some count =>
          let params := set_read_count count params in
          if I2C_SMBUS_BLOCK_MAX <? count then
            eprintf ("read count " +:+ a3 +:+ " > " +:+ fmt_d I2C_SMBUS_BLOCK_MAX +:+ "." +:+ newline);;
            Ret (-1)
          else
            done_ ← perform_op op params (op_size op);
            let '(ret, params) := done_ in
            f ← defined (fd params);
            act (Close f);;
            Ret ret
      end.

(** Both messages use the same buffer. *)
Definition smbus_writeread_op (p : smbus_op_params) (size : Z) : prog (Z * smbus_op_params) :=
  f ← defined (fd p);
  addr ← defined (address p);
  n ← defined (len p);
  count ← defined (read_count p);
  buf ← defined (data p);
  let msgs := [{| msg_addr := wrapu 16 addr; msg_flags := 0; msg_len := wraps 16 n |};
               {| msg_addr := wrapu 16 addr; msg_flags := I2C_M_RD; msg_len := wraps 16 count |}] in
  res ← act (I2cRdwr f msgs buf);
  let p := set_data res.2 p in
  if res.1 <? 0 then
    report "I2C_RDWR failed";;
    Ret (-1, p)
  else
    print_read_data SMBUS_SIZE_BLOCK count res.2;;
    Ret (0, p).

(** ** Tables *)

Definition smbus_read_params := make_prereq_params_fixed_args 4 "<adapter> <address> <register>" 0.
Definition smbus_write_params :=
  make_prereq_params_fixed_args 5 "<adapter> <address> <register> <value>" 0.
Definition smbus_receive_byte_params := make_prereq_params_fixed_args 3 "<adapter> <address>" 0.
Definition smbus_send_byte_params :=
  make_prereq_params_fixed_args 4 "<adapter> <address> <value>" 0.
Definition smbus_quick_params := make_prereq_params_fixed_args 4 "<adapter> <address> <0|1>" 0.
Definition smbus_writeread_params :=
  make_prereq_params_fixed_args 5 "<adapter> <address> <write_value> <read_count>" 0.

Definition make_smbus_op (size : Z) fn : smbus_op := {| op_size := size; perform_op := fn |}.

Definition smbus_op_8_r := make_smbus_op SMBUS_SIZE_8 smbus_read_op.
Definition smbus_op_8_w := make_smbus_op SMBUS_SIZE_8 smbus_write_op.
Definition smbus_op_16_r := make_smbus_op SMBUS_SIZE_16 smbus_read_op.
Definition smbus_op_16_w := make_smbus_op SMBUS_SIZE_16 smbus_write_op.
Definition smbus_op_32_r := make_smbus_op SMBUS_SIZE_32 smbus_read_op.
Definition smbus_op_32_w := make_smbus_op SMBUS_SIZE_32 smbus_write_op.
Definition smbus_op_64_r := make_smbus_op SMBUS_SIZE_64 smbus_read_op.
Definition smbus_op_64_w := make_smbus_op SMBUS_SIZE_64 smbus_write_op.
Definition smbus_op_block_r := make_smbus_op SMBUS_SIZE_BLOCK smbus_read_op.
Definition smbus_op_block_w := make_smbus_op SMBUS_SIZE_BLOCK smbus_write_op.
Definition smbus_op_byte_r := make_smbus_op SMBUS_SIZE_BYTE smbus_read_op.
Definition smbus_op_byte_w := make_smbus_op SMBUS_SIZE_BYTE smbus_write_op.
Definition smbus_op_quick := make_smbus_op SMBUS_QUICK smbus_write_op.
Definition smbus_op_proc_call := make_smbus_op SMBUS_PROC_CALL smbus_process_call_op.
Definition smbus_op_block_proc_call :=
  make_smbus_op SMBUS_BLOCK_PROC_CALL smbus_block_process_call_op.
Definition smbus_op_writeread := make_smbus_op SMBUS_WRITE_READ smbus_writeread_op.

Definition smbus_cmd (n : string) e (op : smbus_op) (p : prereq_params) : cmd_info :=
  make_cmd_with_params n e (PrivSmbus op) p.

Definition smbus_cmds : list cmd_info := [
  smbus_cmd "smbus_read8" smbus_read smbus_op_8_r smbus_read_params;
  smbus_cmd "smbus_write8" smbus_write smbus_op_8_w smbus_write_params;
  smbus_cmd "smbus_read16" smbus_read smbus_op_16_r smbus_read_params;
  smbus_cmd "smbus_write16" smbus_write smbus_op_16_w smbus_write_params;
  smbus_cmd "smbus_read32" smbus_read smbus_op_32_r smbus_read_params;
  smbus_cmd "smbus_write32" smbus_write smbus_op_32_w smbus_write_params;
  smbus_cmd "smbus_read64" smbus_read smbus_op_64_r smbus_read_params;
  smbus_cmd "smbus_write64" smbus_write smbus_op_64_w smbus_write_params;
  smbus_cmd "smbus_readblock" smbus_read smbus_op_block_r smbus_read_params;
  smbus_cmd "smbus_writeblock" smbus_write smbus_op_block_w smbus_write_params;
  smbus_cmd "smbus_receive_byte" smbus_read smbus_op_byte_r smbus_receive_byte_params;
  smbus_cmd "smbus_send_byte" smbus_write smbus_op_byte_w smbus_send_byte_params;
  smbus_cmd "smbus_quick" smbus_write smbus_op_quick smbus_quick_params;
  smbus_cmd "smbus_process_call" smbus_process_call smbus_op_proc_call smbus_write_params;
  smbus_cmd "smbus_block_process_call" smbus_process_call smbus_op_block_proc_call
    smbus_write_params;
  smbus_cmd "smbus_writeread" smbus_writeread smbus_op_writeread smbus_writeread_params
].
Definition SMBus_group : cmd_group :=
  {| grp_name := "SMBus"; description := Some "commands to access the system management bus";
     commands := smbus_cmds |}.
End Smbus.
