(* ===== verification/SmbusParse.v ===== *)
(** * SMBus arguments and printed blocks

    What the argument parsers of [smbus_rw.c] accept, what its printer shows,
    and that a printed block is read back unchanged. *)

From S2P Require Import Prelude CLib Platform Sys SmbusTypes Commands DevFile I2cDev SmbusRw.
Local Open Scope Z_scope.

Section Parse.
Context {P : Platform}.

(** ** What the parsers accept *)

(** The number a whole argument stands for, if it fits a byte. *)
Definition uint8_value (base : Z) (arg : string) : option Z :=
  let '(v, rest) := strtoul_end base arg in
  if String.eqb rest "" && (v <=? 0xff) then Some v else None.

Lemma long_max_large v : v <= 0xff -> (v =? LONG_MAX) = false.
Proof.
  intros. apply Z.eqb_neq. unfold LONG_MAX. destruct long_bits_cases as [-> | ->]; plia.
Qed.

Lemma uint8_value_range base arg v :
  0 <= base -> uint8_value base arg = Some v -> 0 <= v < 256.
Proof.
  intros Hb. unfold uint8_value, strtoul_end.
  assert (0 <= long_bits) as Hl by (destruct long_bits_cases; lia).
  pose proof (strtou_range long_bits base arg Hl Hb) as Hr.
  destruct (strtou long_bits base arg) as [u rest]. cbn [fst] in Hr.
  destruct (String.eqb rest ""), (Z.leb_spec u 0xff); cbn [andb]; intros; simplify_eq. lia.
Qed.

(** A run that only complains. *)
Definition quiet (t : trace) : Prop := device_events t = [] /\ output_of Stdout t = "".

Lemma parse_uint8_ok base arg v :
  0 <= base -> uint8_value base arg = Some v -> parse_uint8_base arg base = Ret (Some v).
Proof.
  intros Hb Hv. pose proof (uint8_value_range _ _ _ Hb Hv) as Hr. revert Hv.
  unfold uint8_value, parse_uint8_base.
  destruct (strtoul_end base arg) as [u rest]. destruct (String.eqb_spec rest "") as [->|];
    [|done]. cbn [andb]. destruct (Z.leb_spec u 0xff) as [Hu|]; [|done]. intros [= ->].
  unfold ismaxortrailingjunk, istrailingjunk. rewrite long_max_large by done.
  cbn [mbind prog_mbind prog_bind negb Z.eqb]. destruct (Z.ltb_spec 0xff v); [lia|].
  rewrite wrapu_small by plia. done.
Qed.

(** [parse_uint8] accepts exactly the arguments that [strtoul] converts to
    their end to a value below 256; otherwise it complains and fails. *)
Theorem parse_uint8_spec base arg t o :
  0 <= base -> exec (parse_uint8_base arg base) t o ->
  o = Returned (uint8_value base arg) /\ quiet t /\
  (uint8_value base arg = None <-> t <> []).
Proof.
  intros Hb H. destruct (uint8_value base arg) as [v|] eqn:Hv.
  - rewrite (parse_uint8_ok _ _ _ Hb Hv) in H. apply exec_ret_iff in H as [-> ->].
    repeat split; done.
  - revert H Hv. unfold uint8_value, parse_uint8_base, ismaxortrailingjunk, istrailingjunk.
    destruct (strtoul_end base arg) as [u [|c rest]] eqn:E; cbn [String.eqb andb]; intros H Hv.
    + destruct (Z.leb_spec u 0xff); [done|]. destruct (u =? LONG_MAX); [exec_run H; done|].
      cbn [mbind prog_mbind prog_bind negb Z.eqb] in H. destruct (Z.ltb_spec 0xff u); [|lia].
      exec_run H; done.
    + destruct (u =? LONG_MAX); exec_run H; done.
Qed.

Lemma parse_uint8_wp st base arg t (Q : option Z -> trace -> Prop) :
  0 <= base -> (forall t', live t' = live t -> Q (uint8_value base arg) t') ->
  wp (safely st) (parse_uint8_base arg base) t Q.
Proof.
  intros Hb HQ. destruct (uint8_value base arg) as [v|] eqn:Hv.
  - rewrite (parse_uint8_ok _ _ _ Hb Hv). by apply HQ.
  - revert Hv. unfold uint8_value, parse_uint8_base, ismaxortrailingjunk, istrailingjunk.
    destruct (strtoul_end base arg) as [u [|c rest]] eqn:E; cbn [String.eqb andb]; intros Hv.
    + destruct (Z.leb_spec u 0xff); [done|]. destruct (u =? LONG_MAX).
      * wp_run; apply HQ; live_solve.
      * cbn [mbind prog_mbind prog_bind negb Z.eqb]. destruct (Z.ltb_spec 0xff u); [|lia].
        wp_run; apply HQ; live_solve.
    + destruct (u =? LONG_MAX); wp_run; apply HQ; live_solve.
Qed.

(** ** Blocks of data as text *)

Fixpoint hex_text (bs : list byte) : string :=
  match bs with
  | [] => ""
  | b :: bs' => fmt_0X 2 (byte.unsigned b) +:+ hex_text bs'
  end.

(** The two digits of a byte. *)
Lemma byte_text b :
  exists c0 c1, fmt_0X 2 (byte.unsigned b) = String c0 (String c1 "") /\
  scan_int 16 (String c0 (String c1 "")) = Some (false, byte.unsigned b, "") /\
  c1 <> "x"%char /\ c1 <> "X"%char.
Proof.
  destruct b; do 2 eexists; (split; [vm_compute; reflexivity|]);
    (split; [vm_compute; reflexivity|split; congruence]).
Qed.

Lemma parse_byte_text b c0 c1 :
  fmt_0X 2 (byte.unsigned b) = String c0 (String c1 "") ->
  parse_uint8_hex (String c0 (String c1 "")) = Ret (Some (byte.unsigned b)).
Proof.
  intros E. destruct (byte_text b) as (d0 & d1 & E' & Hs & _). rewrite E' in E.
  injection E as -> ->. apply parse_uint8_ok; [lia|]. unfold uint8_value, strtoul_end.
  pose proof (byte.unsigned_range b).
  rewrite (scan_int_strtou _ _ _ _ _ Hs) by (destruct long_bits_cases as [-> | ->]; plia).
  cbn [String.eqb andb]. destruct (Z.leb_spec (byte.unsigned b) 0xff); [done|lia].
Qed.

Lemma parse_nibbles_text bs done_ rest :
  (length bs <= length rest)%nat ->
  parse_nibbles (hex_text bs) (length done_) (done_ ++ rest) =
  Ret (Some (done_ ++ bs ++ drop (length bs) rest)).
Proof.
  revert done_ rest. induction bs as [|b bs IH]; intros done_ rest Hlen; [done|].
  destruct rest as [|x rest]; [cbn in Hlen; lia|]. cbn [length] in Hlen.
  destruct (byte_text b) as (c0 & c1 & E & _). cbn [hex_text]. rewrite E, !str_app_cons.
  cbn [parse_nibbles]. rewrite str_app_nil_l, (parse_byte_text _ _ _ E).
  cbn [mbind prog_mbind prog_bind].
  destruct (Nat.ltb_spec (length done_) (length (done_ ++ x :: rest)));
    [|rewrite length_app in *; cbn [length] in *; lia].
  rewrite insert_app_r_alt, Nat.sub_diag by lia. cbn [insert list_insert].
  rewrite byte.of_Z_unsigned. change (done_ ++ b :: rest) with (done_ ++ [b] ++ rest).
  rewrite app_assoc. replace (S (length done_)) with (length (done_ ++ [b]))
    by (rewrite length_app; cbn; lia).
  rewrite IH by lia. by rewrite <- app_assoc.
Qed.

Lemma hex_text_length bs : String.length (hex_text bs) = (2 * length bs)%nat.
Proof.
  induction bs as [|b bs IH]; [done|]. cbn [hex_text].
  destruct (byte_text b) as (c0 & c1 & -> & _). rewrite str_length_app, IH. cbn. lia.
Qed.

Lemma hex_source_text bs : bs <> [] -> forall len, hex_source (hex_text bs) len = (hex_text bs, len).
Proof.
  destruct bs as [|b bs]; [done|]. intros _ len. cbn [hex_text].
  destruct (byte_text b) as (c0 & c1 & -> & _ & Hx & HX). rewrite !str_app_cons.
  unfold hex_source. destruct c0 as [[] [] [] [] [] [] [] []]; try done.
  by destruct c1 as [[] [] [] [] [] [] [] []].
Qed.

(** The text of a block, with or without a prefix, parses to its bytes. *)
Lemma parse_block_text bs array arg :
  arg = hex_text bs \/ arg = "0x" +:+ hex_text bs ->
  bs <> [] -> (length bs <= 32)%nat -> (32 <= length array)%nat ->
  parse_block arg array = Ret (Some (bs ++ drop (length bs) array, Z.of_nat (length bs))).
Proof.
  intros Harg Hne Hlen Harr. destruct bs as [|b0 bs0] eqn:Ebs; [done|]. rewrite <- Ebs in *.
  assert (exists k, String.length arg = (2 * k)%nat /\ (0 < k <= 33)%nat /\
          hex_source arg (Z.of_nat (2 * k)) = (hex_text bs, Z.of_nat (2 * length bs)))
    as (k & Hk & Hk0 & Hsrc).
  { destruct Harg as [-> | ->].
    - exists (length bs). rewrite hex_text_length, hex_source_text by by rewrite Ebs.
      rewrite Ebs. cbn [length] in *. split; [done|]. split; [rewrite Ebs in Hlen; cbn in Hlen; lia|done].
    - exists (S (length bs)). rewrite !str_app_cons, str_app_nil_l.
      cbn [String.length]. rewrite hex_text_length. split; [lia|]. split; [lia|].
      cbn [hex_source]. f_equal. lia. }
  unfold parse_block. rewrite Hk, wraps_small, Hsrc by plia.
  destruct (Z.leb_spec (Z.of_nat (2 * k)) 0); [lia|].
  replace (Z.rem (Z.of_nat (2 * k)) 2) with 0
    by (rewrite Nat2Z.inj_mul, Z.mul_comm; symmetry; apply Z.rem_mul; lia).
  cbn [orb negb Z.eqb].
  replace (Z.quot (Z.of_nat (2 * length bs)) 2) with (Z.of_nat (length bs))
    by (rewrite Nat2Z.inj_mul, Z.mul_comm, Z.quot_mul by lia; done).
  unfold I2C_SMBUS_BLOCK_MAX. destruct (Z.ltb_spec 32 (Z.of_nat (length bs))); [lia|].
  pose proof (parse_nibbles_text bs [] array ltac:(lia)) as Hp. cbn [length app] in Hp.
  by rewrite Hp.
Qed.

(** The loop trusts the check of the length: digits for more bytes than are
    left in the array are written past its end. *)
Lemma parse_nibbles_overruns bs dest array :
  (dest <= length array < dest + length bs)%nat ->
  parse_nibbles (hex_text bs) dest array = undef OutOfBounds.
Proof.
  revert dest array. induction bs as [|b bs IH]; intros dest array H; cbn [length] in H; [lia|].
  destruct (byte_text b) as (c0 & c1 & E & _). cbn [hex_text]. rewrite E, !str_app_cons.
  cbn [parse_nibbles]. rewrite str_app_nil_l, (parse_byte_text _ _ _ E).
  cbn [mbind prog_mbind prog_bind].
  destruct (Nat.ltb_spec dest (length array)); [|done].
  apply IH. rewrite length_insert. lia.
Qed.

(** And the check is of an [int]: it is passed by the digits of 2^31 + 1 bytes,
    whose length wraps to 2. *)
Theorem parse_block_overruns bs array :
  0 < wraps 32 (2 * Z.of_nat (length bs)) <= 64 -> (length array < length bs)%nat ->
  parse_block (hex_text bs) array = undef OutOfBounds.
Proof.
  intros Hw Hlen. assert (bs <> []) as Hne by (intros ->; cbn in Hlen; lia).
  unfold parse_block. rewrite hex_text_length, Nat2Z.inj_mul. change (Z.of_nat 2) with 2.
  assert (exists k, wraps 32 (2 * Z.of_nat (length bs)) = k * 2) as [k Hk].
  { exists (wraps 31 (Z.of_nat (length bs))). unfold wraps. dlia. }
  rewrite hex_source_text, Hk by done. rewrite Z.rem_mul, Z.quot_mul by lia.
  destruct (Z.leb_spec (k * 2) 0); [lia|]. cbn [orb negb Z.eqb].
  unfold I2C_SMBUS_BLOCK_MAX. destruct (Z.ltb_spec 32 k); [lia|].
  by rewrite parse_nibbles_overruns by lia.
Qed.

Lemma exec_print_bytes data n k t o :
  (k + n <= length data)%nat ->
  exec (for_each (print_array_byte data) (seq k n)) t o ->
  o = Returned tt /\ device_events t = [] /\
  output_of Stdout t = hex_text (take n (drop k data)).
Proof.
  revert k t o. induction n as [|n IH]; intros k t o Hk H; cbn [seq for_each] in H.
  - apply exec_ret_iff in H as [-> ->]. done.
  - destruct (lookup_lt_is_Some_2 data k ltac:(lia)) as [b Hb].
    apply (exec_bind_inv (print_array_byte data k)) in H as [(u & t1 & t2 & H1 & H2 & ->)|(s & H1 & _)];
      unfold print_array_byte in H1; rewrite Hb in H1; exec_run H1.
    apply IH in H2 as (-> & Hd & Ho); [|lia].
    rewrite (drop_S data b k) by done. cbn [app device_events List.filter is_device ev_act].
    repeat split; [exact Hd|]. cbn [output_of take hex_text]. by rewrite Ho.
Qed.

Lemma exec_print_block n data t o :
  0 <= n <= 32 -> (32 <= length data)%nat ->
  exec (print_read_data SMBUS_SIZE_BLOCK n data) t o ->
  o = Returned tt /\ device_events t = [] /\
  output_of Stdout t = hex_text (take (Z.to_nat n) data) +:+ newline.
Proof.
  intros Hn Hlen H. unfold print_read_data in H.
  cbn -[for_each seq Z.to_nat Z.ltb printf] in H.
  unfold I2C_SMBUS_BLOCK_MAX in H. destruct (Z.ltb_spec 32 n); [lia|].
  apply (exec_bind_inv (for_each _ _)) in H as [(u & t1 & t2 & H1 & H2 & ->)|(s & H1 & _)];
    apply exec_print_bytes in H1 as (? & Hd & Ho); try lia; [|done].
  exec_run H2. rewrite output_of_app, Ho, drop_0. out_norm. repeat split.
  unfold device_events in *. by rewrite List.filter_app, Hd.
Qed.

(** C12: a block read prints the digits of its bytes, and this text, with or
    without ["0x"] before it, is accepted as the value of a block write and
    gives back the same bytes, the rest of the buffer zero. *)
Theorem smbus_block_roundtrip n data t o p :
  1 <= n <= 32 -> (32 <= length data)%nat ->
  exec (print_read_data SMBUS_SIZE_BLOCK n data) t o ->
  let text := hex_text (take (Z.to_nat n) data) in
  output_of Stdout t = text +:+ newline /\
  forall arg, arg = text \/ arg = "0x" +:+ text ->
    parse_io_width arg p SMBUS_SIZE_BLOCK =
    Ret (0, set_len n (set_data (take (Z.to_nat n) data ++
                                 replicate (34 - Z.to_nat n) Byte.x00) p)).
Proof.
  intros Hn Hlen H. apply exec_print_block in H as (_ & _ & ->); [|lia|done].
  split; [done|]. intros arg Harg.
  assert (length (take (Z.to_nat n) data) = Z.to_nat n) as Hl by (rewrite length_take; lia).
  pose proof (parse_block_text (take (Z.to_nat n) data) (replicate SMBUS_DTYPE_SIZE Byte.x00)
    arg Harg) as Hp.
  rewrite Hl, drop_replicate in Hp. unfold parse_io_width.
  cbn -[parse_block replicate Z.to_nat Nat.sub].
  change (replicate 34 Byte.x00) with (replicate SMBUS_DTYPE_SIZE Byte.x00) in *.
  rewrite Hp; [|intros E; rewrite E in Hl; cbn in Hl; lia|lia|rewrite length_replicate; unfold SMBUS_DTYPE_SIZE; lia].
  cbn [mbind prog_mbind prog_bind]. rewrite Z2Nat.id by lia. done.
Qed.
End Parse.

(** ** Witnesses *)

#[local] Existing Instance linux_x86_64.

Example smbus_block_roundtrip_witness :
  exists t, exec (print_read_data SMBUS_SIZE_BLOCK 2 (replicate 34 Byte.x2a)) t (Returned tt) /\
  output_of Stdout t = "2A2A" +:+ newline /\
  parse_io_width "0x2A2A" params_uninit SMBUS_SIZE_BLOCK =
  Ret (0, set_len 2 (set_data ([Byte.x2a; Byte.x2a] ++ replicate 32 Byte.x00) params_uninit)).
Proof.
  run_env Byte.x00 (print_read_data SMBUS_SIZE_BLOCK 2 (replicate 34 Byte.x2a)).
  split; [exact Hrun|].
  assert (32 <= length (replicate 34 Byte.x2a))%nat as Hlen by (rewrite length_replicate; lia).
  destruct (smbus_block_roundtrip 2 (replicate 34 Byte.x2a) _ _ params_uninit ltac:(lia)
    Hlen Hrun) as (Ht & Hp).
  split; [exact Ht|]. exact (Hp _ (or_intror eq_refl)).
Defined.
