(* ===== verification/SmbusSafe.v ===== *)
(** * Safety of the SMBus commands

    Every handler of [smbus_rw.c] only touches the slave's file, stays inside
    its buffers and never reads an indeterminate parameter.  The handlers are
    verified against the interface [SafeOp] of the operations their tables
    point to, and each operation is an instance of it. *)

From S2P Require Import Prelude CLib Platform Sys SmbusTypes Commands DevFile I2cDev SmbusRw SmbusParse.
Local Open Scope Z_scope.

Section Safe.
Context {P : Platform}.

(** ** Helpers *)

Lemma argv_at_some argv i a : argv !! i = Some a -> argv_at argv i = Ret a.
Proof. unfold argv_at. by intros ->. Qed.

Lemma argv_at_ok argv i : (i < length argv)%nat -> exists a, argv_at argv i = Ret a.
Proof.
  intros H. destruct (lookup_lt_is_Some_2 argv i H) as [a Ha]. exists a. by apply argv_at_some.
Qed.

(** What is held once the slave's file [f] is open. *)
Definition holds_fd (f : Z) (t0 t : trace) : Prop :=
  RFd f ∉ live t0 /\ live t = {[RFd f]} ∪ live t0.

Lemma holds_fd_in f t0 t : holds_fd f t0 t -> RFd f ∈ live t.
Proof. intros [_ ->]. set_solver. Qed.

Lemma holds_fd_live f t0 t t' : live t' = live t -> holds_fd f t0 t -> holds_fd f t0 t'.
Proof. intros E [H1 H2]. split; [done|]. by rewrite E. Qed.

Lemma devfile_fits bus :
  0 <= bus < 256 -> Nat.leb 15 (String.length ("/dev/i2c-" +:+ fmt_d bus)) = false.
Proof.
  intros Hb. apply Nat.leb_gt. rewrite str_length_app. unfold fmt_d, fmt_u.
  destruct (Z.ltb_spec bus 0); [lia|]. rewrite digits_str_length. unfold digits.
  pose proof (digits_aux_length 10 3 (S (Z.to_nat (Z.log2 bus))) bus [] ltac:(lia) ltac:(lia)
    ltac:(lia)) as H'. cbn [length] in H'. cbn [String.length]. lia.
Qed.

Lemma open_i2c_slave_wp st bus addr t (Q : Z -> trace -> Prop) :
  0 <= bus < 256 ->
  (forall t', live t' = live t -> Q (-1) t') ->
  (forall f t', 0 <= f -> holds_fd f t t' -> Q f t') ->
  wp (safely st) (open_i2c_slave bus addr) t Q.
Proof.
  intros Hb Hfail Hok. unfold open_i2c_slave. rewrite devfile_fits by done.
  wp_run; try live_solve; try (apply Hfail; live_solve).
  apply Hok; [by apply Z.ltb_ge|]. split; [fresh_handles; done|live_solve].
Qed.

(** The parameters after the prologue. *)
Definition ready (size f : Z) (p : smbus_op_params) : Prop :=
  fd p = Some f /\ (exists a, address p = Some a) /\
  (has_register size = true -> exists r, reg p = Some r).

Definition prologue_args (size : Z) : nat := if has_register size then 4 else 3.

Lemma prologue_fails_wp st msg p t (Q : Z * smbus_op_params -> trace -> Prop) :
  (forall p' t', live t' = live t -> Q (-1, p') t') ->
  wp (safely st) (prologue_fails msg p) t Q.
Proof. intros HQ. unfold prologue_fails. wp_run. apply HQ. live_solve. Qed.

Lemma smbus_prologue_wp st argv p size t (Q : Z * smbus_op_params -> trace -> Prop) :
  (prologue_args size <= length argv)%nat ->
  (forall p' t', live t' = live t -> Q (-1, p') t') ->
  (forall f p' t', ready size f p' -> len p' = len p -> read_count p' = read_count p ->
     holds_fd f t t' -> Q (0, p') t') ->
  wp (safely st) (smbus_prologue argv p size) t Q.
Proof.
  intros Hargs Hfail Hok. unfold prologue_args in Hargs.
  assert (3 <= length argv)%nat by (destruct (has_register size); lia).
  unfold smbus_prologue.
  destruct (argv_at_ok argv 1 ltac:(lia)) as [a1 ->], (argv_at_ok argv 2 ltac:(lia)) as [a2 ->].
  cbn [mbind prog_mbind prog_bind]. apply wp_bind, parse_uint8_wp; [lia|]. intros t1 E1.
  destruct (uint8_value 0 a1) as [bus|] eqn:Hbus; [|by apply prologue_fails_wp; intros; apply Hfail; congruence].
  cbn [mbind prog_mbind prog_bind]. apply wp_bind, parse_uint8_wp; [lia|]. intros t2 E2.
  destruct (uint8_value 0 a2) as [addr|] eqn:Haddr;
    [|by apply prologue_fails_wp; intros; apply Hfail; congruence].
  apply wp_bind. eapply (wp_mono _ _ _ (fun r t' => live t' = live t /\
    match r with
    | None => True
    | Some p' => exists r, p' = (if has_register size then set_reg r else id)
                                 (set_address addr (set_i2c_bus bus p)) end)).
  - intros r t3 [E3 Hr].
    destruct r as [p'|]; [|by apply prologue_fails_wp; intros; apply Hfail; congruence].
    apply wp_bind, open_i2c_slave_wp; [by apply (uint8_value_range 0 a1)|..].
    + intros t4 E4. apply prologue_fails_wp. intros; apply Hfail; congruence.
    + intros f t4 Hf Hh. destruct (Z.ltb_spec f 0); [lia|]. destruct Hr as [r ->].
      apply (Hok f); [|destruct (has_register size); reflexivity..|].
      * unfold ready. destruct (has_register size); cbn; naive_solver.
      * destruct Hh as [H1 H2]. rewrite E3 in *. by split.
  - destruct (has_register size).
    + destruct (argv_at_ok argv 3 ltac:(lia)) as [a3 ->]. cbn [mbind prog_mbind prog_bind].
      apply wp_bind, parse_uint8_wp; [lia|]. intros t3 E3.
      destruct (uint8_value 0 a3) as [v|]; cbn; (split; [congruence|eauto]).
    + cbn. split; [congruence|]. by exists 0.
Qed.

Lemma parse_nibbles_wp st k src dest array t (Q : option (list byte) -> trace -> Prop) :
  String.length src = (2 * k)%nat -> (dest + k <= length array)%nat ->
  (forall t', live t' = live t -> Q None t') ->
  (forall array' t', length array' = length array -> live t' = live t -> Q (Some array') t') ->
  wp (safely st) (parse_nibbles src dest array) t Q.
Proof.
  revert src dest array t. induction k as [|k IH]; intros src dest array t Hlen Hdest Hno Hyes.
  - destruct src; [|done]. by apply Hyes.
  - destruct src as [|c0 [|c1 src]]; cbn [String.length] in Hlen; [lia..|]. cbn [parse_nibbles].
    apply wp_bind, parse_uint8_wp; [lia|]. intros t1 E1.
    destruct (uint8_value 16 _) as [v|]; [|by apply Hno].
    destruct (Nat.ltb_spec dest (length array)); [|lia].
    apply IH; rewrite ?length_insert; try lia; intros; [apply Hno|apply Hyes]; congruence.
Qed.

(** Without its prefix a text of even length still has even length. *)
Lemma hex_source_even arg k :
  String.length arg = (2 * k)%nat -> (0 < k)%nat ->
  exists src k', hex_source arg (Z.of_nat (2 * k)) = (src, Z.of_nat (2 * k')) /\
                 String.length src = (2 * k')%nat.
Proof.
  intros Hk Hpos.
  assert (hex_source arg (Z.of_nat (2 * k)) = (arg, Z.of_nat (2 * k)) \/
          exists src, hex_source arg (Z.of_nat (2 * k)) = (src, Z.of_nat (2 * k) - 2) /\
                      S (S (String.length src)) = String.length arg) as [-> | (src & -> & E)].
  { unfold hex_source. repeat (case_match; try (by left)); right; by eexists. }
  - by exists arg, k.
  - exists src, (k - 1)%nat. split; [f_equal|]; lia.
Qed.

Lemma parse_block_wp st arg array t (Q : option (list byte * Z) -> trace -> Prop) :
  Z.of_nat (String.length arg) <= INT_MAX -> (32 <= length array)%nat ->
  (forall t', live t' = live t -> Q None t') ->
  (forall array' n t', length array' = length array -> 0 <= n <= 32 -> live t' = live t ->
     Q (Some (array', n)) t') ->
  wp (safely st) (parse_block arg array) t Q.
Proof.
  intros Hfit Harr Hno Hyes. unfold parse_block.
  rewrite wraps_small by (unfold INT_MAX in Hfit; plia).
  destruct ((Z.of_nat (String.length arg) <=? 0) || _) eqn:E; [wp_run; apply Hno; live_solve|].
  apply orb_false_elim in E as [Hpos E]. apply negb_false_iff, Z.eqb_eq in E. apply Z.leb_gt in Hpos.
  assert (exists k, String.length arg = (2 * k)%nat) as [k Hk].
  { rewrite Z.rem_mod_nonneg in E by lia. exists (Z.to_nat (Z.of_nat (String.length arg) / 2)). dlia. }
  destruct (hex_source_even arg k Hk) as (src & k' & Hsrc & Hk'); [lia|].
  rewrite Hk, Hsrc. replace (Z.quot (Z.of_nat (2 * k')) 2) with (Z.of_nat k')
    by (rewrite Nat2Z.inj_mul, Z.mul_comm, Z.quot_mul by lia; done).
  unfold I2C_SMBUS_BLOCK_MAX. destruct (Z.ltb_spec 32 (Z.of_nat k')); [wp_run; apply Hno; live_solve|].
  apply wp_bind, (parse_nibbles_wp _ k'); [done|lia|..].
  - intros t1 E1. by apply Hno.
  - intros array' t1 Hlen E1. apply Hyes; try done. lia.
Qed.

(** The fields the parser leaves alone. *)
Definition same_target (p p' : smbus_op_params) : Prop :=
  fd p' = fd p /\ address p' = address p /\ reg p' = reg p /\ read_count p' = read_count p.

Definition is_block (size : Z) : bool :=
  (size =? SMBUS_SIZE_BLOCK) || (size =? SMBUS_BLOCK_PROC_CALL) || (size =? SMBUS_WRITE_READ).

(** The data after a successful parse. *)
Definition filled (size : Z) (p : smbus_op_params) : Prop :=
  (exists d, data p = Some d /\ length d = SMBUS_DTYPE_SIZE) /\
  (is_block size = true -> exists n, len p = Some n /\ 0 <= n <= 32).

Lemma filled_union size n v p :
  (n <= 34)%nat -> is_block size = false ->
  filled size (set_data (union_set n v (replicate SMBUS_DTYPE_SIZE Byte.x00)) p).
Proof.
  intros Hn Hb. split; [|by rewrite Hb]. eexists; split; [reflexivity|].
  by rewrite length_union_set by (rewrite length_replicate; exact Hn).
Qed.

Lemma istrailingjunk_wp st arg end_ t (Q : Z -> trace -> Prop) :
  (forall rc t', live t' = live t -> Q rc t') -> wp (safely st) (istrailingjunk arg end_) t Q.
Proof. intros HQ. unfold istrailingjunk. destruct end_; wp_run; apply HQ; live_solve. Qed.

Lemma ismaxortrailingjunk_wp st arg end_ v t (Q : Z -> trace -> Prop) :
  (forall rc t', live t' = live t -> Q rc t') ->
  wp (safely st) (ismaxortrailingjunk arg end_ v) t Q.
Proof.
  intros HQ. unfold ismaxortrailingjunk.
  destruct (v =? LONG_MAX); [wp_run; apply HQ; live_solve|by apply istrailingjunk_wp].
Qed.

(** The outcomes of [parse_io_width] that its callers tell apart. *)
Definition parsed_post (size : Z) (p : smbus_op_params) (t : trace)
    (r : Z * smbus_op_params) (t' : trace) : Prop :=
  live t' = live t /\ same_target p r.2 /\
  (r.1 = -1 \/ (r.1 = 0 /\ filled size r.2)).

Lemma parse_fixed_wp st n size arg p t :
  (n <= 34)%nat -> is_block size = false ->
  let array := replicate SMBUS_DTYPE_SIZE Byte.x00 in
  wp (safely st) (parse_fixed n arg (set_data array p) array) t (parsed_post size p t).
Proof.
  intros Hn Hb array. unfold parse_fixed. destruct (strtoul_end 0 arg) as [v rest].
  apply wp_bind, ismaxortrailingjunk_wp. intros rc t' E.
  destruct (negb (rc =? 0)); repeat split; try done; [by left|].
  right. split; [done|]. by apply filled_union.
Qed.

Lemma parse_io_width_wp st arg p size t :
  Z.of_nat (String.length arg) <= INT_MAX ->
  wp (safely st) (parse_io_width arg p size) t (parsed_post size p t).
Proof.
  intros Hfit. unfold parse_io_width.
  destruct (Z.eqb_spec size SMBUS_QUICK) as [->|_].
  { destruct (strtoul_end 0 arg) as [v rest]. apply wp_bind, ismaxortrailingjunk_wp.
    intros rc t' E. destruct (negb (rc =? 0)); [repeat split; auto|].
    destruct (negb (v =? 0) && negb (v =? 1)).
    - wp_run. repeat split; auto. live_solve.
    - repeat split; auto. right. split; [done|]. apply filled_union; [lia|done]. }
  destruct ((size =? SMBUS_SIZE_BYTE) || (size =? SMBUS_SIZE_8)) eqn:E1.
  { apply orb_true_iff in E1 as [E1|E1]; apply Z.eqb_eq in E1 as ->; apply parse_fixed_wp; (lia || done). }
  destruct ((size =? SMBUS_SIZE_16) || (size =? SMBUS_PROC_CALL)) eqn:E2.
  { apply orb_true_iff in E2 as [E2|E2]; apply Z.eqb_eq in E2 as ->; apply parse_fixed_wp; (lia || done). }
  destruct (Z.eqb_spec size SMBUS_SIZE_32) as [->|_].
  { destruct (strtoul_end 0 arg) as [v rest]. apply wp_bind, istrailingjunk_wp.
    intros rc t' E. destruct (negb (rc =? 0)); repeat split; auto. right. split; [done|].
    apply filled_union; [lia|done]. }
  destruct (Z.eqb_spec size SMBUS_SIZE_64) as [->|_].
  { destruct (strtou 64 0 arg) as [v rest]. apply wp_bind, istrailingjunk_wp.
    intros rc t' E. destruct (negb (rc =? 0)); repeat split; auto. right. split; [done|].
    apply filled_union; [lia|done]. }
  fold (is_block size). destruct (is_block size).
  - apply wp_bind, parse_block_wp; [exact Hfit|rewrite length_replicate; unfold SMBUS_DTYPE_SIZE; lia|..].
    + intros t' E. repeat split; auto.
    + intros array n t' Hlen Hn E. repeat split; auto. right. split; [done|]. split.
      * eexists; split; [reflexivity|]. rewrite Hlen. apply length_replicate.
      * eauto.
  - wp_run. repeat split; auto. live_solve.
Qed.

(** ** Operations

    The interface between the handlers and the operations their tables point
    to: started with a ready target, and the data parsed if it writes, an
    operation uses only the slave's file and leaves it open. *)

Class SafeOp (needs : Z -> smbus_op_params -> Prop) (op : smbus_op) : Prop :=
  safe_op : forall f p t,
    ready (op_size op) f p -> needs (op_size op) p -> RFd f ∈ live t ->
    wp (safely no_stop) (perform_op op p (op_size op)) t
       (fun r t' => live t' = live t /\ fd r.2 = Some f).

Definition needs_nothing (size : Z) (p : smbus_op_params) : Prop := True.

(** A read handler with a safe operation touches only the slave's file,
    never reads an indeterminate parameter, never leaves its buffers and closes
    the file. *)
Theorem smbus_read_safe op argv d :
  SafeOp needs_nothing op -> privdata d = PrivSmbus op ->
  (prologue_args (op_size op) <= length argv)%nat ->
  resource_safe no_stop (smbus_read argv d).
Proof.
  intros Hop Hd Hargs t. unfold smbus_read, get_op. rewrite Hd.
  cbn [mbind prog_mbind prog_bind]. apply wp_bind, smbus_prologue_wp; [done|by intros|].
  intros f p t1 Hready _ _ Hh. cbn. apply wp_bind.
  eapply wp_mono; [|apply (Hop f); [done|done|by eapply holds_fd_in]].
  intros [ret p'] t2 [Hl Hf]. cbn in Hf. rewrite Hf. wp_norm.
  apply (holds_fd_live _ _ _ _ Hl) in Hh. split; [by eapply holds_fd_in|]. intros r _.
  destruct Hh as [H1 H2]. rewrite live_snoc. cbn. rewrite H2. set_solver.
Qed.

Lemma perform_and_close op f needs p t0 t :
  SafeOp needs op -> ready (op_size op) f p -> needs (op_size op) p -> holds_fd f t0 t ->
  wp (safely no_stop)
    (done_ ← perform_op op p (op_size op);
     let '(ret, params) := done_ in f ← defined (fd params); act (Close f);; Ret ret) t
    (fun _ t' => live t' = live t0).
Proof.
  intros Hop Hr Hf Hh. apply wp_bind.
  eapply wp_mono; [|apply (Hop f); [done|done|by eapply holds_fd_in]].
  intros [ret p'] t2 [Hl Hf']. cbn in Hf'. rewrite Hf'. wp_norm.
  apply (holds_fd_live _ _ _ _ Hl) in Hh. split; [by eapply holds_fd_in|]. intros r _.
  destruct Hh as [H1 H2]. rewrite live_snoc. cbn. rewrite H2. set_solver.
Qed.

Lemma ready_same size f p p' : same_target p p' -> ready size f p -> ready size f p'.
Proof. intros (E1 & E2 & E3 & _) (H1 & H2 & H3). unfold ready. by rewrite E1, E2, E3. Qed.

Lemma invalid_close_wp argv arg f p t0 t :
  (0 < length argv)%nat -> fd p = Some f -> holds_fd f t0 t ->
  wp (safely no_stop)
    (invalid_value argv arg;; f ← defined (fd p); act (Close f);; Ret (-1)) t
    (fun _ t' => live t' = live t0).
Proof.
  intros Hargs Hf Hh. unfold invalid_value. destruct (argv_at_ok argv 0 Hargs) as [a0 ->].
  rewrite Hf. wp_norm. split; [done|]. intros u _. wp_norm.
  match goal with |- context [t ++ [?e]] =>
    assert (holds_fd f t0 (t ++ [e])) as Hh'
      by (apply (holds_fd_live _ _ t); [by apply live_neutral|done]) end.
  split; [by eapply holds_fd_in|]. intros r _. destruct Hh' as [H1 H2].
  rewrite live_snoc. cbn. rewrite H2. set_solver.
Qed.

Lemma write_and_perform_wp op f p argv n t0 t :
  SafeOp filled op -> ready (op_size op) f p -> holds_fd f t0 t ->
  (n < length argv)%nat -> args_fit argv ->
  wp (safely no_stop) (write_and_perform argv n op p) t (fun _ t' => live t' = live t0).
Proof.
  intros Hop Hready Hh Hn Hfit. unfold write_and_perform.
  destruct (lookup_lt_is_Some_2 argv n Hn) as [a Ha].
  rewrite (argv_at_some _ _ _ Ha). cbn [mbind prog_mbind prog_bind].
  apply wp_bind. eapply wp_mono; [|by eapply parse_io_width_wp, args_fit_lookup].
  intros [rc p'] t1 (Hl & Hsame & Hrc). cbn [fst snd] in *.
  apply (holds_fd_live _ _ _ _ Hl) in Hh. apply (ready_same _ _ _ _ Hsame) in Hready.
  destruct Hrc as [-> | [-> Hfill]].
  - apply (invalid_close_wp _ _ f); [lia|apply Hready|done].
  - by apply (perform_and_close op f filled).
Qed.

(** So do the write handler and the process call handler, whatever value
    they are given to parse. *)
Theorem smbus_write_safe op argv d :
  SafeOp filled op -> privdata d = PrivSmbus op ->
  (prologue_args (op_size op) < length argv)%nat -> op_size op <> SMBUS_WRITE_READ ->
  args_fit argv ->
  resource_safe no_stop (smbus_write argv d) /\
  (has_register (op_size op) = true -> resource_safe no_stop (smbus_process_call argv d)).
Proof.
  intros Hop Hd Hargs Hwr Hfit. split; [|intros Hreg]; intros t;
    unfold smbus_write, smbus_process_call, get_op; rewrite Hd;
    cbn [mbind prog_mbind prog_bind]; apply wp_bind, smbus_prologue_wp; try lia; try by intros.
  - intros f p t1 Hready _ _ Hh. cbn -[write_and_perform].
    apply (write_and_perform_wp op f); [done..| |done].
    unfold prologue_args, has_register in Hargs. apply Z.eqb_neq in Hwr. rewrite Hwr in Hargs.
    destruct (op_size op =? SMBUS_SIZE_BYTE), (op_size op =? SMBUS_QUICK); cbn in *; lia.
  - intros f p t1 Hready _ _ Hh. cbn -[write_and_perform].
    apply (write_and_perform_wp op f); [done..| |done]. unfold prologue_args in Hargs.
    rewrite Hreg in Hargs. lia.
Qed.

(** ** The operations are safe *)

Lemma i2c_access_wp st f rw command size cells t (Q : Z * list byte -> trace -> Prop) :
  RFd f ∈ live t ->
  (forall r t', live t' = live t -> kernel_ok t (I2cSmbus f rw (wrapu 8 command) size cells) r ->
     Q r t') ->
  wp (safely st) (i2c_smbus_access f rw command size cells) t Q.
Proof.
  intros Hf HQ. split; [exact Hf|]. intros r Hr. apply HQ; [by apply live_neutral|exact Hr].
Qed.

Lemma i2c_block_wp st f rw command size cells values t (Q : Z * list byte -> trace -> Prop) :
  RFd f ∈ live t -> size = 5 \/ size = 7 \/ size = 8 -> length cells = 35%nat ->
  (32 <= length values)%nat ->
  (forall n values' t', live t' = live t -> length values' = length values -> -1 <= n <= 32 ->
     Q (n, values') t') ->
  wp (safely st) (r ← i2c_smbus_access f rw command size (Some cells); block_result r values) t Q.
Proof.
  intros Hf Hsize Hcells Hv HQ. apply wp_bind, i2c_access_wp; [done|].
  intros [rc out] t' Hl (Hrc & Hout & Hb). cbn [fst snd] in *.
  destruct Hrc as [-> | ->].
  - unfold block_result. cbn. apply HQ; [done..|lia].
  - specialize (Hout _ eq_refl). destruct out as [|b bs]; [cbn in Hout; lia|].
    cbn [length] in Hout. specialize (Hb eq_refl Hsize b bs eq_refl).
    rewrite block_result_ok by (try done; lia). pose proof (byte.unsigned_range b).
    apply HQ; [done| |lia]. rewrite length_app, length_take, length_drop. lia.
Qed.

Lemma clamp_range n : 0 <= clamp_length (wrapu 8 n) <= 32.
Proof.
  unfold clamp_length. pose proof (wrapu_range 8 n ltac:(lia)).
  destruct (Z.ltb_spec 32 (wrapu 8 n)); lia.
Qed.

(** Filling the union for a block that fits, then using it. *)
Lemma block_cells_wp S n values t (R : Type) (k : list (option byte) -> prog R) Q :
  (32 <= length values)%nat ->
  (forall cells, length cells = 35%nat -> wp S (k cells) t Q) ->
  wp S (cells ← block_cells (clamp_length (wrapu 8 n)) values; k cells) t Q.
Proof.
  intros Hv Hk. pose proof (clamp_range n). rewrite block_cells_ok by lia.
  apply Hk. cbn [length]. rewrite length_app, length_map, length_take, length_replicate. lia.
Qed.

Lemma print_read_data_wp st size n data t (Q : unit -> trace -> Prop) :
  length data = SMBUS_DTYPE_SIZE -> (forall t', live t' = live t -> Q tt t') ->
  wp (safely st) (print_read_data size n data) t Q.
Proof.
  intros Hd HQ. unfold print_read_data.
  assert (forall text, wp (safely st) (printf text) t Q) as Hp
    by (intros; split; [done|]; intros []; intros; by apply HQ, live_neutral).
  do 4 (match goal with |- wp _ (if ?b then _ else _) _ _ => destruct b end; [apply Hp|]).
  destruct (size =? SMBUS_SIZE_BLOCK); [|by apply HQ].
  assert (forall k i t0, live t0 = live t -> (i + k <= 32)%nat ->
    wp (safely st) (for_each (print_array_byte data) (seq i k)) t0
       (fun _ t' => live t' = live t)) as Hloop.
  { induction k as [|k IH]; intros i t0 Ht0 Hi; [exact Ht0|]. cbn [seq for_each].
    destruct (lookup_lt_is_Some_2 data i) as [b Hb]; [rewrite Hd; unfold SMBUS_DTYPE_SIZE; lia|].
    assert (print_array_byte data i = printf (fmt_0X 2 (byte.unsigned b))) as ->
      by (unfold print_array_byte; by rewrite Hb).
    wp_norm. split; [done|]. intros u _. wp_norm.
    apply IH; [by rewrite live_neutral|lia]. }
  eapply wp_seq; [apply Hloop; [done|]|].
  - unfold I2C_SMBUS_BLOCK_MAX. destruct (Z.ltb_spec 32 n); lia.
  - intros [] t' Ht'. cbn in Ht'. split; [done|]. intros [] _. apply HQ. by rewrite live_neutral.
Qed.

Lemma report_at_wp st what v t (Q : unit -> trace -> Prop) :
  (exists x, v = Some x) -> (forall t', live t' = live t -> Q tt t') ->
  wp (safely st) (report_at what v) t Q.
Proof. intros [x ->] HQ. unfold report_at. wp_run; unit_answers; apply HQ; live_solve. Qed.

Lemma union_set_34 n v data :
  (n <= 34)%nat -> length data = SMBUS_DTYPE_SIZE ->
  length (union_set n v data) = SMBUS_DTYPE_SIZE.
Proof. intros Hn Hd. rewrite length_union_set; [done|]. rewrite Hd. exact Hn. Qed.

Lemma read_transfer_wp st p f size data t :
  ready size f p -> RFd f ∈ live t -> length data = SMBUS_DTYPE_SIZE ->
  wp (safely st) (read_transfer p size data) t
     (fun r t' => live t' = live t /\
        match r with Some (_, data') => length data' = SMBUS_DTYPE_SIZE | None => True end).
Proof.
  intros (Hf & _ & Hreg) Hlive Hd. unfold read_transfer. rewrite Hf. cbn [defined mbind prog_mbind prog_bind].
  assert (forall (R : Type) (body : Z -> prog R) Q, has_register size = true ->
    (forall r, wp (safely st) (body r) t Q) ->
    wp (safely st) (r ← defined (reg p); body r) t Q) as Hwith.
  { intros R body Q Hhas Hbody. destruct (Hreg Hhas) as [r ->]. apply Hbody. }
  destruct (Z.eqb_spec size SMBUS_SIZE_8) as [->|_].
  { apply Hwith; [done|]. intros r. unfold i2c_smbus_read_byte_data.
    apply wp_bind, wp_bind, i2c_access_wp; [done|]. intros res t' Hl _.
    destruct (negb (res.1 =? 0)); (split; [done|]); by apply union_set_34; [lia|]. }
  destruct (Z.eqb_spec size SMBUS_SIZE_16) as [->|_].
  { apply Hwith; [done|]. intros r. unfold i2c_smbus_read_word_data.
    apply wp_bind, wp_bind, i2c_access_wp; [done|]. intros res t' Hl _.
    destruct (negb (res.1 =? 0)); (split; [done|]); by apply union_set_34; [lia|]. }
  assert (forall r n, wp (safely st) (i2c_smbus_read_i2c_block_data f r n data) t
    (fun res t' => live t' = live t /\ length res.2 = SMBUS_DTYPE_SIZE)) as Hblock.
  { intros r n. apply i2c_block_wp; auto; [by rewrite Hd; unfold SMBUS_DTYPE_SIZE; lia|].
    intros. cbn. split; [done|congruence]. }
  destruct (Z.eqb_spec size SMBUS_SIZE_32) as [->|_].
  { apply Hwith; [done|]. intros r. eapply wp_seq; [apply Hblock|]. by intros. }
  destruct (Z.eqb_spec size SMBUS_SIZE_64) as [->|_].
  { apply Hwith; [done|]. intros r. eapply wp_seq; [apply Hblock|]. by intros. }
  destruct (Z.eqb_spec size SMBUS_SIZE_BLOCK) as [->|_].
  { apply Hwith; [done|]. intros r. apply wp_bind. unfold i2c_smbus_read_block_data.
    apply i2c_block_wp; auto; [by rewrite Hd; unfold SMBUS_DTYPE_SIZE; lia|].
    intros. split; [done|]. congruence. }
  destruct (size =? SMBUS_SIZE_BYTE); [|by split].
  unfold i2c_smbus_read_byte. apply wp_bind, wp_bind, i2c_access_wp; [done|]. intros res t' Hl _.
  destruct (negb (res.1 =? 0)); (split; [done|]); by apply union_set_34; [lia|].
Qed.

Lemma smbus_read_op_safe size f p t :
  ready size f p -> RFd f ∈ live t -> (size <> SMBUS_SIZE_BYTE -> has_register size = true) ->
  wp (safely no_stop) (smbus_read_op p size) t (fun r t' => live t' = live t /\ fd r.2 = Some f).
Proof.
  intros Hready Hlive Hsize. pose proof Hready as (Hf & Haddr & Hreg). unfold smbus_read_op.
  eapply wp_seq; [apply (read_transfer_wp _ _ f); [exact Hready|done|apply length_replicate]|].
  intros [[result data']|] t' [Hl Hd']; [|split; [done|]; intros [] _; split; [by rewrite live_neutral|exact Hf]].
  destruct (result <? 0).
  - apply wp_bind. destruct (Z.eqb_spec size SMBUS_SIZE_BYTE) as [->|Hs]; cbn [negb];
      apply report_at_wp; try (intros t2 Hl2; split; [congruence|exact Hf]); [exact Haddr|].
    by apply Hreg, Hsize.
  - apply wp_bind, print_read_data_wp; [done|]. intros t2 Hl2. split; [congruence|exact Hf].
Qed.

Lemma force_slave_wp st size f p t :
  ready size f p -> RFd f ∈ live t ->
  wp (safely st) (force_slave p) t (fun _ t' => live t' = live t).
Proof.
  intros (Hf & [a Ha] & _) Hlive. unfold force_slave. rewrite Hf, Ha. wp_norm.
  split; [done|]. intros r _. wp_norm. destruct (r <? 0); [|by apply live_neutral].
  apply wp_bind, report_at_wp; [eauto|]. intros t' Hl. change (live t' = live t). by rewrite Hl, live_neutral.
Qed.

Lemma write_transfer_wp st p f size t :
  ready size f p -> filled size p -> RFd f ∈ live t ->
  wp (safely st) (write_transfer p size) t (fun _ t' => live t' = live t).
Proof.
  intros (Hf & _ & Hreg) [(d & Hd & Hlen) Hn] Hlive. unfold write_transfer. rewrite Hf, Hd.
  cbn [defined mbind prog_mbind prog_bind].
  assert (32 <= length d)%nat by (rewrite Hlen; unfold SMBUS_DTYPE_SIZE; lia).
  assert (forall body Q, has_register size = true ->
    (forall r, wp (safely st) (body r) t Q) ->
    wp (safely st) (r ← defined (reg p); body r : prog (option Z)) t Q) as Hwith.
  { intros body Q Hhas Hbody. destruct (Hreg Hhas) as [r ->]. apply Hbody. }
  destruct (Z.eqb_spec size SMBUS_SIZE_8) as [->|_].
  { apply Hwith; [done|]. intros r. by apply wp_bind, wp_bind, i2c_access_wp. }
  destruct (Z.eqb_spec size SMBUS_SIZE_16) as [->|_].
  { apply Hwith; [done|]. intros r. by apply wp_bind, wp_bind, i2c_access_wp. }
  destruct (Z.eqb_spec size SMBUS_SIZE_32) as [->|_].
  { apply Hwith; [done|]. intros r. unfold i2c_smbus_write_i2c_block_data.
    apply wp_bind, block_cells_wp; [done|]. intros cells _. by apply wp_bind, i2c_access_wp. }
  destruct (Z.eqb_spec size SMBUS_SIZE_64) as [->|_].
  { apply Hwith; [done|]. intros r. unfold i2c_smbus_write_i2c_block_data.
    apply wp_bind, block_cells_wp; [done|]. intros cells _. by apply wp_bind, i2c_access_wp. }
  destruct (Z.eqb_spec size SMBUS_SIZE_BLOCK) as [->|_].
  { apply Hwith; [done|]. intros r. destruct (Hn eq_refl) as (n & -> & _).
    cbn [defined mbind prog_mbind prog_bind]. unfold i2c_smbus_write_block_data.
    apply wp_bind, block_cells_wp; [done|]. intros cells _. by apply wp_bind, i2c_access_wp. }
  destruct (size =? SMBUS_SIZE_BYTE); [by apply wp_bind, wp_bind, i2c_access_wp|].
  destruct (size =? SMBUS_QUICK); [by apply wp_bind, wp_bind, i2c_access_wp|done].
Qed.

Lemma smbus_write_op_safe size f p t :
  ready size f p -> filled size p -> RFd f ∈ live t ->
  (size <> SMBUS_SIZE_BYTE -> size <> SMBUS_QUICK -> has_register size = true) ->
  wp (safely no_stop) (smbus_write_op p size) t
     (fun r t' => live t' = live t /\ fd r.2 = Some f).
Proof.
  intros Hready Hfill Hlive Hsize. pose proof Hready as (Hf & Haddr & Hreg).
  unfold smbus_write_op.
  eapply wp_seq; [by apply (force_slave_wp _ size f)|]. intros forced t1 Hl1. cbn in Hl1.
  destruct forced; cbn [negb]; [|by split].
  eapply wp_seq; [apply (write_transfer_wp _ _ f); [done|done|by rewrite Hl1]|].
  intros [result|] t2 Hl2; cbn in Hl2;
    [|split; [done|]; intros [] _; split; [rewrite live_neutral by done; congruence|exact Hf]].
  destruct (result <? 0); [|split; [congruence|exact Hf]].
  apply wp_bind. destruct (Z.eqb_spec size SMBUS_SIZE_BYTE) as [->|Hs1]; cbn [negb andb].
  { apply report_at_wp; [exact Haddr|]. intros t3 Hl3. split; [congruence|exact Hf]. }
  destruct (Z.eqb_spec size SMBUS_QUICK) as [->|Hs2]; cbn [negb andb];
    (apply report_at_wp; [|intros t3 Hl3; split; [congruence|exact Hf]]); [exact Haddr|].
  by apply Hreg, Hsize.
Qed.

Lemma report_dot_wp st what t (Q : unit -> trace -> Prop) :
  (forall t', live t' = live t -> Q tt t') -> wp (safely st) (report_dot what) t Q.
Proof. intros HQ. unfold report_dot. wp_run; unit_answers; apply HQ; live_solve. Qed.

Lemma smbus_process_call_op_safe size f p t :
  ready size f p -> filled size p -> RFd f ∈ live t -> has_register size = true ->
  wp (safely no_stop) (smbus_process_call_op p size) t
     (fun r t' => live t' = live t /\ fd r.2 = Some f).
Proof.
  intros Hready (( d & Hd & Hlen) & _) Hlive Hsize. pose proof Hready as (Hf & _ & Hreg).
  unfold smbus_process_call_op.
  eapply wp_seq; [by apply (force_slave_wp _ size f)|]. intros forced t1 Hl1. cbn in Hl1.
  destruct forced; cbn [negb]; [|by split]. destruct (Hreg Hsize) as [r Hr].
  rewrite Hf, Hr, Hd. cbn [defined mbind prog_mbind prog_bind].
  unfold i2c_smbus_process_call. apply wp_bind, wp_bind, i2c_access_wp; [by rewrite Hl1|].
  intros res t2 Hl2 _.
  assert (forall v, wp (safely no_stop)
    (if v <? 0 then report_dot "SMBUS Process call failed";; Ret (-1, p)
     else print_read_data SMBUS_SIZE_16 0 d;; Ret (0, p)) t2
    (fun r t' => live t' = live t /\ fd r.2 = Some f)) as Hend.
  { intros v. destruct (v <? 0); apply wp_bind; [apply report_dot_wp|apply print_read_data_wp; [done|]];
      intros t3 Hl3; (split; [congruence|exact Hf]). }
  destruct (negb (res.1 =? 0)); apply Hend.
Qed.

Lemma smbus_block_process_call_op_safe size f p t :
  ready size f p -> filled size p -> RFd f ∈ live t -> has_register size = true ->
  is_block size = true ->
  wp (safely no_stop) (smbus_block_process_call_op p size) t
     (fun r t' => live t' = live t /\ fd r.2 = Some f).
Proof.
  intros Hready ((d & Hd & Hlen) & Hn) Hlive Hsize Hb. pose proof Hready as (Hf & _ & Hreg).
  unfold smbus_block_process_call_op.
  eapply wp_seq; [by apply (force_slave_wp _ size f)|]. intros forced t1 Hl1. cbn in Hl1.
  destruct forced; cbn [negb]; [|by split]. destruct (Hreg Hsize) as [r Hr].
  destruct (Hn Hb) as (n & Hn' & _). rewrite Hf, Hr, Hn', Hd.
  cbn [defined mbind prog_mbind prog_bind]. unfold i2c_smbus_block_process_call.
  assert (32 <= length d)%nat by (rewrite Hlen; unfold SMBUS_DTYPE_SIZE; lia).
  apply wp_bind, block_cells_wp; [done|]. intros cells Hcells.
  apply i2c_block_wp; auto; [by rewrite Hl1|]. intros m values t2 Hl2 Hlv _. cbn [fst snd].
  destruct (m <? 0); apply wp_bind;
    [apply report_dot_wp|apply print_read_data_wp; [congruence|]];
    intros t3 Hl3; (split; [congruence|exact Hf]).
Qed.

#[export] Instance read_op_safe size :
  (size <> SMBUS_SIZE_BYTE -> has_register size = true) ->
  SafeOp needs_nothing (make_smbus_op size smbus_read_op).
Proof. intros Hs f p t Hr _ Hl. by apply smbus_read_op_safe. Qed.

#[export] Instance write_op_safe size :
  (size <> SMBUS_SIZE_BYTE -> size <> SMBUS_QUICK -> has_register size = true) ->
  SafeOp filled (make_smbus_op size smbus_write_op).
Proof. intros Hs f p t Hr Hfill Hl. by apply smbus_write_op_safe. Qed.

#[export] Instance process_call_op_safe : SafeOp filled smbus_op_proc_call.
Proof. intros f p t Hr Hfill Hl. by apply smbus_process_call_op_safe. Qed.

#[export] Instance block_process_call_op_safe : SafeOp filled smbus_op_block_proc_call.
Proof. intros f p t Hr Hfill Hl. by apply smbus_block_process_call_op_safe. Qed.

(** The read count besides the data. *)
Definition counted (size : Z) (p : smbus_op_params) : Prop :=
  filled size p /\ is_block size = true /\ exists n, read_count p = Some n /\ 0 <= n <= 32.

#[export] Instance writeread_op_safe : SafeOp counted smbus_op_writeread.
Proof.
  intros f p t (Hf & [a Ha] & _) (((d & Hd & Hlen) & Hn) & Hb & c & Hc & Hcr) Hlive.
  destruct (Hn Hb) as (n & Hn' & _). cbn [perform_op smbus_op_writeread make_smbus_op op_size].
  unfold smbus_writeread_op. rewrite Hf, Ha, Hn', Hc, Hd.
  cbn [defined mbind prog_mbind prog_bind]. split; [done|]. intros r Hr. cbn in Hr.
  cbn [mbind prog_mbind prog_bind]. destruct (r.1 <? 0).
  - wp_run; [live_solve|done].
  - apply wp_bind, print_read_data_wp; [congruence|]. intros t' Ht'.
    split; [|done]. rewrite Ht'. by apply live_neutral.
Qed.

(** A read count [smbus_writeread] accepts. *)
Definition valid_count (b : string) : bool :=
  match uint8_value 0 b with Some count => count <=? 32 | None => false end.

(** [smbus_writeread] is safe and closes the slave's file for a read count of
    at most 32; for any other it is still safe but keeps the file. *)
Theorem smbus_writeread_safe op argv d b :
  SafeOp counted op -> privdata d = PrivSmbus op -> op_size op = SMBUS_WRITE_READ ->
  argv !! 4%nat = Some b -> args_fit argv ->
  if valid_count b
  then resource_safe no_stop (smbus_writeread argv d)
  else well_behaved no_stop (smbus_writeread argv d).
Proof.
  intros Hop Hd Hsize Hb Hfit. pose proof (lookup_lt_Some _ _ _ Hb) as Hargs.
  assert (forall t, wp (safely no_stop) (smbus_writeread argv d) t (fun _ t' =>
    valid_count b = true -> live t' = live t)) as Hall.
  { intros t. unfold smbus_writeread, get_op. rewrite Hd.
    cbn [mbind prog_mbind prog_bind]. apply wp_bind, smbus_prologue_wp;
      [rewrite Hsize; cbn; lia|intros ? ? E; cbn; by intros|].
    intros f p t1 Hready _ _ Hh. cbn -[parse_io_width].
    destruct (lookup_lt_is_Some_2 argv 3 ltac:(lia)) as [a Ha].
    rewrite (argv_at_some _ _ _ Ha). cbn [mbind prog_mbind prog_bind].
    apply wp_bind. eapply wp_mono; [|by eapply parse_io_width_wp, args_fit_lookup].
    intros [rc p'] t2 (Hl & Hsame & Hrc). cbn [fst snd] in *.
    apply (holds_fd_live _ _ _ _ Hl) in Hh. apply (ready_same _ _ _ _ Hsame) in Hready.
    destruct Hrc as [-> | [-> Hfill]].
    - eapply wp_mono; [|apply (invalid_close_wp _ _ f); [lia|apply Hready|done]]. by intros.
    - cbn [Z.ltb Z.compare]. unfold argv_at. rewrite Hb. cbn [mbind prog_mbind prog_bind].
      apply wp_bind, parse_uint8_wp; [lia|]. intros t3 Hl3.
      unfold valid_count. destruct (uint8_value 0 b) as [count|] eqn:Hc; [|by wp_run].
      pose proof (uint8_value_range 0 _ _ ltac:(lia) Hc).
      apply (holds_fd_live _ _ _ _ Hl3) in Hh. unfold I2C_SMBUS_BLOCK_MAX.
      destruct (Z.ltb_spec 32 count), (Z.leb_spec count 32); try lia; [by wp_run|].
      eapply wp_mono; [|apply (perform_and_close op f counted); try done].
      + by intros.
      + split; [apply Hfill|]. split; [by rewrite Hsize|]. exists count. split; [done|lia]. }
  destruct (valid_count b); intros t;
    (eapply wp_mono; [|apply Hall]); [intros x t' E; by apply E|done].
Qed.
End Safe.
