(* ===== verification/SmbusSpec.v ===== *)
(** * Functional behaviour of the SMBus commands

    With valid arguments each command is a session with one slave: its file is
    opened, attached, used for one transaction and closed. *)

From S2P Require Import Prelude CLib Platform Sys SmbusTypes Commands DevFile I2cDev SmbusRw SmbusParse SmbusSafe.
Local Open Scope Z_scope.

Section Spec.
Context {P : Platform}.

(** ** Sessions with a slave

    What the handlers do, as the events other than diagnostics: open the
    adapter, attach to the slave, work, close.  The result is the return value
    and what is printed. *)

Definition devfile (bus : Z) : string := "/dev/i2c-" +:+ fmt_d bus.

Inductive slave_session (bus addr : Z) (body : Z -> trace -> Z * string -> Prop)
  : trace -> Z * string -> Prop :=
  | slave_open f :
      f < 0 -> slave_session bus addr body [Ev (Open (devfile bus) O_RDWR) f] (-1, "")
  | slave_attach f r r' :
      0 <= f -> r < 0 ->
      slave_session bus addr body
        [Ev (Open (devfile bus) O_RDWR) f; Ev (Ioctl f I2C_SLAVE addr) r; Ev (Close f) r'] (-1, "")
  | slave_done f r t x r' :
      0 <= f -> 0 <= r -> body f t x ->
      slave_session bus addr body
        ([Ev (Open (devfile bus) O_RDWR) f; Ev (Ioctl f I2C_SLAVE addr) r] ++ t ++
         [Ev (Close f) r']) x.

Lemma exec_open_i2c_slave bus addr t o :
  0 <= bus < 256 -> exec (open_i2c_slave bus addr) t o ->
  output_of Stdout t = "" /\
  ((exists f : Z, f < 0 /\ device_events t = [Ev (Open (devfile bus) O_RDWR) f] /\
      o = Returned (-1)) \/
   (exists f r r' : Z, 0 <= f /\ r < 0 /\ o = Returned (-1) /\
      device_events t = [Ev (Open (devfile bus) O_RDWR) f; Ev (Ioctl f I2C_SLAVE addr) r;
                         Ev (Close f) r']) \/
   (exists f r : Z, 0 <= f /\ 0 <= r /\ o = Returned f /\
      device_events t = [Ev (Open (devfile bus) O_RDWR) f; Ev (Ioctl f I2C_SLAVE addr) r])).
Proof.
  intros Hb H. unfold open_i2c_slave in H. rewrite devfile_fits in H by done.
  exec_run H; tests; (split; [done|]); cbn [device_events List.filter is_device ev_act].
  - left. by exists r.
  - right; left. by exists r, r0, r4.
  - right; right. by exists r, r0.
Qed.

(** The parameters after the prologue of a command, without and with a
    register. *)
Definition aimed (bus addr : Z) (p : smbus_op_params) : smbus_op_params :=
  set_address addr (set_i2c_bus bus p).
Definition attached (f bus addr r : Z) (p : smbus_op_params) : smbus_op_params :=
  set_fd f (set_reg r (aimed bus addr p)).

(** Valid first arguments. *)
Definition aims (argv : list string) (bus addr : Z) : Prop :=
  exists c a1 a2 rest, argv = c :: a1 :: a2 :: rest /\
  uint8_value 0 a1 = Some bus /\ uint8_value 0 a2 = Some addr.
Definition targets (argv : list string) (bus addr r : Z) : Prop :=
  exists c a1 a2 a3 rest, argv = c :: a1 :: a2 :: a3 :: rest /\
  uint8_value 0 a1 = Some bus /\ uint8_value 0 a2 = Some addr /\ uint8_value 0 a3 = Some r.

(** The end of the prologue. *)
Definition attach (bus addr : Z) (p : smbus_op_params) : prog (Z * smbus_op_params) :=
  f ← open_i2c_slave bus addr;
  if f <? 0 then prologue_fails "can't open slave" (set_fd f p) else Ret (0, set_fd f p).

(** Valid arguments are parsed without output. *)
Lemma prologue_aims argv bus addr p size :
  aims argv bus addr -> has_register size = false ->
  smbus_prologue argv p size = attach bus addr (aimed bus addr p) /\ 0 <= bus < 256.
Proof.
  intros (c & a1 & a2 & rest & -> & H1 & H2) Hreg.
  split; [|by apply (uint8_value_range 0 a1)]. unfold smbus_prologue, parse_uint8.
  cbn [argv_at lookup list_lookup mbind prog_mbind prog_bind].
  rewrite (parse_uint8_ok 0 _ _ ltac:(lia) H1), Hreg. cbn [mbind prog_mbind prog_bind].
  by rewrite (parse_uint8_ok 0 _ _ ltac:(lia) H2).
Qed.

Lemma prologue_targets argv bus addr r p size :
  targets argv bus addr r -> has_register size = true ->
  smbus_prologue argv p size = attach bus addr (set_reg r (aimed bus addr p)) /\ 0 <= bus < 256.
Proof.
  intros (c & a1 & a2 & a3 & rest & -> & H1 & H2 & H3) Hreg.
  split; [|by apply (uint8_value_range 0 a1)]. unfold smbus_prologue, parse_uint8.
  cbn [argv_at lookup list_lookup mbind prog_mbind prog_bind].
  rewrite (parse_uint8_ok 0 _ _ ltac:(lia) H1), Hreg. cbn [mbind prog_mbind prog_bind].
  rewrite (parse_uint8_ok 0 _ _ ltac:(lia) H2). cbn [mbind prog_mbind prog_bind].
  by rewrite (parse_uint8_ok 0 _ _ ltac:(lia) H3).
Qed.

Lemma exec_attach bus addr p t o :
  0 <= bus < 256 -> exec (attach bus addr p) t o ->
  output_of Stdout t = "" /\
  ((exists p', o = Returned (-1, p') /\
      forall body, slave_session bus addr body (device_events t) (-1, "")) \/
   (exists f r0 : Z, 0 <= f /\ 0 <= r0 /\ o = Returned (0, set_fd f p) /\
      device_events t = [Ev (Open (devfile bus) O_RDWR) f; Ev (Ioctl f I2C_SLAVE addr) r0])).
Proof.
  intros Hb H. unfold attach in H.
  apply (exec_bind_inv (open_i2c_slave bus addr)) in H as [(f & t1 & t2 & Ho & H & ->)|(s & Ho & _)];
    apply exec_open_i2c_slave in Ho as [Hout Ho]; try done.
  2: by destruct Ho as [(? & ? & ? & ?)|[(? & ? & ? & ? & ? & ? & ?)|(? & ? & ? & ? & ? & ?)]].
  rewrite output_of_app, Hout. unfold device_events in *. rewrite List.filter_app.
  unfold prologue_fails in H.
  destruct Ho as [(f' & Hf & -> & E)|[(f' & r' & r'' & Hf & Hr & E & ->)|(f' & r' & Hf & Hr & E & ->)]];
    injection E as ->.
  - exec_run H. split; [done|]. left. eexists; split; [done|]. intros. by constructor.
  - exec_run H. split; [done|]. left. eexists; split; [done|]. intros. by constructor.
  - destruct (Z.ltb_spec f' 0); [lia|]. apply exec_ret_iff in H as [-> ->].
    split; [done|]. right. by exists f', r'.
Qed.

(** A handler that works between its prologue and [close] is a session. *)
Lemma exec_with_slave argv bus addr p p0 size (k : smbus_op_params -> prog Z) body t o :
  smbus_prologue argv p size = attach bus addr p0 /\ 0 <= bus < 256 ->
  exec (pro ← smbus_prologue argv p size;
        let '(rc, params) := pro in if rc <? 0 then Ret (-1) else k params) t o ->
  (forall f t2, incl t2 t -> exec (k (set_fd f p0)) t2 o ->
     exists (rc : Z) u (r' : Z), o = Returned rc /\ device_events t2 = u ++ [Ev (Close f) r'] /\
       body f u (rc, output_of Stdout t2)) ->
  exists rc, o = Returned rc /\
    slave_session bus addr body (device_events t) (rc, output_of Stdout t).
Proof.
  intros [-> Hb] H Hk.
  apply (exec_bind_inv (attach _ _ _)) in H
    as [([rc p'] & t1 & t2 & Hp & H & ->)|(s & Hp & _)];
    apply (exec_attach _ _ _ _ _ Hb) in Hp as [Hout Hp];
    [|by destruct Hp as [(? & ? & _)|(? & ? & ? & ? & ? & _)]].
  unfold device_events in *. rewrite List.filter_app, output_of_app, Hout.
  destruct Hp as [(q0 & E0 & Hs)|(f & r0 & Hf & Hr0 & E0 & Hd)]; injection E0 as -> ->.
  - apply exec_ret_iff in H as [-> ->]. exists (-1). split; [done|].
    rewrite app_nil_r. apply Hs.
  - apply Hk in H as (rc & u & r' & -> & E & Hbody); [|apply incl_appr, incl_refl].
    exists rc. split; [done|]. rewrite Hd, E. by apply slave_done.
Qed.

(** ** Writing *)

(** The value of a whole argument. *)
Definition whole_value (arg : string) : option Z :=
  let '(v, rest) := strtoul_end 0 arg in if String.eqb rest "" then Some v else None.
Definition whole_value64 (arg : string) : option Z :=
  let '(v, rest) := strtou 64 0 arg in if String.eqb rest "" then Some v else None.

(** The transaction a valid argument stands for: its type and the union passed
    to the kernel, of which only the operand is determined. *)
Inductive write_request : Z -> string -> Z -> list (option byte) -> Prop :=
  | request_8 a v :
      whole_value a = Some v -> v <> LONG_MAX ->
      write_request SMBUS_SIZE_8 a I2C_SMBUS_BYTE_DATA
        (map Some (le_split 1 v) ++ replicate 34 None)
  | request_16 a v :
      whole_value a = Some v -> v <> LONG_MAX ->
      write_request SMBUS_SIZE_16 a I2C_SMBUS_WORD_DATA
        (map Some (host_bytes 2 v) ++ replicate 33 None)
  | request_32 a v :
      whole_value a = Some v ->
      write_request SMBUS_SIZE_32 a I2C_SMBUS_I2C_BLOCK_DATA
        (Some (byte.of_Z 4) :: map Some (host_bytes 4 v) ++ replicate 30 None)
  | request_64 a v :
      whole_value64 a = Some v ->
      write_request SMBUS_SIZE_64 a I2C_SMBUS_I2C_BLOCK_DATA
        (Some (byte.of_Z 8) :: map Some (host_bytes 8 v) ++ replicate 26 None)
  | request_block a bs :
      a = hex_text bs \/ a = "0x" +:+ hex_text bs -> (1 <= length bs <= 32)%nat ->
      write_request SMBUS_SIZE_BLOCK a I2C_SMBUS_BLOCK_DATA
        (Some (byte.of_Z (Z.of_nat (length bs))) :: map Some bs ++
         replicate (34 - length bs) None).

Lemma whole_value_parse a v :
  whole_value a = Some v -> strtoul_end 0 a = (v, "").
Proof.
  unfold whole_value. destruct (strtoul_end 0 a) as [u rest].
  destruct (String.eqb_spec rest "") as [->|]; [|done]. by intros [= ->].
Qed.

Lemma whole_value64_parse a v :
  whole_value64 a = Some v -> strtou 64 0 a = (v, "").
Proof.
  unfold whole_value64. destruct (strtou 64 0 a) as [u rest].
  destruct (String.eqb_spec rest "") as [->|]; [|done]. by intros [= ->].
Qed.

Lemma parse_fixed_ok n a v p array :
  whole_value a = Some v -> v <> LONG_MAX ->
  parse_fixed n a p array = Ret (0, set_data (union_set n v array) p).
Proof.
  intros Hv Hm. unfold parse_fixed. rewrite (whole_value_parse _ _ Hv).
  unfold ismaxortrailingjunk. apply Z.eqb_neq in Hm. by rewrite Hm.
Qed.

Lemma host_bytes_wrapu n w v : w = Z.of_nat n * 8 -> host_bytes n (wrapu w v) = host_bytes n v.
Proof. intros ->. unfold host_bytes. by rewrite le_split_wrapu. Qed.

Lemma take_union_set n v mem : take n (union_set n v mem) = host_bytes n v.
Proof. unfold union_set. by rewrite take_app_length' by (by rewrite length_host_bytes). Qed.

Lemma fixed_block_cells n v :
  (n <= 32)%nat ->
  block_cells (clamp_length (wrapu 8 (Z.of_nat n)))
    (union_set n v (replicate SMBUS_DTYPE_SIZE Byte.x00)) =
  Ret (Some (byte.of_Z (Z.of_nat n)) :: map Some (host_bytes n v) ++ replicate (34 - n) None).
Proof.
  intros Hn. rewrite wrapu_small by plia. unfold clamp_length.
  destruct (Z.ltb_spec 32 (Z.of_nat n)); [lia|].
  assert (length (union_set n v (replicate SMBUS_DTYPE_SIZE Byte.x00)) = SMBUS_DTYPE_SIZE) as Hl.
  { apply union_set_34; [lia|]. apply length_replicate. }
  rewrite block_cells_ok by (rewrite ?Hl; unfold SMBUS_DTYPE_SIZE; lia).
  by rewrite Nat2Z.id, take_union_set.
Qed.

(** A valid value is parsed, and sent as its request. *)
Lemma request_transfer size a code cells p f r :
  write_request size a code cells -> fd p = Some f -> reg p = Some r -> 0 <= r < 256 ->
  exists p', parse_io_width a p size = Ret (0, p') /\ same_target p p' /\
  write_transfer p' size
  = Act (I2cSmbus f I2C_SMBUS_WRITE r code (Some cells)) (fun res => Ret (Some res.1)).
Proof.
  intros H Hf Hr Hrange. destruct H as [a v Hv Hm|a v Hv Hm|a v Hv|a v Hv|a bs Ha Hbs].
  - eexists. split; [apply parse_fixed_ok; eassumption|]. split; [done|].
    unfold write_transfer. cbn [fd set_data data reg]. rewrite Hf, Hr.
    cbn -[union_set union_get set_member wrapu SMBUS_DTYPE_SIZE]. rewrite union_get_set, (wrapu_small 8 r) by plia.
    unfold set_member. by rewrite host_bytes_1, le_split_wrapu.
  - eexists. split; [apply parse_fixed_ok; eassumption|]. split; [done|].
    unfold write_transfer. cbn [fd set_data data reg]. rewrite Hf, Hr.
    cbn -[union_set union_get set_member wrapu SMBUS_DTYPE_SIZE]. rewrite union_get_set, (wrapu_small 8 r) by plia.
    unfold set_member. by rewrite host_bytes_wrapu.
  - eexists. split; [|split; [|]].
    + unfold parse_io_width. cbn -[strtoul_end replicate SMBUS_DTYPE_SIZE]. rewrite (whole_value_parse _ _ Hv). reflexivity.
    + done.
    + unfold write_transfer. cbn [fd set_data data reg]. rewrite Hf, Hr.
      unfold i2c_smbus_write_i2c_block_data. change 4 with (Z.of_nat 4).
      cbn -[union_set wrapu clamp_length block_cells Z.of_nat replicate SMBUS_DTYPE_SIZE].
      rewrite fixed_block_cells, (wrapu_small 8 r) by plia. done.
  - eexists. split; [|split; [|]].
    + unfold parse_io_width. cbn -[strtou replicate SMBUS_DTYPE_SIZE]. rewrite (whole_value64_parse _ _ Hv). reflexivity.
    + done.
    + unfold write_transfer. cbn [fd set_data data reg]. rewrite Hf, Hr.
      unfold i2c_smbus_write_i2c_block_data. change (wrapu 8 8) with (wrapu 8 (Z.of_nat 8)).
      cbn -[union_set wrapu clamp_length block_cells Z.of_nat replicate SMBUS_DTYPE_SIZE].
      rewrite fixed_block_cells, (wrapu_small 8 r) by plia. done.
  - eexists. split; [|split; [|]].
    + unfold parse_io_width. cbn -[parse_block replicate SMBUS_DTYPE_SIZE].
      rewrite (parse_block_text bs); [reflexivity|done|by intros ->; cbn in Hbs; lia|lia|].
      rewrite length_replicate; unfold SMBUS_DTYPE_SIZE; lia.
    + done.
    + unfold write_transfer. cbn [fd set_data set_len data reg len]. rewrite Hf, Hr.
      unfold i2c_smbus_write_block_data.
      cbn -[wrapu clamp_length block_cells Z.of_nat replicate].
      rewrite (wrapu_small 8 (Z.of_nat _)), (wrapu_small 8 r) by plia. unfold clamp_length.
      destruct (Z.ltb_spec 32 (Z.of_nat (length bs))); [lia|].
      rewrite block_cells_ok by (rewrite ?length_app; lia).
      rewrite Nat2Z.id, take_app_length. done.
Qed.

(** The body of a write session: the address is forced, then one transaction. *)
Definition write_body (addr r code : Z) (cells : list (option byte)) (f : Z) (t : trace)
    (x : Z * string) : Prop :=
  (exists r0 : Z, r0 < 0 /\ t = [Ev (Ioctl f I2C_SLAVE_FORCE addr) r0] /\ x = (-1, "")) \/
  (exists (r0 : Z) res, 0 <= r0 /\
     t = [Ev (Ioctl f I2C_SLAVE_FORCE addr) r0;
          Ev (I2cSmbus f I2C_SMBUS_WRITE r code (Some cells)) res] /\
     x = (if res.1 <? 0 then -1 else 0, "")).

Definition smbus_data (size : Z) fn : cmd_data :=
  {| privdata := PrivSmbus (make_smbus_op size fn); sizedata := None |}.

(** C5: with valid arguments, [smbus_write<n>] and [smbus_writeblock] are a
    session with the slave in which the one transaction is the request their
    value stands for; a failing call makes them fail, and the file is closed. *)
Theorem smbus_write_refines argv a bus addr r size code cells t o :
  targets argv bus addr r -> argv !! 4%nat = Some a -> write_request size a code cells ->
  exec (smbus_write argv (smbus_data size smbus_write_op)) t o ->
  exists rc, o = Returned rc /\
    slave_session bus addr (write_body addr r code cells) (device_events t)
      (rc, output_of Stdout t).
Proof.
  intros Ht Ha Hreq H.
  assert (has_register size = true /\ (size =? SMBUS_SIZE_BYTE) || (size =? SMBUS_QUICK) = false)
    as [Hreg Hsz] by (by destruct Hreq).
  pose proof Ht as (c & a1 & a2 & a3 & rest & E & _ & _ & H3).
  pose proof (uint8_value_range 0 _ _ ltac:(lia) H3) as Hr.
  unfold smbus_write, smbus_data, get_op in H.
  cbn [privdata op_size make_smbus_op mbind prog_mbind prog_bind] in H. rewrite Hsz in H.
  apply (exec_with_slave _ _ _ _ _ _ _ _ _ _ (prologue_targets _ _ _ _ _ _ Ht Hreg) H). clear H. intros f t2 _ H.
  fold (attached f bus addr r params_uninit) in H.
  unfold write_and_perform, argv_at in H. rewrite Ha in H. cbn [mbind prog_mbind prog_bind] in H.
  destruct (request_transfer _ _ _ _ (attached f bus addr r params_uninit) f r Hreq eq_refl
    eq_refl Hr) as (p2 & Hparse & (Ef & Ea & Er & _) & Htr).
  cbn [op_size make_smbus_op perform_op] in H. rewrite Hparse in H.
  cbn [mbind prog_mbind prog_bind Z.ltb Z.compare] in H.
  unfold smbus_write_op, force_slave, report_at in H. rewrite Ef, Ea, Er, Htr in H.
  cbn [attached aimed set_fd set_reg set_address set_i2c_bus fd address reg] in *.
  exec_run H; rewrite ?Ef in *; simplify_eq; tests;
    cbn [device_events List.filter is_device ev_act output_of].
  - exists (-1). eexists [_], _. split; [done|]. split; [done|]. left. by exists r0.
  - eexists _, [_; _], _. split; [done|]. split; [done|]. right. exists r0, r1.
    by destruct (Z.ltb_spec r1.1 0); [|lia].
  - eexists _, [_; _], _. split; [done|]. split; [done|]. right. exists r0, r1.
    by destruct (Z.ltb_spec r1.1 0); [|lia].
  - eexists _, [_; _], _. split; [done|]. split; [done|]. right. exists r0, r1.
    by destruct (Z.ltb_spec r1.1 0); [lia|].
Qed.

(** The file the handler closes is its own. *)
Ltac own_file :=
  repeat match goal with
  | E : defined (fd _) = _ |- _ => injection E as <-
  | E : fd _ = Some _ |- _ => injection E as <-
  end.

(** ** Commands without a register *)

Inductive bare_request : Z -> string -> Z -> Z -> Z -> Prop :=
  | bare_byte a v :
      whole_value a = Some v -> v <> LONG_MAX ->
      bare_request SMBUS_SIZE_BYTE a I2C_SMBUS_WRITE (v mod 256) I2C_SMBUS_BYTE
  | bare_quick a v :
      whole_value a = Some v -> v = 0 \/ v = 1 ->
      bare_request SMBUS_QUICK a v 0 I2C_SMBUS_QUICK.

Lemma bare_transfer size a rw command code p f :
  bare_request size a rw command code -> fd p = Some f ->
  exists p', parse_io_width a p size = Ret (0, p') /\ same_target p p' /\
  write_transfer p' size
  = Act (I2cSmbus f rw command code None) (fun res => Ret (Some res.1)).
Proof.
  intros H Hf. destruct H as [a v Hv Hm|a v Hv Hm].
  - eexists. split; [apply parse_fixed_ok; eassumption|]. split; [done|].
    unfold write_transfer. cbn [fd set_data data reg]. rewrite Hf.
    cbn -[union_set union_get wrapu SMBUS_DTYPE_SIZE]. rewrite union_get_set.
    by rewrite (wrapu_small 8 (wrapu _ _)) by (apply wrapu_range; lia).
  - exists (set_data (union_set 1 v (replicate SMBUS_DTYPE_SIZE Byte.x00))
              (set_data (replicate SMBUS_DTYPE_SIZE Byte.x00) p)).
    split; [|split; [done|]].
    + unfold parse_io_width. cbn -[strtoul_end replicate SMBUS_DTYPE_SIZE].
      rewrite (whole_value_parse _ _ Hv).
      unfold ismaxortrailingjunk. rewrite long_max_large by lia.
      by destruct Hm as [-> | ->].
    + unfold write_transfer. cbn [fd set_data data reg]. rewrite Hf.
      cbn -[union_set union_get wrapu SMBUS_DTYPE_SIZE]. rewrite union_get_set.
      by destruct Hm as [-> | ->].
Qed.

(** C22: with valid arguments, [smbus_send_byte] and [smbus_quick] are a session
    of one transaction without data: the byte is the command, the quick bit the
    direction. *)
Theorem smbus_send_refines argv a bus addr size rw command code t o :
  aims argv bus addr -> argv !! 3%nat = Some a -> bare_request size a rw command code ->
  exec (smbus_write argv (smbus_data size smbus_write_op)) t o ->
  exists rc, o = Returned rc /\
    slave_session bus addr (fun f u x =>
      (exists r0 : Z, r0 < 0 /\ u = [Ev (Ioctl f I2C_SLAVE_FORCE addr) r0] /\ x = (-1, "")) \/
      (exists (r0 : Z) res, 0 <= r0 /\
         u = [Ev (Ioctl f I2C_SLAVE_FORCE addr) r0; Ev (I2cSmbus f rw command code None) res] /\
         x = (if res.1 <? 0 then -1 else 0, "")))
      (device_events t) (rc, output_of Stdout t).
Proof.
  intros Ht Ha Hreq H.
  assert (has_register size = false /\ (size =? SMBUS_SIZE_BYTE) || (size =? SMBUS_QUICK) = true)
    as [Hreg Hsz] by (by destruct Hreq).
  unfold smbus_write, smbus_data, get_op in H.
  cbn [privdata op_size make_smbus_op mbind prog_mbind prog_bind] in H. rewrite Hsz in H.
  apply (exec_with_slave _ _ _ _ _ _ _ _ _ _ (prologue_aims _ _ _ _ _ Ht Hreg) H). clear H.
  intros f t2 _ H. unfold write_and_perform, argv_at in H. rewrite Ha in H.
  cbn [mbind prog_mbind prog_bind op_size make_smbus_op perform_op] in H.
  destruct (bare_transfer _ _ _ _ _ (set_fd f (aimed bus addr params_uninit)) f Hreq eq_refl)
    as (p2 & Hparse & (Ef & Ea & Er & _) & Htr).
  rewrite Hparse in H. cbn [mbind prog_mbind prog_bind Z.ltb Z.compare] in H.
  unfold smbus_write_op, force_slave, report_at in H. rewrite Ef, Ea, Htr in H.
  cbn [aimed set_fd set_address set_i2c_bus fd address] in *.
  rewrite <- negb_orb, Hsz in H. cbn [negb] in H.
  exec_run H; rewrite ?Ef in *; simplify_eq; tests;
    cbn [device_events List.filter is_device ev_act output_of].
  - exists (-1). eexists [_], _. split; [done|]. split; [done|]. left. by exists r.
  - eexists _, [_; _], _. split; [done|]. split; [done|]. right. exists r, r0.
    by destruct (Z.ltb_spec r0.1 0); [|lia].
  - eexists _, [_; _], _. split; [done|]. split; [done|]. right. exists r, r0.
    by destruct (Z.ltb_spec r0.1 0); [lia|].
Qed.

(** ** Process calls *)

(** C24: [smbus_process_call] sends the word it was given and, if the call
    succeeds, prints that word, whatever the device answered. *)
Theorem smbus_process_call_refines argv a v bus addr r t o :
  targets argv bus addr r -> argv !! 4%nat = Some a ->
  whole_value a = Some v -> v <> LONG_MAX ->
  exec (smbus_process_call argv (smbus_data SMBUS_PROC_CALL smbus_process_call_op)) t o ->
  exists rc, o = Returned rc /\
    slave_session bus addr (fun f u x =>
      (exists r0 : Z, r0 < 0 /\ u = [Ev (Ioctl f I2C_SLAVE_FORCE addr) r0] /\ x = (-1, "")) \/
      (exists (r0 : Z) res, 0 <= r0 /\
         u = [Ev (Ioctl f I2C_SLAVE_FORCE addr) r0;
              Ev (I2cSmbus f I2C_SMBUS_WRITE r I2C_SMBUS_PROC_CALL
                    (Some (map Some (host_bytes 2 v) ++ replicate 33 None))) res] /\
         x = if res.1 =? 0 then (0, "0x" +:+ fmt_0X 4 (v mod 2 ^ 16) +:+ newline) else (-1, "")))
      (device_events t) (rc, output_of Stdout t).
Proof.
  intros Ht Ha Hv Hm H. pose proof Ht as (c & a1 & a2 & a3 & rest & E & _ & _ & H3).
  pose proof (uint8_value_range 0 _ _ ltac:(lia) H3) as Hr.
  unfold smbus_process_call, smbus_data, get_op in H.
  cbn [privdata op_size make_smbus_op mbind prog_mbind prog_bind] in H.
  apply (exec_with_slave _ _ _ _ _ SMBUS_PROC_CALL _ _ _ _
    (prologue_targets _ _ _ _ _ SMBUS_PROC_CALL Ht eq_refl) H). clear H. intros f t2 _ H.
  fold (attached f bus addr r params_uninit) in H.
  unfold write_and_perform, argv_at in H. rewrite Ha in H.
  cbn [mbind prog_mbind prog_bind op_size perform_op make_smbus_op] in H.
  change (parse_io_width a ?p SMBUS_PROC_CALL)
    with (parse_fixed 2 a (set_data (replicate SMBUS_DTYPE_SIZE Byte.x00) p)
            (replicate SMBUS_DTYPE_SIZE Byte.x00)) in H.
  rewrite (parse_fixed_ok _ _ _ _ _ Hv Hm) in H.
  cbn [mbind prog_mbind prog_bind Z.ltb Z.compare] in H.
  unfold smbus_process_call_op, force_slave, report_at, i2c_smbus_process_call,
    i2c_smbus_access, report_dot in H.
  cbn [attached aimed set_fd set_reg set_address set_i2c_bus set_data fd address reg data] in H.
  change (print_read_data SMBUS_SIZE_16 0)
    with (fun d => printf ("0x" +:+ fmt_0X 4 (union_get 2 d) +:+ newline)) in H.
  prog_norm_in H. rewrite (wrapu_small 8 r), !union_get_set in H by plia.
  unfold set_member in H. rewrite host_bytes_wrapu in H by done.
  exec_run H; injection Heqo0 as <-; tests; cbn [device_events List.filter is_device ev_act output_of].
  - exists (-1). eexists [_], _. split; [done|]. split; [done|]. left. by exists r0.
  - eexists _, [_; _], _. split; [done|]. split; [done|]. right. exists r0, r1.
    by destruct (Z.eqb_spec r1.1 0).
  - pose proof (Z.land_nonneg 0xFFFF (union_get 2 r1.2)). lia.
  - eexists _, [_; _], _. split; [done|]. split; [done|]. right. exists r0, r1.
    destruct (Z.eqb_spec r1.1 0); [|done]. by rewrite str_app_nil_r.
Qed.

(** ** Reading *)

(** The transaction of a read: its type, and the union passed in, of which
    only the length of an I2C block is determined. *)
Definition read_code (size : Z) : Z :=
  if size =? SMBUS_SIZE_8 then I2C_SMBUS_BYTE_DATA
  else if size =? SMBUS_SIZE_16 then I2C_SMBUS_WORD_DATA
  else if size =? SMBUS_SIZE_BLOCK then I2C_SMBUS_BLOCK_DATA
  else I2C_SMBUS_I2C_BLOCK_DATA.
Definition read_cells (size : Z) : list (option byte) :=
  if size =? SMBUS_SIZE_32 then Some (byte.of_Z 4) :: replicate 34 None
  else if size =? SMBUS_SIZE_64 then Some (byte.of_Z 8) :: replicate 34 None
  else i2c_data_uninit.

(** The text for the bytes the kernel left in the union; [None] for an I2C
    block of another length than asked for. *)
Definition read_text (size : Z) (out : list byte) : option string :=
  if size =? SMBUS_SIZE_8 then Some ("0x" +:+ fmt_0X 2 (host_load (take 1 out)))
  else if size =? SMBUS_SIZE_16 then Some ("0x" +:+ fmt_0X 4 (host_load (take 2 out)))
  else
    match out with
    | [] => None
    | b :: bs =>
        if size =? SMBUS_SIZE_BLOCK then Some (hex_text (take (Z.to_nat (byte.unsigned b)) bs))
        else if byte.unsigned b =? size / 8
        then Some ("0x" +:+ fmt_0X (Z.to_nat (size / 4)) (host_load (take (Z.to_nat (size / 8)) bs)))
        else None
    end.

Definition register_read (size : Z) : Prop :=
  size = SMBUS_SIZE_8 \/ size = SMBUS_SIZE_16 \/ size = SMBUS_SIZE_32 \/
  size = SMBUS_SIZE_64 \/ size = SMBUS_SIZE_BLOCK.

(** What the transfer returns for an answer of the kernel. *)
Definition read_outcome (size : Z) (res : Z * list byte) : Z * string :=
  match (if res.1 =? 0 then read_text size res.2 else None) with
  | Some text => (0, text +:+ newline)
  | None => (-1, "")
  end.

Lemma land_mask n k v : 0 <= v < 2 ^ n -> k = 2 ^ n - 1 -> 0 <= n -> Z.land k v = v.
Proof.
  intros Hv -> Hn. replace (2 ^ n - 1) with (Z.ones n) by (rewrite Z.ones_equiv; lia).
  rewrite Z.land_comm, Z.land_ones by done. by apply Z.mod_small.
Qed.

Lemma member_range n out :
  (n <= length out)%nat -> 0 <= union_get n out < 2 ^ (8 * Z.of_nat n).
Proof. intros. apply host_load_range. rewrite length_take. lia. Qed.

(** The end of [smbus_read_op]. *)
Definition read_finish (p : smbus_op_params) (size result : Z) (data : list byte)
  : prog (Z * smbus_op_params) :=
  if result <? 0 then
    (if negb (size =? SMBUS_SIZE_BYTE)
     then report_at "can't read register" (reg p)
     else report_at "can't read from device" (address p));;
    Ret (-1, p)
  else print_read_data size (wraps 32 result) data;; Ret (0, p).

(** A program that prints [s], whatever happens. *)
Definition prints (p : prog unit) (s : string) : Prop :=
  forall t o, exec p t o -> o = Returned tt /\ device_events t = [] /\ output_of Stdout t = s.

Lemma prints_printf s : prints (printf s) s.
Proof. intros t o H. exec_run H. repeat split. by out_norm. Qed.

(** A result and a buffer that show the text, or failure. *)
Definition shows (size result : Z) (data : list byte) (text : option string) : Prop :=
  match text with
  | None => result < 0
  | Some s => 0 <= result /\ prints (print_read_data size (wraps 32 result) data) (s +:+ newline)
  end.

Lemma exec_read_finish p size result data text f r t o :
  exec (read_finish p size result data) t o -> fd p = Some f -> reg p = Some r ->
  size <> SMBUS_SIZE_BYTE -> shows size result data text ->
  exists rc p', o = Returned (rc, p') /\ fd p' = Some f /\ device_events t = [] /\
  (rc, output_of Stdout t) = match text with Some s => (0, s +:+ newline) | None => (-1, "") end.
Proof.
  intros H Hf Hr Hs Hshow. unfold read_finish in H. apply Z.eqb_neq in Hs. rewrite Hs, Hr in H.
  destruct text as [s|]; cbn in Hshow.
  - destruct (Z.ltb_spec result 0); [lia|]. destruct Hshow as [_ Hp].
    apply (exec_bind_inv (print_read_data _ _ _)) in H as [([] & t1 & t2 & H1 & H2 & ->)|(e & H1 & _)];
      apply Hp in H1 as (? & Hd & Ho); [|done].
    apply exec_ret_iff in H2 as [-> ->]. rewrite app_nil_r, Ho. exists 0, p. done.
  - destruct (Z.ltb_spec result 0); [|lia]. unfold report_at in H. exec_run H. exists (-1), p. done.
Qed.

(** What the contract of the kernel says of an answer. *)
Definition answer_ok (code : Z) (res : Z * list byte) : Prop :=
  (res.1 = -1 \/ res.1 = 0) /\ length res.2 = 35%nat /\
  (res.1 = 0 -> code = 5 \/ code = 7 \/ code = 8 ->
   forall b bs, res.2 = b :: bs -> byte.unsigned b <= 32).

Lemma prints_member size d v text :
  print_read_data size (wraps 32 v) d = printf ("0x" +:+ text +:+ newline) ->
  prints (print_read_data size (wraps 32 v) d) (("0x" +:+ text) +:+ newline).
Proof. intros ->. rewrite str_app_assoc. apply prints_printf. Qed.

Definition zeros : list byte := replicate SMBUS_DTYPE_SIZE Byte.x00.

(** What a block transfer into a buffer of at least 32 bytes returns. *)
Lemma block_answer_into code res values :
  answer_ok code res -> code = 5 \/ code = 7 \/ code = 8 -> (32 <= length values)%nat ->
  (res.1 = -1 /\ block_result res values = Ret (-1, values)) \/
  (res.1 = 0 /\ exists b bs, res.2 = b :: bs /\ 0 <= byte.unsigned b <= 32 /\ length bs = 34%nat /\
   block_result res values =
   Ret (byte.unsigned b, take (Z.to_nat (byte.unsigned b)) bs ++
                         drop (Z.to_nat (byte.unsigned b)) values)).
Proof.
  destruct res as [rc out]. intros (Hrc & Hlen & Hb) Hcode Hv. cbn [fst snd] in *.
  destruct Hrc as [-> | ->]; [by left|right]. split; [done|].
  destruct out as [|b bs]; [done|]. cbn [length] in Hlen.
  specialize (Hb eq_refl Hcode b bs eq_refl). pose proof (byte.unsigned_range b).
  exists b, bs. repeat split; try lia. by apply block_result_ok; [|lia|].
Qed.
(** What a block transfer into the zeroed buffer returns. *)
Lemma block_answer code res :
  answer_ok code res -> code = 5 \/ code = 7 \/ code = 8 ->
  (res.1 = -1 /\ block_result res zeros = Ret (-1, zeros)) \/
  (res.1 = 0 /\ exists b bs, res.2 = b :: bs /\ 0 <= byte.unsigned b <= 32 /\ length bs = 34%nat /\
   block_result res zeros =
   Ret (byte.unsigned b, take (Z.to_nat (byte.unsigned b)) bs ++
                         drop (Z.to_nat (byte.unsigned b)) zeros)).
Proof.
  intros. apply (block_answer_into code); [done..|].
  unfold zeros. rewrite length_replicate. unfold SMBUS_DTYPE_SIZE. lia.
Qed.

(** A fixed-size operand read as an I2C block. *)
Lemma shows_i2c_block size n b bs :
  (n = 4%nat /\ size = SMBUS_SIZE_32) \/ (n = 8%nat /\ size = SMBUS_SIZE_64) ->
  (n <= length bs)%nat -> 0 <= byte.unsigned b <= 32 ->
  shows size (if negb (byte.unsigned b =? Z.of_nat n) then -1 else byte.unsigned b)
    (take (Z.to_nat (byte.unsigned b)) bs ++ drop (Z.to_nat (byte.unsigned b)) zeros)
    (read_text size (b :: bs)).
Proof.
  intros Hn Hlen Hb.
  assert (read_text size (b :: bs) =
    if byte.unsigned b =? Z.of_nat n
    then Some ("0x" +:+ fmt_0X (n * 2) (host_load (take n bs))) else None) as ->
    by (by destruct Hn as [[-> ->]|[-> ->]]).
  destruct (Z.eqb_spec (byte.unsigned b) (Z.of_nat n)) as [E|]; cbn [negb shows]; [|lia].
  split; [lia|]. apply prints_member. rewrite E, Nat2Z.id.
  assert (union_get n (take n bs ++ drop n zeros) = host_load (take n bs)) as <-.
  { unfold union_get. by rewrite take_app_length' by (rewrite length_take; lia). }
  by destruct Hn as [[-> ->]|[-> ->]].
Qed.

Lemma shows_member size n out :
  (n = 1%nat /\ size = SMBUS_SIZE_8) \/ (n = 2%nat /\ size = SMBUS_SIZE_16) ->
  (n <= length out)%nat ->
  shows size (Z.land (2 ^ (8 * Z.of_nat n) - 1) (union_get n out))
    (union_set n (Z.land (2 ^ (8 * Z.of_nat n) - 1) (union_get n out)) zeros)
    (read_text size out).
Proof.
  intros Hn Hlen. pose proof (member_range n out Hlen) as Hr.
  rewrite (land_mask (8 * Z.of_nat n)) by (done || lia).
  assert (read_text size out = Some ("0x" +:+ fmt_0X (n * 2) (union_get n out))) as ->
    by (by destruct Hn as [[-> ->]|[-> ->]]).
  split; [lia|]. apply prints_member.
  assert (union_get n (union_set n (union_get n out) zeros) = union_get n out) as E
    by (rewrite union_get_set; by apply wrapu_small).
  rewrite <- E at 3. by destruct Hn as [[-> ->]|[-> ->]].
Qed.

Lemma shows_block b bs :
  0 <= byte.unsigned b <= 32 -> (32 <= length bs)%nat ->
  shows SMBUS_SIZE_BLOCK (byte.unsigned b)
    (take (Z.to_nat (byte.unsigned b)) bs ++ drop (Z.to_nat (byte.unsigned b)) zeros)
    (read_text SMBUS_SIZE_BLOCK (b :: bs)).
Proof.
  intros Hb Hlen. split; [lia|]. intros t o H. rewrite wraps_small in H by plia.
  apply exec_print_block in H as (-> & Hd & ->); [|lia|].
  - repeat split; [done|]. by rewrite take_app_length' by (rewrite length_take; lia).
  - rewrite length_app, length_take, length_drop. unfold zeros. rewrite length_replicate.
    unfold SMBUS_DTYPE_SIZE. lia.
Qed.

Lemma exec_read_transfer p f r size t o :
  fd p = Some f -> reg p = Some r -> 0 <= r < 256 -> register_read size ->
  exec (read_transfer p size zeros) t o ->
  exists res t',
    t = Ev (I2cSmbus f I2C_SMBUS_READ r (read_code size) (Some (read_cells size))) res :: t' /\
  (answer_ok (read_code size) res -> t' = [] /\
   exists result data, o = Returned (Some (result, data)) /\
     shows size result data (if res.1 =? 0 then read_text size res.2 else None)).
Proof.
  intros Hf Hr Hrange Hs H. unfold read_transfer in H. rewrite Hf, Hr in H.
  destruct Hs as [->|[->|[->|[->| ->]]]];
    cbn -[union_set union_get wrapu zeros clamp_length block_result Z.land] in H;
    rewrite (wrapu_small 8 r) in H by plia;
    apply exec_inv in H as (res & t' & -> & H); exists res, t'; (split; [done|]); intros Hok.
  1, 2: destruct Hok as (Hrc & Hlen & _);
    destruct (res.1 =? 0); cbn [negb] in H; apply exec_ret_iff in H as [-> ->];
    (split; [done|]); (do 2 eexists; split; [done|]); [|done].
  - apply (shows_member _ 1); [auto|lia].
  - apply (shows_member _ 2); [auto|lia].
  - destruct (block_answer _ _ Hok) as [[E Hb]|(E & b & bs & E2 & Hr0 & Hl & Hb)]; [auto|..];
      rewrite Hb in H; apply exec_ret_iff in H as [-> ->]; (split; [done|]);
      (do 2 eexists; split; [done|]); rewrite E; [done|]. cbn [Z.eqb]. rewrite E2.
    apply (shows_i2c_block _ 4); [auto|lia|lia].
  - destruct (block_answer _ _ Hok) as [[E Hb]|(E & b & bs & E2 & Hr0 & Hl & Hb)]; [auto|..];
      rewrite Hb in H; apply exec_ret_iff in H as [-> ->]; (split; [done|]);
      (do 2 eexists; split; [done|]); rewrite E; [done|]. cbn [Z.eqb]. rewrite E2.
    apply (shows_i2c_block _ 8); [auto|lia|lia].
  - destruct (block_answer _ _ Hok) as [[E Hb]|(E & b & bs & E2 & Hr0 & Hl & Hb)]; [auto|..];
      rewrite Hb in H; apply exec_ret_iff in H as [-> ->]; (split; [done|]);
      (do 2 eexists; split; [done|]); rewrite E; [done|]. cbn [Z.eqb]. rewrite E2.
    apply shows_block; lia.
Qed.

Lemma exec_read_op p f r size t o :
  fd p = Some f -> reg p = Some r -> 0 <= r < 256 -> register_read size ->
  (forall e, In e t -> exists u, kernel_ok u (ev_act e) (ev_res e)) ->
  exec (smbus_read_op p size) t o ->
  exists res rc p', o = Returned (rc, p') /\ fd p' = Some f /\
  device_events t
  = [Ev (I2cSmbus f I2C_SMBUS_READ r (read_code size) (Some (read_cells size))) res] /\
  (rc, output_of Stdout t) = read_outcome size res.
Proof.
  intros Hf Hr Hrange Hs Hk H. unfold smbus_read_op in H. fold zeros in H.
  assert (size <> SMBUS_SIZE_BYTE) as Hsz by (by destruct Hs as [->|[->|[->|[->| ->]]]]).
  assert (forall res, In (Ev (I2cSmbus f I2C_SMBUS_READ r (read_code size)
      (Some (read_cells size))) res) t -> answer_ok (read_code size) res) as Hans.
  { intros res Hin. destruct (Hk _ Hin) as (u & Hrc & Hlen & Hb).
    split; [exact Hrc|]. split; [|exact Hb].
    transitivity (length (read_cells size)); [exact (Hlen _ eq_refl)|].
    by destruct Hs as [->|[->|[->|[->| ->]]]]. }
  apply (exec_bind_inv (read_transfer _ _ _)) in H as [(x & t1 & t2 & H1 & H2 & ->)|(s & H1 & _)];
    apply (exec_read_transfer _ f r) in H1 as (res & t' & -> & H1); try done.
  - specialize (H1 (Hans res ltac:(by left))).
    destruct H1 as (-> & result & d & E & Hshow).
    injection E as ->. fold (read_finish (set_data d (set_data zeros p)) size result d) in H2.
    apply (exec_read_finish _ _ _ _ _ f r) with (5 := Hshow) in H2
      as (rc & p' & -> & Hf' & Hd & Ho); try done.
    exists res, rc, p'. split; [done|]. split; [done|]. rewrite device_events_app, Hd.
    split; [done|]. exact Ho.
  - specialize (H1 (Hans res ltac:(by left))).
    by destruct H1 as (_ & result & d & ? & _).
Qed.

(** C4: with valid arguments, [smbus_read<n>] and [smbus_readblock] are a
    session of one read transaction; they print the bytes the kernel returned,
    and fail without output if it failed or returned an I2C block of another
    length.  A comment in [smbus_read_op] asks for a number of bytes of at
    least 1; the code only refuses negative ones, so the theorem says of a block
    of no bytes, too, that the command succeeds, with an empty line. *)
Theorem smbus_read_refines argv bus addr r size t o :
  targets argv bus addr r -> register_read size -> relied (safely no_stop) [] t ->
  exec (smbus_read argv (smbus_data size smbus_read_op)) t o ->
  exists rc, o = Returned rc /\
    slave_session bus addr (fun f u x => exists res,
      u = [Ev (I2cSmbus f I2C_SMBUS_READ r (read_code size) (Some (read_cells size))) res] /\
      x = read_outcome size res) (device_events t) (rc, output_of Stdout t).
Proof.
  intros Ht Hs Hrel H.
  assert (has_register size = true /\ size <> SMBUS_SIZE_BYTE) as [Hreg Hsz]
    by (by destruct Hs as [->|[->|[->|[->| ->]]]]).
  pose proof Ht as (c & a1 & a2 & a3 & rest & E & _ & _ & H3).
  pose proof (uint8_value_range 0 _ _ ltac:(lia) H3) as Hr.
  unfold smbus_read, smbus_data, get_op in H.
  cbn [privdata op_size make_smbus_op mbind prog_mbind prog_bind] in H.
  apply (exec_with_slave _ _ _ _ _ _ _ _ _ _ (prologue_targets _ _ _ _ _ _ Ht Hreg) H). clear H. intros f t2 Hincl H.
  fold (attached f bus addr r params_uninit) in H.
  cbn [op_size make_smbus_op perform_op] in H.
  assert (forall e, In e t2 -> exists u, kernel_ok u (ev_act e) (ev_res e)) as Hk
    by (intros e He; apply (relied_in _ _ _ _ Hrel (Hincl e He))).
  apply (exec_bind_inv (smbus_read_op _ _)) in H as [([ret p'] & t3 & t4 & H1 & H2 & ->)|(s & H1 & _)];
    apply (exec_read_op _ f r) in H1 as (res & rc & p2 & E1 & Hf & Hd & Ho); try done;
    try (intros e He; apply Hk; try apply in_app_iff; auto).
  injection E1 as -> ->. rewrite Hf in H2. exec_run H2. exists rc. eexists _, _.
  split; [done|]. split; [rewrite device_events_app, Hd; reflexivity|]. exists res.
  split; [done|]. rewrite output_of_app. cbn [output_of]. by rewrite str_app_nil_r.
Qed.
(** C23: [smbus_receive_byte] is a session of one read transaction and prints the
    byte it returns. *)
Theorem smbus_receive_byte_refines argv bus addr t o :
  aims argv bus addr ->
  exec (smbus_read argv (smbus_data SMBUS_SIZE_BYTE smbus_read_op)) t o ->
  exists rc, o = Returned rc /\
    slave_session bus addr (fun f u x => exists res,
      u = [Ev (I2cSmbus f I2C_SMBUS_READ 0 I2C_SMBUS_BYTE (Some i2c_data_uninit)) res] /\
      x = if res.1 =? 0
          then (0, "0x" +:+ fmt_0X 2 (host_load (take 1 res.2)) +:+ newline)
          else (-1, "")) (device_events t) (rc, output_of Stdout t).
Proof.
  intros Ht H. unfold smbus_read, smbus_data, get_op in H.
  cbn [privdata op_size make_smbus_op mbind prog_mbind prog_bind] in H.
  apply (exec_with_slave _ _ _ _ _ _ _ _ _ _
    (prologue_aims _ _ _ _ SMBUS_SIZE_BYTE Ht eq_refl) H). clear H.
  intros f t2 _ H. cbn [op_size make_smbus_op perform_op] in H.
  unfold smbus_read_op, read_transfer, i2c_smbus_read_byte, i2c_smbus_access, report_at in H.
  cbn -[union_set union_get SMBUS_DTYPE_SIZE i2c_data_uninit Z.land print_read_data fmt_0X] in H.
  apply exec_inv in H as (res & t' & -> & H).
  change (print_read_data SMBUS_SIZE_BYTE)
    with (fun (_ : Z) d => printf ("0x" +:+ fmt_0X 2 (union_get 1 d) +:+ newline)) in H.
  assert (0 <= union_get 1 res.2 < 2 ^ 8) as Hr.
  { unfold union_get, host_load. pose proof (le_combine_bound (rev (take 1 res.2))) as H1.
    pose proof (le_combine_bound (take 1 res.2)) as H2. rewrite length_rev in H1.
    assert (Z.of_nat (length (take 1 res.2)) <= 1) by (rewrite length_take; lia).
    assert (2 ^ (8 * Z.of_nat (length (take 1 res.2))) <= 2 ^ 8)
      by (apply Z.pow_le_mono_r; lia).
    destruct is_big_endian; lia. }
  destruct (res.1 =? 0) eqn:E; cbn [negb] in H; cbn [prog_bind] in H.
  - rewrite (land_mask 8) in H by (done || lia). cbn [mbind prog_mbind prog_bind] in H.
    rewrite union_get_set, wrapu_small in H by (done || lia).
    destruct (Z.ltb_spec (union_get 1 res.2) 0); [lia|]. exec_run H; own_file; cbn [device_events List.filter is_device ev_act output_of].
    eexists _, [_], _. split; [done|]. split; [done|]. exists res. rewrite E. split; [done|].
    by rewrite str_app_nil_r.
  - exec_run H; own_file; cbn [device_events List.filter is_device ev_act output_of].
    eexists _, [_], _. split; [done|]. split; [done|]. exists res. by rewrite E.
Qed.

(** ** Blocks sent and received *)

Lemma parse_block_operand size bs a p :
  is_block size = true -> a = hex_text bs \/ a = "0x" +:+ hex_text bs ->
  (1 <= length bs <= 32)%nat ->
  parse_io_width a p size =
  Ret (0, set_len (Z.of_nat (length bs))
            (set_data (bs ++ drop (length bs) zeros) (set_data zeros p))).
Proof.
  intros Hsize Ha Hbs.
  assert (size = SMBUS_SIZE_BLOCK \/ size = SMBUS_BLOCK_PROC_CALL \/ size = SMBUS_WRITE_READ)
    as Hs by (unfold is_block in Hsize; lia).
  assert (parse_io_width a p size =
    (r ← parse_block a zeros;
     match r with
     | None => Ret (-1, set_data zeros p)
     | Some (array, n) => Ret (0, set_len n (set_data array (set_data zeros p)))
     end)) as -> by (by destruct Hs as [->|[->| ->]]).
  rewrite (parse_block_text bs); [done|done|by intros ->; cbn in Hbs; lia|lia|].
  unfold zeros. rewrite length_replicate. unfold SMBUS_DTYPE_SIZE. lia.
Qed.

Lemma sent_length bs : (length bs <= 32)%nat -> length (bs ++ drop (length bs) zeros) = 34%nat.
Proof.
  intros. unfold zeros. rewrite length_app, length_drop, length_replicate.
  unfold SMBUS_DTYPE_SIZE. lia.
Qed.

(** The union of a block request. *)
Definition sent_block (bs : list byte) : list (option byte) :=
  Some (byte.of_Z (Z.of_nat (length bs))) :: map Some bs ++ replicate (34 - length bs) None.

Lemma block_process_call_run f r bs :
  0 <= r < 256 -> (length bs <= 32)%nat ->
  i2c_smbus_block_process_call f r (Z.of_nat (length bs)) (bs ++ drop (length bs) zeros)
  = Act (I2cSmbus f I2C_SMBUS_WRITE r I2C_SMBUS_BLOCK_PROC_CALL (Some (sent_block bs)))
      (fun res => block_result res (bs ++ drop (length bs) zeros)).
Proof.
  intros Hr Hbs. unfold i2c_smbus_block_process_call, i2c_smbus_access.
  rewrite (wrapu_small 8 (Z.of_nat _)), (wrapu_small 8 r) by plia. unfold clamp_length.
  destruct (Z.ltb_spec 32 (Z.of_nat (length bs))); [lia|].
  rewrite block_cells_ok by (rewrite ?length_app; lia).
  by rewrite Nat2Z.id, take_app_length.
Qed.

(** What is printed of an answer. *)
Definition block_outcome (res : Z * list byte) : Z * string :=
  match res with
  | (0, b :: bs) => (0, hex_text (take (Z.to_nat (byte.unsigned b)) bs) +:+ newline)
  | _ => (-1, "")
  end.

(** The end of [smbus_block_process_call_op] and its handler. *)
Lemma exec_block_finish p f code res values t (o : outcome Z) :
  answer_ok code res -> code = 7 -> length values = 34%nat -> fd p = Some f ->
  exec (done_ ← (res' ← block_result res values;
                 if res'.1 <? 0
                 then report_dot "SMBUS Process call failed";; Ret (-1, set_data res'.2 p)
                 else print_read_data SMBUS_SIZE_BLOCK res'.1 res'.2;;
                      Ret (0, set_data res'.2 p));
        let '(ret, params) := done_ in f ← defined (fd params); act (Close f);; Ret ret) t o ->
  exists rc (r' : Z), o = Returned rc /\ device_events t = [Ev (Close f) r'] /\
    (rc, output_of Stdout t) = block_outcome res.
Proof.
  intros Hok -> Hlen Hf H.
  destruct (block_answer_into _ _ values Hok) as [[E Hb]|(E & b & bs & E2 & Hr & Hl & Hb)];
    [auto|lia|..]; rewrite Hb in H; cbn -[print_read_data report_dot] in H;
    destruct res as [rc out]; cbn [fst snd] in *; subst rc.
  - unfold report_dot in H. prog_norm_in H. change (fd (set_data values p)) with (fd p) in H.
    rewrite Hf in H. exec_run H.
    eexists _, _. split; [done|]. split; [done|]. done.
  - subst out. destruct (Z.ltb_spec (byte.unsigned b) 0); [lia|].
    apply (exec_bind_inv (print_read_data _ _ _ ≫= _)) in H
      as [(x & t1 & t2 & H1 & H2 & ->)|(e & H1 & _)];
      apply (exec_bind_inv (print_read_data _ _ _)) in H1
        as [(u & t3 & t4 & H3 & H4 & E4)|(e' & H3 & _)].
    all: apply exec_print_block in H3 as (? & Hd & Ho);
      [|lia|rewrite length_app, length_take, length_drop; lia]; try done.
    + apply exec_ret_iff in H4 as [-> E5]. injection E5 as ->. subst t1.
      cbn [fd set_data] in H2. rewrite Hf in H2. exec_run H2.
      eexists _, _. split; [done|]. rewrite app_nil_r. split; [by rewrite device_events_app, Hd|].
      rewrite output_of_app, Ho. cbn [output_of block_outcome].
      by rewrite str_app_nil_r, take_app_length' by (rewrite length_take; lia).
    + by apply exec_ret_iff in H4 as [_ ?].
Qed.

(** C17: [smbus_block_process_call] with valid arguments is a session of one block
    process call with the bytes given; it prints the block the device answered
    with. *)
Theorem smbus_block_process_call_refines argv a bs bus addr r t o :
  targets argv bus addr r -> argv !! 4%nat = Some a ->
  a = hex_text bs \/ a = "0x" +:+ hex_text bs -> (1 <= length bs <= 32)%nat ->
  relied (safely no_stop) [] t ->
  exec (smbus_process_call argv
          (smbus_data SMBUS_BLOCK_PROC_CALL smbus_block_process_call_op)) t o ->
  exists rc, o = Returned rc /\
    slave_session bus addr (fun f u x =>
      (exists r0 : Z, r0 < 0 /\ u = [Ev (Ioctl f I2C_SLAVE_FORCE addr) r0] /\ x = (-1, "")) \/
      (exists (r0 : Z) res, 0 <= r0 /\
         u = [Ev (Ioctl f I2C_SLAVE_FORCE addr) r0;
              Ev (I2cSmbus f I2C_SMBUS_WRITE r I2C_SMBUS_BLOCK_PROC_CALL
                    (Some (sent_block bs))) res] /\
         x = block_outcome res))
      (device_events t) (rc, output_of Stdout t).
Proof.
  intros Ht Ha Hbs Hlen Hrel H. pose proof Ht as (c & a1 & a2 & a3 & rest & E & _ & _ & H3).
  pose proof (uint8_value_range 0 _ _ ltac:(lia) H3) as Hr.
  unfold smbus_process_call, smbus_data, get_op in H.
  cbn [privdata op_size make_smbus_op mbind prog_mbind prog_bind] in H.
  apply (exec_with_slave _ _ _ _ _ SMBUS_BLOCK_PROC_CALL _ _ _ _
    (prologue_targets _ _ _ _ _ SMBUS_BLOCK_PROC_CALL Ht eq_refl) H). clear H.
  intros f t2 Hincl H. unfold write_and_perform, argv_at in H. rewrite Ha in H.
  cbn [mbind prog_mbind prog_bind op_size perform_op make_smbus_op] in H.
  rewrite (parse_block_operand _ bs) in H by done.
  cbn [mbind prog_mbind prog_bind Z.ltb Z.compare] in H.
  unfold smbus_block_process_call_op, force_slave, report_at in H.
  cbn [set_len set_data aimed set_fd set_reg set_address set_i2c_bus fd address reg data len
       defined mbind prog_mbind prog_bind] in H.
  apply exec_inv in H as (r0 & t3 & -> & H). cbn [mbind prog_mbind prog_bind] in H.
  destruct (Z.ltb_spec r0 0) as [Hr0|Hr0]; cbn [negb mbind prog_mbind prog_bind] in H.
  { exec_run H; try discriminate; own_file. exists (-1). eexists [_], _. split; [done|]. split; [done|].
    left. by exists r0. }
  cbn [prog_bind negb] in H.
  rewrite block_process_call_run in H by (done || lia).
  cbn [mbind prog_mbind prog_bind] in H.
  apply exec_inv in H as (res & t4 & -> & H).
  assert (answer_ok 7 res) as Hok.
  { destruct (relied_in _ _ _ (Ev (I2cSmbus f I2C_SMBUS_WRITE r I2C_SMBUS_BLOCK_PROC_CALL
      (Some (sent_block bs))) res) Hrel) as (u & Hrc & Hl & Hb); [apply Hincl; cbn; auto|].
    split; [exact Hrc|]. split; [|exact Hb]. transitivity (length (sent_block bs)); [exact (Hl _ eq_refl)|].
    unfold sent_block. cbn [length]. rewrite length_app, length_map, length_replicate. lia. }
  apply (exec_block_finish _ f 7) in H as (rc & r' & -> & Hd & Ho);
    [|exact Hok|done|apply sent_length; lia|done].
  eexists _, [_; _], _. split; [done|].
  cbn [device_events List.filter is_device ev_act output_of].
  fold (device_events t4). rewrite Hd. split; [done|]. right. exists r0, res. done.
Qed.

(** The combined transfer: write the bytes, then read into the same buffer. *)
Definition combined (addr : Z) (n count : Z) : list i2c_msg :=
  [{| msg_addr := addr; msg_flags := 0; msg_len := n |};
   {| msg_addr := addr; msg_flags := I2C_M_RD; msg_len := count |}].

(** The handler after its arguments were parsed. *)
Lemma exec_writeread_op p f addr n count buf t (o : outcome Z) :
  fd p = Some f -> address p = Some addr -> len p = Some n -> read_count p = Some count ->
  data p = Some buf -> 0 <= addr < 256 -> 0 <= n <= 32 -> 0 <= count <= 32 -> length buf = 34%nat ->
  (forall e, In e t -> exists u, kernel_ok u (ev_act e) (ev_res e)) ->
  exec (done_ ← smbus_writeread_op p SMBUS_WRITE_READ;
        let '(ret, params) := done_ in f ← defined (fd params); act (Close f);; Ret ret) t o ->
  exists rc res (r' : Z), o = Returned rc /\
    device_events t = [Ev (I2cRdwr f (combined addr n count) buf) res; Ev (Close f) r'] /\
    (rc, output_of Stdout t)
    = if res.1 <? 0 then (-1, "")
      else (0, hex_text (take (Z.to_nat count) res.2) +:+ newline).
Proof.
  intros Hf Ha Hn Hc Hd Haddr Hnr Hcr Hlen Hk H. unfold smbus_writeread_op in H.
  rewrite Hf, Ha, Hn, Hc, Hd in H. cbn [defined mbind prog_mbind prog_bind] in H.
  rewrite (wrapu_small 16 addr), !wraps_small in H by plia. fold (combined addr n count) in H.
  apply exec_inv in H as (res & t1 & -> & H). cbn [mbind prog_mbind prog_bind] in H.
  assert (length res.2 = 34%nat) as Hres.
  { destruct (Hk (Ev (I2cRdwr f (combined addr n count) buf) res)) as [u Hu]; [by left|].
    transitivity (length buf); [exact Hu|done]. }
  destruct (res.1 <? 0) eqn:E.
  - prog_norm_in H. change (fd (set_data res.2 p)) with (fd p) in H. rewrite Hf in H.
    exec_run H. exists (-1). do 2 eexists. split; [done|].
    cbn [device_events List.filter is_device ev_act]. split; [done|]. by rewrite E.
  - apply (exec_bind_inv (print_read_data _ _ _ ≫= _)) in H
      as [(x & t2 & t3 & H1 & H2 & ->)|(e & H1 & _)];
      apply (exec_bind_inv (print_read_data _ _ _)) in H1
        as [(u & t4 & t5 & H3 & H4 & E4)|(e' & H3 & _)].
    all: apply exec_print_block in H3 as (? & Hde & Ho); [|lia|lia]; try done.
    + apply exec_ret_iff in H4 as [-> E5]. injection E5 as ->. subst t2.
      cbn [fd set_data] in H2. rewrite Hf in H2. exec_run H2.
      exists 0. do 2 eexists. split; [done|]. rewrite app_nil_r.
      cbn [device_events List.filter is_device ev_act output_of].
      rewrite output_of_app, Ho, List.filter_app. fold (device_events t4). rewrite Hde, E.
      split; [done|]. cbn [output_of]. by rewrite str_app_nil_r.
    + by apply exec_ret_iff in H4 as [_ ?].
Qed.

(** C16: [smbus_writeread] with valid arguments is a session of one combined
    transfer that sends the bytes given and prints as many bytes as asked for,
    from the buffer as the kernel left it. *)
Theorem smbus_writeread_refines argv a b bs count bus addr t o :
  aims argv bus addr -> argv !! 3%nat = Some a -> argv !! 4%nat = Some b ->
  a = hex_text bs \/ a = "0x" +:+ hex_text bs -> (1 <= length bs <= 32)%nat ->
  uint8_value 0 b = Some count -> count <= 32 -> relied (safely no_stop) [] t ->
  exec (smbus_writeread argv (smbus_data SMBUS_WRITE_READ smbus_writeread_op)) t o ->
  exists rc, o = Returned rc /\
    slave_session bus addr (fun f u x => exists res,
      u = [Ev (I2cRdwr f (combined addr (Z.of_nat (length bs)) count)
             (bs ++ drop (length bs) zeros)) res] /\
      x = if res.1 <? 0 then (-1, "")
          else (0, hex_text (take (Z.to_nat count) res.2) +:+ newline))
      (device_events t) (rc, output_of Stdout t).
Proof.
  intros Ht Ha Hb Hbs Hlen Hcount Hc Hrel H.
  pose proof (uint8_value_range 0 _ _ ltac:(lia) Hcount) as Hcr.
  pose proof Ht as (c & a1 & a2 & rest & E & _ & H2).
  pose proof (uint8_value_range 0 _ _ ltac:(lia) H2) as Har.
  unfold smbus_writeread, smbus_data, get_op in H.
  cbn [privdata op_size make_smbus_op mbind prog_mbind prog_bind] in H.
  apply (exec_with_slave _ _ _ _ _ SMBUS_WRITE_READ _ _ _ _
    (prologue_aims _ _ _ _ SMBUS_WRITE_READ Ht eq_refl) H). clear H.
  intros f t2 Hincl H. unfold argv_at in H. rewrite Ha, Hb in H.
  cbn [mbind prog_mbind prog_bind op_size perform_op make_smbus_op] in H.
  rewrite (parse_block_operand _ bs) in H by done.
  cbn [mbind prog_mbind prog_bind Z.ltb Z.compare] in H.
  unfold parse_uint8 in H. rewrite (parse_uint8_ok 0 b count) in H by (done || lia).
  cbn [mbind prog_mbind prog_bind] in H. unfold I2C_SMBUS_BLOCK_MAX in H.
  destruct (Z.ltb_spec 32 count); [lia|].
  apply (exec_writeread_op _ f addr (Z.of_nat (length bs)) count (bs ++ drop (length bs) zeros))
    in H as (rc & res & r' & -> & Hd & Ho);
    try done; try lia; [|by apply sent_length; lia|].
  - exists rc. eexists [_], _. split; [done|]. split; [exact Hd|]. exists res. by rewrite Ho.
  - intros e He. apply (relied_in _ _ _ _ Hrel (Hincl e He)).
Qed.

Lemma ioctl_answer_inj f req arg f' req' arg' (r r' : Z) :
  Ev (Ioctl f req arg) r = Ev (Ioctl f' req' arg') r' -> r = r'.
Proof.
  intros E. exact (f_equal (fun e => match e with Ev (Ioctl _ _ _) v => v | _ => 0 end) E).
Qed.

Lemma open_answer_inj path flags path' flags' (r r' : Z) :
  Ev (Open path flags) r = Ev (Open path' flags') r' -> r = r'.
Proof.
  intros E. exact (f_equal (fun e => match e with Ev (Open _ _) v => v | _ => 0 end) E).
Qed.

(** C38: when the read count of [smbus_writeread] is not a byte or above 32, the
    command fails without transfer and returns with the slave's file open. *)
Theorem smbus_writeread_leaks argv a b bs bus addr t o (f r : Z) :
  aims argv bus addr -> argv !! 3%nat = Some a -> argv !! 4%nat = Some b ->
  a = hex_text bs \/ a = "0x" +:+ hex_text bs -> (1 <= length bs <= 32)%nat ->
  (forall count, uint8_value 0 b = Some count -> 32 < count) ->
  exec (smbus_writeread argv (smbus_data SMBUS_WRITE_READ smbus_writeread_op)) t o ->
  In (Ev (Open (devfile bus) O_RDWR) f) t -> In (Ev (Ioctl f I2C_SLAVE addr) r) t ->
  0 <= r ->
  o = Returned (-1) /\
  device_events t = [Ev (Open (devfile bus) O_RDWR) f; Ev (Ioctl f I2C_SLAVE addr) r].
Proof.
  intros Ht Ha Hb Hbs Hlen Hcount H Hin1 Hin2 Hr.
  unfold smbus_writeread, smbus_data, get_op in H.
  cbn [privdata op_size make_smbus_op mbind prog_mbind prog_bind] in H.
  destruct (prologue_aims argv bus addr params_zero SMBUS_WRITE_READ Ht eq_refl) as [Hpro Hbus].
  rewrite Hpro in H.
  assert (forall e, In e t -> is_device e = true -> In e (device_events t)) as Hdev
    by (intros; by apply filter_In).
  apply Hdev in Hin1; [|done]. apply Hdev in Hin2; [|done]. clear Hdev.
  apply (exec_bind_inv (attach _ _ _)) in H
    as [([rc p'] & t1 & t2 & Hp & H & ->)|(s & Hp & _)];
    apply (exec_attach _ _ _ _ _ Hbus) in Hp as [Hout Hp];
    [|by destruct Hp as [(? & ? & _)|(? & ? & ? & ? & ? & _)]].
  rewrite device_events_app in *.
  destruct Hp as [(q0 & E0 & Hs)|(f' & r0 & Hf & Hr0 & E0 & Hd)]; injection E0 as -> ->.
  - exfalso. apply exec_ret_iff in H as [-> ->]. rewrite app_nil_r in *.
    specialize (Hs (fun _ _ _ => False)). remember (device_events t1) as u eqn:Eu.
    inversion Hs as [f0 ? E|f0 r1 r2 ? Hr1 E|]; [..|done]; subst u; rewrite <- E in Hin2;
      destruct Hin2 as [E2|Hin2]; try done.
    destruct Hin2 as [E2|[E2|[]]]; [|done]. apply ioctl_answer_inj in E2. lia.
  - cbn [Z.ltb Z.compare] in H. unfold argv_at in H. rewrite Ha, Hb in H.
    cbn [mbind prog_mbind prog_bind op_size perform_op make_smbus_op] in H.
    rewrite (parse_block_operand _ bs) in H by done.
    cbn [mbind prog_mbind prog_bind Z.ltb Z.compare] in H.
    apply (exec_bind_inv (parse_uint8 b)) in H as [(cnt & t3 & t4 & H1 & H2 & ->)|(e & H1 & _)];
      apply parse_uint8_spec in H1 as (E1 & [Hq _] & _); try done.
    injection E1 as ->.
    assert (device_events t4 = [] /\ o = Returned (-1)) as [Hd4 ->].
    { destruct (uint8_value 0 b) as [count|]; [|by exec_run H2].
      specialize (Hcount _ eq_refl). unfold I2C_SMBUS_BLOCK_MAX in H2.
      destruct (Z.ltb_spec 32 count); [|lia]. by exec_run H2. }
    split; [done|]. rewrite device_events_app, Hq, Hd4, Hd in *. cbn in Hin1, Hin2 |- *.
    destruct Hin1 as [E1|[E1|[]]]; [|done]. destruct Hin2 as [E2|[E2|[]]]; [done|].
    apply open_answer_inj in E1 as ->. apply ioctl_answer_inj in E2 as ->. done.
Qed.
End Spec.

(** ** Witnesses *)

#[local] Existing Instance linux_x86_64.

Lemma target_args c rest : targets (c :: "1" :: "0x50" :: "0x10" :: rest) 1 0x50 0x10.
Proof. exists c, "1", "0x50", "0x10", rest. repeat split; vm_compute; reflexivity. Qed.

Lemma aim_args c rest : aims (c :: "1" :: "0x50" :: rest) 1 0x50.
Proof. exists c, "1", "0x50", rest. repeat split; vm_compute; reflexivity. Qed.

(** A block of four bytes, and a block of none. *)
Example smbus_read_refines_witness :
  let readblock := smbus_read ["smbus_readblock"; "1"; "0x50"; "0x10"]
                     (smbus_data SMBUS_SIZE_BLOCK smbus_read_op) in
  let shows t text := slave_session 1 0x50 (fun f u x => exists res,
    u = [Ev (I2cSmbus f 1 0x10 5 (Some (read_cells SMBUS_SIZE_BLOCK))) res] /\
    x = read_outcome SMBUS_SIZE_BLOCK res) (device_events t) (0, text) in
  (exists t, exec readblock t (Returned 0) /\ relied (safely no_stop) [] t /\
     shows t ("04040404" +:+ newline)) /\
  (exists t, exec readblock t (Returned 0) /\ relied (safely no_stop) [] t /\ shows t newline).
Proof.
  split;
    [run_env Byte.x04 (smbus_read ["smbus_readblock"; "1"; "0x50"; "0x10"]
                         (smbus_data SMBUS_SIZE_BLOCK smbus_read_op))
    |run_env Byte.x00 (smbus_read ["smbus_readblock"; "1"; "0x50"; "0x10"]
                         (smbus_data SMBUS_SIZE_BLOCK smbus_read_op))];
    (split; [exact Hrun|]); match goal with |- ?A /\ _ => assert A as Hr by relied_env end;
    (split; [exact Hr|]);
    destruct (smbus_read_refines _ _ _ _ _ _ _ (target_args _ [])
      (or_intror (or_intror (or_intror (or_intror eq_refl)))) Hr Hrun) as (rc & E & H);
    injection E as <-; exact H.
Defined.

Example smbus_write_refines_witness :
  exists t, exec (smbus_write ["smbus_write16"; "1"; "0x50"; "0x10"; "0x1234"]
                    (smbus_data SMBUS_SIZE_16 smbus_write_op)) t (Returned 0) /\
  slave_session 1 0x50 (write_body 0x50 0x10 I2C_SMBUS_WORD_DATA
    (map Some (host_bytes 2 0x1234) ++ replicate 33 None)) (device_events t) (0, "").
Proof.
  run_env Byte.x00 (smbus_write ["smbus_write16"; "1"; "0x50"; "0x10"; "0x1234"]
                      (smbus_data SMBUS_SIZE_16 smbus_write_op)).
  split; [exact Hrun|].
  assert (whole_value "0x1234" = Some 0x1234) as Hv by (vm_compute; reflexivity).
  assert (0x1234 <> LONG_MAX) as Hm by (vm_compute; discriminate).
  destruct (smbus_write_refines _ "0x1234" _ _ _ _ _ _ _ _ (target_args _ ["0x1234"]) eq_refl
    (request_16 "0x1234" 0x1234 Hv Hm) Hrun) as (rc & E & H).
  injection E as <-. exact H.
Defined.

Example smbus_send_refines_witness :
  exists t, exec (smbus_write ["smbus_quick"; "1"; "0x50"; "1"]
                    (smbus_data SMBUS_QUICK smbus_write_op)) t (Returned 0) /\
  exists rc, Returned 0 = Returned rc /\
    slave_session 1 0x50 (fun f u x =>
      (exists r0 : Z, r0 < 0 /\ u = [Ev (Ioctl f I2C_SLAVE_FORCE 0x50) r0] /\ x = (-1, "")) \/
      (exists (r0 : Z) res, 0 <= r0 /\
         u = [Ev (Ioctl f I2C_SLAVE_FORCE 0x50) r0; Ev (I2cSmbus f 1 0 0 None) res] /\
         x = (if res.1 <? 0 then -1 else 0, "")))
      (device_events t) (rc, output_of Stdout t).
Proof.
  run_env Byte.x00 (smbus_write ["smbus_quick"; "1"; "0x50"; "1"]
                      (smbus_data SMBUS_QUICK smbus_write_op)).
  split; [exact Hrun|].
  assert (whole_value "1" = Some 1) as Hv by (vm_compute; reflexivity).
  exact (smbus_send_refines _ "1" _ _ _ _ _ _ _ _ (aim_args _ ["1"]) eq_refl
    (bare_quick "1" 1 Hv (or_intror eq_refl)) Hrun).
Defined.

Example smbus_receive_byte_refines_witness :
  exists t, exec (smbus_read ["smbus_receive_byte"; "1"; "0x50"]
                    (smbus_data SMBUS_SIZE_BYTE smbus_read_op)) t (Returned 0) /\
  slave_session 1 0x50 (fun f u x => exists res,
    u = [Ev (I2cSmbus f I2C_SMBUS_READ 0 I2C_SMBUS_BYTE (Some i2c_data_uninit)) res] /\
    x = if res.1 =? 0
        then (0, "0x" +:+ fmt_0X 2 (host_load (take 1 res.2)) +:+ newline)
        else (-1, "")) (device_events t) (0, "0x2A" +:+ newline).
Proof.
  run_env Byte.x2a (smbus_read ["smbus_receive_byte"; "1"; "0x50"]
                      (smbus_data SMBUS_SIZE_BYTE smbus_read_op)).
  split; [exact Hrun|].
  destruct (smbus_receive_byte_refines _ _ _ _ _ (aim_args _ []) Hrun) as (rc & E & H).
  injection E as <-. exact H.
Defined.

Example smbus_process_call_refines_witness :
  exists t, exec (smbus_process_call ["smbus_process_call"; "1"; "0x50"; "0x10"; "0x1234"]
                    (smbus_data SMBUS_PROC_CALL smbus_process_call_op)) t (Returned 0) /\
  output_of Stdout t = "0x1234" +:+ newline /\ exists rc : Z, Returned 0 = Returned rc.
Proof.
  run_env Byte.x2a (smbus_process_call ["smbus_process_call"; "1"; "0x50"; "0x10"; "0x1234"]
                      (smbus_data SMBUS_PROC_CALL smbus_process_call_op)).
  split; [exact Hrun|]. split; [reflexivity|].
  assert (whole_value "0x1234" = Some 0x1234) as Hv by (vm_compute; reflexivity).
  assert (0x1234 <> LONG_MAX) as Hm by (vm_compute; discriminate).
  destruct (smbus_process_call_refines _ "0x1234" 0x1234 _ _ _ _ _ (target_args _ ["0x1234"])
    eq_refl Hv Hm Hrun) as (rc & E & _).
  exists rc. exact E.
Defined.

Example smbus_block_process_call_refines_witness :
  exists t, exec (smbus_process_call ["smbus_block_process_call"; "1"; "0x50"; "0x10"; "01FF"]
                    (smbus_data SMBUS_BLOCK_PROC_CALL smbus_block_process_call_op)) t
              (Returned 0) /\
  relied (safely no_stop) [] t /\
  slave_session 1 0x50 (fun f u x =>
    (exists r0 : Z, r0 < 0 /\ u = [Ev (Ioctl f I2C_SLAVE_FORCE 0x50) r0] /\ x = (-1, "")) \/
    (exists (r0 : Z) res, 0 <= r0 /\
       u = [Ev (Ioctl f I2C_SLAVE_FORCE 0x50) r0;
            Ev (I2cSmbus f I2C_SMBUS_WRITE 0x10 I2C_SMBUS_BLOCK_PROC_CALL
                  (Some (sent_block [Byte.x01; Byte.xff]))) res] /\
       x = block_outcome res)) (device_events t) (0, "0202" +:+ newline).
Proof.
  run_env Byte.x02 (smbus_process_call ["smbus_block_process_call"; "1"; "0x50"; "0x10"; "01FF"]
                      (smbus_data SMBUS_BLOCK_PROC_CALL smbus_block_process_call_op)).
  split; [exact Hrun|]. match goal with |- ?A /\ _ => assert A as Hr by relied_env end.
  split; [exact Hr|].
  assert ("01FF" = hex_text [Byte.x01; Byte.xff]) as Ht by (vm_compute; reflexivity).
  destruct (smbus_block_process_call_refines _ "01FF" [Byte.x01; Byte.xff] _ _ _ _ _
    (target_args _ ["01FF"]) eq_refl (or_introl Ht) ltac:(cbn; lia) Hr Hrun) as (rc & E & H).
  injection E as <-. exact H.
Defined.

Example smbus_writeread_refines_witness :
  exists t, exec (smbus_writeread ["smbus_writeread"; "1"; "0x50"; "0x01FF"; "3"]
                    (smbus_data SMBUS_WRITE_READ smbus_writeread_op)) t (Returned 0) /\
  relied (safely no_stop) [] t /\
  slave_session 1 0x50 (fun f u x => exists res,
    u = [Ev (I2cRdwr f (combined 0x50 2 3) ([Byte.x01; Byte.xff] ++ drop 2 zeros)) res] /\
    x = if res.1 <? 0 then (-1, "") else (0, hex_text (take 3 res.2) +:+ newline))
    (device_events t) (0, "2A2A2A" +:+ newline).
Proof.
  run_env Byte.x2a (smbus_writeread ["smbus_writeread"; "1"; "0x50"; "0x01FF"; "3"]
                      (smbus_data SMBUS_WRITE_READ smbus_writeread_op)).
  split; [exact Hrun|]. match goal with |- ?A /\ _ => assert A as Hr by relied_env end.
  split; [exact Hr|].
  assert ("0x01FF" = "0x" +:+ hex_text [Byte.x01; Byte.xff]) as Ht by (vm_compute; reflexivity).
  assert (uint8_value 0 "3" = Some 3) as Hc by (vm_compute; reflexivity).
  destruct (smbus_writeread_refines _ "0x01FF" "3" [Byte.x01; Byte.xff] 3 _ _ _ _
    (aim_args _ ["0x01FF"; "3"]) eq_refl eq_refl (or_intror Ht) ltac:(cbn; lia) Hc ltac:(lia)
    Hr Hrun) as (rc & E & H).
  injection E as <-. exact H.
Defined.

Example smbus_writeread_leaks_witness :
  exists t, exec (smbus_writeread ["smbus_writeread"; "1"; "0x50"; "01FF"; "33"]
                    (smbus_data SMBUS_WRITE_READ smbus_writeread_op)) t (Returned (-1)) /\
  device_events t = [Ev (Open "/dev/i2c-1" O_RDWR) 3; Ev (Ioctl 3 I2C_SLAVE 0x50) 0].
Proof.
  run_env Byte.x2a (smbus_writeread ["smbus_writeread"; "1"; "0x50"; "01FF"; "33"]
                      (smbus_data SMBUS_WRITE_READ smbus_writeread_op)).
  split; [exact Hrun|].
  assert ("01FF" = hex_text [Byte.x01; Byte.xff]) as Ht by (vm_compute; reflexivity).
  assert (forall count, uint8_value 0 "33" = Some count -> 32 < count) as Hc
    by (assert (uint8_value 0 "33" = Some 33) as -> by (vm_compute; reflexivity); intros ? [= <-]; lia).
  refine (proj2 (smbus_writeread_leaks _ "01FF" "33" [Byte.x01; Byte.xff] _ _ _ _ 3 0
    (aim_args _ ["01FF"; "33"]) eq_refl eq_refl (or_introl Ht) ltac:(cbn; lia) Hc Hrun _ _ _)).
  - left. reflexivity.
  - right. left. reflexivity.
  - lia.
Defined.
