(* ===== verification/SmbusHolds.v ===== *)
(** * What [smbus_writeread] keeps open

    Of the SMBus commands only [smbus_writeread] can return with the slave's
    file open: when it has attached to the slave and accepted the bytes to
    write, and then refuses the count of bytes to read. *)

From S2P Require Import Prelude CLib Platform Sys SmbusTypes Commands DevFile Resources I2cDev SmbusRw SmbusParse SmbusSafe SmbusSpec.
Local Open Scope Z_scope.

Section Holds.
Context {P : Platform}.

(** The slave was attached. *)
Definition is_attach (e : event) : bool :=
  match e with Ev (Ioctl _ req _) r => (req =? I2C_SLAVE) && (0 <=? r) | _ => false end.
Definition attached_slave (t : trace) : bool := existsb is_attach t.

Lemma attached_device t : attached_slave (device_events t) = attached_slave t.
Proof.
  induction t as [|e t IH]; [done|].
  change (device_events (e :: t))
    with (if is_device e then e :: device_events t else device_events t).
  change (attached_slave (e :: t)) with (is_attach e || attached_slave t). rewrite <- IH.
  destruct (is_device e) eqn:E; [done|]. by destruct e as [[] ?].
Qed.

(** ** The texts [parse_block] accepts *)

Fixpoint nibbles_ok (src : string) : bool :=
  match src with
  | "" => true
  | String c0 (String c1 src') =>
      match uint8_value 16 (String c0 (String c1 "")) with
      | Some _ => nibbles_ok src'
      | None => false
      end
  | _ => false
  end.

Definition block_ok (arg : string) : bool :=
  let len := wraps 32 (Z.of_nat (String.length arg)) in
  (0 <? len) && (Z.rem len 2 =? 0) &&
  (let '(src, len) := hex_source arg len in (Z.quot len 2 <=? 32) && nibbles_ok src).

Lemma exec_parse_nibbles n src dest array t r :
  (String.length src <= n)%nat ->
  exec (parse_nibbles src dest array) t (Returned r) ->
  device_events t = [] /\ (if nibbles_ok src then exists a, r = Some a else r = None).
Proof.
  revert src dest array t. induction n as [|n IH]; intros src dest array t Hn H;
    (destruct src as [|c0 [|c1 src]]; [|cbn [String.length] in Hn; try lia..]).
  1, 2: apply exec_ret_iff in H as [-> [= ->]]; split; [done|by eexists].
  - cbn [parse_nibbles] in H.
    apply (exec_bind_inv (parse_uint8_hex _)) in H as [(v & t1 & t2 & H1 & H2 & ->)|(s & _ & ?)]; [|done].
    apply parse_uint8_spec in H1 as (_ & [Hq _] & _); [|lia].
    destruct v; apply exec_inv in H2 as [-> ?]; simplify_eq. by rewrite app_nil_r.
  - cbn [parse_nibbles] in H.
    apply (exec_bind_inv (parse_uint8_hex _)) in H as [(v & t1 & t2 & H1 & H2 & ->)|(s & _ & ?)]; [|done].
    apply parse_uint8_spec in H1 as ([= ->] & [Hq _] & _); [|lia]. cbn [nibbles_ok].
    rewrite device_events_app, Hq. destruct (uint8_value 16 _) as [v|].
    + destruct (Nat.ltb dest (length array)); [|by apply exec_inv in H2 as [_ ?]].
      apply IH in H2; [done|lia].
    + by apply exec_ret_iff in H2 as [-> [= ->]].
Qed.

Lemma exec_parse_block arg array t r :
  exec (parse_block arg array) t (Returned r) ->
  device_events t = [] /\ (if block_ok arg then exists x, r = Some x else r = None).
Proof.
  intros H. unfold parse_block in H. unfold block_ok. rewrite Z.ltb_antisym.
  destruct (wraps 32 (Z.of_nat (String.length arg)) <=? 0); cbn [orb andb negb] in *;
    [by exec_run H|].
  destruct (Z.rem _ 2 =? 0); cbn [orb andb negb] in *; [|by exec_run H].
  destruct (hex_source arg _) as [src len]. unfold I2C_SMBUS_BLOCK_MAX in H.
  rewrite Z.leb_antisym. destruct (32 <? Z.quot len 2); cbn [andb negb]; [by exec_run H|].
  apply (exec_bind_inv (parse_nibbles _ _ _)) in H as [(v & t1 & t2 & H1 & H2 & ->)|(s & _ & ?)]; [|done].
  apply (exec_parse_nibbles _ _ _ _ _ _ (le_n _)) in H1 as [Hd Hv]. rewrite device_events_app, Hd.
  destruct (nibbles_ok src); [destruct Hv as [a ->]|subst v];
    apply exec_ret_iff in H2 as [-> [= ->]]; split; try done. by eexists.
Qed.

(** ** The prologue without a register *)

Lemma exec_prologue c x1 x2 rest p t x :
  exec (smbus_prologue (c :: x1 :: x2 :: rest) p SMBUS_WRITE_READ) t (Returned x) ->
  (x.1 = -1 /\ live t = ∅ /\ attached_slave t = false) \/
  (exists bus addr (f r : Z), 0 <= f /\ 0 <= r /\ x = (0, set_fd f (aimed bus addr p)) /\
     device_events t = [Ev (Open (devfile bus) O_RDWR) f; Ev (Ioctl f I2C_SLAVE addr) r]).
Proof.
  assert (forall t, device_events t = [] -> live t = ∅ /\ attached_slave t = false) as Hquiet.
  { intros u Hu. by rewrite <- live_device, <- attached_device, Hu. }
  intros H. destruct (uint8_value 0 x1) as [bus|] eqn:Hbus; [destruct (uint8_value 0 x2) as [addr|] eqn:Haddr|].
  - destruct (prologue_aims (c :: x1 :: x2 :: rest) bus addr p SMBUS_WRITE_READ) as [E Hb];
      [by exists c, x1, x2, rest|done|]. rewrite E in H.
    apply exec_attach in H as [_ [(p' & [= ->] & Hs)|(f & r & Hf & Hr & [= ->] & Hd)]]; [| |done].
    + left. split; [done|]. specialize (Hs (fun _ _ _ => False)).
      rewrite <- live_device, <- attached_device. remember (device_events t) as u eqn:Eu. clear Eu.
      inversion Hs as [f Hf|f r r' Hf Hr|]; subst; [..|done]; unfold live;
        cbn [foldl live_step attached_slave existsb is_attach];
        repeat match goal with |- context [?a <? 0] => destruct (Z.ltb_spec a 0); try lia end.
      * done.
      * cbn. destruct (Z.leb_spec 0 r); [lia|]. split; [set_solver|done].
    + right. by exists bus, addr, f, r.
  - left. unfold smbus_prologue, prologue_fails in H.
    cbn [argv_at lookup list_lookup mbind prog_mbind prog_bind] in H.
    unfold parse_uint8 in H. rewrite (parse_uint8_ok 0 _ _ ltac:(lia) Hbus) in H.
    cbn [mbind prog_mbind prog_bind] in H.
    apply (exec_bind_inv (parse_uint8_base x2 0)) in H as [(v & t1 & t2 & H1 & H & ->)|(s & _ & ?)]; [|done].
    apply parse_uint8_spec in H1 as ([= ->] & [Hq _] & _); [|lia]. rewrite Haddr in H. exec_run H.
    split; [done|]. apply Hquiet. by rewrite device_events_app, Hq.
  - left. unfold smbus_prologue, prologue_fails in H.
    cbn [argv_at lookup list_lookup mbind prog_mbind prog_bind] in H.
    apply (exec_bind_inv (parse_uint8 x1)) in H as [(v & t1 & t2 & H1 & H & ->)|(s & _ & ?)]; [|done].
    apply parse_uint8_spec in H1 as ([= ->] & [Hq _] & _); [|lia]. rewrite Hbus in H. exec_run H.
    split; [done|]. apply Hquiet. by rewrite device_events_app, Hq.
Qed.

Lemma smbus_writeread_holds c x1 x2 a b t rc :
  args_fit [c; x1; x2; a; b] -> relied (safely no_stop) [] t ->
  exec (smbus_writeread [c; x1; x2; a; b] (smbus_data SMBUS_WRITE_READ smbus_writeread_op)) t
    (Returned rc) ->
  live t = if block_ok a && negb (valid_count b) && attached_slave t then acquired t else ∅.
Proof.
  intros Hfit Hrel H. destruct (valid_count b) eqn:Hc.
  { rewrite andb_false_r. cbn [andb].
    pose proof (smbus_writeread_safe smbus_op_writeread [c; x1; x2; a; b]
                  (smbus_data SMBUS_WRITE_READ smbus_writeread_op) b writeread_op_safe
                  eq_refl eq_refl eq_refl Hfit) as Hs.
    rewrite Hc in Hs. by eapply resource_safe_exec. }
  rewrite andb_true_r. unfold smbus_writeread, smbus_data, get_op in H.
  cbn [privdata op_size make_smbus_op mbind prog_mbind prog_bind] in H.
  apply (exec_bind_inv (smbus_prologue _ _ _)) in H as [(x & t1 & t2 & Hp & H & ->)|(s & _ & ?)]; [|done].
  rewrite <- live_device, <- acquired_device, <- attached_device, device_events_app.
  apply exec_prologue in Hp as [(Hx & Hl & Hatt)|(bus & addr & f & r & Hf & Hr & -> & Hd)].
  - destruct x as [n p]. cbn [fst] in Hx. subst n. cbn in H. apply exec_ret_iff in H as [-> _].
    rewrite app_nil_r, live_device, attached_device, Hatt, andb_false_r. exact Hl.
  - rewrite Hd. cbn [Z.ltb Z.compare argv_at lookup list_lookup mbind prog_mbind prog_bind] in H.
    apply (exec_bind_inv (parse_io_width _ _ _)) in H as [(y & t3 & t4 & Hb & H & ->)|(s & _ & ?)]; [|done].
    assert (device_events t3 = [] /\ if block_ok a then exists p, y = (0, p) else exists p, y = (-1, p) /\ fd p = Some f)
      as [Hd3 Hy].
    { unfold parse_io_width in Hb. cbn -[parse_block replicate] in Hb.
      apply (exec_bind_inv (parse_block _ _)) in Hb as [(z & t5 & t6 & H5 & H6 & ->)|(s & _ & ?)]; [|done].
      apply exec_parse_block in H5 as [Hd5 Hz]. rewrite device_events_app, Hd5.
      destruct (block_ok a); [destruct Hz as [[z1 z2] ->]|subst z]; exec_run H6; split; try done;
        by eexists. }
    rewrite device_events_app, Hd3. cbn [app]. destruct (block_ok a).
    + destruct Hy as [p' ->]. cbn [Z.ltb Z.compare] in H.
      apply (exec_bind_inv (parse_uint8 b)) in H as [(v & t5 & t6 & H5 & H & ->)|(s & _ & ?)]; [|done].
      apply parse_uint8_spec in H5 as ([= ->] & [Hd5 _] & _); [|lia].
      assert (device_events t6 = []) as Hd6.
      { unfold valid_count in Hc. destruct (uint8_value 0 b) as [v|]; [|by exec_run H].
        unfold I2C_SMBUS_BLOCK_MAX in H. destruct (Z.ltb_spec 32 v); [by exec_run H|lia]. }
      rewrite device_events_app, Hd5, Hd6. cbn [app attached_slave existsb is_attach].
      rewrite Z.eqb_refl. destruct (Z.leb_spec 0 r); [|lia]. cbn [andb orb].
      apply live_growing. by repeat constructor.
    + destruct Hy as (p' & -> & Hfd). cbn [andb Z.ltb Z.compare] in *.
      unfold invalid_value in H. rewrite Hfd in H. exec_run H; unfold live; cbn [device_events List.filter is_device ev_act app foldl live_step];
        destruct (Z.ltb_spec f 0); try lia; set_solver.
Qed.
End Holds.
