(* ===== verification/Iotools.v ===== *)
(** * The program ([iotools.c])

    The entry point, the options handled when no command is named, and the
    command tables linked into a build. *)

From S2P Require Import Prelude CLib Platform Sys SmbusTypes Commands CmosRw LogicOps IoRw Msr Scom PciRw MmioRw Misc SmbusRw.
Local Open Scope Z_scope.

Section Iotools.
Context {P : Platform} {LB : LoopBound}.

(** The groups of the object files of a build, in some link order; the MSR
    and SCOM files are empty on other architectures. *)
Definition linked_groups : list cmd_group :=
  [CMOS_group; IO_group; LOGIC_group; MISC_group; MMIO_group; MEM_group; PCI_group; SMBus_group] ++
  (if ARCH_X86 then [MSR_group] else []) ++
  (if ARCH_POWER then [SCOM_group] else []).

Definition VER_MAJOR : Z := 1.
Definition VER_MINOR : Z := 6.

Definition usage (bin_name : string) (fstream : stream) : prog unit :=
  act (Put fstream ("usage: " +:+ bin_name +:+ " COMMAND" +:+ newline));;
  act (Put fstream
    ("  COMMANDS:" +:+ newline +:+
     "    --make-links" +:+ newline +:+
     "    --clean-links" +:+ newline +:+
     "    --list-cmds" +:+ newline +:+
     "    -v --version" +:+ newline)).

Definition version (progname : string) : prog unit :=
  printf (progname +:+ " version " +:+ fmt_d VER_MAJOR +:+ "." +:+ fmt_d VER_MINOR +:+ newline).

Section Program.
Context (group_head : list cmd_group).

Definition iotools_fallback (argv : list string) : prog Z :=
  a0 ← argv_at argv 0;
  if negb (Z.of_nat (length argv) =? 2) then usage a0 Stderr;; Ret (-1)
  else
    a1 ← argv_at argv 1;
    if String.eqb a1 "--help" then usage a0 Stdout;; Ret 0
    else if String.eqb a1 "--make-links" then make_command_links group_head
    else if String.eqb a1 "--clean-links" then clean_command_links group_head
    else if String.eqb a1 "--list-cmds" then list_commands group_head
    else if String.eqb a1 "-v" || String.eqb a1 "--version" then version a0;; Ret 0
    else
      eprintf ("'" +:+ a1 +:+ "' sub-command not supported by iotools" +:+ newline);;
      usage a0 Stderr;;
      Ret (-1).

(** [main], whose result is the exit status. *)
Definition main_with (argv : list string) : prog Z :=
  rc ← run_command group_head iotools_fallback argv;
  Ret (if rc <? 0 then EXIT_FAILURE else EXIT_SUCCESS).
End Program.

(** The whole program. *)
Definition main (argv : list string) : prog Z := main_with (register_all linked_groups) argv.
End Iotools.
