(* ===== verification/ProgramSpec.v ===== *)
(** * Functional behaviour of the program

    The linked command tables are well formed, whatever the link order; an
    invocation runs the command it names and exits with its status; the options
    do what the usage message says; a link made by [--make-links] runs its
    command. *)

From S2P Require Import Prelude CLib Platform Sys DevFile SmbusTypes Commands CmosRw LogicOps IoRw Msr Scom PciRw MmioRw Misc SmbusRw Iotools.
Local Open Scope Z_scope.

Section Program.
Context {P : Platform} {LB : LoopBound}.

(** ** The tables *)

(** A condition on names, decided on the tables of every architecture. *)
Ltac decide_names :=
  unfold command_names, all_commands, linked_groups, MISC_group, misc_cmds;
  destruct ARCH_X86, ARCH_POWER; refine (bool_decide_unpack _ _); vm_compute; exact I.

Lemma names_nodup : List.NoDup (command_names linked_groups).
Proof. apply NoDup_ListNoDup. decide_names. Qed.

(** A command that can be typed, linked to and called: a short name without a
    slash, which no option begins like, and a range of argument counts that
    includes the name itself. *)
Definition well_formed (c : cmd_info) : bool :=
  Nat.leb (String.length (name c)) 24 &&
  match strrchr_slash (name c) with None => true | Some _ => false end &&
  match name c with String "-" _ => false | _ => true end &&
  match params c with
  | Some p => (2 <=? min_args p) && (min_args p <=? max_args p)
  | None => true
  end.

Lemma commands_well_formed : Forall (fun c => well_formed c = true) (all_commands linked_groups).
Proof.
  unfold all_commands, linked_groups, MISC_group, misc_cmds.
  destruct ARCH_X86, ARCH_POWER; refine (bool_decide_unpack _ _); vm_compute; exact I.
Qed.

Lemma well_formed_name c :
  In c (all_commands linked_groups) ->
  (String.length (name c) <= 24)%nat /\ strrchr_slash (name c) = None.
Proof.
  intros Hin. pose proof commands_well_formed as H. rewrite List.Forall_forall in H.
  specialize (H c Hin). unfold well_formed in H.
  destruct (strrchr_slash (name c)); [by rewrite andb_false_r in H|].
  apply andb_prop in H as [H _]. apply andb_prop in H as [H _]. apply andb_prop in H as [H _].
  by apply Nat.leb_le in H.
Qed.

(** ** Link order *)

Lemma registered_perm groups :
  Permutation groups linked_groups ->
  Permutation (all_commands (register_all groups)) (all_commands linked_groups).
Proof.
  intros Hp. rewrite register_all_rev. apply all_commands_perm.
  by rewrite <- Permutation_rev.
Qed.

Lemma registered_nodup groups :
  Permutation groups linked_groups -> List.NoDup (command_names (register_all groups)).
Proof.
  intros Hp. eapply Permutation_NoDup; [|apply names_nodup]. symmetry.
  by apply Permutation_map, registered_perm.
Qed.

Lemma registered_dispatch groups argv argv' c :
  Permutation groups linked_groups -> dispatches linked_groups argv argv' c ->
  dispatches (register_all groups) argv argv' c.
Proof.
  intros Hp%registered_perm H.
  destruct H as [a0 a1 args c Hin Hn|a0 args c Hno Hin Hn]; constructor; try done.
  - by rewrite Hp.
  - intros a1 Ha. unfold command_names. rewrite Hp. by apply Hno.
  - by rewrite Hp.
Qed.

Lemma registered_no_command groups argv :
  Permutation groups linked_groups -> no_command linked_groups argv ->
  no_command (register_all groups) argv.
Proof.
  intros Hp%registered_perm. destruct argv as [|a0 args]; [done|].
  unfold no_command, command_names. setoid_rewrite Hp. done.
Qed.

(** C13: whatever order the constructors ran in, the registered tables hold every
    linked command once, under a well-formed name and argument range. *)
Theorem tables_well_formed groups :
  Permutation groups linked_groups ->
  List.NoDup (command_names (register_all groups)) /\
  Permutation (all_commands (register_all groups)) (all_commands linked_groups) /\
  Forall (fun c => well_formed c = true) (all_commands (register_all groups)).
Proof.
  intros Hp. split; [by apply registered_nodup|]. split; [by apply registered_perm|].
  rewrite registered_perm by done. apply commands_well_formed.
Qed.

(** ** Dispatch *)

(** The exit status for a handler's result. *)
Definition status (rc : Z) : Z := if rc <? 0 then 1 else 0.
Definition exits (p : prog Z) : prog Z := rc ← p; Ret (status rc).

(** C3: whatever the link order, an invocation that names a command, as its first
    argument or as the program's own name, runs exactly that command on the
    arguments from the name on, and exits with 1 if it fails, 0 otherwise; any
    other invocation runs the fallback. *)
Theorem main_runs_command groups argv :
  Permutation groups linked_groups -> argv <> [] ->
  (exists argv' c, dispatches linked_groups argv argv' c /\
     main_with (register_all groups) argv = exits (_run_command argv' c)) \/
  (no_command linked_groups argv /\
   main_with (register_all groups) argv = exits (iotools_fallback (register_all groups) argv)).
Proof.
  intros Hp Hne. unfold main_with.
  destruct (dispatch_total linked_groups argv Hne) as [Hno|(argv' & c & Hd)]; [right|left].
  - split; [done|]. rewrite run_command_falls_back by by apply registered_no_command. done.
  - exists argv', c. split; [done|].
    rewrite (run_command_dispatches _ _ _ argv' c) by
      (by apply registered_nodup || by apply registered_dispatch). done.
Qed.
(** ** Links *)

Lemma symlink_name dir c :
  In c (all_commands linked_groups) -> Z.of_nat (String.length dir) + 26 <= FILENAME_MAX ->
  build_symlink_name dir c = dir +:+ "/" +:+ name c /\
  basename (dir +:+ "/" +:+ name c) = name c.
Proof.
  intros Hin Hdir. destruct (well_formed_name c Hin) as [Hlen Hns].
  unfold build_symlink_name, basename. rewrite strrchr_slash_app by done. split; [|done].
  apply snprintf_fits. rewrite !str_length_app. cbn [String.length]. lia.
Qed.

Lemma option_not_command s : ~ In (String "-" s) (command_names linked_groups).
Proof.
  intros (c & Hn & Hc)%in_map_iff. pose proof commands_well_formed as H.
  rewrite List.Forall_forall in H. specialize (H c Hc). unfold well_formed in H.
  rewrite Hn, !andb_false_r in H. done.
Qed.

Lemma option_no_command prog s :
  ~ In (basename prog) (command_names linked_groups) ->
  no_command linked_groups [prog; String "-" s].
Proof. intros H. split; [|done]. intros a1 [= <-]. apply option_not_command. Qed.

(** The program with an option runs the fallback. *)
Lemma main_option prog s :
  ~ In (basename prog) (command_names linked_groups) ->
  main [prog; String "-" s]
  = exits (iotools_fallback (register_all linked_groups) [prog; String "-" s]).
Proof.
  intros H. unfold main, main_with. rewrite run_command_falls_back; [done|].
  apply registered_no_command; [done|]. by apply option_no_command.
Qed.

Lemma readlink_inj path n (r r' : option string) t t' :
  Ev (Readlink path n) r :: t = Ev (Readlink path n) r' :: t' -> r = r' /\ t = t'.
Proof.
  intros E. split; [|exact (f_equal (@tl event) E)].
  exact (f_equal (fun l => match l with Ev (Readlink _ _) v :: _ => v | _ => None end) E).
Qed.

(** C11: [iotools --make-links] asks for one link to the binary for each command,
    named after it in the binary's directory, and running the program through
    any of these links runs that command. *)
Theorem make_links_then_run prog dir bin t o :
  ~ In (basename prog) (command_names linked_groups) ->
  strrchr_slash bin = None -> Z.of_nat (String.length (dir +:+ "/" +:+ bin)) < FILENAME_MAX ->
  Z.of_nat (String.length dir) + 26 <= FILENAME_MAX ->
  exec (main [prog; "--make-links"])
    (Ev (Readlink "/proc/self/exe" FILENAME_MAX) (Some (dir +:+ "/" +:+ bin)) :: t) o ->
  o = Returned 0 /\
  Permutation (symlinked t)
    (map (fun c => (bin, dir +:+ "/" +:+ name c)) (all_commands linked_groups)) /\
  forall c args, In c (all_commands linked_groups) ->
    (forall a1, hd_error args = Some a1 -> ~ In a1 (command_names linked_groups)) ->
    main ((dir +:+ "/" +:+ name c) :: args)
    = exits (_run_command ((dir +:+ "/" +:+ name c) :: args) c).
Proof.
  intros Hprog Hbin Hlen Hdir H. rewrite main_option in H by done. unfold exits in H.
  apply (exec_bind_inv (iotools_fallback _ _)) in H as [(rc & t1 & t2 & H1 & H2 & E)|(s & H1 & ->)].
  - apply exec_ret_iff in H2 as [-> ->]. rewrite app_nil_r in E. subst t1.
    change (exec (make_command_links (register_all linked_groups))
      (Ev (Readlink "/proc/self/exe" FILENAME_MAX) (Some (dir +:+ "/" +:+ bin)) :: t)
      (Returned rc)) in H1.
    apply make_command_links_spec in H1 as (r & t' & E & H1). apply readlink_inj in E as [<- <-].
    destruct (H1 _ _ eq_refl Hbin Hlen) as [[= ->] Hs]. split; [done|]. split.
    + rewrite Hs. unfold links. rewrite (map_ext_in _ (fun c => (bin, dir +:+ "/" +:+ name c))).
      * by apply Permutation_map, registered_perm.
      * intros c Hc. rewrite (proj1 (symlink_name dir c ltac:(by eapply Permutation_in;
          [apply registered_perm|]) Hdir)). done.
    + intros c args Hin Hargs. unfold main, main_with.
      rewrite (run_command_dispatches _ _ _ ((dir +:+ "/" +:+ name c) :: args) c).
      * done.
      * by apply registered_nodup.
      * apply registered_dispatch; [done|]. constructor; [done..|].
        by rewrite (proj2 (symlink_name dir c Hin Hdir)).
  - change (exec (make_command_links (register_all linked_groups))
      (Ev (Readlink "/proc/self/exe" FILENAME_MAX) (Some (dir +:+ "/" +:+ bin)) :: t)
      (Stopped s)) in H1.
    apply make_command_links_spec in H1 as (r & t' & E & H1). apply readlink_inj in E as [<- <-].
    by destruct (H1 _ _ eq_refl Hbin Hlen) as [? _].
Qed.
(** ** Options *)

Definition group_lines (g : cmd_group) : list string :=
  (grp_name g +:+ match description g with Some d => ": " +:+ d | None => "" end +:+ newline)
  :: map (fun c => "  " +:+ name c +:+ newline) (commands g).

(** Printing, and nothing else. *)
Definition put_only (e : event) : list event := if is_device e then [e] else [].

Lemma exec_printf s t o :
  exec (printf s) t o -> o = Returned tt /\ puts t = [s] /\ observe put_only t = [].
Proof. intros H. exec_run H. done. Qed.

Lemma flat_map_nil {A B} (l : list A) : flat_map (fun _ => @nil B) l = [].
Proof. by induction l. Qed.

Lemma exec_list_group g t o :
  exec (list_group g) t o -> o = Returned tt /\ puts t = group_lines g /\ observe put_only t = [].
Proof.
  intros H. unfold list_group in H.
  apply (exec_bind_inv (printf _)) in H as [(u & t1 & t2 & H1 & H2 & ->)|(s & H1 & _)];
    apply exec_printf in H1 as (? & Hp & Hd); [|done].
  unfold puts in *. rewrite !observe_app, Hp, Hd.
  pose proof (exec_for_each put_of (fun c : cmd_info => printf ("  " +:+ name c +:+ newline))
    (fun c => ["  " +:+ name c +:+ newline]) (commands g) t2 o
    (fun c t o H => let '(conj E (conj Hp _)) := exec_printf _ t o H in conj E Hp) H2) as [-> ->].
  pose proof (exec_for_each put_only (fun c : cmd_info => printf ("  " +:+ name c +:+ newline))
    (fun c => []) (commands g) t2 _
    (fun c t o H => let '(conj E (conj _ Hd)) := exec_printf _ t o H in conj E Hd) H2) as [_ ->].
  split; [done|]. split.
  - unfold group_lines. cbn [app]. by f_equal.
  - apply flat_map_nil.
Qed.

Lemma exec_list_commands groups t o :
  exec (list_commands groups) t o ->
  o = Returned 0 /\ puts t = flat_map group_lines groups /\ observe put_only t = [].
Proof.
  intros H. unfold list_commands in H.
  apply (exec_bind_inv (for_each _ _)) in H as [(u & t1 & t2 & H1 & H2 & ->)|(s & H1 & _)];
    pose proof (exec_for_each put_of list_group group_lines groups _ _
      (fun c t o H => let '(conj E (conj Hp _)) := exec_list_group _ t o H in conj E Hp) H1)
      as [E Hp]; [|done].
  pose proof (exec_for_each put_only list_group (fun _ => []) groups _ _
      (fun c t o H => let '(conj E (conj _ Hd)) := exec_list_group _ t o H in conj E Hd) H1)
      as [_ Hd].
  apply exec_ret_iff in H2 as [-> ->]. rewrite app_nil_r. split; [done|]. split; [done|].
  rewrite Hd. apply flat_map_nil.
Qed.

Definition usage_lines (prog : string) : list string :=
  ["usage: " +:+ prog +:+ " COMMAND" +:+ newline;
   "  COMMANDS:" +:+ newline +:+ "    --make-links" +:+ newline +:+
   "    --clean-links" +:+ newline +:+ "    --list-cmds" +:+ newline +:+
   "    -v --version" +:+ newline].

(** C32: without touching anything but its output, [--help] prints the usage,
    [--list-cmds] every registered group with its commands, [-v] and
    [--version] the version, all with status 0; an unknown option is refused
    with status 1 and a message on the standard error only. *)
Theorem main_options prog s t o :
  ~ In (basename prog) (command_names linked_groups) ->
  let opt := String "-" s in
  opt <> "--make-links" -> opt <> "--clean-links" ->
  exec (main [prog; opt]) t o ->
  observe put_only t = [] /\
  (puts t, o) =
    if String.eqb opt "--help" then (usage_lines prog, Returned 0)
    else if String.eqb opt "--list-cmds"
    then (flat_map group_lines (register_all linked_groups), Returned 0)
    else if String.eqb opt "-v" || String.eqb opt "--version"
    then ([prog +:+ " version 1.6" +:+ newline], Returned 0)
    else ([], Returned 1).
Proof.
  intros Hprog opt Hm Hc H. subst opt. rewrite main_option in H by done. unfold exits in H.
  apply String.eqb_neq in Hm, Hc. unfold iotools_fallback in H.
  cbn [argv_at lookup list_lookup mbind prog_mbind prog_bind length] in H.
  change (negb (Z.of_nat 2 =? 2)) with false in H. cbv iota in H.
  cbn [mbind prog_mbind prog_bind] in H. rewrite Hm, Hc in H.
  destruct (String.eqb (String "-" s) "--help"); [unfold usage in H; exec_run H; done|].
  destruct (String.eqb (String "-" s) "--list-cmds").
  - apply (exec_bind_inv (list_commands _)) in H as [(rc & t1 & t2 & H1 & H2 & ->)|(e & H1 & _)];
      apply exec_list_commands in H1 as (E & Hp & Hd); [|done].
    injection E as ->. apply exec_ret_iff in H2 as [-> ->]. by rewrite app_nil_r, Hp.
  - destruct (String.eqb (String "-" s) "-v" || String.eqb (String "-" s) "--version").
    + unfold version in H. exec_run H. split; [done|]. done.
    + unfold usage in H. exec_run H. done.
Qed.
End Program.

(** ** Witnesses *)

#[local] Existing Instance linux_x86_64.
#[local] Instance witness_bound : LoopBound := 4%nat.

Example tables_well_formed_witness :
  Permutation (rev linked_groups) linked_groups /\
  List.NoDup (command_names (register_all (rev linked_groups))).
Proof.
  assert (Permutation (rev linked_groups) linked_groups) as H
    by (symmetry; apply Permutation_rev).
  split; [exact H|]. exact (proj1 (tables_well_formed _ H)).
Defined.

Example main_runs_command_witness :
  exists argv' c, dispatches linked_groups ["iotools"; "rdmsr"; "0"; "16"] argv' c /\
  main ["iotools"; "rdmsr"; "0"; "16"] = exits (_run_command argv' c).
Proof.
  destruct (main_runs_command linked_groups ["iotools"; "rdmsr"; "0"; "16"]
    (Permutation_refl _) ltac:(discriminate)) as [H|[[Hno _] _]]; [exact H|].
  exfalso. apply (Hno "rdmsr" eq_refl). apply list_elem_of_In.
  refine (bool_decide_unpack _ _). vm_compute. exact I.
Defined.

Example make_links_then_run_witness :
  exists t, exec (main ["iotools"; "--make-links"])
    (Ev (Readlink "/proc/self/exe" FILENAME_MAX) (Some "/usr/local/sbin/iotools") :: t)
    (Returned 0) /\
  Permutation (symlinked t)
    (map (fun c => ("iotools", "/usr/local/sbin/" +:+ name c)) (all_commands linked_groups)).
Proof.
  pose (p := main ["iotools"; "--make-links"]).
  pose proof (run_exec (env_success Byte.x00) tt p) as Hrun.
  exists (tl (run (env_success Byte.x00) tt p).2).
  assert (exec p (Ev (Readlink "/proc/self/exe" FILENAME_MAX) (Some "/usr/local/sbin/iotools")
    :: tl (run (env_success Byte.x00) tt p).2) (Returned 0)) as H.
  { refine (eq_ind (run (env_success Byte.x00) tt p).1 (exec p _) _ (Returned 0) _).
    - refine (eq_ind (run (env_success Byte.x00) tt p).2 (fun t => exec p t _) Hrun _ _).
      vm_compute. reflexivity.
    - vm_compute. reflexivity. }
  split; [exact H|].
  assert (~ In (basename "iotools") (command_names linked_groups)) as Hn.
  { rewrite <- list_elem_of_In. refine (bool_decide_unpack _ _). vm_compute. exact I. }
  apply (make_links_then_run "iotools" "/usr/local/sbin" "iotools" _ _ Hn eq_refl
    ltac:(vm_compute; reflexivity) ltac:(vm_compute; discriminate) H).
Defined.

Example main_options_witness :
  exists t, exec (main ["iotools"; "--version"]) t (Returned 0) /\
  puts t = ["iotools version 1.6" +:+ newline].
Proof.
  run_env Byte.x00 (main ["iotools"; "--version"]). split; [exact Hrun|].
  assert (~ In (basename "iotools") (command_names linked_groups)) as Hn.
  { rewrite <- list_elem_of_In. refine (bool_decide_unpack _ _). vm_compute. exact I. }
  destruct (main_options "iotools" "-version" _ _ Hn ltac:(discriminate) ltac:(discriminate) Hrun)
    as [_ E].
  exact (f_equal fst E).
Defined.
