(* ===== verification/ProgramSafe.v ===== *)
(** * Safety of the whole program

    Every command of the linked tables, called as [run_command] calls it, only
    makes system calls on files, directories and mappings it holds, stays
    inside the program's arrays, uses its private data at the right type and
    never reads an argument that is not there.  The exceptions are named by
    [stops_of] (per command) and [large_dump].  What a command acquires it
    releases, except in the runs told by [keeps_open], which leave all of it
    open. *)

From S2P Require Import Prelude CLib Platform Sys DevFile Resources SmbusTypes Commands CmosRw LogicOps IoRw Msr Scom PciRw MmioRw MmioBounds Misc SmbusRw SmbusParse SmbusSafe SmbusSpec SmbusHolds Iotools ProgramSpec.
Local Open Scope Z_scope.

(** How a command may stop without returning: a [busy_loop] or a [pci_list] by
    running on, [runon] by succeeding, the shifts by an undefined shift count,
    the SCOM translations by reading an unterminated or unset buffer. *)
Definition stops_of (n : string) (s : stop) : Prop :=
  match s with
  | OutOfFuel => In n ["busy_loop"; "pci_list"]
  | ProcessReplaced => n = "runon"
  | Undefined BadShift => In n ["shl"; "shr"; "bts"; "btr"]
  | Undefined UninitRead => In n ["cputochipid"; "cputoex"]
  | Undefined _ => False
  end.

Section Safe.
Context {P : Platform} {LB : LoopBound}.

(** A dump whose length is truncated to 32 bits, or fills them. *)
Definition large_dump (n : string) (argv : list string) : bool :=
  (String.eqb n "mmio_dump" || String.eqb n "mem_dump") &&
  match argv !! 2%nat with Some len => 2 ^ 32 - 2 ^ 30 <? strtoul len | None => false end.

(** What a run of a command keeps open when it returns: through [/dev/port],
    the file of a transfer that was sought; of PCI, the files of a transfer
    that failed; of a listing, the directories of procfs, which is listed when
    sysfs cannot be opened; of [smbus_writeread], the slave's file, when the
    count is refused after the bytes were accepted. *)
Definition keeps_open (n : string) (argv : list string) (t : trace) (failed : bool) : bool :=
  let one_of := existsb (String.eqb n) in
  if one_of ["io_read8"; "io_read16"; "io_read32"; "io_write8"; "io_write16"; "io_write32"]
  then negb ARCH_X86 && sought t
  else if one_of ["pci_read8"; "pci_read16"; "pci_read32";
                  "pci_write8"; "pci_write16"; "pci_write32"]
  then failed
  else if one_of ["pci_list"] then unlisted t
  else if one_of ["smbus_writeread"]
  then match argv !! 3%nat, argv !! 4%nat with
       | Some a, Some b => block_ok a && negb (valid_count b) && attached_slave t
       | _, _ => false
       end
  else false.

(** All it acquired then, and otherwise nothing. *)
Definition kept (n : string) (argv : list string) (t : trace) (failed : bool) : gset resource :=
  if keeps_open n argv t failed then acquired t else ∅.

(** What is shown of a command called with acceptable arguments. *)
Definition behaves (c : cmd_info) (argv : list string) : Prop :=
  (large_dump (name c) argv = false ->
   well_behaved (stops_of (name c)) (entry c argv (info c))) /\
  (forall t rc, relied (safely no_stop) [] t ->
     exec (entry c argv (info c)) t (Returned rc) ->
     live t = kept (name c) argv t (rc <? 0)).

Definition safe_command (c : cmd_info) : Prop :=
  forall argv, argv <> [] -> args_fit argv -> args_ok argv c = true -> behaves c argv.

(** Most commands release everything on every path. *)
Lemma behaves_releases st c argv :
  resource_safe st (entry c argv (info c)) ->
  (forall s, st s -> stops_of (name c) s) ->
  (forall t failed, keeps_open (name c) argv t failed = false) -> behaves c argv.
Proof.
  intros H Hst Hk. split.
  - intros _. apply resource_safe_well_behaved. by apply (resource_safe_weaken st).
  - intros t rc Hr Hex. unfold kept. rewrite Hk. by eapply resource_safe_exec.
Qed.

(** The arguments of a command that takes between [lo] and [hi]. *)
Lemma args_ok_bounds argv c p :
  params c = Some p -> args_ok argv c = true ->
  min_args p <= Z.of_nat (length argv) <= max_args p.
Proof. unfold args_ok. intros ->. lia. Qed.

(** A command that takes exactly [n]. *)
Lemma safe_fixed c n u l :
  params c = Some (make_prereq_params_fixed_args n u l) ->
  (forall argv, length argv = Z.to_nat n -> args_fit argv -> behaves c argv) ->
  safe_command c.
Proof.
  intros Hp H argv _ Hfit Ha. apply (args_ok_bounds _ _ _ Hp) in Ha. cbn in Ha.
  apply H; [lia|done].
Qed.

Ltac each_command := repeat first [apply Forall_cons_2 | apply Forall_nil_2].
Ltac fixed_args :=
  let Hl := fresh "Hl" in let Hfit := fresh "Hfit" in
  eapply safe_fixed; [reflexivity|]; intros argv Hl Hfit;
  destruct argv as [|? [|? [|? [|? [|? [|]]]]]]; try discriminate Hl; clear Hl.

(** The first goal left is that the entry point releases everything. *)
Ltac command :=
  cbn [entry info name make_cmd_with_params make_cmd_with_params_size make_cmd
       make_io_read_cmd make_io_write_cmd make_mmio_read_cmd make_mmio_write_cmd
       make_pci_read_cmd make_pci_write_cmd smbus_cmd].
Ltac releases st :=
  apply (behaves_releases st);
  [command|first [by intros ? []|intros ? ->; cbn; auto]|try done].

Lemma cmos_safe : Forall safe_command cmos_cmds.
Proof.
  each_command; fixed_args; releases no_stop; [apply cmos_rd_safe|apply cmos_wr_safe].
Qed.

Lemma msr_safe : Forall safe_command msr_cmds.
Proof.
  each_command; fixed_args; releases no_stop; [apply rd_msr_safe|apply wr_msr_safe].
Qed.

Lemma scom_safe : Forall safe_command scom_cmds.
Proof.
  each_command; fixed_args.
  - releases no_stop. apply rd_scom_safe.
  - releases no_stop. apply wr_scom_safe.
  - releases uninit_stop. apply cpu_to_chipid_safe.
  - releases uninit_stop. apply cpu_to_ex_safe.
Qed.

Lemma io_read_command n size :
  In n ["io_read8"; "io_read16"; "io_read32"] -> safe_command (make_io_read_cmd n size).
Proof.
  intros Hn. assert (keeps_open n = fun _ t _ => negb ARCH_X86 && sought t) as Hk
    by (by destruct Hn as [<-|[<-|[<-|[]]]]).
  fixed_args. destruct ARCH_X86 eqn:HA.
  - apply (behaves_releases no_stop); [|by intros ? []|by intros; command; rewrite Hk].
    exact (proj1 (io_x86_safe _ _ "" _ HA)).
  - split; [intros _|intros t rc _ H].
    + apply (well_behaved_weaken no_stop); [done|apply io_read_behaved].
    + unfold kept. command. rewrite Hk. exact (io_read_holds _ _ _ _ _ HA H).
Qed.

Lemma io_write_command n size :
  In n ["io_write8"; "io_write16"; "io_write32"] -> safe_command (make_io_write_cmd n size).
Proof.
  intros Hn. assert (keeps_open n = fun _ t _ => negb ARCH_X86 && sought t) as Hk
    by (by destruct Hn as [<-|[<-|[<-|[]]]]).
  fixed_args. destruct ARCH_X86 eqn:HA.
  - apply (behaves_releases no_stop); [|by intros ? []|by intros; command; rewrite Hk].
    exact (proj2 (io_x86_safe _ _ _ _ HA)).
  - split; [intros _|intros t rc _ H].
    + apply (well_behaved_weaken no_stop); [done|apply io_write_behaved].
    + unfold kept. command. rewrite Hk. exact (io_write_holds _ _ _ _ _ _ HA H).
Qed.

Lemma io_safe : Forall safe_command io_cmds.
Proof.
  each_command; first [apply io_read_command; cbn; by auto|apply io_write_command; cbn; by auto].
Qed.

(** The commands of which nothing is ever kept. *)
Definition tidy (n : string) : Prop :=
  forall argv t failed, keeps_open n argv t failed = false.

(** A pair of accessors in front of a safe table. *)
Lemma mmio_pair_safe access n1 n2 size l :
  access = cacheable_access \/ access = uncacheable_access ->
  In size [size8; size16; size32; size64] -> tidy n1 -> tidy n2 -> Forall safe_command l ->
  Forall safe_command
    (make_mmio_read_cmd n1 access size :: make_mmio_write_cmd n2 access size :: l).
Proof.
  intros Ha Hs Hn1 Hn2 Hl. apply Forall_cons_2; [|apply Forall_cons_2; [|exact Hl]];
    destruct Ha as [-> | ->], Hs as [<-|[<-|[<-|[<-|[]]]]];
    fixed_args; (apply (behaves_releases no_stop); [command|done|by intros; command]);
    lazymatch goal with
    | |- resource_safe _ (mmio_read_x _ _) => eapply (mmio_read_safe _ _ _ _)
    | |- resource_safe _ (mmio_write_x _ _) => eapply (mmio_write_safe _ _ _ _ _)
    end;
    unfold mmio_width; cbn; auto.
Qed.

(** A dump releases everything whatever its length, and is safe up to 3 GiB. *)
Lemma dump_behaves n f binary c a l :
  n = "mmio_dump" \/ n = "mem_dump" ->
  behaves (make_cmd_with_params n mmio_dump (PrivMmap f) dump_params) (dump_args binary c a l).
Proof.
  intros Hn. split.
  - intros Hd. apply (well_behaved_weaken no_stop); [done|]. apply resource_safe_well_behaved.
    assert (strtoul l <= 2 ^ 32 - 2 ^ 30) as Hl.
    { assert ((2 ^ 32 - 2 ^ 30 <? strtoul l) = false) as E; [|lia].
      rewrite <- Hd. by destruct Hn as [-> | ->], binary. }
    destruct binary; [exact (proj2 (mmio_dump_safe c a l f Hl))
                     |exact (proj1 (mmio_dump_safe c a l f Hl))].
  - intros t rc Hr H. unfold kept.
    assert (forall argv failed, keeps_open n argv t failed = false) as Ht
      by (by destruct Hn as [-> | ->]).
    rewrite Ht. apply (dump_range_holds binary (strtoull a) f (strtoul l) t rc);
      [auto with cint..|exact Hr|]. by destruct binary.
Qed.

Lemma dump_safe n access :
  access = cacheable_access \/ access = uncacheable_access ->
  n = "mmio_dump" \/ n = "mem_dump" ->
  safe_command (make_cmd_with_params n mmio_dump access dump_params).
Proof.
  intros Ha Hn argv Hne _ Hargs. eapply args_ok_bounds in Hargs; [|reflexivity].
  cbn in Hargs.
  assert (exists f, access = PrivMmap f) as [f ->] by (destruct Ha as [-> | ->]; by eexists).
  destruct argv as [|c [|a [|l [|b [|]]]]]; cbn [length] in Hargs; try lia.
  - by apply (dump_behaves n f false).
  - destruct (String.eqb_spec b "-b") as [->|Hb]; [by apply (dump_behaves n f true)|].
    releases no_stop; [|by intros; destruct Hn as [-> | ->]].
    unfold mmio_dump, parse_binary. cbn -[String.eqb]. apply String.eqb_neq in Hb. by rewrite Hb.
Qed.

Lemma mmio_safe : Forall safe_command mmio_cmds /\ Forall safe_command cacheable_mmio_cmds.
Proof.
  split; unfold mmio_cmds, cacheable_mmio_cmds;
    (do 4 (apply mmio_pair_safe; [auto|cbn; tauto|done|done|]));
    (apply Forall_cons_2; [apply dump_safe; auto|apply Forall_nil_2]).
Qed.

Lemma pci_access_safe n size :
  In size [size8; size16; size32] ->
  (forall argv t failed, keeps_open n argv t failed = failed) ->
  safe_command (make_pci_read_cmd n size) /\ safe_command (make_pci_write_cmd n size).
Proof.
  intros Hs Hn.
  assert (exists k, pci_bytes k /\ {| privdata := PrivNull; sizedata := Some size |} = sized (bits_of k))
    as (k & Hk & Ek).
  { destruct Hs as [<-|[<-|[<-|[]]]]; [exists 1%nat|exists 2%nat|exists 4%nat];
      (split; [unfold pci_bytes; auto|reflexivity]). }
  split; intros argv _ _ Ha; (eapply args_ok_bounds in Ha; [|reflexivity]); cbn in Ha.
  - assert (exists s b d f r, located argv s b d f r) as (s & b & d & f & r & Hl).
    { destruct argv as [|c [|x1 [|x2 [|x3 [|x4 [|x5 [|]]]]]]]; cbn [length] in Ha; try lia;
        do 5 eexists; constructor. }
    split; [intros _|intros t rc _; unfold kept; rewrite Hn]; command; rewrite Ek.
    + apply (well_behaved_weaken no_stop); [done|]. by eapply pci_read_behaved.
    + by eapply pci_read_holds.
  - assert (exists argv' x s b d f r, argv = argv' ++ [x] /\ located argv' s b d f r)
      as (argv' & x & s & b & d & f & r & -> & Hl).
    { destruct argv as [|c [|x1 [|x2 [|x3 [|x4 [|x5 [|x6 [|]]]]]]]]; cbn [length] in Ha; try lia;
        [exists [c; x1; x2; x3; x4], x5|exists [c; x1; x2; x3; x4; x5], x6];
        do 5 eexists; (split; [reflexivity|constructor]). }
    split; [intros _|intros t rc _; unfold kept; rewrite Hn]; command; rewrite Ek.
    + apply (well_behaved_weaken no_stop); [done|]. by eapply pci_write_behaved.
    + by eapply pci_write_holds.
Qed.

Lemma pci_safe : Forall safe_command pci_cmds.
Proof.
  each_command; try (apply pci_access_safe; [cbn; tauto|done]).
  intros argv _ _ _. split.
  - intros _. apply pci_list_behaved. cbn. auto.
  - intros t rc _ H. exact (pci_list_holds argv (info (make_cmd "pci_list" pci_list PrivNull)) t rc H).
Qed.

Lemma logic_safe : Forall safe_command logic_cmds.
Proof.
  assert (forall n op, is_fold op \/ stops_of n (Undefined BadShift) -> tidy n ->
    forall p, 2 <= min_args p ->
    safe_command (make_cmd_with_params n logic_op (PrivLogic op) p)) as Hop.
  { intros n op Hst Hn p Hp argv _ _ Ha. eapply args_ok_bounds in Ha; [|reflexivity].
    destruct argv as [|c [|a args]]; cbn [length] in Ha; try lia.
    apply (behaves_releases (stops_of n)); [|done|by intros; command].
    apply logic_op_safe. exact Hst. }
  unfold is_fold in Hop. each_command.
  1, 2, 3, 7, 8: apply Hop; [cbn; auto 10|done..].
  all: fixed_args.
  - apply (behaves_releases (stops_of "shl")); [|done..]. apply shift_safe. cbn. auto.
  - apply (behaves_releases (stops_of "shr")); [|done..]. apply shift_safe. cbn. auto.
  - releases no_stop. apply not_safe.
Qed.

Lemma misc_safe : Forall safe_command misc_cmds.
Proof.
  unfold misc_cmds. apply Forall_app_2; [destruct ARCH_X86; [|apply Forall_nil_2]|]; each_command;
    intros argv _ _ Ha.
  - releases no_stop. apply rdtsc_safe.
  - eapply args_ok_bounds in Ha; [|reflexivity]. cbn in Ha.
    destruct argv as [|c [|n [|f rest]]]; cbn [length] in Ha; try lia.
    releases no_stop. apply cpuid_safe.
  - apply (behaves_releases (stops_of "busy_loop")); [|done..]. apply busy_loop_safe. cbn. auto.
  - releases no_stop. apply cpu_list_safe.
  - eapply args_ok_bounds in Ha; [|reflexivity]. cbn in Ha.
    destruct argv as [|c [|n [|cmd rest]]]; cbn [length] in Ha; try lia.
    apply (behaves_releases (stops_of "runon")); [|done..]. by apply runon_safe.
Qed.

(** Every operation of the SMBus tables meets the interface its handler needs. *)
Lemma smbus_safe : Forall safe_command smbus_cmds.
Proof.
  assert (forall n size p, SafeOp needs_nothing (make_smbus_op size smbus_read_op) ->
    Z.of_nat (prologue_args size) <= min_args p -> tidy n ->
    safe_command (smbus_cmd n smbus_read (make_smbus_op size smbus_read_op) p)) as Hr.
  { intros n size p Hop Hp Hn argv _ _ Ha. eapply args_ok_bounds in Ha; [|reflexivity].
    apply (behaves_releases no_stop); [|done|by intros; command].
    apply (smbus_read_safe (make_smbus_op size smbus_read_op) argv
      {| privdata := PrivSmbus (make_smbus_op size smbus_read_op); sizedata := None |} Hop eq_refl).
    cbn [op_size make_smbus_op]. lia. }
  assert (forall n op p, SafeOp filled op -> Z.of_nat (prologue_args (op_size op)) < min_args p ->
    op_size op <> SMBUS_WRITE_READ -> tidy n ->
    safe_command (smbus_cmd n smbus_write op p) /\
    (has_register (op_size op) = true -> safe_command (smbus_cmd n smbus_process_call op p))) as Hw.
  { intros n op p Hop Hp Hne Hn.
    assert (forall argv, args_fit argv -> min_args p <= Z.of_nat (length argv) ->
      let d := {| privdata := PrivSmbus op; sizedata := None |} in
      resource_safe no_stop (smbus_write argv d) /\
      (has_register (op_size op) = true -> resource_safe no_stop (smbus_process_call argv d)))
      as Hs by (intros; apply (smbus_write_safe op); (done || lia)).
    split; [|intros Hreg]; intros argv _ Hfit Ha; (eapply args_ok_bounds in Ha; [|reflexivity]);
      (apply (behaves_releases no_stop); [|done|by intros; command]).
    - by apply (proj1 (Hs argv Hfit (proj1 Ha))).
    - by apply (proj2 (Hs argv Hfit (proj1 Ha))). }
  assert (forall n op p, SafeOp filled op -> Z.of_nat (prologue_args (op_size op)) < min_args p ->
    op_size op <> SMBUS_WRITE_READ -> tidy n -> safe_command (smbus_cmd n smbus_write op p)) as Hw1
    by (intros; by apply Hw).
  assert (forall n op p, SafeOp filled op -> Z.of_nat (prologue_args (op_size op)) < min_args p ->
    op_size op <> SMBUS_WRITE_READ -> tidy n -> has_register (op_size op) = true ->
    safe_command (smbus_cmd n smbus_process_call op p)) as Hw2
    by (intros; by apply Hw).
  clear Hw. each_command.
  1, 3, 5, 7, 9, 11: apply Hr; [by apply read_op_safe|done|done].
  1, 2, 3, 4, 5, 6, 7: apply Hw1; [by apply write_op_safe|done|done|done].
  - apply Hw2; [apply process_call_op_safe|done..].
  - apply Hw2; [apply block_process_call_op_safe|done..].
  - fixed_args. split; [intros _|intros t rc Hrel Hex].
    + apply (well_behaved_weaken no_stop); [done|].
      match goal with |- well_behaved _ (entry _ [?c; ?x1; ?x2; ?a; ?b] ?d) =>
        pose proof (smbus_writeread_safe smbus_op_writeread [c; x1; x2; a; b] d b writeread_op_safe
                      eq_refl eq_refl eq_refl Hfit) as H; destruct (valid_count b)
      end; [by apply resource_safe_well_behaved|exact H].
    + by apply (smbus_writeread_holds _ _ _ _ _ t rc Hfit Hrel).
Qed.

Lemma commands_safe : Forall safe_command (all_commands linked_groups).
Proof.
  unfold all_commands, linked_groups. rewrite !flat_map_app.
  pose proof mmio_safe as [Hm1 Hm2].
  apply Forall_app_2; [|apply Forall_app_2].
  - apply Forall_app_2; [apply cmos_safe|]. apply Forall_app_2; [apply io_safe|].
    apply Forall_app_2; [apply logic_safe|]. apply Forall_app_2; [apply misc_safe|].
    apply Forall_app_2; [exact Hm1|]. apply Forall_app_2; [exact Hm2|].
    apply Forall_app_2; [apply pci_safe|]. apply Forall_app_2; [apply smbus_safe|].
    apply Forall_nil_2.
  - destruct ARCH_X86; [|apply Forall_nil_2]. cbn [flat_map]. rewrite app_nil_r. apply msr_safe.
  - destruct ARCH_POWER; [|apply Forall_nil_2]. cbn [flat_map]. rewrite app_nil_r. apply scom_safe.
Qed.

(** ** The program *)

(** What runs before an entry point holds nothing. *)
Lemma exec_prereqs argv c t rc :
  argv <> [] -> exec (_run_command argv c) t (Returned rc) ->
  (idle t /\ rc = -1) \/
  (args_ok argv c = true /\ exec (entry c argv (info c)) t (Returned rc)) \/
  (args_ok argv c = true /\ exists level (r : Z) t',
     t = Ev (Iopl level) r :: t' /\ exec (entry c argv (info c)) t' (Returned rc)).
Proof.
  intros Hne H. destruct argv as [|a0 args]; [done|].
  unfold _run_command, check_prereqs, args_ok in *. destruct (params c) as [p|]; [|auto].
  rewrite (Z.ltb_antisym _ (max_args p)), (Z.ltb_antisym (min_args p)) in H.
  destruct (min_args p <=? _), (_ <=? max_args p); cbn [negb orb andb] in *;
    try (exec_run H; left; split; [repeat constructor|congruence]).
  destruct (ARCH_X86 && negb (iopl_needed p =? 0)); [|by auto].
  exec_step H. prog_norm_in H. destruct (r <? 0); [|by right; right; eauto 6].
  exec_run H. left. split; [repeat constructor|congruence].
Qed.

Lemma run_command_safe argv c :
  argv <> [] -> args_fit argv -> safe_command c -> large_dump (name c) argv = false ->
  well_behaved (stops_of (name c)) (_run_command argv c).
Proof.
  intros Hne Hfit Hc Hd. unfold _run_command, check_prereqs.
  specialize (Hc argv Hne Hfit). unfold args_ok in Hc.
  destruct (params c) as [p|]; [|by apply Hc].
  destruct argv as [|a0 args]; [done|]. set (n := Z.of_nat (length (a0 :: args))) in *.
  destruct ((n <? min_args p) || (max_args p <? n)) eqn:E.
  { apply resource_safe_well_behaved. cbn [argv_at lookup list_lookup mbind prog_mbind prog_bind].
    intros t. wp_run. live_solve. }
  assert ((min_args p <=? n) && (n <=? max_args p) = true) as Hok by lia.
  apply Hc in Hok as [Hw _]. specialize (Hw Hd).
  apply well_behaved_bind; [wb|]. intros r. apply well_behaved_if; [apply well_behaved_ret|exact Hw].
Qed.

Lemma run_command_kept argv c t rc :
  argv <> [] -> args_fit argv -> safe_command c -> relied (safely no_stop) [] t ->
  exec (_run_command argv c) t (Returned rc) -> live t = kept (name c) argv t (rc <? 0).
Proof.
  intros Hne Hfit Hc Hr Hex.
  apply exec_prereqs in Hex as [[Hi _]|[[Ha Hex]|(Ha & level & r & t' & -> & Hex)]]; [| | |done].
  - unfold kept. rewrite (acquired_idle t Hi), (live_idle [] t Hi). by destruct keeps_open.
  - by eapply (Hc argv Hne Hfit Ha).
  - assert (idle [Ev (Iopl level) r]) as Hi by (repeat constructor).
    change (Ev (Iopl level) r :: t') with ([Ev (Iopl level) r] ++ t') in *.
    rewrite live_after_idle by done. apply relied_idle in Hr; [|done].
    rewrite (proj2 (Hc argv Hne Hfit Ha) t' rc Hr Hex). unfold kept.
    assert (acquired ([Ev (Iopl level) r] ++ t') = acquired t') as ->; [|done].
    rewrite acquired_app, (acquired_idle _ Hi). set_solver.
Qed.

Lemma locate_path_safe st : resource_safe st locate_path_of_binary.
Proof.
  intros t. unfold locate_path_of_binary. split; [done|]. intros [path|] Hr; [|wp_run; live_solve].
  cbn in Hr. destruct Hr as [_ Hr]. destruct (Hr eq_refl) as (Hlen & s & ->).
  cbn [mbind prog_mbind prog_bind]. destruct (Z.leb_spec FILENAME_MAX
    (Z.of_nat (String.length (String "/" s)))); [unfold FILENAME_MAX in *; lia|].
  destruct (strrchr_slash_absolute s) as [[dir base] ->]. by apply live_neutral.
Qed.

Lemma make_links_safe st groups : resource_safe st (make_command_links groups).
Proof.
  apply resource_safe_bind; [apply locate_path_safe|]. intros [[dir bin]|]; [|done].
  apply resource_safe_bind; [|done]. apply resource_safe_for_each. intros g.
  apply resource_safe_for_each. intros c t. unfold make_link. wp_run; live_solve.
Qed.

Lemma clean_links_safe st groups : resource_safe st (clean_command_links groups).
Proof.
  apply resource_safe_bind; [apply locate_path_safe|]. intros [[dir bin]|]; [|done].
  apply resource_safe_bind; [|done]. apply resource_safe_for_each. intros g.
  apply resource_safe_for_each. intros c t. unfold clean_link. wp_run; live_solve.
Qed.

Lemma fallback_safe st groups argv :
  argv <> [] -> resource_safe st (iotools_fallback groups argv).
Proof.
  intros Hne. destruct argv as [|a0 args]; [done|]. unfold iotools_fallback, usage, version.
  destruct args as [|a1 [|a2 args]].
  - intros t. wp_run; live_solve.
  - cbn [argv_at lookup list_lookup mbind prog_mbind prog_bind].
    repeat apply resource_safe_if;
      try apply make_links_safe; try apply clean_links_safe;
      try (intros t; wp_run; live_solve).
    unfold list_commands, list_group. wb.
  - replace (Z.of_nat (length (a0 :: a1 :: a2 :: args)) =? 2) with false
      by (symmetry; apply Z.eqb_neq; cbn [length]; lia). intros t. wp_run; live_solve.
Qed.

Lemma dispatches_args groups argv argv' c :
  dispatches groups argv argv' c -> args_fit argv ->
  argv' <> [] /\ args_fit argv' /\ In c (all_commands groups).
Proof. intros H Hfit. destruct H; (split; [done|]); eauto using args_fit_tail. Qed.

Lemma main_command argv argv' c :
  dispatches linked_groups argv argv' c -> main argv = exits (_run_command argv' c).
Proof.
  intros Hd. unfold main, main_with. rewrite (run_command_dispatches _ _ argv argv' c); [done|..].
  - by apply registered_nodup.
  - by apply registered_dispatch.
Qed.

Lemma linked_safe argv argv' c :
  dispatches linked_groups argv argv' c -> args_fit argv ->
  argv' <> [] /\ args_fit argv' /\ safe_command c.
Proof.
  intros Hd Hfit. destruct (dispatches_args _ _ _ _ Hd Hfit) as (Hne & Hfit' & Hin).
  pose proof commands_safe as H. rewrite List.Forall_forall in H. auto.
Qed.

Lemma main_fallback_safe argv :
  argv <> [] -> no_command linked_groups argv -> resource_safe no_stop (main argv).
Proof.
  intros Hne Hno. unfold main, main_with.
  rewrite run_command_falls_back by by apply registered_no_command.
  apply resource_safe_bind; [by apply fallback_safe|done].
Qed.

(** C1: the whole program, started with any arguments that [execve] can pass and
    any answers of the kernel, only uses descriptors, directories and mappings
    it holds, stays inside its mappings and arrays, reads no missing argument,
    uses private data at the type the tables gave it, and stops without
    returning only as the command it runs allows.  The dumps of more than 3 GiB
    are excluded. *)
Theorem main_safe argv :
  argv <> [] -> args_fit argv ->
  (forall argv' c, dispatches linked_groups argv argv' c ->
     large_dump (name c) argv' = false -> well_behaved (stops_of (name c)) (main argv)) /\
  (no_command linked_groups argv -> well_behaved no_stop (main argv)).
Proof.
  intros Hne Hfit. split.
  - intros argv' c Hd Hlarge. rewrite (main_command argv argv' c Hd).
    destruct (linked_safe argv argv' c Hd Hfit) as (Hne' & Hfit' & Hc).
    apply well_behaved_bind; [by apply run_command_safe|intros; apply well_behaved_ret].
  - intros Hno. by apply resource_safe_well_behaved, main_fallback_safe.
Qed.

(** C2: when the program exits it has closed every descriptor and directory and
    removed every mapping it made, on the error paths too and for dumps of any
    length, except that all it acquired is left open by the runs [keeps_open]
    tells from their events and status: a [/dev/port] transfer that was sought,
    a PCI transfer that failed, a listing that turned to procfs, and an
    [smbus_writeread] refused for its count.  The statement is exact: these
    leave their files open, and no other run does. *)
Theorem main_releases argv t rc :
  argv <> [] -> args_fit argv -> relied (safely no_stop) [] t ->
  exec (main argv) t (Returned rc) ->
  (no_command linked_groups argv -> live t = ∅) /\
  (forall argv' c, dispatches linked_groups argv argv' c ->
     live t = if keeps_open (name c) argv' t (rc =? 1) then acquired t else ∅).
Proof.
  intros Hne Hfit Hr Hex. split.
  - intros Hno. by eapply resource_safe_exec; [apply main_fallback_safe|..].
  - intros argv' c Hd. destruct (linked_safe argv argv' c Hd Hfit) as (Hne' & Hfit' & Hc).
    rewrite (main_command argv argv' c Hd) in Hex.
    apply (exec_bind_inv (_run_command argv' c)) in Hex
      as [(x & t1 & t2 & Hrun & Hret & ->)|(s & _ & ?)]; [|done].
    apply exec_ret_iff in Hret as [-> [= ->]]. rewrite app_nil_r in *.
    replace (status x =? 1) with (x <? 0) by (unfold status; by destruct (x <? 0)).
    by apply run_command_kept.
Qed.
End Safe.

(** ** Witnesses *)

#[local] Existing Instance linux_x86_64.
#[local] Instance witness_bound : LoopBound := 4%nat.

Ltac fits := split; [vm_compute; discriminate|repeat constructor; vm_compute; discriminate].

(** The command a link is named after. *)
Tactic Notation "linked" integer(n) :=
  constructor;
  [intros ? [= <-]; rewrite <- list_elem_of_In; refine (bool_decide_unpack _ _); vm_compute; exact I
  |unfold linked_groups, all_commands; cbn [flat_map app]; rewrite !in_app_iff;
   do n right; left; repeat first [left; reflexivity|right]
  |reflexivity].

Example main_safe_witness :
  well_behaved no_stop (main ["iotools"; "--list-cmds"]) /\
  exists c, name c = "smbus_read8" /\
    well_behaved (stops_of "smbus_read8") (main ["/sbin/smbus_read8"; "0"; "0x50"; "1"]).
Proof.
  split.
  - apply (main_safe ["iotools"; "--list-cmds"] ltac:(discriminate) ltac:(fits)).
    apply option_no_command. rewrite <- list_elem_of_In.
    refine (bool_decide_unpack _ _). vm_compute. exact I.
  - exists (smbus_cmd "smbus_read8" smbus_read smbus_op_8_r smbus_read_params).
    split; [reflexivity|].
    refine (proj1 (main_safe ["/sbin/smbus_read8"; "0"; "0x50"; "1"] ltac:(discriminate) ltac:(fits))
      ["/sbin/smbus_read8"; "0"; "0x50"; "1"]
      (smbus_cmd "smbus_read8" smbus_read smbus_op_8_r smbus_read_params) _ eq_refl).
    linked 7.
Defined.

(** A CMOS read under the name of its link, and a combined transfer whose count
    is refused. *)
Example main_releases_witness :
  (exists t, exec (main ["/sbin/cmos_read"; "0x20"]) t (Returned 0) /\
     relied (safely no_stop) [] t /\ acquired t <> ∅ /\ live t = ∅) /\
  (exists t, exec (main ["/sbin/smbus_writeread"; "0"; "0x50"; "ab"; "33"]) t (Returned 1) /\
     relied (safely no_stop) [] t /\ acquired t <> ∅ /\ live t = acquired t).
Proof.
  split.
  - run_env Byte.x2a (main ["/sbin/cmos_read"; "0x20"]).
    split; [exact Hrun|]. match goal with |- ?A /\ _ => assert A as Hr by relied_env end.
    split; [exact Hr|]. split; [vm_compute; discriminate|].
    refine (proj2 (main_releases ["/sbin/cmos_read"; "0x20"] _ 0 _ ltac:(fits) Hr Hrun)
      ["/sbin/cmos_read"; "0x20"] (hd (make_cmd "" (fun _ _ => Ret 0) PrivNull) cmos_cmds) _);
      [discriminate|].
    linked 0.
  - run_env Byte.x2a (main ["/sbin/smbus_writeread"; "0"; "0x50"; "ab"; "33"]).
    split; [exact Hrun|]. match goal with |- ?A /\ _ => assert A as Hr by relied_env end.
    split; [exact Hr|]. split; [vm_compute; discriminate|].
    refine (proj2 (main_releases ["/sbin/smbus_writeread"; "0"; "0x50"; "ab"; "33"] _ 1 _ ltac:(fits) Hr Hrun)
      ["/sbin/smbus_writeread"; "0"; "0x50"; "ab"; "33"]
      (smbus_cmd "smbus_writeread" smbus_writeread smbus_op_writeread smbus_writeread_params) _);
      [discriminate|].
    linked 7.
Defined.
